(* ===== verification/_CoqProject ===== *)
-Q . S2P
Prelude.v
PyStr.v
Sha256.v
Json.v
Reference.v
Privacy.v
Models.v
Incident.v
PyEq.v
Errors.v
StateMachine.v
Samples.v
Lifecycle.v
Binding.v
Budget.v
Sharing.v
Progress.v
Repository.v
Registration.v
RepositoryInv.v
RepositoryFacts.v
RepositoryProps.v
Contracts.v
ContractProps.v
PrivacyProps.v
Ports.v
LocalWorld.v
GovernanceBase.v
Gateways.v
Governance.v
GovernanceFacts.v
GovernanceRuns.v
GovernanceTypes.v
GovernanceProps.v
GovernanceWorld.v
Rules.v
RuleResolution.v
RuleStore.v
RuleFacts.v
RuleProps.v
RuleStoreProps.v
RuleSamples.v
LteIdentifiers.v
Detector.v
DetectorEpisodes.v
DetectorFloats.v
DetectorProps.v
DetectorScan.v
DetectorTrust.v
DetectorConfirm.v
DetectorSamples.v
PyFormat.v
Similarity.v
SimilarityProps.v
RcaEvidence.v
RcaFacts.v
Rca.v
RcaProps.v
RcaText.v
RcaEngine.v
RcaReports.v
RcaReplay.v
RcaSamples.v
Projection.v
ProjectionProps.v
ProjectionChain.v
ProjectionEngine.v
ProjectionSamples.v
LabEpisodes.v
LabEvaluation.v
LabSweep.v
LabEvaluationProps.v
LabIntervals.v
LabSamples.v
BusinessBoundary.v
BusinessBoundaryProps.v
BusinessBoundaryRuns.v
