(* ===== verification/Prelude.v ===== *)
(** * Verification of the Incident core of NetworkAgent

    The program is a set of agents that watch a mobile network: a detector
    turns KPI observations into Incidents, an analysis finds the cause, a
    governance engine asks a human to approve one action, executes it and
    verifies the outcome.  What they share is the domain package
    src/packages/telco-domain, and the deterministic local profile
    src/packages/telco-local runs the whole cycle without a language model or a
    network.  This library models that domain package and the detection, rule,
    analysis, governance and projection parts of the local profile, the evaluation
    of its predictions in src/packages/telco-lab, and the boundary that runs one
    operation at a time in the HTTP service around it, function by function, and
    proves what makes them correct.

    ** The parts and how they interact

    - telco_domain/models.py: [Models] has one Module per pydantic model (a
      Record [t], its [check], its methods), [Incident] the aggregate.  A Record
      value is what the constructor was given; [check] is what the constructor
      tests; [Incident.model_validate] is the constructor of the aggregate.
      [PyEq] is [==] of these values as Python computes it: JSON values that
      differ only as 1, 1.0 and True are equal, and so are the models that hold
      them, although their JSON texts and digests differ.
    - telco_domain/state_machine.py: [StateMachine] has the transition graph,
      the guards of the edges and [transition_incident], the pure function from
      an Incident and a request to its validated successor or an error.
      [Errors] has the exceptions that carry data.
    - telco_domain/memory.py: [Repository] has the in-memory repository.  Its
      [State] is the four dictionaries of [InMemoryIncidentRepository]; each
      public method is one function of the state monad [M] (the repository takes
      one lock per call, so a method is atomic); the state survives an
      exception, as in Python.
    - telco_domain/privacy.py: [Privacy]; the payload and depth limits of
      contracts.py and memory.py: [Budget] on trees, [Sharing] on heaps of
      shared objects.
    - telco_domain/contracts.py: [Contracts] has the eight messages, their
      validators, approval references, [to_data_part] and
      [parse_contract_message].
    - telco_domain/ports.py: [Ports] has the Protocols as type classes over the
      state [W] of the world, and the programs with effects [Eff]; [LocalWorld]
      is the world of a process that shares a [Repository] with other actors,
      who may be served between any two operations.
    - telco_local/governance.py: [GovernanceBase] (digests, keys, texts),
      [Gateways] (policy, approvals, simulation, verification) and [Governance]
      ([LocalGovernanceEngine]: [prepare], [decide], [execute]).
    - telco_local/rules.py: [Rules] (rule documents and comparisons),
      [RuleResolution] ([resolve_rules_for_incident]) and [RuleStore]
      ([JsonRuleRepository] over a directory).
    - telco_local/lte_identifiers.py: [LteIdentifiers];
      telco_local/detector.py: [Detector] ([LocalDetector.scan], [confirm]).
    - telco_local/rca.py: [RcaEvidence] (identity and scope of evidence, facts,
      predicates), [Rca] (what a rule concludes, the report, its identity) and
      [RcaEngine] ([DeterministicRcaGateway.analyze] over its ports);
      telco_local/similarity.py: [Similarity]; the texts of numbers and lists
      that both use: [PyFormat].
    - telco_local/lifecycle_projection.py: [Projection]
      ([build_lifecycle_projection], its checks and its chain of keys).
    - telco_lab/schema.py: [LabEpisodes] (episodes, predictions, matches, reports);
      telco_lab/evaluation.py: [LabEvaluation] ([evaluate_episodes]).
    - telco_assurance_agent/business_boundary.py: [BusinessBoundary], the worker
      thread with its one operation and the admission of HTTP requests.  Each
      critical section of its locks is one [Action], a partial function on the
      [State]; callers, worker threads, callbacks and deadlines interleave in any
      order, and [reachable] is what any sequence of actions leads to.  The start
      of a thread is one action with the writes before it.

    The detector loads the current rules of [RuleStore], makes Incidents that
    claim them, and commits a confirmed one with [create_or_correlate] of the
    repository port.  The governance engine moves that Incident through the
    repository port with [transition], which applies [transition_incident]; its
    guards look at the approvals, runs and verifications the gateways record;
    messages between the agents are those of [Contracts].  [RuleResolution]
    decides which of the rules an Incident claims can be trusted again, and the
    analysis gateway, which the engine calls through a port, concludes from those
    rules and the evidence in the Incident's scope.  The projection reads the
    Incident and its audit log when the cycle has ended, and accepts only what
    the demo's keys, given to the engine, lead to.  The evaluation compares episodes
    that were predicted with those of a recorded data set, and the business boundary
    is where the HTTP service submits operations to all of this; neither changes the
    state of the others.

    ** What is proved

    - [Lifecycle], [Progress]: the transition function.  What one successful
      transition changed and checked, with histories and frozen recommendations
      kept up to [==]; the errors of a refused one, in order; no
      Incident reaches REMEDIATING, VERIFYING or RESOLVED without the approvals,
      runs and verification its status presupposes ([reachable_evidence], by
      induction over reachable Incidents); an active Incident can always be
      settled.  [Binding]: what equal action hashes and scopes mean.
    - [Registration], [RepositoryInv], [RepositoryFacts], [RepositoryProps]: the
      repository.  Its invariant is kept by every request; a raising write
      changes nothing; the retry of a write other than an import returns the first
      result; no update is lost; the audit log is complete; [transition] refines [transition_incident].
    - [PrivacyProps], [Sharing], [ContractProps]: the boundaries.  The matcher
      finds exactly the identifiers, redaction removes exactly them, the depth
      loop terminates on cyclic objects, a payload is parsed exactly when it is
      admissible and its class accepts it, an approval reference authorizes exactly what the state machine's guard
      accepts.
    - [GovernanceFacts], [GovernanceRuns], [GovernanceTypes],
      [GovernanceProps], [GovernanceWorld]: the engine over any lawful world
      ([WorldLaws]): how each request ends, whose authority a simulation has, and
      that its messages are well formed.  A time that decides an outcome is one
      that the clock told between two moments of the call ([told]).
      [GovernanceWorld] runs it over the in-memory repository.
    - [RuleFacts], [RuleProps], [RuleStoreProps]: resolution returns exactly the
      rules with a trusted violation, when it returns at all; a snapshot pins
      the content of its rules; a directory loads exactly when it is in order.
    - [DetectorEpisodes], [DetectorFloats], [DetectorProps], [DetectorScan],
      [DetectorTrust], [DetectorConfirm]: episodes are the maximal runs without
      a long gap, and the comparison of gaps in double precision is exact; a
      scan finds exactly the breaches, within its budgets; how resolution judges
      a candidate; a confirmation writes only what it selected.
    - [RcaFacts], [RcaProps], [RcaText], [RcaReports], [RcaReplay]: the merged
      facts are the uncontradicted ones; an analysis is conclusive exactly when
      every trusted rule is supported by evidence in scope; its report always
      fits the contract; its result answers the request, passes the engine's
      check, and has an identity that does not depend on the clock.
      [SimilarityProps]: the ranking returns the best of what is comparable.
    - [ProjectionProps], [ProjectionChain], [ProjectionEngine]: a projection is
      made only of a lifecycle that was approved, run once and verified, and shows
      nothing but times; what the gateways record passes its checks; and its chain
      is what the engine's own calls of the repository record when the demo runs.
    - [LabSweep], [LabEvaluationProps], [LabIntervals]: the sweep finds what a
      comparison of all pairs finds, the matching is the greedy one, one-to-one,
      the result does not depend on the order of the input, and the durations are
      those of exactly the instants covered.
    - [BusinessBoundaryProps], [BusinessBoundaryRuns]: in every interleaving at most
      one operation runs and at most one request is admitted; a closed boundary
      starts nothing, interrupts nothing, and its worker can always finish.
    - [Samples], [RuleSamples], [DetectorSamples], [RcaSamples] (an Incident
      governed to RESOLVED with this analysis), [ProjectionSamples] (from the
      detector's scan to the projection of both ends), [LabSamples] and the ends of the theorem
      files evaluate the theorems at concrete inputs.

    ** Interfaces

    [Runtime] (in [Json]) holds what the sources use of code that is not theirs:
    SHA-256, [float.__repr__], the text of an instant, [str.strip] as pydantic
    applies it, [str.lower], the Unicode word characters.  [RuntimeLaws] states
    the documented facts about them; [Reference] has two instances, one with
    SHA-256 itself ([Sha256]) and a light one for evaluation.  No law says that
    the digest is injective: where it matters, the absence of a collision on the
    texts at hand is a hypothesis.  [Decoder] and [RuleDecoder] are pydantic's
    coercion of a JSON object to a model; the validators themselves are modelled.
    [IsoParser] is [datetime.fromisoformat], [ContainerRepr] the [repr] of a
    list or dictionary.  [RcaPorts] holds the ports of the analysis.
    [WorldLaws] is what an orchestrator relies on of a repository, a clock and an
    RCA gateway, and [LocalWorld] proves it of the in-memory repository.
    [ReadOnlyPorts] says which ports of the detector do not write.

    ** Conventions and bounds

    A Python exception is [Err] of a [result]; [throw_if] is [if ...: raise].
    Texts are UTF-8 byte strings (a lone surrogate cannot be written), and
    lengths count characters.  Instants are microseconds since the epoch;
    [pydatetime] keeps the offset of an argument that has not been normalised.
    [==] of models is [PyEq]'s: [a ≐ b] when it holds, [grown a b] when [b] extends a
    list that is [==] to [a].  Strings, enumerations and instants are equal when they
    are the same value.  Python's integers are [Z].  A float is a sign, a mantissa and a binary
    exponent; comparison is exact, [math.fsum] and division round to the nearest
    double, ties to even; [sum] of floats is the compensated sum of CPython 3.12 and
    later.  The intermediate overflow of [math.fsum] is not
    modelled, that of its result is.  Infinities and NaN are refused by the
    models before any of this code.  A JSON dictionary is the list of its items
    in key order; where insertion order can be seen, the model has it.  The one
    loop that is not structural ([Sharing.depth_walk]) takes fuel, and
    [payload_depth_terminates] shows that one round per reference is enough.
    Recursion of Python's own JSON encoder has no depth limit here.

    ** Not modelled

    telco_local/documents.py: full-text search in DuckDB, behind a port of the
    analysis.  telco_local/database.py, incident_repository.py, telemetry.py and
    telco-cloud: the same repository contract as [Repository], written as SQL
    transactions whose meaning is the database's; the contract's behaviour is
    what [Repository] models.  The rest of telco-lab (adapters, replay and pipeline
    of recorded data sets), the HTTP routes of the assurance agent, the agents
    around a language model and their middleware, the Kubernetes operator,
    services, tools and release scripts: input and output over libraries and
    processes, none of them deciding on the path from a detection to its verified
    end.  Of the business boundary, the checks of its numeric arguments, the
    reading of request bodies and the RuntimeError that a call on a loop closed
    meanwhile raises after [close] took its decision.  Logging, [async] scheduling inside
    one operation, and object identity except in [Sharing] are not modelled. *)

From Stdlib Require Export ZArith Lia.
From stdpp Require Export base tactics option numbers list sorting strings gmap.

Global Open Scope Z_scope.

(** ** Results: Python's [return] and [raise] *)

Inductive result (E A : Type) : Type :=
| Ok (a : A)
| Err (e : E).
Arguments Ok {_ _} _.
Arguments Err {_ _} _.

#[export] Instance result_ret {E} : MRet (result E) := fun A a => Ok a.
#[export] Instance result_bind {E} : MBind (result E) := fun A B f m =>
  match m with Ok a => f a | Err e => Err e end.
#[export] Instance result_fmap {E} : FMap (result E) := fun A B f m =>
  match m with Ok a => Ok (f a) | Err e => Err e end.

#[export] Instance result_eq_dec {E A} `{EqDecision E, EqDecision A} :
  EqDecision (result E A).
Proof. solve_decision. Defined.

Definition is_ok {E A} (r : result E A) : bool :=
  match r with Ok _ => true | Err _ => false end.

(** [throw_if b e] is [if b: raise e]; [fail e] is [raise e]. *)
Definition fail {E A} (e : E) : result E A := Err e.
Definition throw_if {E} (b : bool) (e : E) : result E unit :=
  if b then Err e else Ok tt.

Definition of_option {E A} (o : option A) (e : E) : result E A :=
  match o with Some a => Ok a | None => Err e end.

(** [for x in xs: f(x)] for a body that only returns or raises. *)
Fixpoint for_each {E A} (f : A → result E unit) (xs : list A) : result E unit :=
  match xs with
  | [] => Ok tt
  | x :: xs => f x ≫= λ _, for_each f xs
  end.

Lemma bind_Ok {E A B} (m : result E A) (f : A → result E B) b :
  (m ≫= f) = Ok b ↔ ∃ a, m = Ok a ∧ f a = Ok b.
Proof. destruct m; cbn; split; naive_solver. Qed.

Lemma bind_Err {E A B} (m : result E A) (f : A → result E B) e :
  (m ≫= f) = Err e ↔ m = Err e ∨ ∃ a, m = Ok a ∧ f a = Err e.
Proof. destruct m; cbn; split; naive_solver. Qed.

Lemma throw_if_Ok {E} b (e : E) u : throw_if b e = Ok u ↔ b = false.
Proof. destruct b, u; cbn; naive_solver. Qed.

Lemma throw_if_Err {E} b (e e' : E) : throw_if b e = Err e' ↔ b = true ∧ e = e'.
Proof. destruct b; cbn; naive_solver. Qed.

Lemma of_option_Ok {E A} (o : option A) (e : E) a :
  of_option o e = Ok a ↔ o = Some a.
Proof. destruct o; cbn; naive_solver. Qed.

Lemma for_each_Ok {E A} (f : A → result E unit) xs u :
  for_each f xs = Ok u ↔ Forall (λ x, f x = Ok tt) xs.
Proof.
  destruct u. induction xs as [|x xs IH]; cbn; [by split|].
  rewrite Forall_cons. destruct (f x) as [[]|]; cbn; naive_solver.
Qed.

Lemma for_each_Err {E A} (f : A → result E unit) xs e :
  for_each f xs = Err e →
  ∃ pre x post, xs = pre ++ x :: post ∧ Forall (λ y, f y = Ok tt) pre ∧ f x = Err e.
Proof.
  induction xs as [|x xs IH]; cbn; [done|].
  destruct (f x) as [[]|e'] eqn:Hx; cbn; intros H.
  - destruct (IH H) as (pre & y & post & -> & ? & ?).
    exists (x :: pre), y, post. by rewrite Forall_cons.
  - injection H as ->. exists [], x, xs. by rewrite Forall_nil.
Qed.

(** Every error a program can raise satisfies [P]. *)
Definition raises {E A} (P : E → Prop) (r : result E A) : Prop := ∀ e, r = Err e → P e.

Section raises.
Context {E : Type} (P : E → Prop).

Lemma raises_Ok {A} (a : A) : raises P (Ok a).
Proof. by intros e. Qed.
Lemma raises_Err {A} e : P e → raises P (Err (A:=A) e).
Proof. by intros He e' [= <-]. Qed.
Lemma raises_bind {A B} (m : result E A) (f : A → result E B) :
  raises P m → (∀ a, m = Ok a → raises P (f a)) → raises P (m ≫= f).
Proof.
  intros Hm Hf e [H|(a & Ha & H)]%bind_Err; [by apply Hm|by apply (Hf a Ha)].
Qed.
Lemma raises_throw_if b e : (b = true → P e) → raises P (throw_if b e).
Proof. intros H e' [Hb <-]%throw_if_Err. by apply H. Qed.
Lemma raises_of_option {A} (o : option A) e : P e → raises P (of_option o e).
Proof. destruct o; cbn; [intros _; apply raises_Ok|apply raises_Err]. Qed.
Lemma raises_for_each {A} (f : A → result E unit) xs :
  (∀ x, x ∈ xs → raises P (f x)) → raises P (for_each f xs).
Proof.
  intros Hf e (pre & x & post & -> & _ & H)%for_each_Err.
  apply (Hf x); [|done]. set_solver.
Qed.
End raises.

(** [raises] takes a goal [raises P prog] apart along the program. *)
Ltac raises_step :=
  match goal with
  | |- raises _ (Ok _) => apply raises_Ok
  | |- raises _ (Err _) => apply raises_Err
  | |- raises _ (fail _) => apply raises_Err
  | |- raises _ (throw_if _ _) => apply raises_throw_if; intros ?
  | |- raises _ (of_option _ _) => apply raises_of_option
  | |- raises _ (for_each _ _) => apply raises_for_each; intros ? ?
  | |- raises _ (_ ≫= _) => apply raises_bind; [|intros ? ?]
  | |- raises _ (match ?x with _ => _ end) => destruct x eqn:?
  end.
Ltac raises_tac := repeat raises_step.

(** [run_ok] takes a hypothesis [prog = Ok v] about a monadic program apart
    into the results of its steps. *)
Ltac run_ok_step :=
  match goal with
  | H : (_ ≫= _) = Ok _ |- _ => apply bind_Ok in H as (? & ? & H)
  | H : throw_if _ _ = Ok _ |- _ => apply throw_if_Ok in H
  | H : of_option _ _ = Ok _ |- _ => apply of_option_Ok in H
  | H : fail _ = Ok _ |- _ => discriminate H
  | H : Err _ = Ok _ |- _ => discriminate H
  | H : Ok _ = Err _ |- _ => discriminate H
  | H : mret _ = Ok _ |- _ => apply (inj Ok) in H
  | H : Ok _ = Ok _ |- _ => injection H as H
  | H : (if ?b then Err _ else _) = Ok _ |- _ => destruct b eqn:?; [discriminate H|]
  | H : (if ?b then fail _ else _) = Ok _ |- _ => destruct b eqn:?; [discriminate H|]
  | u : unit |- _ => destruct u
  end.
Ltac run_ok := repeat run_ok_step.

(** ** Python sequences *)

(** [_ensure_unique]'s test: [len(xs) != len(set(xs))]. *)
Definition has_duplicates {A} `{Countable A} (l : list A) : bool :=
  negb (Nat.eqb (length l) (size (list_to_set l : gset A))).

Lemma size_list_to_set_le {A} `{Countable A} (l : list A) :
  (size (list_to_set l : gset A) ≤ length l)%nat.
Proof.
  induction l as [|x l IH]; cbn [list_to_set length].
  - by rewrite size_empty.
  - pose proof (size_union_alt ({[x]} : gset A) (list_to_set l)) as Hu.
    rewrite Hu, size_singleton.
    assert (size ((list_to_set l : gset A) ∖ {[x]}) ≤ size (list_to_set l : gset A))%nat.
    { apply subseteq_size. set_solver. }
    lia.
Qed.

Lemma has_duplicates_false {A} `{Countable A} (l : list A) :
  has_duplicates l = false ↔ NoDup l.
Proof.
  unfold has_duplicates. rewrite negb_false_iff, Nat.eqb_eq.
  induction l as [|x l IH]; cbn [list_to_set length].
  - rewrite size_empty. split; [constructor|done].
  - rewrite NoDup_cons, <- IH.
    pose proof (size_list_to_set_le l).
    destruct (decide (x ∈ l)) as [Hx|Hx].
    + assert (({[x]} ∪ list_to_set l : gset A) = list_to_set l) as ->.
      { apply leibniz_equiv. intros y. rewrite elem_of_union, elem_of_singleton, elem_of_list_to_set.
        naive_solver. }
      split; [lia|naive_solver].
    + rewrite size_union by (rewrite disjoint_singleton_l, elem_of_list_to_set; done).
      rewrite size_singleton. split; [intros; split; [done|lia]|intros [_ ?]; lia].
Qed.

(** [max(xs, key=f)]: the first element with the greatest key. *)
Fixpoint max_by {A} (key : A → Z) (l : list A) : option A :=
  match l with
  | [] => None
  | x :: l =>
      match max_by key l with
      | Some y => if key x <? key y then Some y else Some x
      | None => Some x
      end
  end.

Lemma max_by_None {A} (key : A → Z) l : max_by key l = None ↔ l = [].
Proof.
  destruct l; cbn; [done|]. destruct (max_by key l); [|done].
  destruct (_ <? _); done.
Qed.

Lemma max_by_Some {A} (key : A → Z) l x :
  max_by key l = Some x → x ∈ l ∧ ∀ y, y ∈ l → key y ≤ key x.
Proof.
  revert x. induction l as [|a l IH]; cbn; [done|]. intros x.
  destruct (max_by key l) as [y|] eqn:Hm.
  - destruct (IH y eq_refl) as [Hy Hmax].
    destruct (Z.ltb_spec (key a) (key y)); intros [= <-]; split.
    + by right.
    + intros z [->|Hz]%elem_of_cons; [lia|auto].
    + by left.
    + intros z [->|Hz]%elem_of_cons; [lia|]. pose proof (Hmax z Hz). lia.
  - apply max_by_None in Hm as ->. intros [= <-]. split; [by left|].
    intros z ->%list_elem_of_singleton. lia.
Qed.

Lemma max_by_greatest {A} (key : A → Z) l x :
  x ∈ l → (∀ y, y ∈ l → y = x ∨ key y < key x) → max_by key l = Some x.
Proof.
  intros Hx Hmax. destruct (max_by key l) as [y|] eqn:Hm.
  - destruct (max_by_Some _ _ _ Hm) as [Hy Hle]. specialize (Hle x Hx).
    destruct (Hmax y Hy) as [->|]; [done|lia].
  - apply max_by_None in Hm as ->. by apply not_elem_of_nil in Hx.
Qed.

(** [next((x for x in xs if p(x)), None)]. *)
Definition next_such {A} (p : A → bool) (xs : list A) : option A :=
  List.find p xs.

Lemma next_such_Some {A} (p : A → bool) xs x :
  next_such p xs = Some x → x ∈ xs ∧ p x = true.
Proof. intros H%List.find_some. by rewrite list_elem_of_In. Qed.

Lemma next_such_None {A} (p : A → bool) xs :
  next_such p xs = None ↔ ∀ x, x ∈ xs → p x = false.
Proof.
  unfold next_such. split.
  - intros H x Hx. apply (List.find_none _ _ H). by apply list_elem_of_In.
  - intros H. destruct (List.find p xs) as [x|] eqn:E; [|done].
    apply next_such_Some in E as [Hx Hp]. by rewrite H in Hp.
Qed.

(** [list(range(n))]. *)
Definition range (n : nat) : list Z := Z.of_nat <$> seq 0 n.

Lemma existsb_true_iff {A} (p : A → bool) xs :
  existsb p xs = true ↔ ∃ x, x ∈ xs ∧ p x = true.
Proof.
  rewrite existsb_exists. setoid_rewrite list_elem_of_In. done.
Qed.

Lemma existsb_false_iff {A} (p : A → bool) xs :
  existsb p xs = false ↔ ∀ x, x ∈ xs → p x = false.
Proof.
  rewrite <- not_true_iff_false, existsb_true_iff. split.
  - intros H x Hx. apply not_true_iff_false. naive_solver.
  - intros H (x & Hx & Hp). by rewrite H in Hp.
Qed.

Lemma forallb_true_iff {A} (p : A → bool) xs :
  forallb p xs = true ↔ ∀ x, x ∈ xs → p x = true.
Proof. rewrite forallb_forall. setoid_rewrite list_elem_of_In. done. Qed.

Definition isNone {A} (o : option A) : bool :=
  match o with None => true | Some _ => false end.
Definition isSome {A} (o : option A) : bool := negb (isNone o).

(** [{key(x): x for x in xs}]: a later item replaces an earlier one. *)
Definition dict_by {K A} `{Countable K} (key : A → K) (xs : list A) : gmap K A :=
  foldl (λ d x, <[key x := x]> d) ∅ xs.

Lemma lookup_dict_by {K A} `{Countable K} (key : A → K) (xs : list A) k x :
  dict_by key xs !! k = Some x → x ∈ xs ∧ key x = k.
Proof.
  unfold dict_by.
  assert (∀ (d : gmap K A), foldl (λ d x, <[key x := x]> d) d xs !! k = Some x →
    d !! k = Some x ∨ x ∈ xs ∧ key x = k) as Hgo.
  { induction xs as [|y xs IH]; intros d; cbn; [by left|].
    intros [Hd|[??]]%IH.
    - destruct (decide (key y = k)) as [<-|Hne].
      + rewrite lookup_insert_eq in Hd. injection Hd as ->. right. split; [by left|done].
      + rewrite lookup_insert_ne in Hd by done. by left.
    - right. split; [by right|done]. }
  intros [Hd|?]%Hgo; [|done]. by rewrite lookup_empty in Hd.
Qed.

Lemma lookup_dict_by_unique {K A} `{Countable K} (key : A → K) (xs : list A) x :
  NoDup (map key xs) → x ∈ xs → dict_by key xs !! key x = Some x.
Proof.
  unfold dict_by.
  assert (∀ (d : gmap K A), NoDup (map key xs) →
    x ∈ xs ∨ key x ∉ map key xs ∧ d !! key x = Some x →
    foldl (λ d x, <[key x := x]> d) d xs !! key x = Some x) as Hgo; [|by auto].
  induction xs as [|y xs IH]; intros d Hnd Hx; cbn.
  { destruct Hx as [Hx|[_ Hx]]; [by apply not_elem_of_nil in Hx|done]. }
  cbn in Hnd. apply NoDup_cons in Hnd as [Hy Hnd]. apply IH; [done|].
  destruct Hx as [Hx|[Hx Hd]].
  - apply elem_of_cons in Hx as [->|Hx]; [right|by left].
    split; [done|]. apply lookup_insert_eq.
  - right. cbn in Hx. split; [set_solver|].
    rewrite lookup_insert_ne; [done|]. set_solver.
Qed.

(** [d.setdefault(key(x), []).append(x)] over [xs]: the keys in the order of
    their first occurrence, each with its items in order. *)
Fixpoint distinct {K} `{EqDecision K} (ks : list K) : list K :=
  match ks with
  | [] => []
  | k :: ks => k :: filter (λ k', k' ≠ k) (distinct ks)
  end.
Definition grouped_by {K A} `{EqDecision K} (key : A → K) (xs : list A) : list (K * list A) :=
  map (λ k, (k, filter (λ x, key x = k) xs)) (distinct (map key xs)).

Lemma elem_of_distinct {K} `{EqDecision K} (ks : list K) k : k ∈ distinct ks ↔ k ∈ ks.
Proof.
  induction ks as [|k' ks IH]; cbn; [done|].
  rewrite !elem_of_cons, list_elem_of_filter, IH. destruct (decide (k = k')); naive_solver.
Qed.

Lemma NoDup_distinct {K} `{EqDecision K} (l : list K) : NoDup (distinct l).
Proof.
  induction l as [|k l IH]; cbn; [constructor|]. constructor; [|by apply NoDup_filter].
  rewrite list_elem_of_filter. naive_solver.
Qed.

(** ** [sorted(xs, key=...)]: a stable insertion sort *)
Section sorting.
Context {A : Type} (leb : A → A → bool).

Fixpoint insert_sorted (x : A) (l : list A) : list A :=
  match l with
  | [] => [x]
  | y :: l' => if leb x y then x :: l else y :: insert_sorted x l'
  end.

Fixpoint py_sorted (l : list A) : list A :=
  match l with [] => [] | x :: l => insert_sorted x (py_sorted l) end.

Lemma insert_sorted_perm x l : insert_sorted x l ≡ₚ x :: l.
Proof.
  induction l as [|y l IH]; cbn; [done|].
  destruct (leb x y); [done|]. rewrite IH. constructor.
Qed.

Lemma py_sorted_perm l : py_sorted l ≡ₚ l.
Proof.
  induction l as [|x l IH]; cbn; [done|]. by rewrite insert_sorted_perm, IH.
Qed.

Lemma elem_of_py_sorted x l : x ∈ py_sorted l ↔ x ∈ l.
Proof. by rewrite py_sorted_perm. Qed.

Lemma length_py_sorted l : length (py_sorted l) = length l.
Proof. by rewrite py_sorted_perm. Qed.

(** A list that is in order already is left as it is. *)
Lemma py_sorted_id l : Sorted leb l → py_sorted l = l.
Proof.
  induction 1 as [|x l Hs IH Hhd]; cbn; [done|]. rewrite IH.
  destruct Hhd as [|y l Hxy]; cbn; [done|]. apply Is_true_true in Hxy. by rewrite Hxy.
Qed.

Hypothesis leb_total : ∀ x y, leb x y = true ∨ leb y x = true.

Lemma py_sorted_Sorted l : Sorted leb (py_sorted l).
Proof.
  induction l as [|x l IHl]; cbn; [constructor|].
  induction IHl as [|y m Hs IH Hhd]; cbn.
  - repeat constructor.
  - destruct (leb x y) eqn:E.
    + constructor; [by constructor|]. constructor. by rewrite E.
    + constructor; [done|]. destruct Hhd as [|z m Hyz]; cbn.
      * constructor. destruct (leb_total x y) as [H|H]; [congruence|by rewrite H].
      * destruct (leb x z); constructor; [|done].
        destruct (leb_total x y) as [H|H]; [congruence|by rewrite H].
Qed.

Hypothesis leb_trans : ∀ x y z, leb x y = true → leb y z = true → leb x z = true.
Hypothesis leb_antisym : ∀ x y, leb x y = true → leb y x = true → x = y.

(** Sorting by an order forgets the order of the input. *)
Lemma py_sorted_perm_eq l1 l2 : l1 ≡ₚ l2 → py_sorted l1 = py_sorted l2.
Proof.
  intros Hp.
  assert (Transitive (λ x y, Is_true (leb x y))) as Ht.
  { intros x y z. rewrite !Is_true_true. apply leb_trans. }
  assert (AntiSymm (=) (λ x y, Is_true (leb x y))) as Ha.
  { intros x y. rewrite !Is_true_true. apply leb_antisym. }
  apply (Sorted_unique (λ x y, Is_true (leb x y))); [by apply py_sorted_Sorted..|].
  by rewrite !py_sorted_perm.
Qed.
End sorting.

Lemma StringLeb_total (x y : string) : String.leb x y = true ∨ String.leb y x = true.
Proof. apply String.leb_total. Qed.
Lemma StringLeb_trans (x y z : string) :
  String.leb x y = true → String.leb y z = true → String.leb x z = true.
Proof.
  intros H1%Is_true_true H2%Is_true_true. apply Is_true_true.
  change (String.le x z). by transitivity y.
Qed.
Lemma StringLeb_antisym (x y : string) :
  String.leb x y = true → String.leb y x = true → x = y.
Proof. apply String.leb_antisym. Qed.

Create HintDb telco.
#[export] Hint Resolve prefix_app_r : telco.
