(* ===== verification/PyStr.v ===== *)
(** * Python strings

    A Python [str] is modelled by its UTF-8 encoding, a [string] of bytes.
    Comparison of the encodings byte by byte is comparison of the strings
    code point by code point, so [<] on [str] is [String.ltb] here.  The
    functions the sources apply to strings work on characters: [chars] splits
    an encoding into its characters (a byte that is not a continuation byte,
    with the continuation bytes after it). *)

From Stdlib Require Import Ascii String.
From S2P Require Import Prelude.

Definition byte_of (c : ascii) : N := N_of_ascii c.

(** A continuation byte of UTF-8 is [10xxxxxx]. *)
Definition is_continuation (c : ascii) : bool :=
  (128 <=? byte_of c)%N && (byte_of c <? 192)%N.

Definition starts_continuation (s : string) : bool :=
  match s with String c _ => is_continuation c | EmptyString => false end.

Fixpoint chars (s : string) : list string :=
  match s with
  | EmptyString => []
  | String c s' =>
      match chars s' with
      | h :: t => if starts_continuation h then String c h :: t
                  else String c EmptyString :: h :: t
      | [] => [String c EmptyString]
      end
  end.

Fixpoint concat (l : list string) : string :=
  match l with [] => EmptyString | s :: l => s +:+ concat l end.

(** [len(s)]. *)
Definition py_len (s : string) : Z := Z.of_nat (List.length (chars s)).

Definition bytes (l : list N) : string :=
  string_of_list_ascii (map ascii_of_N l).

(** [c.isspace()], the characters [str.strip()] removes and [\s] matches:
    the ASCII ones by their byte, the others by their encodings. *)
Definition non_ascii_spaces : list string :=
  [ bytes [194; 133]; bytes [194; 160]; bytes [225; 154; 128];
    bytes [226; 128; 168]; bytes [226; 128; 169]; bytes [226; 128; 175];
    bytes [226; 129; 159]; bytes [227; 128; 128] ]%N ++
  map (fun k : N => bytes [226; 128; k]%N) [128;129;130;131;132;133;134;135;136;137;138]%N.

Definition is_space (ch : string) : bool :=
  match ch with
  | String c EmptyString =>
      ((9 <=? byte_of c) && (byte_of c <=? 13)
       || (28 <=? byte_of c) && (byte_of c <=? 32))%N
  | _ => bool_decide (ch ∈ non_ascii_spaces)
  end.

Fixpoint drop_spaces (l : list string) : list string :=
  match l with
  | [] => []
  | ch :: l' => if is_space ch then drop_spaces l' else l
  end.

(** [s.strip()]. *)
Definition strip_chars (l : list string) : list string :=
  reverse (drop_spaces (reverse (drop_spaces l))).
Definition py_strip (s : string) : string := concat (strip_chars (chars s)).

(** [bool(s.strip())] and [not s.strip()]. *)
Definition is_blank (s : string) : bool := bool_decide (py_strip s = EmptyString).

(** [str.lower()] on the ASCII letters of one character. *)
Definition lower_ascii (c : ascii) : ascii :=
  if ((65 <=? byte_of c) && (byte_of c <=? 90))%N
  then ascii_of_N (byte_of c + 32) else c.

Definition is_digit (c : ascii) : bool :=
  ((48 <=? byte_of c) && (byte_of c <=? 57))%N.
Definition is_lower (c : ascii) : bool :=
  ((97 <=? byte_of c) && (byte_of c <=? 122))%N.
Definition is_upper (c : ascii) : bool :=
  ((65 <=? byte_of c) && (byte_of c <=? 90))%N.
Definition is_lower_hex (c : ascii) : bool :=
  is_digit c || ((97 <=? byte_of c) && (byte_of c <=? 102))%N.

Fixpoint string_forall (p : ascii → bool) (s : string) : bool :=
  match s with EmptyString => true | String c s => p c && string_forall p s end.

(** A lowercase SHA-256 digest: 64 hexadecimal digits. *)
Definition is_hex64 (s : string) : bool :=
  Nat.eqb (String.length s) 64 && string_forall is_lower_hex s.

Lemma app_cons c s t : String c s +:+ t = String c (s +:+ t).
Proof. reflexivity. Qed.
Lemma app_nil s : EmptyString +:+ s = s.
Proof. reflexivity. Qed.
Lemma cons_tail c s t : String c s = String c t → s = t.
Proof. congruence. Qed.

Lemma string_forall_impl (p q : ascii → bool) s :
  (∀ c, p c = true → q c = true) → string_forall p s = true → string_forall q s = true.
Proof.
  intros Hpq. induction s as [|c s IH]; cbn; [done|].
  rewrite !andb_true_iff. naive_solver.
Qed.

(** A maximal run of the characters of a class is determined by the text it
    starts, when what follows does not start with such a character. *)
Definition starts_with (p : ascii → bool) (s : string) : bool :=
  match s with EmptyString => false | String c _ => p c end.

Lemma span_inj p u v s t :
  string_forall p u = true → string_forall p v = true →
  starts_with p s = false → starts_with p t = false →
  u +:+ s = v +:+ t → u = v ∧ s = t.
Proof.
  revert v. induction u as [|c u IH]; intros [|d v]; rewrite ?app_cons, ?app_nil; cbn;
    rewrite ?andb_true_iff; intros Hu Hv Hs Ht He.
  - done.
  - subst s. cbn in Hs. naive_solver congruence.
  - subst t. cbn in Ht. naive_solver congruence.
  - injection He as -> He. destruct Hu as [_ Hu], Hv as [_ Hv].
    destruct (IH v Hu Hv Hs Ht He) as [-> ->]. done.
Qed.

Lemma concat_chars s : concat (chars s) = s.
Proof.
  induction s as [|c s IH]; cbn; [done|].
  destruct (chars s) as [|h t]; cbn in *; [by rewrite <- IH|].
  destruct (starts_continuation h); cbn; by rewrite <- IH.
Qed.

(** The lists of characters that are the [chars] of a string. *)
Definition is_char (s : string) : Prop :=
  match s with EmptyString => False | String _ t => string_forall is_continuation t = true end.
Definition char_list (l : list string) : Prop :=
  Forall is_char l ∧ Forall (λ s, starts_continuation s = false) (tail l).

Lemma char_list_chars s : char_list (chars s).
Proof.
  induction s as [|c s [IH1 IH2]]; [by repeat constructor|]. cbn [chars].
  destruct (chars s) as [|h t] eqn:E; [by repeat constructor|]. cbn in IH2.
  apply Forall_cons in IH1 as [Hh Ht].
  destruct (starts_continuation h) eqn:Eh.
  - split; [|done]. constructor; [|done]. cbn.
    destruct h as [|d h]; [done|]. cbn in *. by rewrite Eh, Hh.
  - split; [by repeat constructor|]. by constructor.
Qed.

Lemma chars_concat l : char_list l → chars (concat l) = l.
Proof.
  assert (∀ t l, string_forall is_continuation t = true →
      Forall (λ s, starts_continuation s = false) l → chars (concat l) = l →
      ∀ c, chars (String c (t +:+ concat l)) = String c t :: l) as Hgo.
  { clear l. induction t as [|d t IH]; intros l Ht Hl He c.
    - rewrite app_nil. cbn [chars]. rewrite He. destruct l as [|h l]; [done|].
      apply Forall_cons in Hl as [-> _]. done.
    - cbn in Ht. apply andb_true_iff in Ht as [Hd Ht].
      rewrite app_cons. cbn [chars]. cbn [chars] in IH. rewrite (IH l Ht Hl He d).
      cbn [starts_continuation]. by rewrite Hd. }
  induction l as [|x l IH]; [done|]. intros [Hc Hs].
  apply Forall_cons in Hc as [Hx Hc]. cbn in Hs.
  cbn [concat]. destruct x as [|c t]; [done|]. rewrite app_cons.
  apply Hgo; [done..|]. apply IH. split; [done|]. by destruct l; [|apply Forall_cons in Hs as [??]].
Qed.

Lemma char_list_app_l l k : char_list (l ++ k) → char_list l.
Proof.
  intros [H1 H2]. split; [by apply Forall_app in H1 as [? _]|].
  destruct l as [|x l]; [done|]. by apply Forall_app in H2 as [? _].
Qed.
Lemma char_list_app_r l k : char_list (l ++ k) → char_list k.
Proof.
  intros [H1 H2]. split; [by apply Forall_app in H1 as [_ ?]|].
  destruct l as [|x l]; [done|]. cbn in H2. apply Forall_app in H2 as [_ H2].
  destruct k; [done|]. by apply Forall_cons in H2 as [_ ?].
Qed.

Lemma drop_spaces_suffix l : ∃ k, l = k ++ drop_spaces l.
Proof.
  induction l as [|x l [k IH]]; cbn; [by exists []|].
  destruct (is_space x); [|by exists []]. exists (x :: k). cbn. by rewrite <- IH.
Qed.

Lemma strip_chars_infix l : ∃ a b, l = a ++ strip_chars l ++ b.
Proof.
  unfold strip_chars. destruct (drop_spaces_suffix l) as [a Ha].
  destruct (drop_spaces_suffix (reverse (drop_spaces l))) as [b Hb].
  exists a, (reverse b). rewrite Ha at 1. f_equal.
  apply (f_equal reverse) in Hb. by rewrite reverse_involutive, reverse_app in Hb.
Qed.

Definition heads_space (l : list string) : bool :=
  match l with x :: _ => is_space x | [] => false end.

Lemma drop_spaces_head l : heads_space (drop_spaces l) = false.
Proof.
  induction l as [|x l IH]; cbn; [done|]. by destruct (is_space x) eqn:E.
Qed.
Lemma drop_spaces_keep l : heads_space l = false → drop_spaces l = l.
Proof. destruct l as [|x l]; cbn; [done|]. by intros ->. Qed.

Lemma strip_chars_idem l : strip_chars (strip_chars l) = strip_chars l.
Proof.
  assert (heads_space (strip_chars l) = false) as H1.
  { unfold strip_chars. destruct (drop_spaces_suffix (reverse (drop_spaces l))) as [b Hb].
    apply (f_equal reverse) in Hb. rewrite reverse_involutive, reverse_app in Hb.
    pose proof (drop_spaces_head l) as H. rewrite Hb in H.
    by destruct (reverse (drop_spaces (reverse (drop_spaces l)))). }
  unfold strip_chars at 1. rewrite (drop_spaces_keep _ H1).
  unfold strip_chars at 1. rewrite reverse_involutive.
  rewrite (drop_spaces_keep (drop_spaces _)); [done|]. apply drop_spaces_head.
Qed.

(** Stripping twice is stripping once. *)
Lemma py_strip_idem s : py_strip (py_strip s) = py_strip s.
Proof.
  unfold py_strip. rewrite chars_concat; [by rewrite strip_chars_idem|].
  pose proof (char_list_chars s) as H. destruct (strip_chars_infix (chars s)) as (a & b & E).
  rewrite E in H. by eapply char_list_app_l, char_list_app_r.
Qed.

Lemma py_strip_not_blank s : is_blank s = false → is_blank (py_strip s) = false.
Proof. unfold is_blank. by rewrite py_strip_idem. Qed.

Example strip_ex : py_strip (" a b" +:+ bytes [194;160;9]%N) = "a b".
Proof. reflexivity. Qed.

(** A [str] is encoded in at most four bytes per character. *)
Definition utf8 (s : string) : Prop :=
  Forall (λ ch, (String.length ch ≤ 4)%nat) (chars s).

Lemma string_length_app s t :
  String.length (s +:+ t) = (String.length s + String.length t)%nat.
Proof. induction s as [|c s IH]; [done|]. rewrite app_cons. cbn. by rewrite IH. Qed.

Lemma length_concat l : Forall (λ ch, (String.length ch ≤ 4)%nat) l →
  (String.length (concat l) ≤ 4 * List.length l)%nat.
Proof.
  induction 1 as [|ch l Hc _ IH]; cbn [concat String.length List.length]; [lia|].
  rewrite string_length_app. lia.
Qed.

Lemma utf8_length s n : utf8 s → py_len s ≤ n → Z.of_nat (String.length s) ≤ 4 * n.
Proof.
  intros Hs Hn. apply length_concat in Hs. rewrite concat_chars in Hs.
  unfold py_len in Hn. lia.
Qed.

Lemma utf8_py_strip s : utf8 s → utf8 (py_strip s).
Proof.
  unfold utf8, py_strip. intros Hs.
  destruct (strip_chars_infix (chars s)) as (a & b & Hab).
  pose proof (char_list_chars s) as Hc. rewrite Hab in Hc.
  rewrite chars_concat.
  - rewrite Hab, !Forall_app in Hs. tauto.
  - by apply char_list_app_r, char_list_app_l in Hc.
Qed.

Lemma concat_app l k : concat (l ++ k) = concat l +:+ concat k.
Proof.
  induction l as [|x l IH]; [done|]. cbn [app concat]. rewrite IH.
  induction x as [|c x IHx]; [done|]. rewrite !app_cons. by rewrite IHx.
Qed.

Lemma py_strip_length s : (String.length (py_strip s) ≤ String.length s)%nat.
Proof.
  unfold py_strip. destruct (strip_chars_infix (chars s)) as (a & b & Hab).
  pose proof (concat_chars s) as Hc. rewrite <- Hc at 2. rewrite Hab at 2.
  rewrite !concat_app, !string_length_app. lia.
Qed.

Definition utf8b (s : string) : bool := forallb (λ ch, Nat.leb (String.length ch) 4) (chars s).
Lemma utf8b_utf8 s : utf8b s = true → utf8 s.
Proof.
  unfold utf8b. rewrite forallb_true_iff. intros H. apply Forall_forall.
  intros ch Hch. by apply Nat.leb_le, H.
Qed.
