(* ===== verification/Sha256.v ===== *)
(** * [hashlib.sha256(...).hexdigest()]

    SHA-256 (FIPS 180-4) on byte strings, with 32-bit words as [N] and the
    wrap-around of their addition written out. *)

From Stdlib Require Import Ascii String.
From S2P Require Import Prelude PyStr.
Open Scope N_scope.

Definition w32 (x : N) : N := N.land x 0xffffffff.
Definition add32 (x y : N) : N := w32 (x + y).
Definition not32 (x : N) : N := N.lxor x 0xffffffff.
Definition rotr (n x : N) : N := N.lor (N.shiftr x n) (w32 (N.shiftl x (32 - n))).

Definition ch (x y z : N) : N := N.lxor (N.land x y) (N.land (not32 x) z).
Definition maj (x y z : N) : N :=
  N.lxor (N.land x y) (N.lxor (N.land x z) (N.land y z)).
Definition big_sigma0 (x : N) : N := N.lxor (rotr 2 x) (N.lxor (rotr 13 x) (rotr 22 x)).
Definition big_sigma1 (x : N) : N := N.lxor (rotr 6 x) (N.lxor (rotr 11 x) (rotr 25 x)).
Definition small_sigma0 (x : N) : N := N.lxor (rotr 7 x) (N.lxor (rotr 18 x) (N.shiftr x 3)).
Definition small_sigma1 (x : N) : N := N.lxor (rotr 17 x) (N.lxor (rotr 19 x) (N.shiftr x 10)).

(** The constants of the standard: the first 32 bits of the fractional parts
    of the cube roots of the first 64 primes, and of the square roots of the
    first 8. *)
Definition is_prime (n : N) : bool :=
  forallb (λ d, negb (n mod N.of_nat d =? 0)) (seq 2 (N.to_nat (N.sqrt n) - 1)).
Definition primes : list N :=
  Eval vm_compute in List.filter is_prime (map N.of_nat (seq 2 310)).

(** The greatest [r] of [k] bits above [r0] with [r ^ 3 <= x]. *)
Fixpoint cube_root (k : nat) (r x : N) : N :=
  match k with
  | O => r
  | S k =>
      let r' := r + 2 ^ N.of_nat k in
      cube_root k (if r' * r' * r' <=? x then r' else r) x
  end.

Definition round_constants : list N :=
  Eval vm_compute in map (λ p, w32 (cube_root 36 0 (N.shiftl p 96))) primes.

Record hash_state := HashState
  { ha : N; hb : N; hc : N; hd : N; he : N; hf : N; hg : N; hh : N }.

Definition sqrt_bits (p : N) : N := w32 (N.sqrt (N.shiftl p 64)).
Definition initial_state : hash_state := Eval vm_compute in
  HashState (sqrt_bits 2) (sqrt_bits 3) (sqrt_bits 5) (sqrt_bits 7)
            (sqrt_bits 11) (sqrt_bits 13) (sqrt_bits 17) (sqrt_bits 19).

(** The message schedule, newest word first: [n] more words are computed
    from the last sixteen. *)
Fixpoint schedule (n : nat) (w : list N) : list N :=
  match n with
  | O => w
  | S n =>
      let at_ k := nth (k - 1) w 0 in
      schedule n
        (add32 (add32 (small_sigma1 (at_ 2%nat)) (at_ 7%nat))
               (add32 (small_sigma0 (at_ 15%nat)) (at_ 16%nat)) :: w)
  end.

Definition round (s : hash_state) (kw : N * N) : hash_state :=
  let t1 := add32 (add32 (hh s) (big_sigma1 (he s)))
                  (add32 (ch (he s) (hf s) (hg s)) (add32 kw.1 kw.2)) in
  let t2 := add32 (big_sigma0 (ha s)) (maj (ha s) (hb s) (hc s)) in
  HashState (add32 t1 t2) (ha s) (hb s) (hc s) (add32 (hd s) t1) (he s) (hf s) (hg s).

Definition compress (s : hash_state) (block : list N) : hash_state :=
  let w := reverse (schedule 48 (reverse block)) in
  let r := foldl round s (zip round_constants w) in
  HashState (add32 (ha s) (ha r)) (add32 (hb s) (hb r)) (add32 (hc s) (hc r))
            (add32 (hd s) (hd r)) (add32 (he s) (he r)) (add32 (hf s) (hf r))
            (add32 (hg s) (hg r)) (add32 (hh s) (hh r)).

(** Big-endian words of a byte sequence, four bytes each. *)
Fixpoint words (bs : list N) : list N :=
  match bs with
  | a :: b :: c :: d :: bs =>
      N.lor (N.shiftl a 24) (N.lor (N.shiftl b 16) (N.lor (N.shiftl c 8) d)) :: words bs
  | _ => []
  end.

Fixpoint be_bytes (n : nat) (x : N) : list N :=
  match n with
  | O => []
  | S n => be_bytes n (N.shiftr x 8) ++ [N.land x 255]
  end.

Definition pad (bs : list N) : list N :=
  let len := N.of_nat (length bs) in
  let zeros := N.to_nat ((119 - len mod 64) mod 64) in
  bs ++ 128 :: replicate zeros 0 ++ be_bytes 8 (len * 8).

Fixpoint blocks (n : nat) (ws : list N) : list (list N) :=
  match n with
  | O => []
  | S n => match ws with [] => [] | _ => take 16 ws :: blocks n (drop 16 ws) end
  end.

Definition sha256_words (bs : list N) : list N :=
  let ws := words (pad bs) in
  let s := foldl compress initial_state (blocks (length ws) ws) in
  [ha s; hb s; hc s; hd s; he s; hf s; hg s; hh s].

Definition hex_digit (n : N) : ascii :=
  ascii_of_N (if n <? 10 then 48 + n else 87 + n).

Fixpoint hex_word (n : nat) (x : N) (tail : string) : string :=
  match n with
  | O => tail
  | S n => hex_word n (N.shiftr x 4) (String (hex_digit (N.land x 15)) tail)
  end.

Definition hex_of_words (ws : list N) : string :=
  fold_right (hex_word 8) EmptyString ws.

Definition sha256_hex (s : string) : string :=
  hex_of_words (sha256_words (map N_of_ascii (list_ascii_of_string s))).

Example sha256_abc :
  sha256_hex "abc" =
  "ba7816bf8f01cfea414140de5dae2223b00361a396177a9cb410ff61f20015ad"%string.
Proof. vm_compute. reflexivity. Qed.
Example sha256_empty :
  sha256_hex EmptyString =
  "e3b0c44298fc1c149afbf4c8996fb92427ae41e4649b934ca495991b7852b855"%string.
Proof. vm_compute. reflexivity. Qed.

Lemma hex_digit_lower (x : N) : is_lower_hex (hex_digit (N.land x 15)) = true.
Proof.
  assert (N.land x 15 < 16) as Hlt.
  { change 15 with (N.ones 4). rewrite N.land_ones. by apply N.mod_lt. }
  generalize dependent (N.land x 15). clear x. intros n Hn.
  destruct n as [|p]; [reflexivity|].
  do 5 (try destruct p as [p|p|]; try reflexivity; try lia).
Qed.

Lemma hex_word_spec n x tail :
  string_forall is_lower_hex tail = true →
  String.length (hex_word n x tail) = (n + String.length tail)%nat ∧
  string_forall is_lower_hex (hex_word n x tail) = true.
Proof.
  revert x tail. induction n as [|n IH]; intros x tail Ht; cbn [hex_word]; [done|].
  edestruct (IH (N.shiftr x 4) (String (hex_digit (N.land x 15)) tail)) as [Hl Hf].
  { cbn [string_forall]. by rewrite hex_digit_lower. }
  rewrite Hl. split; [cbn [String.length]; lia|done].
Qed.

(** Every digest is 64 lowercase hexadecimal digits. *)
Lemma sha256_hex_is_hex64 s : is_hex64 (sha256_hex s) = true.
Proof.
  unfold sha256_hex, sha256_words, hex_of_words.
  generalize (foldl compress initial_state).
  intros f. unfold is_hex64. cbn [fold_right].
  repeat match goal with
  | |- context [hex_word 8 ?x ?t] =>
      lazymatch t with context [hex_word] => fail | _ => idtac end;
      let H := fresh in
      pose proof (hex_word_spec 8 x t) as H; revert H;
      generalize (hex_word 8 x t); intros ? H;
      destruct H as [? ?]; [cbn; done || assumption|]
  end.
  apply andb_true_iff. split; [apply Nat.eqb_eq; cbn in *; lia|done].
Qed.
