(* ===== verification/Json.v ===== *)
(** * JSON values, their canonical text and the external runtime

    [json] is what [JsonValue] and [model_dump(mode="json")] hold.  A Python
    [dict] is the list of its items in the order of their keys: insertion
    order is invisible to every use the sources make of these dictionaries
    (equality, and [json.dumps] with [sort_keys=True]).  Floats are finite,
    as [allow_inf_nan=False] and [allow_nan=False] require. *)

From Stdlib Require Import Ascii String.
From stdpp Require Import pretty.
From S2P Require Import Prelude PyStr.

(** A finite double: [(-1)^neg * mant * 2^expo], in the normal form with an odd
    mantissa, or zero with exponent zero ([float_normal]). *)
Record pyfloat := PyFloat { f_neg : bool; f_mant : N; f_expo : Z }.
#[export] Instance pyfloat_eq_dec : EqDecision pyfloat.
Proof. solve_decision. Defined.

Definition float_normal (f : pyfloat) : bool :=
  if (f_mant f =? 0)%N then f_expo f =? 0 else N.odd (f_mant f).

(** Numerical comparison of two doubles, [x <= y]. *)
Definition f_signed (f : pyfloat) (e : Z) : Z :=
  (if f_neg f then -1 else 1) * Z.of_N (f_mant f) * 2 ^ (f_expo f - e).
Definition float_leb (x y : pyfloat) : bool :=
  let e := Z.min (f_expo x) (f_expo y) in
  f_signed x e <=? f_signed y e.

#[local] Set Warnings "-register-all".
Inductive json :=
| JNull
| JBool (b : bool)
| JInt (z : Z)
| JFloat (f : pyfloat)
| JStr (s : string)
| JArr (items : list json)
| JObj (fields : list (string * json)).

Section json_ind.
Context (P : json → Prop).
Hypotheses (HN : P JNull) (HB : ∀ b, P (JBool b)) (HI : ∀ z, P (JInt z))
  (HF : ∀ f, P (JFloat f)) (HS : ∀ s, P (JStr s))
  (HA : ∀ l, Forall P l → P (JArr l))
  (HO : ∀ l, Forall (λ kv, P kv.2) l → P (JObj l)).
Fixpoint json_ind' (j : json) : P j :=
  match j with
  | JNull => HN | JBool b => HB b | JInt z => HI z | JFloat f => HF f
  | JStr s => HS s
  | JArr l => HA l ((fix go l : Forall P l :=
      match l with [] => List.Forall_nil _ | j :: l => List.Forall_cons _ _ _ (json_ind' j) (go l) end) l)
  | JObj l => HO l ((fix go l : Forall (λ kv, P kv.2) l :=
      match l with [] => List.Forall_nil _ | kv :: l => List.Forall_cons _ _ _ (json_ind' kv.2) (go l) end) l)
  end.
End json_ind.

#[export] Instance json_eq_dec : EqDecision json.
Proof.
  refine (fix go (x y : json) {struct x} : Decision (x = y) :=
    let _ : EqDecision json := go in
    match x, y with
    | JNull, JNull => left eq_refl
    | JBool a, JBool b => cast_if (decide (a = b))
    | JInt a, JInt b => cast_if (decide (a = b))
    | JFloat a, JFloat b => cast_if (decide (a = b))
    | JStr a, JStr b => cast_if (decide (a = b))
    | JArr a, JArr b =>
        cast_if ((fix gol (a b : list json) {struct a} : Decision (a = b) :=
          match a, b with
          | [], [] => left eq_refl
          | p :: a, q :: b => cast_if_and (go p q) (gol a b)
          | _, _ => right _
          end) a b)
    | JObj a, JObj b =>
        cast_if ((fix gol (a b : list (string * json)) {struct a} : Decision (a = b) :=
          match a, b with
          | [], [] => left eq_refl
          | (k, p) :: a, (l, q) :: b => cast_if_and3 (decide (k = l)) (go p q) (gol a b)
          | _, _ => right _
          end) a b)
    | _, _ => right _
    end); congruence.
Defined.

(** What the sources use of code that is not theirs: the digest, Python's
    [float.__repr__], pydantic's JSON text of a UTC instant (microseconds
    since the epoch) and its [isoformat()], pydantic's [strip_whitespace], [str.lower], and the Unicode database
    for the non-ASCII characters that [\w] matches. *)
Class Runtime := {
  sha256_hex : string → string;
  float_repr : pyfloat → string;
  iso_utc : Z → string;
  isoformat : Z → string;
  strip : string → string;
  lower : string → string;
  word_non_ascii : string → bool
}.

(** The documented facts the theorems rely on: digests are 64 hexadecimal
    digits; lowercase ASCII words and digits are their own [lower]; [repr] of a float is a nonempty decimal literal with a point or an
    exponent that determines the (normal) float; stripping a text twice is
    stripping it once, and a text of visible ASCII characters is left as it is;
    an instant is written in at most 64 characters. *)
Definition number_char (c : ascii) : bool :=
  is_digit c || bool_decide (c ∈ ["-"; "+"; "."; "e"]%char).
Definition int_char (c : ascii) : bool := is_digit c || bool_decide (c = "-"%char).

Definition plain_char (c : ascii) : bool :=
  is_lower c || is_digit c || bool_decide (c = "_"%char).
Definition visible_char (c : ascii) : bool := (33 <=? byte_of c)%N && (byte_of c <=? 126)%N.

Class RuntimeLaws (R : Runtime) := {
  sha256_hex64 : ∀ s, is_hex64 (sha256_hex s) = true;
  float_repr_chars : ∀ f, string_forall number_char (float_repr f) = true;
  float_repr_not_int : ∀ f, string_forall int_char (float_repr f) = false;
  float_repr_inj : ∀ f g, float_normal f = true → float_normal g = true →
    float_repr f = float_repr g → f = g;
  lower_plain : ∀ s, string_forall plain_char s = true → lower s = s;
  strip_idem : ∀ s, strip (strip s) = strip s;
  strip_utf8 : ∀ s, utf8 s → utf8 (strip s);
  strip_visible : ∀ s, string_forall visible_char s = true → strip s = s;
  iso_utc_length : ∀ t, (String.length (iso_utc t) ≤ 64)%nat
}.

(** ** [json.dumps(value, allow_nan=False, ensure_ascii=False,
       separators=(",", ":"), sort_keys=True)] *)

Definition quote_mark : ascii := "034".
Definition backslash : ascii := "092".

Definition hex_nibble (n : N) : ascii :=
  ascii_of_N (if (n <? 10)%N then 48 + n else 87 + n).

Definition escape_char (c : ascii) (tail : string) : string :=
  let e x := String backslash (String x tail) in
  if bool_decide (c = quote_mark) then e quote_mark
  else if bool_decide (c = backslash) then e backslash
  else if bool_decide (c = "010"%char) then e "n"%char
  else if bool_decide (c = "013"%char) then e "r"%char
  else if bool_decide (c = "009"%char) then e "t"%char
  else if bool_decide (c = "012"%char) then e "f"%char
  else if bool_decide (c = "008"%char) then e "b"%char
  else if (byte_of c <? 32)%N
  then String backslash (String "u"%char (String "0"%char (String "0"%char
         (String (hex_nibble (byte_of c / 16)) (String (hex_nibble (byte_of c mod 16)) tail)))))
  else String c tail.

Fixpoint escape (s tail : string) : string :=
  match s with
  | EmptyString => tail
  | String c s => escape_char c (escape s tail)
  end.

Definition quoted (s tail : string) : string :=
  String quote_mark (escape s (String quote_mark tail)).

Definition key_leb {A} (x y : string * A) : bool := String.leb x.1 y.1.

(** The encoder, with the text that follows as an argument. *)
Section dumps.
Context `{R : Runtime}.

Fixpoint dumps_onto (j : json) (tail : string) : string :=
  match j with
  | JNull => "null" +:+ tail
  | JBool true => "true" +:+ tail
  | JBool false => "false" +:+ tail
  | JInt z => pretty z +:+ tail
  | JFloat f => float_repr f +:+ tail
  | JStr s => quoted s tail
  | JArr l =>
      String "["%char (match l with
      | [] => String "]"%char tail
      | x :: l => dumps_onto x
          ((fix rest (l : list json) : string :=
             match l with
             | [] => String "]"%char tail
             | y :: l => String ","%char (dumps_onto y (rest l))
             end) l)
      end)
  | JObj l =>
      let items := py_sorted key_leb (map (λ kv, (kv.1, dumps_onto kv.2)) l) in
      String "{"%char (match items with
      | [] => String "}"%char tail
      | x :: l => quoted x.1 (String ":"%char (x.2
          (fold_right (λ y rest, String ","%char (quoted y.1 (String ":"%char (y.2 rest))))
                      (String "}"%char tail) l)))
      end)
  end.

Definition dumps (j : json) : string := dumps_onto j EmptyString.
End dumps.

(** ** The canonical text determines the value *)

(** The items of every dictionary are listed in the order of their keys,
    which are distinct, and every float is in normal form. *)
Definition key_ltb (x y : string) : bool := String.leb x y && negb (bool_decide (x = y)).
Fixpoint keys_ordered {A} (l : list (string * A)) : bool :=
  match l with
  | x :: (y :: _) as l' => key_ltb x.1 y.1 && keys_ordered l'
  | _ => true
  end.

(** [d[k] = v], and [dict(items)]. *)
Fixpoint dict_set {A} (k : string) (v : A) (l : list (string * A)) : list (string * A) :=
  match l with
  | [] => [(k, v)]
  | (k', v') :: l' =>
      if bool_decide (k = k') then (k, v) :: l'
      else if String.leb k k' then (k, v) :: l
      else (k', v') :: dict_set k v l'
  end.
Definition dict_of_items {A} (items : list (string * A)) : list (string * A) :=
  foldl (λ d kv, dict_set kv.1 kv.2 d) [] items.

Lemma elem_of_dict_set {A} k (v : A) l x : x ∈ dict_set k v l → x = (k, v) ∨ x ∈ l.
Proof.
  induction l as [|[k' v'] l IH]; cbn; [set_solver|].
  case_bool_decide; [set_solver|]. destruct (String.leb k k'); set_solver.
Qed.

Lemma elem_of_dict_of_items {A} (items : list (string * A)) x :
  x ∈ dict_of_items items → x ∈ items.
Proof.
  unfold dict_of_items.
  assert (∀ items d, x ∈ foldl (λ d (kv : string * A), dict_set kv.1 kv.2 d) d items →
    x ∈ d ∨ x ∈ items) as H; [|intros Hx; by destruct (H items [] Hx) as [?%not_elem_of_nil|]].
  clear items. induction items as [|[k v] items IH]; intros d; cbn; [by left|].
  intros [Hx|Hx]%IH; [|set_solver]. apply elem_of_dict_set in Hx. set_solver.
Qed.

Fixpoint dict_ordered (j : json) : bool :=
  match j with
  | JFloat f => float_normal f
  | JArr l => forallb dict_ordered l
  | JObj l => keys_ordered l && forallb (λ kv, dict_ordered kv.2) l
  | _ => true
  end.

(** The text of a value is always followed by nothing or by a delimiter. *)
Definition delimiter (c : ascii) : bool :=
  bool_decide (c ∈ [","; "]"; "}"; ":"]%char).
Definition boundary (s : string) : bool :=
  match s with EmptyString => true | String c _ => delimiter c end.

Lemma delimiter_not_number c : delimiter c = true → number_char c = false.
Proof.
  unfold delimiter. rewrite bool_decide_eq_true, !elem_of_cons, elem_of_nil.
  intros [->|[->|[->|[->|[]]]]]; reflexivity.
Qed.

Lemma number_span u v s t :
  string_forall number_char u = true → string_forall number_char v = true →
  boundary s = true → boundary t = true →
  u +:+ s = v +:+ t → u = v ∧ s = t.
Proof.
  assert (∀ s, boundary s = true → starts_with number_char s = false) as Hb.
  { intros [|c s']; cbn; [done|]. apply delimiter_not_number. }
  intros Hu Hv Hs Ht. apply (span_inj number_char); auto.
Qed.

Lemma pretty_N_char_int x : int_char (pretty_N_char x) = true.
Proof. unfold pretty_N_char. by repeat case_match. Qed.

Lemma pretty_N_go_int x s :
  string_forall int_char s = true → string_forall int_char (pretty_N_go x s) = true.
Proof.
  revert s. induction (N.lt_wf_0 x) as [x _ IH]; intros s Hs.
  assert (x = 0 ∨ 0 < x)%N as [->|?] by lia; [by rewrite pretty_N_go_0|].
  rewrite pretty_N_go_step by done. apply IH; [by apply N.div_lt|].
  cbn [string_forall]. by rewrite pretty_N_char_int.
Qed.

Lemma pretty_Z_int (z : Z) : string_forall int_char (pretty z) = true.
Proof.
  unfold pretty, pretty_Z. destruct z as [|p|p]; [done|..];
    unfold pretty, pretty_positive, pretty, pretty_N; case_decide; try done.
  - by apply pretty_N_go_int.
  - change (string_forall int_char (pretty_N_go (N.pos p) EmptyString) = true).
    by apply pretty_N_go_int.
Qed.

Lemma int_number c : int_char c = true → number_char c = true.
Proof.
  unfold int_char, number_char. rewrite !orb_true_iff, !bool_decide_eq_true.
  intros [?| ->]; [by left|right]. set_solver.
Qed.

Lemma pretty_Z_nonempty (z : Z) : pretty z ≠ EmptyString.
Proof.
  unfold pretty, pretty_Z. destruct z as [|p|p]; try done.
  intros H. assert (pretty (0%N) ≠ EmptyString) as _ by done.
  unfold pretty, pretty_positive, pretty, pretty_N in H.
  case_decide as Hp; [done|].
  rewrite pretty_N_go_step in H by lia.
  revert H. generalize (N.pos p `div` 10)%N. intros x.
  assert (∀ x s, s ≠ EmptyString → pretty_N_go x s ≠ EmptyString) as Hne; [|by apply Hne].
  clear. intros x. induction (N.lt_wf_0 x) as [x _ IH]. intros s Hs.
  assert (x = 0 ∨ 0 < x)%N as [->|?] by lia; [by rewrite pretty_N_go_0|].
  rewrite pretty_N_go_step by done. apply IH; [by apply N.div_lt|done].
Qed.

(** *** Strings *)

(** Reading one escaped character back. *)
Definition nibble_of (c : ascii) : N :=
  if is_digit c then byte_of c - 48 else byte_of c - 87.
Definition unescape_char (s : string) : option (ascii * string) :=
  match s with
  | String c s =>
      if bool_decide (c = backslash) then
        match s with
        | String x s =>
            if bool_decide (x = "u"%char) then
              match s with
              | String _ (String _ (String h (String l s))) =>
                  Some (ascii_of_N (16 * nibble_of h + nibble_of l), s)
              | _ => None
              end
            else
              let c := if bool_decide (x = "n"%char) then "010"%char
                       else if bool_decide (x = "r"%char) then "013"%char
                       else if bool_decide (x = "t"%char) then "009"%char
                       else if bool_decide (x = "f"%char) then "012"%char
                       else if bool_decide (x = "b"%char) then "008"%char
                       else x in
              Some (c, s)
        | EmptyString => None
        end
      else Some (c, s)
  | EmptyString => None
  end.

Lemma unescape_escape c s : unescape_char (escape_char c s) = Some (c, s).
Proof. destruct c as [[] [] [] [] [] [] [] []]; vm_compute; reflexivity. Qed.

Lemma escape_char_inj c d s t :
  escape_char c s = escape_char d t → c = d ∧ s = t.
Proof.
  intros H%(f_equal unescape_char). rewrite !unescape_escape in H. by injection H.
Qed.

Lemma escape_char_not_quote c s t : escape_char c s ≠ String quote_mark t.
Proof. destruct c as [[] [] [] [] [] [] [] []]; vm_compute; discriminate. Qed.

Lemma quoted_inj x y s t : quoted x s = quoted y t → x = y ∧ s = t.
Proof.
  unfold quoted. intros H. injection H as H. revert y H.
  induction x as [|c x IH]; intros [|d y] H; cbn [escape] in H.
  - by injection H.
  - by destruct (escape_char_not_quote d (escape y (String quote_mark t)) s).
  - by destruct (escape_char_not_quote c (escape x (String quote_mark s)) t).
  - apply escape_char_inj in H as [-> H]. by apply IH in H as [-> ->].
Qed.

(** *** Values *)
Section canonical.
Context `{R : Runtime, L : !RuntimeLaws R}.

Definition items_onto (l : list json) (tail : string) : string :=
  fold_right (λ y rest, String ","%char (dumps_onto y rest)) (String "]"%char tail) l.
Definition fields_onto (l : list (string * json)) (tail : string) : string :=
  fold_right (λ kv rest,
      String ","%char (quoted kv.1 (String ":"%char (dumps_onto kv.2 rest))))
    (String "}"%char tail) l.

Lemma dumps_arr x l tail :
  dumps_onto (JArr (x :: l)) tail =
  String "["%char (dumps_onto x (items_onto l tail)).
Proof. reflexivity. Qed.

Lemma keys_ordered_Sorted {A} (l : list (string * A)) :
  keys_ordered l = true → Sorted (λ x y, Is_true (key_leb x y)) l.
Proof.
  induction l as [|x l IH]; [constructor|].
  destruct l as [|y l]; [repeat constructor|].
  cbn [keys_ordered]. rewrite andb_true_iff. intros [Hk Hl].
  constructor; [by apply IH|]. constructor. apply Is_true_true.
  unfold key_ltb in Hk. by apply andb_true_iff in Hk as [? _].
Qed.

Lemma keys_ordered_map {A B} (f : A → B) (l : list (string * A)) :
  keys_ordered (map (λ kv, (kv.1, f kv.2)) l) = keys_ordered l.
Proof.
  induction l as [|x l IH]; [done|].
  destruct l as [|y l]; [done|]. cbn [map keys_ordered] in *. by rewrite IH.
Qed.

Lemma dumps_obj l tail :
  keys_ordered l = true →
  dumps_onto (JObj l) tail =
  String "{"%char (match l with
    | [] => String "}"%char tail
    | x :: l => quoted x.1 (String ":"%char (dumps_onto x.2 (fields_onto l tail)))
    end).
Proof.
  intros Hl. cbn [dumps_onto].
  rewrite py_sorted_id by (apply keys_ordered_Sorted; by rewrite keys_ordered_map).
  destruct l as [|x l]; [done|]. cbn [map fst snd]. do 4 f_equal.
  unfold fields_onto. clear Hl. induction l as [|y l IH]; cbn; [done|]. by rewrite IH.
Qed.

Lemma number_start c s tail :
  string_forall number_char s = true → s ≠ EmptyString →
  number_char c = false → ∀ t, String c t ≠ s +:+ tail.
Proof.
  destruct s as [|d s]; [done|]. cbn. rewrite andb_true_iff. intros [Hd _] _ Hc t.
  rewrite app_cons. intros [= -> _]. congruence.
Qed.

Lemma float_repr_nonempty f : float_repr f ≠ EmptyString.
Proof. intros H. pose proof (float_repr_not_int f) as Hf. by rewrite H in Hf. Qed.

Lemma pretty_number (z : Z) : string_forall number_char (pretty z) = true.
Proof. eapply string_forall_impl; [apply int_number|apply pretty_Z_int]. Qed.

Lemma boundary_items l tail : boundary (items_onto l tail) = true.
Proof. by destruct l. Qed.
Lemma boundary_fields l tail : boundary (fields_onto l tail) = true.
Proof. by destruct l. Qed.

Definition prefix_free (a : json) : Prop :=
  ∀ b s t, dict_ordered a = true → dict_ordered b = true →
    boundary s = true → boundary t = true →
    dumps_onto a s = dumps_onto b t → a = b ∧ s = t.

Lemma items_onto_inj l m s t :
  Forall prefix_free l → forallb dict_ordered l = true →
  forallb dict_ordered m = true →
  items_onto l s = items_onto m t → l = m ∧ s = t.
Proof.
  revert m. induction l as [|x l IH]; intros [|y m]; cbn; intros HP Hl Hm H.
  - by apply cons_tail in H.
  - discriminate H.
  - discriminate H.
  - apply cons_tail in H. apply Forall_cons in HP as [Hx HP].
    apply andb_true_iff in Hl as [Hxo Hl], Hm as [Hyo Hm].
    apply Hx in H as [-> H]; [|done..|apply boundary_items|apply boundary_items].
    by apply IH in H as [-> ->].
Qed.

Lemma fields_onto_inj l m s t :
  Forall (λ kv, prefix_free kv.2) l →
  forallb (λ kv, dict_ordered kv.2) l = true →
  forallb (λ kv, dict_ordered kv.2) m = true →
  fields_onto l s = fields_onto m t → l = m ∧ s = t.
Proof.
  revert m. induction l as [|[k x] l IH]; intros [|[k' y] m]; cbn; intros HP Hl Hm H.
  - by apply cons_tail in H.
  - discriminate H.
  - discriminate H.
  - apply cons_tail in H. apply Forall_cons in HP as [Hx HP].
    apply andb_true_iff in Hl as [Hxo Hl], Hm as [Hyo Hm].
    apply quoted_inj in H as [-> H]. apply cons_tail in H.
    apply Hx in H as [Hxy H]; [cbn in Hxy; subst y|done..|apply boundary_fields|apply boundary_fields].
    by apply IH in H as [-> ->].
Qed.

(** A number never starts like another kind of value. *)
Lemma dumps_number_cases u s b t :
  string_forall number_char u = true → u ≠ EmptyString →
  u +:+ s = dumps_onto b t →
  (∃ z, b = JInt z) ∨ (∃ f, b = JFloat f).
Proof.
  intros Hu Hne H.
  destruct b as [|[]|z|f|x|l|l]; eauto; exfalso; symmetry in H; revert H;
    (apply number_start; done).
Qed.

Lemma dumps_not_close b s t : String "]"%char s ≠ dumps_onto b t.
Proof.
  destruct b as [|[]|z|f|x|l|l]; try discriminate; cbn [dumps_onto]; apply number_start;
    auto using pretty_number, pretty_Z_nonempty, float_repr_chars, float_repr_nonempty.
Qed.

Lemma dumps_prefix_free a : prefix_free a.
Proof.
  induction a as [|b|z|f|x|l IH|l IH] using json_ind'; intros c s t Ha Hc Hs Ht H.
  3: { destruct (dumps_number_cases (pretty z) s c t) as [[w ->]|[g ->]];
         [apply pretty_number|apply pretty_Z_nonempty|done|..];
       cbn in H; apply number_span in H as [Hn ->];
       auto using pretty_number, float_repr_chars.
       - by apply (inj pretty) in Hn as ->.
       - pose proof (float_repr_not_int g) as Hg. rewrite <- Hn in Hg.
         by rewrite pretty_Z_int in Hg. }
  3: { destruct (dumps_number_cases (float_repr f) s c t) as [[w ->]|[g ->]];
         [apply float_repr_chars|apply float_repr_nonempty|done|..];
       cbn in H; apply number_span in H as [Hn ->];
       auto using pretty_number, float_repr_chars.
       - pose proof (float_repr_not_int f) as Hg. rewrite Hn in Hg.
         by rewrite pretty_Z_int in Hg.
       - by apply float_repr_inj in Hn as ->. }
  all: try destruct b.
  all: destruct c as [|[]|w|g|y|m|m];
    try (exfalso; cbn in H; revert H; apply number_start;
         auto using pretty_number, pretty_Z_nonempty, float_repr_chars, float_repr_nonempty;
         done).
  all: try discriminate H.
  - split; [done|]. by injection H.
  - split; [done|]. by injection H.
  - split; [done|]. by injection H.
  - cbn in H. by apply quoted_inj in H as [-> ->].
  - destruct l as [|x l], m as [|y m].
    + split; [done|]. by do 2 apply cons_tail in H.
    + apply cons_tail in H. by apply dumps_not_close in H.
    + apply cons_tail in H. symmetry in H. by apply dumps_not_close in H.
    + rewrite !dumps_arr in H. apply cons_tail in H.
      apply Forall_cons in IH as [Hx IH]. cbn in Ha, Hc.
      apply andb_true_iff in Ha as [Hxo Ha], Hc as [Hyo Hc].
      apply Hx in H as [-> H]; [|done..|apply boundary_items|apply boundary_items].
      by apply items_onto_inj in H as [-> ->].
  - cbn in Ha, Hc. apply andb_true_iff in Ha as [Hk Ha], Hc as [Hk' Hc].
    rewrite !dumps_obj in H by done.
    destruct l as [|[k x] l], m as [|[k' y] m].
    + split; [done|]. by do 2 apply cons_tail in H.
    + discriminate H.
    + discriminate H.
    + apply cons_tail in H. apply Forall_cons in IH as [Hx IH].
      cbn [forallb fst snd] in Ha, Hc.
      apply andb_true_iff in Ha as [Hxo Ha], Hc as [Hyo Hc].
      cbn [fst snd] in H.
      apply quoted_inj in H as [-> H]. apply cons_tail in H.
      apply Hx in H as [Hxy H]; [cbn in Hxy; subst y|done..|apply boundary_fields|apply boundary_fields].
      by apply fields_onto_inj in H as [-> ->].
Qed.
End canonical.
