(* ===== verification/Reference.v ===== *)
(** * A concrete runtime

    The instance of [Runtime] the witnesses evaluate: the digest is SHA-256,
    stripping is [py_strip], a float is written as sign, mantissa and binary
    exponent, and an instant as the last 18 digits of its microseconds.  It satisfies the laws. *)

From Stdlib Require Import Ascii String.
From stdpp Require Import pretty.
From S2P Require Import Prelude PyStr Sha256 Json.

Definition float_text (f : pyfloat) : string :=
  String (if f_neg f then "-" else "+")%char
    (pretty (f_mant f) +:+ String "e" (pretty (f_expo f))).

(** The last [n] decimal digits of a number. *)
Fixpoint digits (n : nat) (z : Z) (tail : string) : string :=
  match n with
  | O => tail
  | S n => digits n (z / 10) (String (ascii_of_N (48 + Z.to_N (z mod 10))) tail)
  end.

Fixpoint lower_text (s : string) : string :=
  match s with
  | EmptyString => EmptyString
  | String c s => String (lower_ascii c) (lower_text s)
  end.

Definition reference : Runtime := {|
  Json.sha256_hex := Sha256.sha256_hex;
  float_repr := float_text;
  iso_utc := λ t, digits 18 t "us";
  isoformat := λ t, digits 18 t "us+00:00";
  strip := py_strip;
  lower := lower_text;
  word_non_ascii := λ _, true
|}.

Lemma string_forall_app p s t :
  string_forall p (s +:+ t) = string_forall p s && string_forall p t.
Proof.
  induction s as [|c s IH]; [done|]. rewrite app_cons. cbn. rewrite IH.
  by destruct (p c).
Qed.

Lemma pretty_N_go_digit x s :
  string_forall is_digit s = true → string_forall is_digit (pretty_N_go x s) = true.
Proof.
  revert s. induction (N.lt_wf_0 x) as [x _ IH]; intros s Hs.
  assert (x = 0 ∨ 0 < x)%N as [->|?] by lia; [by rewrite pretty_N_go_0|].
  rewrite pretty_N_go_step by done. apply IH; [by apply N.div_lt|].
  cbn [string_forall]. apply andb_true_iff. split; [|done].
  unfold pretty_N_char. by repeat case_match.
Qed.

Lemma pretty_N_digit (n : N) : string_forall is_digit (pretty n) = true.
Proof. unfold pretty, pretty_N. case_decide; [done|]. by apply pretty_N_go_digit. Qed.

Lemma pretty_N_go_length (k : nat) (x : N) s :
  (x < 10 ^ N.of_nat k)%N →
  (String.length (pretty_N_go x s) ≤ k + String.length s)%nat.
Proof.
  revert x s. induction k as [|k IH]; intros x s Hx.
  - assert (x = 0%N) as -> by (cbn in Hx; lia). by rewrite pretty_N_go_0.
  - destruct (decide (x = 0%N)) as [->|Hn]; [rewrite pretty_N_go_0; lia|].
    rewrite pretty_N_go_step by lia.
    etransitivity; [apply IH|cbn; lia].
    rewrite Nat2N.inj_succ, N.pow_succ_r' in Hx. apply N.Div0.div_lt_upper_bound. lia.
Qed.

(** A text of visible characters has nothing to strip. *)
Lemma chars_visible s :
  string_forall visible_char s = true →
  Forall (λ ch, ∃ c, ch = String c EmptyString ∧ visible_char c = true) (chars s).
Proof.
  induction s as [|c s IH]; [constructor|]. cbn. intros [Hc Hs]%andb_true_iff.
  specialize (IH Hs). destruct (chars s) as [|h t]; [by repeat constructor; eauto|].
  apply Forall_cons in IH as [(d & -> & Hd) Ht].
  assert (starts_continuation (String d EmptyString) = false) as ->.
  { cbn. unfold is_continuation, visible_char in *.
    rewrite andb_true_iff, !N.leb_le in Hd. apply andb_false_iff. left. apply N.leb_gt. lia. }
  repeat constructor; eauto.
Qed.

Lemma visible_not_space c : visible_char c = true → is_space (String c EmptyString) = false.
Proof.
  unfold visible_char. cbn. rewrite andb_true_iff, !N.leb_le. intros [??].
  apply orb_false_iff; split; apply andb_false_iff; right; apply N.leb_gt; lia.
Qed.

Lemma py_strip_visible s : string_forall visible_char s = true → py_strip s = s.
Proof.
  intros Hv%chars_visible.
  assert (∀ l, Forall (λ ch, ∃ c, ch = String c EmptyString ∧ visible_char c = true) l →
    drop_spaces l = l) as Hk.
  { intros l Hl. apply drop_spaces_keep. destruct Hl as [|? ? (c & -> & Hc) _]; [done|].
    by apply visible_not_space. }
  unfold py_strip, strip_chars. rewrite (Hk (chars s)) by done.
  rewrite Hk by (by apply Forall_reverse). by rewrite reverse_involutive, concat_chars.
Qed.

#[export] Instance reference_laws : RuntimeLaws reference.
Proof.
  split; cbn.
  - apply sha256_hex_is_hex64.
  - intros f. unfold float_text. cbn [string_forall].
    rewrite string_forall_app. cbn [string_forall].
    rewrite (string_forall_impl is_digit number_char _
               ltac:(intros c Hc; unfold number_char; by rewrite Hc) (pretty_N_digit _)).
    rewrite pretty_number. by destruct (f_neg f).
  - intros f. unfold float_text. cbn [string_forall].
    rewrite string_forall_app. cbn [string_forall].
    rewrite andb_false_iff. right. rewrite andb_false_iff. by right.
  - intros [s m e] [s' m' e'] _ _. unfold float_text. cbn [f_neg f_mant f_expo].
    intros H. injection H as Hs H.
    apply (span_inj is_digit) in H as [Hm He]; [|apply pretty_N_digit..|done|done].
    apply cons_tail, (inj pretty) in He as ->. apply (inj pretty) in Hm as ->.
    by destruct s, s'.
  - intros s. induction s as [|c s IH]; [done|]. cbn. intros [Hc Hs]%andb_true_iff.
    rewrite IH by done. f_equal. revert Hc. clear. unfold plain_char, is_lower, is_digit, lower_ascii.
    rewrite !orb_true_iff, !andb_true_iff, !N.leb_le, bool_decide_eq_true.
    intros [[?|?]| ->]; [| |done].
    all:
      (destruct (N.leb_spec 65 (byte_of c)), (N.leb_spec (byte_of c) 90); cbn; try done; lia).
  - apply py_strip_idem.
  - apply utf8_py_strip.
  - apply py_strip_visible.
  - intros t. reflexivity || (cbn; lia).
Qed.

(** ** A cheap digest

    The same runtime with another digest of the same form: 32 bytes that the
    characters are mixed into one after the other.  The long runs of the
    witnesses are evaluated with it. *)

(** One character into one byte: rotate, then exclusive or. *)
Definition mix (x c : ascii) : ascii :=
  match x, c with
  | Ascii x0 x1 x2 x3 x4 x5 x6 x7, Ascii c0 c1 c2 c3 c4 c5 c6 c7 =>
      Ascii (xorb x7 c0) (xorb x0 c1) (xorb x1 c2) (xorb x2 c3)
            (xorb x3 c4) (xorb x4 c5) (xorb x5 c6) (xorb x6 c7)
  end.
(** The bytes in the order in which the next characters meet them: [front],
    then [back] from its end. *)
Fixpoint mix_all (s : string) (front back : list ascii) : list ascii :=
  match s with
  | EmptyString => front ++ rev back
  | String c s =>
      match front with
      | x :: front => mix_all s front (mix x c :: back)
      | [] =>
          match rev back with
          | x :: front => mix_all s front [mix x c]
          | [] => []
          end
      end
  end.
Definition nibble (b0 b1 b2 b3 : bool) : ascii :=
  hex_digit (N.land (N.b2n b0 + 2 * N.b2n b1 + 4 * N.b2n b2 + 8 * N.b2n b3) 15).
Fixpoint hex_bytes (xs : list ascii) : string :=
  match xs with
  | [] => EmptyString
  | Ascii b0 b1 b2 b3 b4 b5 b6 b7 :: xs =>
      String (nibble b4 b5 b6 b7) (String (nibble b0 b1 b2 b3) (hex_bytes xs))
  end.
Definition quick_digest (s : string) : string :=
  hex_bytes (mix_all s (repeat "a"%char 32) []).

Lemma length_mix_all s front back :
  length (mix_all s front back) = (length front + length back)%nat.
Proof.
  revert front back. induction s as [|c s IH]; intros front back; cbn [mix_all].
  - by rewrite length_app, length_rev.
  - destruct front as [|x front]; [|rewrite IH; cbn; lia].
    destruct (rev back) as [|x front] eqn:Hb.
    + rewrite <- (length_rev back), Hb. done.
    + rewrite IH. rewrite <- (length_rev back), Hb. cbn. lia.
Qed.

Lemma hex_bytes_spec xs :
  String.length (hex_bytes xs) = (2 * length xs)%nat ∧
  string_forall is_lower_hex (hex_bytes xs) = true.
Proof.
  induction xs as [|[] xs [IHl IHf]]; [done|]. cbn [hex_bytes String.length string_forall length].
  split; [lia|]. unfold nibble. by rewrite !hex_digit_lower.
Qed.

Lemma quick_digest_hex64 s : is_hex64 (quick_digest s) = true.
Proof.
  unfold is_hex64, quick_digest.
  destruct (hex_bytes_spec (mix_all s (repeat "a"%char 32) [])) as [Hl Hf].
  rewrite Hf, Hl, length_mix_all. done.
Qed.

Definition quick : Runtime := {|
  Json.sha256_hex := quick_digest;
  float_repr := float_text;
  iso_utc := λ t, digits 18 t "us";
  isoformat := λ t, digits 18 t "us+00:00";
  strip := py_strip;
  lower := lower_text;
  word_non_ascii := λ _, true
|}.

#[export] Instance quick_laws : RuntimeLaws quick.
Proof. destruct reference_laws. split; [exact quick_digest_hex64|assumption..]. Qed.
