(* ===== verification/Privacy.v ===== *)
(** * Privacy guards (telco_domain/privacy.py)

    The regular expression [_LABELED_IDENTIFIER] as a relation [labeled] and
    as the matcher the functions run, the search for raw subscriber
    identifiers in a payload, and redaction.  A payload is a [json] tree:
    mappings are [JObj], sequences and sets are [JArr]. *)

From Stdlib Require Import Ascii String.
From stdpp Require Import pretty.
From S2P Require Import Prelude PyStr Json.

Definition REDACTED : string := "[REDACTED]".

Definition SENSITIVE_KEY_NAMES : list string :=
  [ "imsi"; "msisdn"; "imei"; "imeisv"; "supi"; "suci"; "subscriberid";
    "subscriberidentity"; "subscriberpermanentidentifier";
    "subscriptionconcealedidentifier" ].

(** ** Characters of the pattern *)

Definition dotted_capital_i : string := bytes [196; 176]%N.
Definition dotless_i : string := bytes [196; 177]%N.
Definition long_s : string := bytes [197; 191]%N.
Definition kelvin : string := bytes [226; 132; 170]%N.

(** [\w]: ASCII letters, digits and the underscore, and what the Unicode
    database says of the other characters. *)
Definition is_word `{Runtime} (ch : string) : bool :=
  match ch with
  | String c EmptyString =>
      if (byte_of c <? 128)%N
      then is_digit c || is_lower c || is_upper c || bool_decide (c = "_"%char)
      else word_non_ascii ch
  | _ => word_non_ascii ch
  end.

(** A letter [c] of a label, ignoring case. *)
Definition label_char (c : ascii) (ch : string) : bool :=
  match ch with
  | String d EmptyString => bool_decide (lower_ascii d = c)
  | _ => bool_decide (c = "i"%char) && bool_decide (ch ∈ [dotted_capital_i; dotless_i])
         || bool_decide (c = "s"%char) && bool_decide (ch = long_s)
  end.

(** [[+a-z0-9_-]], ignoring case. *)
Definition value_char (ch : string) : bool :=
  match ch with
  | String c EmptyString =>
      is_digit c || is_lower c || is_upper c || bool_decide (c ∈ ["+"; "_"; "-"]%char)
  | _ => bool_decide (ch ∈ [dotted_capital_i; dotless_i; long_s; kelvin])
  end.

(** [[-:=]]. *)
Definition separator_char (ch : string) : bool :=
  bool_decide (ch ∈ ["-"; ":"; "="]).

Definition labels : list string :=
  [ "imsi"; "msisdn"; "imei"; "imeisv"; "supi"; "suci" ].

(** ** The pattern as a relation *)

Fixpoint label_matches (w : string) (l : list string) : bool :=
  match w, l with
  | EmptyString, [] => true
  | String c w, ch :: l => label_char c ch && label_matches w l
  | _, _ => false
  end.

Definition is_separator (l : list string) : Prop :=
  (∃ a c b, l = a ++ c :: b ∧ forallb is_space a = true ∧
            separator_char c = true ∧ forallb is_space b = true) ∨
  (l ≠ [] ∧ forallb is_space l = true).

(** [labeled l rest]: the pattern matches at the start of [l] after a word
    boundary and leaves [rest].  The optional [imsi-] of the value group is
    made of characters of the value class, so that the group as a whole is a
    run of at least six characters of that class. *)
Definition labeled (l : list string) : Prop :=
  ∃ w lab sep val rest, l = lab ++ sep ++ val ++ rest ∧
    w ∈ labels ∧ label_matches w lab = true ∧ is_separator sep ∧
    forallb value_char val = true ∧ (6 ≤ length val)%nat.

(** ** The matcher *)

Fixpoint span (p : string → bool) (l : list string) : list string * list string :=
  match l with
  | [] => ([], [])
  | x :: l' => if p x then let (a, b) := span p l' in (x :: a, b) else ([], l)
  end.

Fixpoint strip_label (w : string) (l : list string) : option (list string * list string) :=
  match w, l with
  | EmptyString, _ => Some ([], l)
  | String c w, ch :: l =>
      if label_char c ch then
        match strip_label w l with Some (a, b) => Some (ch :: a, b) | None => None end
      else None
  | String _ _, [] => None
  end.

Definition value_at (sep l : list string) : option (list string * list string) :=
  let (val, rest) := span value_char l in
  if (length val <? 6)%nat then None else Some (sep, rest).

(** The separator and the value: the separator alternatives in their order. *)
Definition separated_value (l : list string) : option (list string * list string) :=
  let (a, l1) := span is_space l in
  let first :=
    match l1 with
    | c :: l2 => if separator_char c then
                   let (b, l3) := span is_space l2 in value_at (a ++ c :: b) l3
                 else None
    | [] => None
    end in
  match first with
  | Some r => Some r
  | None => match a with [] => None | _ => value_at a l1 end
  end.

Fixpoint match_labels (ws : list string) (l : list string) :
    option (list string * list string) :=
  match ws with
  | [] => None
  | w :: ws =>
      match strip_label w l with
      | Some (lab, l1) =>
          match separated_value l1 with
          | Some (sep, rest) => Some (lab ++ sep, rest)
          | None => match_labels ws l
          end
      | None => match_labels ws l
      end
  end.

(** The match at one position: the text kept (label and separator) and the
    text after the value.  [prev] is the character before the position. *)
Definition match_here `{Runtime} (prev : option string) (l : list string) :
    option (list string * list string) :=
  match prev with
  | Some ch => if is_word ch then None else match_labels labels l
  | None => match_labels labels l
  end.

(** [_LABELED_IDENTIFIER.search(value)]. *)
Fixpoint search_from `{Runtime} (prev : option string) (l : list string) : bool :=
  isSome (match_here prev l) ||
  match l with [] => false | ch :: l => search_from (Some ch) l end.

Definition has_labeled_identifier `{Runtime} (s : string) : bool :=
  search_from None (chars s).

(** [_LABELED_IDENTIFIER.sub(...)]: after a match the scan goes on behind the
    value.  [n] bounds the number of characters left. *)
Definition last_char (l rest : list string) : option string :=
  last (take (length l - length rest) l).

Fixpoint redact_from `{Runtime} (n : nat) (prev : option string) (l : list string) :
    list string :=
  match n, l with
  | S n, ch :: l' =>
      match match_here prev l with
      | Some (keep, rest) =>
          keep ++ chars REDACTED ++ redact_from n (last_char l rest) rest
      | None => ch :: redact_from n (Some ch) l'
      end
  | _, _ => l
  end.

Definition redact_text `{Runtime} (s : string) : string :=
  let l := chars s in concat (redact_from (length l) None l).

(** ** Keys *)

(** [re.sub(r"[^a-z0-9]", "", key.lower())]; two non-ASCII letters have an
    ASCII letter in their lower case. *)
Definition normalized_char (ch : string) : string :=
  match ch with
  | String c EmptyString =>
      if is_upper c || is_lower c || is_digit c then String (lower_ascii c) EmptyString
      else EmptyString
  | _ => if bool_decide (ch = dotted_capital_i) then "i"
         else if bool_decide (ch = kelvin) then "k" else EmptyString
  end.
Definition normalized_key (key : string) : string :=
  concat (map normalized_char (chars key)).
Definition is_sensitive_key (key : string) : bool :=
  bool_decide (normalized_key key ∈ SENSITIVE_KEY_NAMES).

Definition is_empty (v : json) : bool :=
  match v with
  | JNull | JArr [] | JObj [] => true
  | JStr s => bool_decide (s = EmptyString)
  | _ => false
  end.

(** ** Payloads *)

Section payloads.
Context `{Runtime}.

Definition index_path (path : string) (i : nat) : string :=
  path +:+ "[" +:+ pretty i +:+ "]".

Fixpoint find_sensitive_paths (value : json) (path : string) : list string :=
  match value with
  | JObj fields =>
      (fix go (l : list (string * json)) : list string :=
         match l with
         | [] => []
         | (key, nested) :: l =>
             (if has_labeled_identifier key then [path +:+ ".<sensitive-key>"]
              else
                let nested_path := path +:+ "." +:+ key in
                if is_sensitive_key key && negb (is_empty nested) then [nested_path]
                else find_sensitive_paths nested nested_path) ++ go l
         end) fields
  | JArr items =>
      (fix go (i : nat) (l : list json) : list string :=
         match l with
         | [] => []
         | nested :: l => find_sensitive_paths nested (index_path path i) ++ go (S i) l
         end) 0%nat items
  | JStr s => if has_labeled_identifier s then [path] else []
  | _ => []
  end.

(** [assert_model_safe]: raises on any path. *)
Definition model_safe (value : json) : bool :=
  match find_sensitive_paths value "$" with [] => true | _ => false end.

Fixpoint redact_sensitive_data (value : json) : json :=
  match value with
  | JObj fields =>
      JObj (dict_of_items (map (λ kv,
        ( if has_labeled_identifier kv.1 then REDACTED else kv.1,
          if is_sensitive_key kv.1 && negb (is_empty kv.2) then JStr REDACTED
          else redact_sensitive_data kv.2)) fields))
  | JArr items => JArr (map redact_sensitive_data items)
  | JStr s => JStr (redact_text s)
  | _ => value
  end.
End payloads.

(** ** The matcher decides the pattern *)

Lemma value_char_not_space ch : value_char ch = true → is_space ch = false.
Proof.
  destruct ch as [|c [|d t]].
  - by vm_compute.
  - destruct c as [[] [] [] [] [] [] [] []]; by vm_compute.
  - cbn [value_char]. rewrite bool_decide_eq_true, !elem_of_cons, elem_of_nil.
    intros [->|[->|[->|[->|[]]]]]; by vm_compute.
Qed.

Lemma separator_char_not_space ch : separator_char ch = true → is_space ch = false.
Proof.
  unfold separator_char. rewrite bool_decide_eq_true, !elem_of_cons, elem_of_nil.
  intros [->|[->|[->|[]]]]; by vm_compute.
Qed.

(** The characters a separator is made of. *)
Definition sepish (ch : string) : bool := is_space ch || separator_char ch.

Lemma label_char_value c ch :
  (c ∈ ["i";"m";"s";"d";"n";"e";"v";"u";"p";"c"]%char) →
  label_char c ch = true → value_char ch = true ∧ sepish ch = false.
Proof.
  intros Hc. destruct ch as [|d [|e t]].
  - cbn [label_char]. rewrite orb_true_iff, !andb_true_iff, !bool_decide_eq_true.
    unfold long_s, dotted_capital_i, dotless_i. rewrite !elem_of_cons, elem_of_nil.
    intros [[_ [?|[?|[]]]]|[_ ?]]; discriminate.
  - cbn [label_char]. rewrite bool_decide_eq_true. intros <-. revert Hc.
    destruct d as [[] [] [] [] [] [] [] []]; vm_compute; intros Hc;
      try (split; reflexivity); exfalso; set_solver.
  - cbn [label_char]. rewrite orb_true_iff, !andb_true_iff, !bool_decide_eq_true.
    rewrite !elem_of_cons, elem_of_nil.
    intros [[_ [->|[->|[]]]]|[_ ->]]; by vm_compute.
Qed.

Lemma span_spec p l a b :
  span p l = (a, b) →
  l = a ++ b ∧ forallb p a = true ∧ match b with x :: _ => p x = false | [] => True end.
Proof.
  revert a b. induction l as [|x l IH]; cbn; intros a b.
  - by intros [= <- <-].
  - destruct (p x) eqn:E.
    + destruct (span p l) as [a' b'] eqn:Es. intros [= <- <-].
      destruct (IH _ _ eq_refl) as (-> & Ha & Hb). cbn. by rewrite E.
    + by intros [= <- <-].
Qed.

Lemma span_app p a b :
  forallb p a = true → match b with x :: _ => p x = false | [] => True end →
  span p (a ++ b) = (a, b).
Proof.
  induction a as [|x a IH]; cbn.
  - intros _ Hb. destruct b as [|y b]; cbn; [done|]. by rewrite Hb.
  - rewrite andb_true_iff. intros [-> Ha] Hb. by rewrite IH.
Qed.

(** A run that starts a text is part of the maximal run. *)
Lemma span_length p a b :
  forallb p a = true → (length a ≤ length (span p (a ++ b)).1)%nat.
Proof.
  induction a as [|x a IH]; cbn; [lia|]. rewrite andb_true_iff. intros [-> Ha].
  specialize (IH Ha). destruct (span p (a ++ b)). cbn in *. lia.
Qed.

Lemma strip_label_spec w l a b :
  strip_label w l = Some (a, b) ↔ l = a ++ b ∧ label_matches w a = true.
Proof.
  revert l a b. induction w as [|c w IH]; intros l a b.
  - cbn. destruct a as [|x a]; split.
    + by intros [= ->].
    + by intros [-> _].
    + by intros [= ].
    + by intros [_ ?].
  - destruct l as [|ch l]; cbn.
    + split; [done|]. intros [H Hm]. destruct a; [done|discriminate].
    + destruct (label_char c ch) eqn:E.
      * destruct (strip_label w l) as [[a' b']|] eqn:Es.
        -- apply IH in Es as [-> Hm]. split.
           ++ intros [= <- <-]. cbn. by rewrite E, Hm.
           ++ intros [H Hm']. destruct a as [|x a]; [done|]. cbn in H, Hm'.
              injection H as -> H. apply andb_true_iff in Hm' as [_ Hm'].
              assert (strip_label w (a' ++ b') = Some (a, b)) as H2 by (apply IH; done).
              assert (strip_label w (a' ++ b') = Some (a', b')) as H3 by (apply IH; done).
              rewrite H2 in H3. by injection H3 as -> ->.
        -- split; [done|]. intros [H Hm]. destruct a as [|x a]; [done|]. cbn in H, Hm.
           injection H as -> ->. apply andb_true_iff in Hm as [_ Hm].
           assert (strip_label w (a ++ b) = Some (a, b)) as H2 by (apply IH; done).
           by rewrite Es in H2.
      * split; [done|]. intros [H Hm]. destruct a as [|x a]; [done|]. cbn in H, Hm.
        injection H as -> ->. by rewrite E in Hm.
Qed.

Lemma value_at_spec sep l r :
  value_at sep l = Some r →
  ∃ val rest, l = val ++ rest ∧ r = (sep, rest) ∧ forallb value_char val = true ∧
    (6 ≤ length val)%nat ∧ match rest with x :: _ => value_char x = false | [] => True end.
Proof.
  unfold value_at. destruct (span value_char l) as [val rest] eqn:E.
  apply span_spec in E as (-> & Hv & Hr).
  destruct (Nat.ltb_spec (length val) 6); [done|]. intros [= <-].
  by exists val, rest.
Qed.

Lemma value_at_some sep val rest :
  forallb value_char val = true → (6 ≤ length val)%nat →
  isSome (value_at sep (val ++ rest)) = true.
Proof.
  intros Hv Hl. unfold value_at.
  pose proof (span_length value_char val rest Hv) as H.
  destruct (span value_char (val ++ rest)) as [v r]. cbn in H.
  by destruct (Nat.ltb_spec (length v) 6); [lia|].
Qed.

Lemma separated_value_spec l sep rest :
  separated_value l = Some (sep, rest) →
  is_separator sep ∧ ∃ val, l = sep ++ val ++ rest ∧ forallb value_char val = true ∧
    (6 ≤ length val)%nat ∧ match rest with x :: _ => value_char x = false | [] => True end.
Proof.
  unfold separated_value. destruct (span is_space l) as [a l1] eqn:Ea.
  apply span_spec in Ea as (-> & Ha & _).
  destruct (match l1 with [] => None | c :: l2 => _ end) as [r|] eqn:Ef.
  - intros [= ->]. destruct l1 as [|c l2]; [done|].
    destruct (separator_char c) eqn:Ec; [|done].
    destruct (span is_space l2) as [b l3] eqn:Eb. apply span_spec in Eb as (-> & Hb & _).
    apply value_at_spec in Ef as (val & rest' & -> & [= -> ->] & ? & ? & ?).
    split; [left; by exists a, c, b|]. exists val. split; [|done].
    by rewrite <- !app_assoc.
  - destruct a as [|x a]; [done|]. intros H.
    apply value_at_spec in H as (val & rest' & -> & [= -> ->] & ? & ? & ?).
    split; [by right|]. by exists val.
Qed.

Lemma forallb_app_true {A} (p : A → bool) l k :
  forallb p (l ++ k) = true ↔ forallb p l = true ∧ forallb p k = true.
Proof. by rewrite forallb_app, andb_true_iff. Qed.

Lemma separated_value_some sep val rest :
  is_separator sep → forallb value_char val = true → (6 ≤ length val)%nat →
  isSome (separated_value (sep ++ val ++ rest)) = true.
Proof.
  intros Hs Hv Hl. unfold separated_value.
  assert (∃ v val', val = v :: val' ∧ is_space v = false) as (v & val' & -> & Hns).
  { destruct val as [|v val]; [cbn in Hl; lia|]. exists v, val. split; [done|].
    apply value_char_not_space. by apply andb_true_iff in Hv as [? _]. }
  destruct Hs as [(a & c & b & -> & Ha & Hc & Hb)|[Hne Ha]].
  - rewrite <- !app_assoc, span_app; [|done|by apply separator_char_not_space].
    cbn [app]. rewrite Hc, span_app by done.
    pose proof (value_at_some (a ++ c :: b) (v :: val') rest Hv Hl) as H.
    by destruct (value_at _ _).
  - rewrite span_app by done.
    pose proof (value_at_some sep (v :: val') rest Hv Hl) as H.
    destruct sep as [|x sep]; [done|].
    by destruct (match (v :: val') ++ rest with [] => None | c :: l2 => _ end), (value_at _ _).
Qed.

Lemma match_labels_spec ws l keep rest :
  match_labels ws l = Some (keep, rest) →
  ∃ w lab sep val, keep = lab ++ sep ∧ l = lab ++ sep ++ val ++ rest ∧ w ∈ ws ∧
    label_matches w lab = true ∧ is_separator sep ∧
    forallb value_char val = true ∧ (6 ≤ length val)%nat ∧
    match rest with x :: _ => value_char x = false | [] => True end.
Proof.
  induction ws as [|w ws IH]; cbn; [done|].
  assert (match_labels ws l = Some (keep, rest) → _) as IH' by exact IH. clear IH.
  destruct (strip_label w l) as [[lab l1]|] eqn:El.
  - destruct (separated_value l1) as [[sep rest']|] eqn:Es.
    + intros [= <- <-]. apply strip_label_spec in El as [-> Hm].
      apply separated_value_spec in Es as (Hs & val & -> & ? & ? & ?).
      exists w, lab, sep, val. repeat (split; [done || by left|]). done.
    + intros H%IH'. destruct H as (w' & H). exists w'. naive_solver set_solver.
  - intros H%IH'. destruct H as (w' & H). exists w'. naive_solver set_solver.
Qed.

Lemma match_labels_some ws w lab sep val rest :
  w ∈ ws → label_matches w lab = true → is_separator sep →
  forallb value_char val = true → (6 ≤ length val)%nat →
  isSome (match_labels ws (lab ++ sep ++ val ++ rest)) = true.
Proof.
  intros Hw Hm Hs Hv Hl. induction ws as [|w' ws IH]; [by apply not_elem_of_nil in Hw|].
  cbn. apply elem_of_cons in Hw as [<-|Hw].
  - assert (strip_label w (lab ++ sep ++ val ++ rest) = Some (lab, sep ++ val ++ rest)) as ->
      by (by apply strip_label_spec).
    pose proof (separated_value_some sep val rest Hs Hv Hl) as H.
    by destruct (separated_value _) as [[??]|].
  - destruct (strip_label w' _) as [[? l1]|]; [|by apply IH].
    destruct (separated_value l1) as [[??]|]; [done|by apply IH].
Qed.

(** The matcher finds a match exactly where the pattern has one. *)
Lemma match_labels_labeled l : isSome (match_labels labels l) = true ↔ labeled l.
Proof.
  split.
  - destruct (match_labels labels l) as [[keep rest]|] eqn:E; [|done]. intros _.
    apply match_labels_spec in E as (w & lab & sep & val & _ & H).
    exists w, lab, sep, val, rest. naive_solver.
  - intros (w & lab & sep & val & rest & -> & Hw & Hm & Hs & Hv & Hl).
    by eapply match_labels_some.
Qed.

(** ** Redaction leaves nothing to match *)

(** A match uses no character outside its classes, in particular no [[]. *)
Definition in_pattern (ch : string) : bool := value_char ch || sepish ch.

Lemma label_chars w c : w ∈ labels → c ∈ list_ascii_of_string w →
  c ∈ ["i";"m";"s";"d";"n";"e";"v";"u";"p";"c"]%char.
Proof.
  unfold labels. rewrite !elem_of_cons, elem_of_nil.
  intros [->|[->|[->|[->|[->|[->|[]]]]]]]; cbn; set_solver.
Qed.

Lemma label_matches_forall (P : string → bool) w l :
  (∀ c, c ∈ list_ascii_of_string w → ∀ ch, label_char c ch = true → P ch = true) →
  label_matches w l = true → forallb P l = true.
Proof.
  revert l. induction w as [|c w IH]; intros [|ch l] Hc; cbn; try done.
  rewrite !andb_true_iff. intros [Hch Hm]. split.
  - apply (Hc c); [cbn; set_solver|done].
  - apply IH; [|done]. intros d Hd. apply Hc. cbn. set_solver.
Qed.

Lemma label_value w l :
  w ∈ labels → label_matches w l = true →
  forallb value_char l = true ∧ forallb (λ ch, negb (sepish ch)) l = true.
Proof.
  intros Hw. split; eapply label_matches_forall; try done;
    intros c Hc ch Hm; pose proof (label_char_value c ch (label_chars w c Hw Hc) Hm) as [? Hs];
    [done|by rewrite Hs].
Qed.

Lemma separator_sepish sep : is_separator sep → forallb sepish sep = true ∧ sep ≠ [].
Proof.
  assert (∀ a, forallb is_space a = true → forallb sepish a = true) as Hsp.
  { intros a. rewrite !forallb_true_iff. intros H x Hx. unfold sepish. by rewrite H. }
  intros [(a & c & b & -> & Ha & Hc & Hb)|[Hne Ha]]; [|by auto].
  rewrite forallb_app_true. cbn. rewrite (Hsp a), (Hsp b) by done.
  unfold sepish at 1. rewrite Hc, orb_true_r. split; [done|]. by destruct a.
Qed.

Lemma forallb_mono {A} (p q : A → bool) l :
  (∀ x, p x = true → q x = true) → forallb p l = true → forallb q l = true.
Proof. rewrite !forallb_true_iff. naive_solver. Qed.

(** The matched text is a prefix made of characters of the pattern. *)
Lemma labeled_prefix l :
  labeled l → ∃ m rest, l = m ++ rest ∧ forallb in_pattern m = true ∧
    ∀ rest', labeled (m ++ rest').
Proof.
  intros (w & lab & sep & val & rest & -> & Hw & Hm & Hs & Hv & Hl).
  exists (lab ++ sep ++ val), rest. split; [by rewrite <- !app_assoc|]. split.
  - rewrite !forallb_app_true. split; [|split].
    + apply (forallb_mono value_char); [|by apply (label_value w)].
      unfold in_pattern. by intros x ->.
    + apply (forallb_mono sepish); [|by apply separator_sepish].
      unfold in_pattern. intros x ->. by rewrite orb_true_r.
    + apply (forallb_mono value_char); [|done]. unfold in_pattern. by intros x ->.
  - intros rest'. exists w, lab, sep, val, rest'. by rewrite <- !app_assoc.
Qed.

(** Replacing the text from an opening bracket on cannot remove a match that
    lies before it. *)
Lemma labeled_cut p z k : labeled (p ++ "["%string :: z) → labeled (p ++ k).
Proof.
  intros (m & rest & He & Hm & Hstable)%labeled_prefix.
  assert (∃ x, p = m ++ x) as [x ->].
  { apply app_eq_app in He as (x & [[-> He]|[-> He]]); [by exists x|].
    destruct x as [|y x]; [exists []; by rewrite !app_nil_r|]. exfalso.
    cbn in He. injection He as <- _.
    rewrite forallb_app_true in Hm. destruct Hm as [_ Hm]. by vm_compute in Hm. }
  rewrite <- app_assoc. apply Hstable.
Qed.

(** A label followed by its separator holds no match of its own. *)
Lemma separator_few_values (sep b : list string) :
  is_separator sep → b `suffix_of` sep →
  (length (filter (λ ch, is_space ch = false) b) ≤ 1)%nat.
Proof.
  intros Hs [a Ha].
  assert (length (filter (λ ch, is_space ch = false) sep) ≤ 1)%nat as Hle.
  { assert (∀ a, forallb is_space a = true → filter (λ ch, is_space ch = false) a = []) as Hn.
    { clear. induction a as [|x a IH]; [done|]. cbn [forallb].
      rewrite andb_true_iff. intros [Hx Ha].
      rewrite filter_cons_False by congruence. auto. }
    destruct Hs as [(c & d & e & -> & Hc & _ & He)|[_ Hsp]].
    - rewrite filter_app, (Hn c) by done. rewrite filter_cons, (Hn e) by done.
      by case_decide; cbn; lia.
    - rewrite Hn by done. cbn. lia. }
  rewrite Ha, filter_app, length_app in Hle. lia.
Qed.

Lemma label_then_separator_unmatched lab sep k z :
  forallb (λ ch, negb (sepish ch)) lab = true → is_separator sep →
  k `suffix_of` (lab ++ sep) → ¬ labeled (k ++ "["%string :: z).
Proof.
  intros Hlab Hsep [h Hk] (w & lab1 & sep1 & val1 & rest & He & Hw & Hm & Hs1 & Hv1 & Hl1).
  (* the match lies in [k] *)
  assert (∃ x, k = (lab1 ++ sep1 ++ val1) ++ x) as [x Hx].
  { rewrite !app_assoc in He. apply app_eq_app in He as (x & [[-> He]|[Hx He]]).
    - exists x. by rewrite <- !app_assoc.
    - destruct x as [|y x].
      { exists []. rewrite app_nil_r in Hx. by rewrite app_nil_r, <- Hx, <- app_assoc. }
      exfalso. cbn in He. injection He as <- _.
      assert ("["%string ∈ (lab1 ++ sep1) ++ val1) as Hin by (rewrite Hx; set_solver).
      apply label_value in Hm as [Hm _]; [|done].
      apply separator_sepish in Hs1 as [Hs1 _].
      rewrite !elem_of_app in Hin. rewrite forallb_true_iff in Hm, Hs1, Hv1.
      destruct Hin as [[Hin|Hin]|Hin]; [apply Hm in Hin|apply Hs1 in Hin|apply Hv1 in Hin];
        by vm_compute in Hin. }
  apply separator_sepish in Hs1 as [Hs1 Hne].
  destruct sep1 as [|c sep1]; [done|]. cbn in Hs1. apply andb_true_iff in Hs1 as [Hc _].
  (* what follows the inner label is in the outer separator *)
  assert (∃ m, sep = m ++ (c :: sep1) ++ val1 ++ x) as [m Hm'].
  { assert (lab ++ sep = (h ++ lab1) ++ c :: sep1 ++ val1 ++ x) as Hk2.
    { rewrite Hk, Hx. by rewrite <- !app_assoc. }
    apply app_eq_app in Hk2 as (m & [[-> Hk2]|[_ Hk2]]).
    - destruct m as [|y m]; [by exists []|]. cbn in Hk2. injection Hk2 as <- _.
      rewrite forallb_app_true in Hlab. destruct Hlab as [_ Hlab]. cbn in Hlab.
      by rewrite Hc in Hlab.
    - by exists m. }
  assert (length (filter (λ ch, is_space ch = false) (val1 ++ x)) ≤ 1)%nat as Hle.
  { apply (separator_few_values sep); [done|].
    exists (m ++ c :: sep1). rewrite Hm'. by rewrite <- !app_assoc. }
  rewrite filter_app, length_app in Hle.
  assert (filter (λ ch, is_space ch = false) val1 = val1) as Hf; [|rewrite Hf in Hle; lia].
  clear -Hv1. induction val1 as [|y v IH]; [done|]. cbn [forallb] in Hv1.
  apply andb_true_iff in Hv1 as [Hy Hv]. rewrite filter_cons_True by (by apply value_char_not_space).
  by rewrite IH.
Qed.

Section redaction.
Context `{Runtime}.

Lemma match_here_labeled prev l :
  isSome (match_here prev l) = true ↔
  match prev with Some ch => is_word ch = false | None => True end ∧ labeled l.
Proof.
  unfold match_here. rewrite <- match_labels_labeled.
  generalize (match_labels labels l). intros m.
  destruct prev as [ch|]; [destruct (is_word ch)|]; cbn; naive_solver.
Qed.

Lemma match_here_Some prev l keep rest :
  match_here prev l = Some (keep, rest) →
  ∃ w lab sep val, keep = lab ++ sep ∧ l = lab ++ sep ++ val ++ rest ∧ w ∈ labels ∧
    label_matches w lab = true ∧ is_separator sep ∧
    forallb value_char val = true ∧ (6 ≤ length val)%nat ∧
    match rest with x :: _ => value_char x = false | [] => True end.
Proof.
  intros E. apply match_labels_spec. revert E. unfold match_here.
  destruct prev as [ch|]; [destruct (is_word ch)|]; intros E; [discriminate E|exact E..].
Qed.

Lemma REDACTED_head : chars REDACTED = "["%string :: tail (chars REDACTED).
Proof. reflexivity. Qed.

(** The redacted text agrees with the text up to a replaced value. *)
Lemma redact_from_shape n prev l :
  redact_from n prev l = l ∨
  ∃ p k z, l = p ++ k ∧ redact_from n prev l = p ++ "["%string :: z.
Proof.
  revert prev l. induction n as [|n IH]; intros prev l; cbn; [by left|].
  destruct l as [|ch l]; [by left|].
  destruct (match_here prev (ch :: l)) as [[keep rest]|] eqn:E.
  - right. apply match_here_Some in E as (w & lab & sep & val & -> & He & _).
    exists (lab ++ sep), (val ++ rest),
      (tail (chars REDACTED) ++ redact_from n (last_char (ch :: l) rest) rest).
    split; [by rewrite He, <- app_assoc|]. by rewrite REDACTED_head.
  - destruct (IH (Some ch) l) as [->|(p & k & z & -> & ->)]; [by left|right].
    by exists (ch :: p), k, z.
Qed.

Lemma search_from_skip prev prev' l :
  isSome (match_here prev l) = false → isSome (match_here prev' l) = false →
  search_from prev l = search_from prev' l.
Proof. destruct l; cbn [search_from]; by intros -> ->. Qed.

Lemma search_from_split prev a b :
  (∀ k, k `suffix_of` a → k ≠ [] → ¬ labeled (k ++ b)) → a ≠ [] →
  search_from prev (a ++ b) = search_from (last a) b.
Proof.
  revert prev. induction a as [|x a IH]; intros prev Hk Hne; [done|].
  cbn [app search_from].
  assert (isSome (match_here prev (x :: a ++ b)) = false) as ->.
  { apply not_true_iff_false. rewrite match_here_labeled. intros [_ Hl].
    by apply (Hk (x :: a)). }
  destruct a as [|y a]; [done|]. cbn [orb].
  rewrite IH; [done| |done]. intros k Hs. apply Hk. by apply suffix_cons_r.
Qed.

(** A match starts with the first letter of a label. *)
Lemma labeled_head x l :
  labeled (x :: l) → label_char "i" x || label_char "m" x || label_char "s" x = true.
Proof.
  intros (w & lab & sep & val & rest & He & Hw & Hm & _).
  unfold labels in Hw. rewrite !elem_of_cons, elem_of_nil in Hw.
  destruct lab as [|y lab].
  - exfalso. by destruct Hw as [->|[->|[->|[->|[->|[->|[]]]]]]].
  - cbn in He. injection He as -> _. rewrite !orb_true_iff.
    destruct Hw as [->|[->|[->|[->|[->|[->|[]]]]]]]; cbn in Hm;
      apply andb_true_iff in Hm as [Hm _]; auto.
Qed.

Lemma labeled_head_value x l : labeled (x :: l) → value_char x = true.
Proof.
  intros Hl%labeled_head. rewrite !orb_true_iff in Hl.
  destruct Hl as [[Hl|Hl]|Hl]; eapply label_char_value; try exact Hl; set_solver.
Qed.

Lemma redacted_unlabeled k z :
  k `suffix_of` (chars REDACTED) → k ≠ [] → ¬ labeled (k ++ z).
Proof.
  intros [h Hh] Hne Hl. destruct k as [|x k]; [done|].
  apply labeled_head in Hl.
  assert (forallb (λ x, negb (label_char "i" x || label_char "m" x || label_char "s" x))
            (chars REDACTED) = true) as Hf by reflexivity.
  rewrite Hh, forallb_true_iff in Hf. specialize (Hf x).
  rewrite Hl in Hf. discriminate Hf. set_solver.
Qed.

Lemma redact_from_clean n prev l :
  (length l ≤ n)%nat → search_from prev (redact_from n prev l) = false.
Proof.
  revert prev l. induction n as [|n IH]; intros prev l Hn.
  { destruct l; [|cbn in Hn; lia]. cbn. unfold match_here.
    by destruct prev as [c|]; [destruct (is_word c)|]. }
  destruct l as [|ch l].
  { cbn. unfold match_here. by destruct prev as [c|]; [destruct (is_word c)|]. }
  cbn [redact_from]. cbn in Hn.
  destruct (match_here prev (ch :: l)) as [[keep rest]|] eqn:E.
  - apply match_here_Some in E
      as (w & lab & sep & val & -> & He & Hw & Hm & Hs & Hv & Hl & Hr).
    pose proof (label_value w lab Hw Hm) as [_ Hlab].
    assert (length rest ≤ n)%nat as Hrest.
    { apply (f_equal length) in He. rewrite !length_app in He. cbn in He. lia. }
    pose proof (IH (last_char (ch :: l) rest) rest Hrest) as IHr.
    destruct (separator_sepish sep Hs) as [_ Hne].
    rewrite search_from_split.
    2: { intros k Hk _. rewrite REDACTED_head.
         by apply (label_then_separator_unmatched lab sep). }
    2: { by destruct lab. }
    rewrite search_from_split; [|intros k; apply redacted_unlabeled|done].
    rewrite <- IHr. apply search_from_skip; apply not_true_iff_false;
      rewrite match_here_labeled; intros [_ Hlr].
    all: destruct rest as [|x rest];
      [destruct n; cbn in Hlr; apply match_labels_labeled in Hlr; done|].
    all: destruct (redact_from_shape n (last_char (ch :: l) (x :: rest)) (x :: rest))
      as [Hsh|(p & k & z & Hp & Hsh)]; rewrite Hsh in Hlr.
    all: try (apply labeled_head_value in Hlr; congruence).
    all: apply (labeled_cut p z k) in Hlr; rewrite <- Hp in Hlr;
      apply labeled_head_value in Hlr; congruence.
  - cbn [search_from].
    assert (isSome (match_here prev (ch :: redact_from n (Some ch) l)) = false) as ->.
    { apply not_true_iff_false. rewrite match_here_labeled. intros [Hp Hl].
      assert (isSome (match_here prev (ch :: l)) = true) as Hc; [|by rewrite E in Hc].
      apply match_here_labeled. split; [done|].
      destruct (redact_from_shape n (Some ch) l) as [Hsh|(p & k & z & -> & Hsh)];
        rewrite Hsh in Hl; [done|]. by apply (labeled_cut (ch :: p) z k) in Hl. }
    cbn [orb]. apply IH. lia.
Qed.
End redaction.

(** The character lists of redacted text are those of a string again. *)
Section redacted_text.
Context `{Runtime}.

Lemma redact_from_Forall (P : string → Prop) n prev l :
  Forall P (chars REDACTED) → Forall P l → Forall P (redact_from n prev l).
Proof.
  intros HR. revert prev l. induction n as [|n IH]; intros prev l Hl; [done|].
  cbn. destruct l as [|ch l]; [done|].
  destruct (match_here prev (ch :: l)) as [[keep rest]|] eqn:E.
  - apply match_here_Some in E as (w & lab & sep & val & -> & He & _).
    rewrite He, !Forall_app in Hl. rewrite !Forall_app. naive_solver.
  - apply Forall_cons in Hl as [Hch Hl]. constructor; auto.
Qed.

Lemma redact_from_char_list n l :
  char_list l → char_list (redact_from n None l).
Proof.
  intros [Hc Hs]. split.
  { apply redact_from_Forall; [|done]. by repeat constructor. }
  assert (Forall (λ s, starts_continuation s = false) (chars REDACTED)) as HR
    by (by repeat constructor).
  destruct l as [|ch l]; [by destruct n|]. cbn in Hs.
  destruct n as [|n]; [done|]. cbn [redact_from].
  destruct (match_here None (ch :: l)) as [[keep rest]|] eqn:E.
  - apply match_here_Some in E as (w & lab & sep & val & -> & He & Hw & Hm & Hsp & _).
    destruct lab as [|x lab]; [exfalso; unfold labels in Hw; set_solver|].
    cbn in He. injection He as -> ->. rewrite <- !app_comm_cons. cbn [tail].
    rewrite !Forall_app in Hs. rewrite !Forall_app.
    repeat split; try naive_solver. apply redact_from_Forall; naive_solver.
  - cbn [tail]. by apply redact_from_Forall.
Qed.

(** The text [redact_text] returns has no labelled identifier. *)
Lemma redact_text_unlabeled s : has_labeled_identifier (redact_text s) = false.
Proof.
  unfold has_labeled_identifier, redact_text.
  rewrite chars_concat by (apply redact_from_char_list, char_list_chars).
  by apply redact_from_clean.
Qed.

(** Text without one is returned as it is. *)
Lemma redact_text_unchanged s : has_labeled_identifier s = false → redact_text s = s.
Proof.
  assert (∀ n prev l, search_from prev l = false → redact_from n prev l = l) as Hgo;
    [|intros Hs; unfold redact_text; rewrite Hgo by done; apply concat_chars].
  clear s. induction n as [|n IH]; intros prev l; [done|].
  destruct l as [|ch l]; [done|]. cbn [search_from redact_from].
  rewrite orb_false_iff. intros [Hm Hs].
  destruct (match_here prev (ch :: l)) as [[??]|]; [done|]. by rewrite IH.
Qed.
End redacted_text.

#[local] Set Warnings "-register-all".
(** ** What the guards promise of a payload *)
Section payload_specs.
Context `{Runtime}.

(** No raw subscriber identifier anywhere: no labelled text in a string or a
    key, and nothing under a key that names one. *)
Inductive identifier_free : json → Prop :=
| free_null : identifier_free JNull
| free_bool b : identifier_free (JBool b)
| free_int z : identifier_free (JInt z)
| free_float f : identifier_free (JFloat f)
| free_str s : has_labeled_identifier s = false → identifier_free (JStr s)
| free_arr l : Forall identifier_free l → identifier_free (JArr l)
| free_obj l :
    Forall (λ kv, has_labeled_identifier kv.1 = false ∧
      (is_sensitive_key kv.1 = true → is_empty kv.2 = true) ∧ identifier_free kv.2) l →
    identifier_free (JObj l).

Lemma app_nil_iff {A} (l k : list A) : l ++ k = [] ↔ l = [] ∧ k = [].
Proof. split; [apply app_eq_nil|by intros [-> ->]]. Qed.

Lemma is_empty_free v : is_empty v = true → identifier_free v.
Proof.
  destruct v as [| | | |s|[|]|[|]]; cbn; try discriminate; try by repeat constructor.
  rewrite bool_decide_eq_true. intros ->. constructor. unfold has_labeled_identifier. cbn.
  reflexivity.
Qed.

Lemma find_sensitive_paths_nil v path :
  find_sensitive_paths v path = [] ↔ identifier_free v.
Proof.
  revert path. induction v as [|b|z|f|s|l IH|l IH] using json_ind'; intros path;
    cbn [find_sensitive_paths]; try (by split; [constructor|]).
  - destruct (has_labeled_identifier s) eqn:E; split; try done.
    + intros Hi. inversion Hi. congruence.
    + by constructor.
  - transitivity (Forall identifier_free l).
    + generalize 0%nat. induction IH as [|v l Hv _ IHl]; intros i; [done|].
      rewrite app_nil_iff, Hv, Forall_cons, IHl. done.
    + split; [by constructor|by inversion 1].
  - transitivity (Forall (λ kv, has_labeled_identifier kv.1 = false ∧
      (is_sensitive_key kv.1 = true → is_empty kv.2 = true) ∧ identifier_free kv.2) l).
    + induction IH as [|[k v] l Hv _ IHl]; [done|]. cbn [fst snd] in *.
      rewrite app_nil_iff, Forall_cons, IHl. cbn [fst snd]. apply and_iff_compat_r.
      destruct (has_labeled_identifier k); [naive_solver|].
      destruct (is_sensitive_key k) eqn:Ek; cbn [andb].
      * destruct (is_empty v) eqn:Ev; cbn [negb]; [|naive_solver].
        rewrite Hv. naive_solver.
      * rewrite Hv. naive_solver.
    + split; [by constructor|by inversion 1].
Qed.

Lemma model_safe_free v : model_safe v = true ↔ identifier_free v.
Proof.
  rewrite <- (find_sensitive_paths_nil v "$"). unfold model_safe.
  by destruct (find_sensitive_paths v "$").
Qed.

(** What redaction leaves: as [identifier_free], but a key that names an
    identifier keeps the mark [REDACTED]. *)
Inductive redacted : json → Prop :=
| red_null : redacted JNull
| red_bool b : redacted (JBool b)
| red_int z : redacted (JInt z)
| red_float f : redacted (JFloat f)
| red_str s : has_labeled_identifier s = false → redacted (JStr s)
| red_arr l : Forall redacted l → redacted (JArr l)
| red_obj l :
    Forall (λ kv, has_labeled_identifier kv.1 = false ∧
      (is_sensitive_key kv.1 = true → is_empty kv.2 = true ∨ kv.2 = JStr REDACTED) ∧
      redacted kv.2) l →
    redacted (JObj l).

Lemma REDACTED_unlabeled : has_labeled_identifier REDACTED = false.
Proof. reflexivity. Qed.

Lemma REDACTED_not_sensitive : is_sensitive_key REDACTED = false.
Proof. reflexivity. Qed.

Lemma is_empty_redact v : is_empty v = true → redact_sensitive_data v = v.
Proof.
  destruct v as [| | | |s|[|]|[|]]; cbn; try done.
  rewrite bool_decide_eq_true. by intros ->.
Qed.

Lemma redact_sensitive_data_redacted v : redacted (redact_sensitive_data v).
Proof.
  induction v as [|b|z|f|s|l IH|l IH] using json_ind'; cbn; try by constructor.
  - constructor. apply redact_text_unlabeled.
  - constructor. by apply Forall_fmap.
  - constructor. apply Forall_forall. intros kv Hkv%elem_of_dict_of_items.
    apply list_elem_of_fmap in Hkv as ([k v] & -> & Hin). cbn [fst snd].
    rewrite Forall_forall in IH. specialize (IH _ Hin). cbn in IH.
    split; [|split].
    + destruct (has_labeled_identifier k) eqn:E; [apply REDACTED_unlabeled|done].
    + destruct (has_labeled_identifier k); [by rewrite REDACTED_not_sensitive|].
      intros ->. cbn [andb].
      destruct (is_empty v) eqn:Ev; cbn [negb]; [left|by right].
      by rewrite is_empty_redact.
    + destruct (is_sensitive_key k && negb (is_empty v)); [|done].
      constructor. apply REDACTED_unlabeled.
Qed.
End payload_specs.
