(* ===== verification/Models.v ===== *)
(** * Domain models (telco_domain/models.py)

    One Module per pydantic model: a Record [t] with the model's fields, the
    checks pydantic runs on them ([check]: the constraints the class declares,
    then its [model_validator]) and the model's methods.  A check is named by
    the message of the error it raises.  [schema_version] is the constant
    ["1.0"] and has no field.  A value of a Record stands for an instance
    pydantic has built, whose strings are stripped and whose datetimes are
    UTC: a datetime is its number of microseconds since the epoch. *)

From Stdlib Require Import Ascii String.
From S2P Require Import Prelude PyStr Json.

Definition SCHEMA_VERSION : string := "1.0".
Definition MAX_INCIDENT_SOURCE_EVENTS : Z := 1000.

(** ** Datetimes *)

(** A [datetime]: its local clock reading and, when aware, its UTC offset. *)
Inductive pydatetime :=
| Naive (local : Z)
| Aware (local offset : Z).
#[export] Instance pydatetime_eq_dec : EqDecision pydatetime.
Proof. solve_decision. Defined.

(** [_as_utc]. *)
Definition as_utc (value : pydatetime) : result string Z :=
  match value with
  | Naive _ => Err "datetime values must include a timezone"
  | Aware local offset => Ok (local - offset)
  end.

(** ** Annotated strings: what holds after stripping *)

(** [NonEmptyStr] and [Identifier]. *)
Definition nonempty_str (s : string) : bool := (1 <=? py_len s) && (py_len s <=? 1024).
Definition identifier (s : string) : bool := (1 <=? py_len s) && (py_len s <=? 256).
Definition sha256_digest (s : string) : bool := is_hex64 s.

Definition opt_check (p : string → bool) (o : option string) : bool :=
  match o with Some s => p s | None => true end.

Module IncidentStatus.
Inductive t :=
| DETECTED
| TRIAGED
| INVESTIGATING
| RCA_COMPLETE
| AWAITING_APPROVAL
| REMEDIATING
| VERIFYING
| RESOLVED
| CLOSED
| DUPLICATE
| REJECTED
| FAILED
| CANCELLED
| REOPENED.
#[global] Instance eq_dec : EqDecision t.
Proof. solve_decision. Defined.
Definition value (x : t) : string :=
  match x with
  | DETECTED => "DETECTED"
  | TRIAGED => "TRIAGED"
  | INVESTIGATING => "INVESTIGATING"
  | RCA_COMPLETE => "RCA_COMPLETE"
  | AWAITING_APPROVAL => "AWAITING_APPROVAL"
  | REMEDIATING => "REMEDIATING"
  | VERIFYING => "VERIFYING"
  | RESOLVED => "RESOLVED"
  | CLOSED => "CLOSED"
  | DUPLICATE => "DUPLICATE"
  | REJECTED => "REJECTED"
  | FAILED => "FAILED"
  | CANCELLED => "CANCELLED"
  | REOPENED => "REOPENED"
  end.
Definition members : list t :=
  [DETECTED; TRIAGED; INVESTIGATING; RCA_COMPLETE; AWAITING_APPROVAL; REMEDIATING; VERIFYING; RESOLVED; CLOSED; DUPLICATE; REJECTED; FAILED; CANCELLED; REOPENED].
End IncidentStatus.

Module IncidentSeverity.
Inductive t :=
| UNKNOWN
| INFO
| LOW
| MEDIUM
| HIGH
| CRITICAL.
#[global] Instance eq_dec : EqDecision t.
Proof. solve_decision. Defined.
Definition value (x : t) : string :=
  match x with
  | UNKNOWN => "UNKNOWN"
  | INFO => "INFO"
  | LOW => "LOW"
  | MEDIUM => "MEDIUM"
  | HIGH => "HIGH"
  | CRITICAL => "CRITICAL"
  end.
Definition members : list t :=
  [UNKNOWN; INFO; LOW; MEDIUM; HIGH; CRITICAL].
End IncidentSeverity.

Module Technology.
Inductive t :=
| UNKNOWN
| LTE
| FIVE_G_NSA
| FIVE_G_SA.
#[global] Instance eq_dec : EqDecision t.
Proof. solve_decision. Defined.
Definition value (x : t) : string :=
  match x with
  | UNKNOWN => "UNKNOWN"
  | LTE => "LTE"
  | FIVE_G_NSA => "5G_NSA"
  | FIVE_G_SA => "5G_SA"
  end.
Definition members : list t :=
  [UNKNOWN; LTE; FIVE_G_NSA; FIVE_G_SA].
End Technology.

Module ResourceType.
Inductive t :=
| LOCATION
| NETWORK_SERVICE
| NETWORK_NODE
| ENODEB
| CELL
| GNB
| NR_CELL
| NETWORK_SLICE
| OTHER.
#[global] Instance eq_dec : EqDecision t.
Proof. solve_decision. Defined.
Definition value (x : t) : string :=
  match x with
  | LOCATION => "LOCATION"
  | NETWORK_SERVICE => "NETWORK_SERVICE"
  | NETWORK_NODE => "NETWORK_NODE"
  | ENODEB => "ENODEB"
  | CELL => "CELL"
  | GNB => "GNB"
  | NR_CELL => "NR_CELL"
  | NETWORK_SLICE => "NETWORK_SLICE"
  | OTHER => "OTHER"
  end.
Definition members : list t :=
  [LOCATION; NETWORK_SERVICE; NETWORK_NODE; ENODEB; CELL; GNB; NR_CELL; NETWORK_SLICE; OTHER].
End ResourceType.

Module KpiComparator.
Inductive t :=
| LESS_THAN
| LESS_THAN_OR_EQUAL
| GREATER_THAN
| GREATER_THAN_OR_EQUAL
| EQUAL
| NOT_EQUAL.
#[global] Instance eq_dec : EqDecision t.
Proof. solve_decision. Defined.
Definition value (x : t) : string :=
  match x with
  | LESS_THAN => "LT"
  | LESS_THAN_OR_EQUAL => "LTE"
  | GREATER_THAN => "GT"
  | GREATER_THAN_OR_EQUAL => "GTE"
  | EQUAL => "EQ"
  | NOT_EQUAL => "NE"
  end.
Definition members : list t :=
  [LESS_THAN; LESS_THAN_OR_EQUAL; GREATER_THAN; GREATER_THAN_OR_EQUAL; EQUAL; NOT_EQUAL].
End KpiComparator.

Module EvidenceType.
Inductive t :=
| METRIC
| TRACE
| LOG
| RULE
| DOCUMENT
| PRIOR_INCIDENT
| TEST_RESULT
| TOPOLOGY
| OTHER.
#[global] Instance eq_dec : EqDecision t.
Proof. solve_decision. Defined.
Definition value (x : t) : string :=
  match x with
  | METRIC => "METRIC"
  | TRACE => "TRACE"
  | LOG => "LOG"
  | RULE => "RULE"
  | DOCUMENT => "DOCUMENT"
  | PRIOR_INCIDENT => "PRIOR_INCIDENT"
  | TEST_RESULT => "TEST_RESULT"
  | TOPOLOGY => "TOPOLOGY"
  | OTHER => "OTHER"
  end.
Definition members : list t :=
  [METRIC; TRACE; LOG; RULE; DOCUMENT; PRIOR_INCIDENT; TEST_RESULT; TOPOLOGY; OTHER].
End EvidenceType.

Module ReportStatus.
Inductive t :=
| DRAFT
| PROPOSED
| APPROVED
| PERSISTED
| SUPERSEDED.
#[global] Instance eq_dec : EqDecision t.
Proof. solve_decision. Defined.
Definition value (x : t) : string :=
  match x with
  | DRAFT => "DRAFT"
  | PROPOSED => "PROPOSED"
  | APPROVED => "APPROVED"
  | PERSISTED => "PERSISTED"
  | SUPERSEDED => "SUPERSEDED"
  end.
Definition members : list t :=
  [DRAFT; PROPOSED; APPROVED; PERSISTED; SUPERSEDED].
End ReportStatus.

Module RcaConclusion.
Inductive t :=
| CONCLUSIVE
| INCONCLUSIVE.
#[global] Instance eq_dec : EqDecision t.
Proof. solve_decision. Defined.
Definition value (x : t) : string :=
  match x with
  | CONCLUSIVE => "CONCLUSIVE"
  | INCONCLUSIVE => "INCONCLUSIVE"
  end.
Definition members : list t :=
  [CONCLUSIVE; INCONCLUSIVE].
End RcaConclusion.

Module ApprovalType.
Inductive t :=
| REPORT_PERSISTENCE
| NETWORK_ACTION.
#[global] Instance eq_dec : EqDecision t.
Proof. solve_decision. Defined.
Definition value (x : t) : string :=
  match x with
  | REPORT_PERSISTENCE => "REPORT_PERSISTENCE"
  | NETWORK_ACTION => "NETWORK_ACTION"
  end.
Definition members : list t :=
  [REPORT_PERSISTENCE; NETWORK_ACTION].
End ApprovalType.

Module ApprovalStatus.
Inductive t :=
| PENDING
| APPROVED
| REJECTED
| EXPIRED
| CANCELLED.
#[global] Instance eq_dec : EqDecision t.
Proof. solve_decision. Defined.
Definition value (x : t) : string :=
  match x with
  | PENDING => "PENDING"
  | APPROVED => "APPROVED"
  | REJECTED => "REJECTED"
  | EXPIRED => "EXPIRED"
  | CANCELLED => "CANCELLED"
  end.
Definition members : list t :=
  [PENDING; APPROVED; REJECTED; EXPIRED; CANCELLED].
End ApprovalStatus.

Module RiskLevel.
Inductive t :=
| LOW
| MEDIUM
| HIGH
| CRITICAL.
#[global] Instance eq_dec : EqDecision t.
Proof. solve_decision. Defined.
Definition value (x : t) : string :=
  match x with
  | LOW => "LOW"
  | MEDIUM => "MEDIUM"
  | HIGH => "HIGH"
  | CRITICAL => "CRITICAL"
  end.
Definition members : list t :=
  [LOW; MEDIUM; HIGH; CRITICAL].
End RiskLevel.

Module ActionRunStatus.
Inductive t :=
| PENDING
| QUEUED
| RUNNING
| SUCCEEDED
| FAILED
| CANCELLED
| SKIPPED.
#[global] Instance eq_dec : EqDecision t.
Proof. solve_decision. Defined.
Definition value (x : t) : string :=
  match x with
  | PENDING => "PENDING"
  | QUEUED => "QUEUED"
  | RUNNING => "RUNNING"
  | SUCCEEDED => "SUCCEEDED"
  | FAILED => "FAILED"
  | CANCELLED => "CANCELLED"
  | SKIPPED => "SKIPPED"
  end.
Definition members : list t :=
  [PENDING; QUEUED; RUNNING; SUCCEEDED; FAILED; CANCELLED; SKIPPED].
End ActionRunStatus.

Module VerificationStatus.
Inductive t :=
| PENDING
| RUNNING
| PASSED
| FAILED
| INCONCLUSIVE
| CANCELLED.
#[global] Instance eq_dec : EqDecision t.
Proof. solve_decision. Defined.
Definition value (x : t) : string :=
  match x with
  | PENDING => "PENDING"
  | RUNNING => "RUNNING"
  | PASSED => "PASSED"
  | FAILED => "FAILED"
  | INCONCLUSIVE => "INCONCLUSIVE"
  | CANCELLED => "CANCELLED"
  end.
Definition members : list t :=
  [PENDING; RUNNING; PASSED; FAILED; INCONCLUSIVE; CANCELLED].
End VerificationStatus.
(** ** Canonical JSON and hashes *)

(** [_canonical_json], [_stable_hash]. *)
Definition canonical_json `{Runtime} (value : json) : string := dumps value.
Definition stable_hash `{Runtime} (value : json) : string :=
  sha256_hex (canonical_json value).

(** A model's [dict] field as JSON: the items in the order of their keys. *)
Definition json_of_map {A} (f : A → json) (m : gmap string A) : json :=
  JObj (py_sorted key_leb (map (λ kv, (kv.1, f kv.2)) (map_to_list m))).
Definition json_opt {A} (f : A → json) (o : option A) : json :=
  match o with Some a => f a | None => JNull end.
Definition json_list {A} (f : A → json) (l : list A) : json := JArr (map f l).

(** ** Resources *)

Module ResourceReference.
Record t := mk {
  resource_id : string;
  resource_type : ResourceType.t;
  name : option string;
  technology : option Technology.t;
  vendor_profile : option string;
  parent_resource_id : option string;
  location_id : option string;
  external_ids : gmap string string;
  attributes : gmap string json
}.
#[global] Instance eq_dec : EqDecision t.
Proof. solve_decision. Defined.

Definition check (r : t) : result string unit :=
  throw_if (negb (identifier (resource_id r))) "resource_id" ≫= λ _,
  throw_if (negb (opt_check nonempty_str (name r))) "name" ≫= λ _,
  throw_if (negb (opt_check nonempty_str (vendor_profile r))) "vendor_profile" ≫= λ _,
  throw_if (negb (opt_check identifier (parent_resource_id r))) "parent_resource_id" ≫= λ _,
  throw_if (negb (opt_check identifier (location_id r))) "location_id".

(** [stable_identity()]: the fields that authorize this exact resource. *)
Definition stable_identity (r : t) : json :=
  JObj [ ("external_ids", json_of_map JStr (external_ids r));
         ("location_id", json_opt JStr (location_id r));
         ("parent_resource_id", json_opt JStr (parent_resource_id r));
         ("resource_id", JStr (resource_id r));
         ("resource_type", JStr (ResourceType.value (resource_type r)));
         ("technology", json_opt (JStr ∘ Technology.value) (technology r));
         ("vendor_profile", json_opt JStr (vendor_profile r)) ].

Definition to_json (r : t) : json :=
  JObj [ ("attributes", json_of_map id (attributes r));
         ("external_ids", json_of_map JStr (external_ids r));
         ("location_id", json_opt JStr (location_id r));
         ("name", json_opt JStr (name r));
         ("parent_resource_id", json_opt JStr (parent_resource_id r));
         ("resource_id", JStr (resource_id r));
         ("resource_type", JStr (ResourceType.value (resource_type r)));
         ("schema_version", JStr SCHEMA_VERSION);
         ("technology", json_opt (JStr ∘ Technology.value) (technology r));
         ("vendor_profile", json_opt JStr (vendor_profile r)) ].
End ResourceReference.

(** [_canonical_resource_identity], [_resource_scope_identity]. *)
Definition canonical_resource_identity `{Runtime} (r : ResourceReference.t) : string :=
  canonical_json (ResourceReference.stable_identity r).
Definition resource_scope_identity `{Runtime} (rs : list ResourceReference.t) : list string :=
  py_sorted String.leb (map canonical_resource_identity rs).

(** ** KPI violations, observations and evidence *)

(** [window_start] and [window_end] come together and in order. *)
Definition check_window (window_start window_end : option Z) : result string unit :=
  throw_if (negb (Bool.eqb (isNone window_start) (isNone window_end)))
    "window_start and window_end must be provided together" ≫= λ _,
  throw_if (match window_start, window_end with
            | Some s, Some e => e <? s | _, _ => false end)
    "window_end must not be earlier than window_start".

Module KpiViolation.
Record t := mk {
  violation_id : option string;
  kpi_name : string;
  observed_value : pyfloat;
  threshold_value : pyfloat;
  comparator : KpiComparator.t;
  unit_ : option string;
  window_start : option Z;
  window_end : option Z;
  rule_id : option string;
  rule_version : option string;
  resource_ids : list string;
  dimensions : gmap string string
}.
#[global] Instance eq_dec : EqDecision t.
Proof. solve_decision. Defined.

Definition check (v : t) : result string unit :=
  throw_if (negb (opt_check identifier (violation_id v))) "violation_id" ≫= λ _,
  throw_if (negb (nonempty_str (kpi_name v))) "kpi_name" ≫= λ _,
  throw_if (negb (opt_check identifier (rule_id v))) "rule_id" ≫= λ _,
  throw_if (negb (opt_check nonempty_str (rule_version v))) "rule_version" ≫= λ _,
  throw_if (negb (forallb identifier (resource_ids v))) "resource_ids" ≫= λ _,
  check_window (window_start v) (window_end v).

Definition to_json `{Runtime} (v : t) : json :=
  JObj [ ("comparator", JStr (KpiComparator.value (comparator v)));
         ("dimensions", json_of_map JStr (dimensions v));
         ("kpi_name", JStr (kpi_name v));
         ("observed_value", JFloat (observed_value v));
         ("resource_ids", json_list JStr (resource_ids v));
         ("rule_id", json_opt JStr (rule_id v));
         ("rule_version", json_opt JStr (rule_version v));
         ("schema_version", JStr SCHEMA_VERSION);
         ("threshold_value", JFloat (threshold_value v));
         ("unit", json_opt JStr (unit_ v));
         ("violation_id", json_opt JStr (violation_id v));
         ("window_end", json_opt (JStr ∘ iso_utc) (window_end v));
         ("window_start", json_opt (JStr ∘ iso_utc) (window_start v)) ].
End KpiViolation.

Module KpiObservation.
Record t := mk {
  observation_id : string;
  kpi_name : string;
  observed_value : pyfloat;
  observed_at : Z;
  resources : list ResourceReference.t;
  unit_ : option string;
  source_uri : string;
  quality_flags : list string;
  dimensions : gmap string string
}.
#[global] Instance eq_dec : EqDecision t.
Proof. solve_decision. Defined.

Definition check (o : t) : result string unit :=
  throw_if (negb (identifier (observation_id o))) "observation_id" ≫= λ _,
  throw_if (negb (nonempty_str (kpi_name o))) "kpi_name" ≫= λ _,
  throw_if (match resources o with [] => true | _ => false end) "resources" ≫= λ _,
  for_each ResourceReference.check (resources o) ≫= λ _,
  throw_if (negb (opt_check nonempty_str (unit_ o))) "unit" ≫= λ _,
  throw_if (negb (nonempty_str (source_uri o))) "source_uri" ≫= λ _,
  throw_if (negb (forallb nonempty_str (quality_flags o))) "quality_flags" ≫= λ _,
  throw_if (has_duplicates
      (map (λ r, (ResourceType.value (ResourceReference.resource_type r),
                  ResourceReference.resource_id r,
                  ResourceReference.parent_resource_id r)) (resources o)))
    "resources must not contain duplicates" ≫= λ _,
  throw_if (has_duplicates (quality_flags o)) "quality_flags must not contain duplicates".
End KpiObservation.

Module EvidenceReference.
Record t := mk {
  evidence_id : string;
  evidence_type : EvidenceType.t;
  uri : string;
  source : option string;
  summary : option string;
  collected_at : option Z;
  content_type : option string;
  checksum_sha256 : option string;
  attributes : gmap string json
}.
#[global] Instance eq_dec : EqDecision t.
Proof. solve_decision. Defined.

(** [checksum_sha256] admits either case: [^[0-9a-fA-F]{64}$]. *)
Definition is_hex64_any (s : string) : bool :=
  Nat.eqb (String.length s) 64 &&
  string_forall (λ c, is_lower_hex (lower_ascii c)) s.

Definition check (e : t) : result string unit :=
  throw_if (negb (identifier (evidence_id e))) "evidence_id" ≫= λ _,
  throw_if (negb (nonempty_str (uri e))) "uri" ≫= λ _,
  throw_if (negb (opt_check nonempty_str (source e))) "source" ≫= λ _,
  throw_if (negb (opt_check nonempty_str (content_type e))) "content_type" ≫= λ _,
  throw_if (negb (opt_check is_hex64_any (checksum_sha256 e))) "checksum_sha256".

Definition to_json `{Runtime} (e : t) : json :=
  JObj [ ("attributes", json_of_map id (attributes e));
         ("checksum_sha256", json_opt JStr (checksum_sha256 e));
         ("collected_at", json_opt (JStr ∘ iso_utc) (collected_at e));
         ("content_type", json_opt JStr (content_type e));
         ("evidence_id", JStr (evidence_id e));
         ("evidence_type", JStr (EvidenceType.value (evidence_type e)));
         ("schema_version", JStr SCHEMA_VERSION);
         ("source", json_opt JStr (source e));
         ("summary", json_opt JStr (summary e));
         ("uri", JStr (uri e)) ].
End EvidenceReference.

(** ** Remediation actions and RCA reports *)

(** [(text or "").strip()] is not empty. *)
Definition has_text (o : option string) : bool :=
  match o with Some s => negb (is_blank s) | None => false end.

Module RemediationAction.
Record t := mk {
  action_id : string;
  action_type : string;
  description : option string;
  target_resources : list ResourceReference.t;
  parameters : gmap string json;
  risk_level : RiskLevel.t;
  reversible : bool;
  rollback_plan : option string;
  expected_outcome : option string;
  idempotency_key : option string;
  created_at : Z
}.
#[global] Instance eq_dec : EqDecision t.
Proof. solve_decision. Defined.

(** [requires_approval] is [Literal[True]] and has no field. *)
Definition check `{Runtime} (a : t) : result string unit :=
  throw_if (negb (identifier (action_id a))) "action_id" ≫= λ _,
  throw_if (negb (nonempty_str (action_type a))) "action_type" ≫= λ _,
  throw_if (match target_resources a with [] => true | _ => false end)
    "target_resources" ≫= λ _,
  for_each ResourceReference.check (target_resources a) ≫= λ _,
  throw_if (negb (opt_check identifier (idempotency_key a))) "idempotency_key" ≫= λ _,
  throw_if (has_duplicates (map canonical_resource_identity (target_resources a)))
    "target_resources must not contain duplicates" ≫= λ _,
  throw_if (reversible a && negb (has_text (rollback_plan a)))
    "reversible actions must include a rollback_plan".

(** [parameter_hash]. *)
Definition parameter_hash `{Runtime} (a : t) : string :=
  stable_hash (json_of_map id (parameters a)).

(** The semantic content of an action: no identifiers, no timestamps. *)
Definition semantic_json `{Runtime} (a : t) : json :=
  let targets := py_sorted (λ x y, String.leb (canonical_json x) (canonical_json y))
                   (map ResourceReference.stable_identity (target_resources a)) in
  JObj [ ("action_type", JStr (action_type a));
         ("description", json_opt JStr (description a));
         ("expected_outcome", json_opt JStr (expected_outcome a));
         ("parameter_hash", JStr (parameter_hash a));
         ("reversible", JBool (reversible a));
         ("risk_level", JStr (RiskLevel.value (risk_level a)));
         ("rollback_plan", json_opt JStr (rollback_plan a));
         ("targets", JArr targets) ].

(** [compute_action_hash()] and the property [action_hash]. *)
Definition action_hash `{Runtime} (a : t) : string := stable_hash (semantic_json a).

Definition to_json `{Runtime} (a : t) : json :=
  JObj [ ("action_id", JStr (action_id a));
         ("action_type", JStr (action_type a));
         ("created_at", JStr (iso_utc (created_at a)));
         ("description", json_opt JStr (description a));
         ("expected_outcome", json_opt JStr (expected_outcome a));
         ("idempotency_key", json_opt JStr (idempotency_key a));
         ("parameters", json_of_map id (parameters a));
         ("requires_approval", JBool true);
         ("reversible", JBool (reversible a));
         ("risk_level", JStr (RiskLevel.value (risk_level a)));
         ("rollback_plan", json_opt JStr (rollback_plan a));
         ("schema_version", JStr SCHEMA_VERSION);
         ("target_resources", json_list ResourceReference.to_json (target_resources a)) ].
End RemediationAction.

Module RcaReport.
Record t := mk {
  report_id : string;
  incident_id : string;
  version : Z;
  status : ReportStatus.t;
  title : option string;
  summary : string;
  hypotheses : list string;
  root_cause : option string;
  conclusion : RcaConclusion.t;
  confidence : option pyfloat;
  evidence_refs : list EvidenceReference.t;
  recommendations : list RemediationAction.t;
  generated_by : option string;
  model_metadata : gmap string json;
  created_at : Z
}.
#[global] Instance eq_dec : EqDecision t.
Proof. solve_decision. Defined.

Definition float_zero : pyfloat := PyFloat false 0 0.
Definition float_one : pyfloat := PyFloat false 1 0.

Definition check `{Runtime} (r : t) : result string unit :=
  throw_if (negb (identifier (report_id r))) "report_id" ≫= λ _,
  throw_if (negb (identifier (incident_id r))) "incident_id" ≫= λ _,
  throw_if (version r <? 1) "version" ≫= λ _,
  throw_if (match confidence r with
            | Some c => negb (float_leb float_zero c && float_leb c float_one)
            | None => false end) "confidence" ≫= λ _,
  for_each EvidenceReference.check (evidence_refs r) ≫= λ _,
  for_each RemediationAction.check (recommendations r).

Definition to_json `{Runtime} (r : t) : json :=
  JObj [ ("conclusion", JStr (RcaConclusion.value (conclusion r)));
         ("confidence", json_opt JFloat (confidence r));
         ("created_at", JStr (iso_utc (created_at r)));
         ("evidence_refs", json_list EvidenceReference.to_json (evidence_refs r));
         ("generated_by", json_opt JStr (generated_by r));
         ("hypotheses", json_list JStr (hypotheses r));
         ("incident_id", JStr (incident_id r));
         ("model_metadata", json_of_map id (model_metadata r));
         ("recommendations", json_list RemediationAction.to_json (recommendations r));
         ("report_id", JStr (report_id r));
         ("root_cause", json_opt JStr (root_cause r));
         ("schema_version", JStr SCHEMA_VERSION);
         ("status", JStr (ReportStatus.value (status r)));
         ("summary", JStr (summary r));
         ("title", json_opt JStr (title r));
         ("version", JInt (version r)) ].
End RcaReport.

(** ** Approval decisions *)

Module ApprovalDecision.
Record t := mk {
  approval_id : string;
  request_id : string;
  sequence : Z;
  incident_id : string;
  report_id : string;
  report_version : Z;
  subject_id : string;
  status : ApprovalStatus.t;
  approval_type : ApprovalType.t;
  action_hash : option string;
  scope : list ResourceReference.t;
  requested_by : option string;
  decided_by : option string;
  reason : option string;
  requested_at : Z;
  decided_at : option Z;
  expires_at : option Z;
  idempotency_key : string
}.
#[global] Instance eq_dec : EqDecision t.
Proof. solve_decision. Defined.

Definition is_status (s : ApprovalStatus.t) (d : t) : bool := bool_decide (status d = s).
Definition is_network_action (d : t) : bool :=
  bool_decide (approval_type d = ApprovalType.NETWORK_ACTION).

Definition check_fields (d : t) : result string unit :=
  throw_if (negb (identifier (approval_id d))) "approval_id" ≫= λ _,
  throw_if (negb (identifier (request_id d))) "request_id" ≫= λ _,
  throw_if (sequence d <? 0) "sequence" ≫= λ _,
  throw_if (negb (identifier (incident_id d))) "incident_id" ≫= λ _,
  throw_if (negb (identifier (report_id d))) "report_id" ≫= λ _,
  throw_if (report_version d <? 1) "report_version" ≫= λ _,
  throw_if (negb (identifier (subject_id d))) "subject_id" ≫= λ _,
  throw_if (negb (opt_check sha256_digest (action_hash d))) "action_hash" ≫= λ _,
  for_each ResourceReference.check (scope d) ≫= λ _,
  throw_if (negb (opt_check identifier (requested_by d))) "requested_by" ≫= λ _,
  throw_if (negb (opt_check identifier (decided_by d))) "decided_by" ≫= λ _,
  throw_if (negb (identifier (idempotency_key d))) "idempotency_key".

Definition validate_timeline `{Runtime} (d : t) : result string unit :=
  throw_if (match decided_at d with Some at_ => at_ <? requested_at d | None => false end)
    "decided_at must not be earlier than requested_at" ≫= λ _,
  throw_if (match expires_at d with Some e => e <=? requested_at d | None => false end)
    "expires_at must be later than requested_at" ≫= λ _,
  throw_if (is_status ApprovalStatus.APPROVED d &&
            match decided_at d, expires_at d with
            | Some at_, Some e => e <=? at_ | _, _ => false end)
    "approved decisions must precede expires_at" ≫= λ _,
  (if is_status ApprovalStatus.EXPIRED d then
     throw_if (isNone (expires_at d)) "EXPIRED decisions require expires_at" ≫= λ _,
     throw_if (match decided_at d, expires_at d with
               | Some at_, Some e => at_ <? e | _, _ => false end)
       "EXPIRED decided_at must be at or after expires_at"
   else Ok tt) ≫= λ _,
  (if negb (is_status ApprovalStatus.PENDING d) then
     throw_if (isNone (decided_by d) || isNone (decided_at d))
       "terminal approval decisions require decided_by, decided_at" ≫= λ _,
     throw_if (sequence d =? 0) "terminal approval decisions require sequence >= 1"
   else throw_if (negb (sequence d =? 0))
     "pending approval requests must use sequence 0") ≫= λ _,
  if is_network_action d then
    throw_if (isNone (action_hash d) || match scope d with [] => true | _ => false end
              || isNone (expires_at d))
      "network action approvals require action_hash, scope, expires_at" ≫= λ _,
    throw_if (has_duplicates (map canonical_resource_identity (scope d)))
      "approval scope must not contain duplicates"
  else throw_if (negb (bool_decide (subject_id d = report_id d)))
    "report approval subject_id must match report_id".

Definition check `{Runtime} (d : t) : result string unit :=
  check_fields d ≫= λ _, validate_timeline d.

(** [is_effective(at)], at a UTC instant. *)
Definition is_effective (d : t) (instant : Z) : bool :=
  if negb (is_status ApprovalStatus.APPROVED d) then false
  else match decided_at d with
       | None => false
       | Some at_ =>
           if instant <? at_ then false
           else match expires_at d with None => true | Some e => instant <? e end
       end.

(** [covers_action(action, incident_id, report)]. *)
Definition covers_action `{Runtime} (d : t) (action : RemediationAction.t)
    (the_incident_id : string) (report : RcaReport.t) : bool :=
  is_network_action d
  && bool_decide (incident_id d = the_incident_id)
  && bool_decide (report_id d = RcaReport.report_id report)
  && (report_version d =? RcaReport.version report)
  && bool_decide (RcaReport.incident_id report = the_incident_id)
  && bool_decide (subject_id d = RemediationAction.action_id action)
  && bool_decide (action_hash d = Some (RemediationAction.action_hash action))
  && bool_decide (resource_scope_identity (scope d)
                  = resource_scope_identity (RemediationAction.target_resources action)).

Definition to_json `{Runtime} (d : t) : json :=
  JObj [ ("action_hash", json_opt JStr (action_hash d));
         ("approval_id", JStr (approval_id d));
         ("approval_type", JStr (ApprovalType.value (approval_type d)));
         ("decided_at", json_opt (JStr ∘ iso_utc) (decided_at d));
         ("decided_by", json_opt JStr (decided_by d));
         ("expires_at", json_opt (JStr ∘ iso_utc) (expires_at d));
         ("idempotency_key", JStr (idempotency_key d));
         ("incident_id", JStr (incident_id d));
         ("reason", json_opt JStr (reason d));
         ("report_id", JStr (report_id d));
         ("report_version", JInt (report_version d));
         ("request_id", JStr (request_id d));
         ("requested_at", JStr (iso_utc (requested_at d)));
         ("requested_by", json_opt JStr (requested_by d));
         ("schema_version", JStr SCHEMA_VERSION);
         ("scope", json_list ResourceReference.to_json (scope d));
         ("sequence", JInt (sequence d));
         ("status", JStr (ApprovalStatus.value (status d)));
         ("subject_id", JStr (subject_id d)) ].
End ApprovalDecision.

(** ** Runs *)

Module ActionRun.
Record t := mk {
  action_run_id : string;
  incident_id : option string;
  action_id : string;
  action_hash : option string;
  status : ActionRunStatus.t;
  idempotency_key : option string;
  attempt : Z;
  started_at : option Z;
  finished_at : option Z;
  output_summary : option string;
  error : option string;
  metadata : gmap string json
}.
#[global] Instance eq_dec : EqDecision t.
Proof. solve_decision. Defined.

Definition bound_status (s : ActionRunStatus.t) : bool :=
  bool_decide (s ∈ [ActionRunStatus.RUNNING; ActionRunStatus.SUCCEEDED;
                    ActionRunStatus.FAILED; ActionRunStatus.CANCELLED;
                    ActionRunStatus.SKIPPED]).
Definition terminal_status (s : ActionRunStatus.t) : bool :=
  bound_status s && negb (bool_decide (s = ActionRunStatus.RUNNING)).

Definition check_fields (r : t) : result string unit :=
  throw_if (negb (identifier (action_run_id r))) "action_run_id" ≫= λ _,
  throw_if (negb (opt_check identifier (incident_id r))) "incident_id" ≫= λ _,
  throw_if (negb (identifier (action_id r))) "action_id" ≫= λ _,
  throw_if (negb (opt_check sha256_digest (action_hash r))) "action_hash" ≫= λ _,
  throw_if (negb (opt_check identifier (idempotency_key r))) "idempotency_key" ≫= λ _,
  throw_if (attempt r <? 1) "attempt" ≫= λ _,
  throw_if (negb (opt_check nonempty_str (error r))) "error".

Definition validate_timeline (r : t) : result string unit :=
  throw_if (match started_at r, finished_at r with
            | Some s, Some f => f <? s | _, _ => false end)
    "finished_at must not be earlier than started_at" ≫= λ _,
  throw_if (bound_status (status r) &&
            (isNone (incident_id r) || isNone (action_hash r)
             || isNone (idempotency_key r) || isNone (started_at r)))
    "ActionRun requires incident_id, action_hash, idempotency_key, started_at" ≫= λ _,
  throw_if (terminal_status (status r) && isNone (finished_at r))
    "ActionRun requires finished_at" ≫= λ _,
  throw_if (bool_decide (status r = ActionRunStatus.FAILED) && isNone (error r))
    "FAILED ActionRun requires a safe error summary".

Definition check (r : t) : result string unit :=
  check_fields r ≫= λ _, validate_timeline r.

Definition to_json `{Runtime} (r : t) : json :=
  JObj [ ("action_hash", json_opt JStr (action_hash r));
         ("action_id", JStr (action_id r));
         ("action_run_id", JStr (action_run_id r));
         ("attempt", JInt (attempt r));
         ("error", json_opt JStr (error r));
         ("finished_at", json_opt (JStr ∘ iso_utc) (finished_at r));
         ("idempotency_key", json_opt JStr (idempotency_key r));
         ("incident_id", json_opt JStr (incident_id r));
         ("metadata", json_of_map id (metadata r));
         ("output_summary", json_opt JStr (output_summary r));
         ("schema_version", JStr SCHEMA_VERSION);
         ("started_at", json_opt (JStr ∘ iso_utc) (started_at r));
         ("status", JStr (ActionRunStatus.value (status r))) ].
End ActionRun.

(** [any(check.strip() for check in checks)]. *)
Definition any_text (checks : list string) : bool :=
  existsb (λ c, negb (is_blank c)) checks.

Module VerificationRun.
Record t := mk {
  verification_id : string;
  incident_id : option string;
  action_run_ids : list string;
  status : VerificationStatus.t;
  checks : list string;
  observed_kpis : list KpiViolation.t;
  evidence_refs : list EvidenceReference.t;
  summary : option string;
  error : option string;
  started_at : option Z;
  finished_at : option Z;
  metadata : gmap string json
}.
#[global] Instance eq_dec : EqDecision t.
Proof. solve_decision. Defined.

Definition check_fields (r : t) : result string unit :=
  throw_if (negb (identifier (verification_id r))) "verification_id" ≫= λ _,
  throw_if (negb (opt_check identifier (incident_id r))) "incident_id" ≫= λ _,
  throw_if (negb (forallb identifier (action_run_ids r))) "action_run_ids" ≫= λ _,
  for_each KpiViolation.check (observed_kpis r) ≫= λ _,
  for_each EvidenceReference.check (evidence_refs r) ≫= λ _,
  throw_if (negb (opt_check nonempty_str (error r))) "error".

Definition validate_timeline (r : t) : result string unit :=
  throw_if (match started_at r, finished_at r with
            | Some s, Some f => f <? s | _, _ => false end)
    "finished_at must not be earlier than started_at" ≫= λ _,
  throw_if (bool_decide (status r = VerificationStatus.RUNNING) &&
            (isNone (incident_id r) || isNone (started_at r)))
    "RUNNING VerificationRun requires incident_id, started_at" ≫= λ _,
  throw_if (bool_decide (status r ∈ [VerificationStatus.PASSED; VerificationStatus.FAILED]) &&
            (isNone (incident_id r)
             || match action_run_ids r with [] => true | _ => false end
             || negb (any_text (checks r))
             || match evidence_refs r with [] => true | _ => false end
             || isNone (started_at r) || isNone (finished_at r)))
    "VerificationRun requires incident_id, action_run_ids, checks, result evidence, started_at, finished_at"
    ≫= λ _,
  throw_if (bool_decide (status r = VerificationStatus.FAILED) && isNone (error r))
    "FAILED VerificationRun requires a safe error summary" ≫= λ _,
  throw_if (has_duplicates (action_run_ids r)) "action_run_ids must not contain duplicates".

Definition check (r : t) : result string unit :=
  check_fields r ≫= λ _, validate_timeline r.

Definition to_json `{Runtime} (r : t) : json :=
  JObj [ ("action_run_ids", json_list JStr (action_run_ids r));
         ("checks", json_list JStr (checks r));
         ("error", json_opt JStr (error r));
         ("evidence_refs", json_list EvidenceReference.to_json (evidence_refs r));
         ("finished_at", json_opt (JStr ∘ iso_utc) (finished_at r));
         ("incident_id", json_opt JStr (incident_id r));
         ("metadata", json_of_map id (metadata r));
         ("observed_kpis", json_list KpiViolation.to_json (observed_kpis r));
         ("schema_version", JStr SCHEMA_VERSION);
         ("started_at", json_opt (JStr ∘ iso_utc) (started_at r));
         ("status", JStr (VerificationStatus.value (status r)));
         ("summary", json_opt JStr (summary r));
         ("verification_id", JStr (verification_id r)) ].
End VerificationRun.

(** ** Audit events and source provenance

    These two models are built by the repository from raw text, so their
    constructors ([make]) strip it first, as pydantic does. *)

Module IncidentAuditEvent.
Record t := mk {
  event_id : string;
  incident_id : string;
  from_status : option IncidentStatus.t;
  to_status : IncidentStatus.t;
  revision : Z;
  occurred_at : Z;
  actor : string;
  reason : string;
  idempotency_key : string;
  trace_id : string
}.
#[global] Instance eq_dec : EqDecision t.
Proof. solve_decision. Defined.

Definition check (e : t) : result string unit :=
  throw_if (negb (identifier (event_id e))) "event_id" ≫= λ _,
  throw_if (negb (identifier (incident_id e))) "incident_id" ≫= λ _,
  throw_if (revision e <? 0) "revision" ≫= λ _,
  throw_if (negb (identifier (actor e))) "actor" ≫= λ _,
  throw_if (negb (nonempty_str (reason e))) "reason" ≫= λ _,
  throw_if (negb (identifier (idempotency_key e))) "idempotency_key" ≫= λ _,
  throw_if (negb (identifier (trace_id e))) "trace_id".

Definition make `{Runtime} (e : t) : result string t :=
  let e := mk (strip (event_id e)) (strip (incident_id e)) (from_status e) (to_status e)
              (revision e) (occurred_at e) (strip (actor e)) (strip (reason e))
              (strip (idempotency_key e)) (strip (trace_id e)) in
  check e ≫= λ _, Ok e.

Definition to_json `{Runtime} (e : t) : json :=
  JObj [ ("actor", JStr (actor e));
         ("event_id", JStr (event_id e));
         ("from_status", json_opt (JStr ∘ IncidentStatus.value) (from_status e));
         ("idempotency_key", JStr (idempotency_key e));
         ("incident_id", JStr (incident_id e));
         ("occurred_at", JStr (iso_utc (occurred_at e)));
         ("reason", JStr (reason e));
         ("revision", JInt (revision e));
         ("schema_version", JStr SCHEMA_VERSION);
         ("to_status", JStr (IncidentStatus.value (to_status e)));
         ("trace_id", JStr (trace_id e)) ].
End IncidentAuditEvent.

Module SourceEventAssociation.
Record t := mk {
  incident_id : string;
  source_event_id : string;
  registered_at : Z;
  actor : string;
  reason : string;
  idempotency_key : string;
  trace_id : string
}.
#[global] Instance eq_dec : EqDecision t.
Proof. solve_decision. Defined.

Definition check (a : t) : result string unit :=
  throw_if (negb (identifier (incident_id a))) "incident_id" ≫= λ _,
  throw_if (negb (identifier (source_event_id a))) "source_event_id" ≫= λ _,
  throw_if (negb (identifier (actor a))) "actor" ≫= λ _,
  throw_if (negb (nonempty_str (reason a))) "reason" ≫= λ _,
  throw_if (negb (identifier (idempotency_key a))) "idempotency_key" ≫= λ _,
  throw_if (negb (identifier (trace_id a))) "trace_id".

Definition make `{Runtime} (a : t) : result string t :=
  let a := mk (strip (incident_id a)) (strip (source_event_id a)) (registered_at a)
              (strip (actor a)) (strip (reason a)) (strip (idempotency_key a))
              (strip (trace_id a)) in
  check a ≫= λ _, Ok a.

Definition to_json `{Runtime} (a : t) : json :=
  JObj [ ("actor", JStr (actor a));
         ("idempotency_key", JStr (idempotency_key a));
         ("incident_id", JStr (incident_id a));
         ("reason", JStr (reason a));
         ("registered_at", JStr (iso_utc (registered_at a)));
         ("schema_version", JStr SCHEMA_VERSION);
         ("source_event_id", JStr (source_event_id a));
         ("trace_id", JStr (trace_id a)) ].
End SourceEventAssociation.
