(* ===== verification/Incident.v ===== *)
(** * The Incident aggregate (telco_domain/models.py, class Incident)

    The Record, its JSON, the checks of [validate_aggregate] and of the
    approval lifecycles, [model_validate], and the two ways the class resolves
    an effective approval. *)

From Stdlib Require Import Ascii String.
From S2P Require Import Prelude PyStr Json Models.

Module Incident.
Record t := mk {
  incident_id : string;
  correlation_key : option string;
  source_event_ids : list string;
  technology : Technology.t;
  vendor_profile : option string;
  status : IncidentStatus.t;
  severity : IncidentSeverity.t;
  title : string;
  description : string;
  affected_resources : list ResourceReference.t;
  detected_at : Z;
  window_start : option Z;
  window_end : option Z;
  violated_kpis : list KpiViolation.t;
  evidence_refs : list EvidenceReference.t;
  hypotheses : list string;
  root_cause : option string;
  rca_reports : list RcaReport.t;
  recommendations : list RemediationAction.t;
  approvals : list ApprovalDecision.t;
  action_runs : list ActionRun.t;
  verification_runs : list VerificationRun.t;
  model_metadata : gmap string json;
  rule_versions : gmap string string;
  trace_id : string;
  duplicate_of : option string;
  created_at : Z;
  updated_at : Z;
  revision : Z
}.
#[global] Instance eq_dec : EqDecision t.
Proof. solve_decision. Defined.

Definition to_json `{Runtime} (i : t) : json :=
  JObj [ ("action_runs", json_list ActionRun.to_json (action_runs i));
         ("affected_resources", json_list ResourceReference.to_json (affected_resources i));
         ("approvals", json_list ApprovalDecision.to_json (approvals i));
         ("correlation_key", json_opt JStr (correlation_key i));
         ("created_at", JStr (iso_utc (created_at i)));
         ("description", JStr (description i));
         ("detected_at", JStr (iso_utc (detected_at i)));
         ("duplicate_of", json_opt JStr (duplicate_of i));
         ("evidence_refs", json_list EvidenceReference.to_json (evidence_refs i));
         ("hypotheses", json_list JStr (hypotheses i));
         ("incident_id", JStr (incident_id i));
         ("model_metadata", json_of_map id (model_metadata i));
         ("rca_reports", json_list RcaReport.to_json (rca_reports i));
         ("recommendations", json_list RemediationAction.to_json (recommendations i));
         ("revision", JInt (revision i));
         ("root_cause", json_opt JStr (root_cause i));
         ("rule_versions", json_of_map JStr (rule_versions i));
         ("schema_version", JStr SCHEMA_VERSION);
         ("severity", JStr (IncidentSeverity.value (severity i)));
         ("source_event_ids", json_list JStr (source_event_ids i));
         ("status", JStr (IncidentStatus.value (status i)));
         ("technology", JStr (Technology.value (technology i)));
         ("title", JStr (title i));
         ("trace_id", JStr (trace_id i));
         ("updated_at", JStr (iso_utc (updated_at i)));
         ("vendor_profile", json_opt JStr (vendor_profile i));
         ("verification_runs", json_list VerificationRun.to_json (verification_runs i));
         ("violated_kpis", json_list KpiViolation.to_json (violated_kpis i));
         ("window_end", json_opt (JStr ∘ iso_utc) (window_end i));
         ("window_start", json_opt (JStr ∘ iso_utc) (window_start i)) ].

(** ** Field constraints *)

(** pydantic strips the text fields of the payload it validates. *)
Definition normalize `{Runtime} (i : t) : t :=
  mk (strip (incident_id i)) (strip <$> correlation_key i) (map strip (source_event_ids i))
     (technology i) (strip <$> vendor_profile i) (status i) (severity i)
     (strip (title i)) (strip (description i)) (affected_resources i) (detected_at i)
     (window_start i) (window_end i) (violated_kpis i) (evidence_refs i)
     (map strip (hypotheses i)) (strip <$> root_cause i) (rca_reports i)
     (recommendations i) (approvals i) (action_runs i) (verification_runs i)
     (model_metadata i) (rule_versions i) (strip (trace_id i)) (strip <$> duplicate_of i)
     (created_at i) (updated_at i) (revision i).

Definition check_fields `{Runtime} (i : t) : result string unit :=
  throw_if (negb (identifier (incident_id i))) "incident_id" ≫= λ _,
  throw_if (negb (opt_check identifier (correlation_key i))) "correlation_key" ≫= λ _,
  throw_if (MAX_INCIDENT_SOURCE_EVENTS <? Z.of_nat (length (source_event_ids i)))
    "source_event_ids" ≫= λ _,
  throw_if (negb (forallb identifier (source_event_ids i))) "source_event_ids" ≫= λ _,
  throw_if (negb (opt_check nonempty_str (vendor_profile i))) "vendor_profile" ≫= λ _,
  for_each ResourceReference.check (affected_resources i) ≫= λ _,
  for_each KpiViolation.check (violated_kpis i) ≫= λ _,
  for_each EvidenceReference.check (evidence_refs i) ≫= λ _,
  for_each RcaReport.check (rca_reports i) ≫= λ _,
  for_each RemediationAction.check (recommendations i) ≫= λ _,
  for_each ApprovalDecision.check (approvals i) ≫= λ _,
  for_each ActionRun.check (action_runs i) ≫= λ _,
  for_each VerificationRun.check (verification_runs i) ≫= λ _,
  throw_if (negb (identifier (trace_id i))) "trace_id" ≫= λ _,
  throw_if (negb (opt_check identifier (duplicate_of i))) "duplicate_of" ≫= λ _,
  throw_if (revision i <? 0) "revision".

(** ** Approval lifecycles *)

Definition approval_binding `{Runtime} (d : ApprovalDecision.t) :=
  (ApprovalDecision.approval_type d, ApprovalDecision.incident_id d,
   ApprovalDecision.report_id d, ApprovalDecision.report_version d,
   ApprovalDecision.subject_id d, ApprovalDecision.action_hash d,
   resource_scope_identity (ApprovalDecision.scope d),
   ApprovalDecision.requested_at d, ApprovalDecision.expires_at d).

Definition report_key (r : RcaReport.t) : string * Z :=
  (RcaReport.report_id r, RcaReport.version r).

(** The body of the loop over the approvals. *)
Definition check_approval `{Runtime} (i : t) (d : ApprovalDecision.t) : result string unit :=
  let reports := dict_by report_key (rca_reports i) in
  let actions := dict_by RemediationAction.action_id (recommendations i) in
  throw_if (negb (bool_decide (ApprovalDecision.incident_id d = incident_id i)))
    "approval incident_id must match its Incident" ≫= λ _,
  of_option (reports !! (ApprovalDecision.report_id d, ApprovalDecision.report_version d))
    "approval must bind an RCA report on its Incident" ≫= λ report,
  throw_if (ApprovalDecision.is_network_action d &&
            match actions !! ApprovalDecision.subject_id d with
            | None => true
            | Some action =>
                negb (ApprovalDecision.covers_action d action (incident_id i) report)
            end)
    "approval must exactly bind a recommended action" ≫= λ _,
  throw_if (bool_decide (ApprovalDecision.approval_type d = ApprovalType.REPORT_PERSISTENCE) &&
            negb (bool_decide (ApprovalDecision.subject_id d = RcaReport.report_id report)))
    "report approval subject_id must match report_id".

(** The body of the loop over the approvals of one request. *)
Definition check_lifecycle `{Runtime} (events : list ApprovalDecision.t) : result string unit :=
  let ordered := py_sorted (λ a b, ApprovalDecision.sequence a <=? ApprovalDecision.sequence b)
                   events in
  throw_if (negb (bool_decide (map ApprovalDecision.sequence ordered = range (length ordered))))
    "approval request must have contiguous sequences" ≫= λ _,
  match ordered with
  | [] => Ok tt
  | first :: rest =>
      throw_if (negb (ApprovalDecision.is_status ApprovalStatus.PENDING first))
        "approval request must begin with PENDING" ≫= λ _,
      throw_if (existsb (λ e, negb (bool_decide (approval_binding e = approval_binding first))) rest)
        "approval request cannot change its binding"
  end.

Definition validate_approval_lifecycles `{Runtime} (i : t) : result string unit :=
  for_each (check_approval i) (approvals i) ≫= λ _,
  for_each (λ group, check_lifecycle group.2)
    (grouped_by ApprovalDecision.request_id (approvals i)).

(** ** [validate_aggregate] *)

Definition ensure_unique {A} `{Countable A} (name : string) (values : list A) :
    result string unit :=
  throw_if (has_duplicates values) (name +:+ " must not contain duplicates").

Definition check_uniqueness (i : t) : result string unit :=
  ensure_unique "source_event_ids" (source_event_ids i) ≫= λ _,
  ensure_unique "affected_resources"
    (map (λ r, (ResourceType.value (ResourceReference.resource_type r),
                ResourceReference.resource_id r)) (affected_resources i)) ≫= λ _,
  ensure_unique "approvals" (map ApprovalDecision.approval_id (approvals i)) ≫= λ _,
  ensure_unique "approval lifecycle sequences"
    (map (λ d, (ApprovalDecision.request_id d, ApprovalDecision.sequence d)) (approvals i))
    ≫= λ _,
  ensure_unique "approval idempotency keys"
    (map ApprovalDecision.idempotency_key (approvals i)) ≫= λ _,
  ensure_unique "rca_reports" (map report_key (rca_reports i)) ≫= λ _,
  ensure_unique "RCA report versions" (map RcaReport.version (rca_reports i)) ≫= λ _,
  ensure_unique "evidence_refs" (map EvidenceReference.evidence_id (evidence_refs i)) ≫= λ _,
  ensure_unique "recommendations"
    (map RemediationAction.action_id (recommendations i)).

Definition check_run_uniqueness (i : t) : result string unit :=
  ensure_unique "action_runs" (map ActionRun.action_run_id (action_runs i)) ≫= λ _,
  ensure_unique "action run attempts"
    (map (λ r, (ActionRun.action_id r, ActionRun.attempt r)) (action_runs i)) ≫= λ _,
  ensure_unique "action run idempotency keys"
    (omap ActionRun.idempotency_key (action_runs i)) ≫= λ _,
  ensure_unique "verification_runs"
    (map VerificationRun.verification_id (verification_runs i)).

Definition foreign (i : t) (run_incident : option string) : bool :=
  match run_incident with
  | Some id => negb (bool_decide (id = incident_id i))
  | None => false
  end.

Definition validate_aggregate `{Runtime} (i : t) : result string unit :=
  check_window (window_start i) (window_end i) ≫= λ _,
  throw_if (match window_end i with Some e => detected_at i <? e | None => false end)
    "window_end must not be later than detected_at" ≫= λ _,
  throw_if (updated_at i <? created_at i)
    "updated_at must not be earlier than created_at" ≫= λ _,
  throw_if (bool_decide (duplicate_of i = Some (incident_id i)))
    "duplicate_of must reference a different incident" ≫= λ _,
  check_uniqueness i ≫= λ _,
  for_each (λ r, throw_if (negb (bool_decide (RcaReport.incident_id r = incident_id i)))
                   "RCA report incident_id must match its Incident") (rca_reports i) ≫= λ _,
  validate_approval_lifecycles i ≫= λ _,
  for_each (λ run, throw_if (foreign i run) "run incident_id must match its Incident")
    (map ActionRun.incident_id (action_runs i) ++
     map VerificationRun.incident_id (verification_runs i)) ≫= λ _,
  check_run_uniqueness i ≫= λ _,
  let action_run_ids : gset string :=
    list_to_set (map ActionRun.action_run_id (action_runs i)) in
  for_each (λ v, throw_if (negb (bool_decide
      ((list_to_set (VerificationRun.action_run_ids v) : gset string) ⊆ action_run_ids)))
      "VerificationRun action_run_ids must reference this Incident") (verification_runs i).

(** [Incident.model_validate(payload)]. *)
Definition model_validate `{Runtime} (i : t) : result string t :=
  let i := normalize i in
  check_fields i ≫= λ _, validate_aggregate i ≫= λ _, Ok i.

(** ** Resolving approvals *)

(** [latest_approval_decision(request_id)]. *)
Definition latest_approval_decision (i : t) (request_id : string) :
    option ApprovalDecision.t :=
  max_by ApprovalDecision.sequence
    (filter (λ d, ApprovalDecision.request_id d = request_id) (approvals i)).

(** [effective_action_approval(action, report, at)].  The code iterates a
    [set] of the request ids, whose order is unspecified: it is an argument. *)
Definition effective_action_approval `{Runtime} (i : t) (request_ids : list string)
    (action : RemediationAction.t) (report : RcaReport.t) (at_ : Z) :
    option ApprovalDecision.t :=
  next_such (λ d, ApprovalDecision.covers_action d action (incident_id i) report
                  && ApprovalDecision.is_effective d at_)
    (omap (latest_approval_decision i) request_ids).

Definition request_id_order (i : t) (request_ids : list string) : Prop :=
  NoDup request_ids ∧
  ∀ id, id ∈ request_ids ↔ id ∈ map ApprovalDecision.request_id (approvals i).
End Incident.

(** ** What a validated Incident satisfies *)

Section valid_incidents.
Context `{R : Runtime}.

Lemma model_validate_Ok (i j : Incident.t) :
  Incident.model_validate i = Ok j ↔
  j = Incident.normalize i ∧ Incident.check_fields j = Ok tt ∧
  Incident.validate_aggregate j = Ok tt.
Proof.
  unfold Incident.model_validate. split.
  - intros H. run_ok. subst j. done.
  - intros (-> & -> & ->). done.
Qed.

Lemma map_strip_idem `{!RuntimeLaws R} l : map strip (map strip l) = map strip l.
Proof. rewrite map_map. apply map_ext. intros s. apply strip_idem. Qed.

Lemma opt_strip_idem `{!RuntimeLaws R} (o : option string) :
  strip <$> (strip <$> o) = strip <$> o.
Proof. destruct o; cbn; [by rewrite strip_idem|done]. Qed.

Lemma normalize_idem `{!RuntimeLaws R} i :
  Incident.normalize (Incident.normalize i) = Incident.normalize i.
Proof.
  unfold Incident.normalize. cbn.
  by rewrite !strip_idem, !map_strip_idem, !opt_strip_idem.
Qed.

(** A valid Incident is one that validation returns unchanged. *)
Definition valid (i : Incident.t) : Prop := Incident.model_validate i = Ok i.

Lemma valid_iff i :
  valid i ↔ Incident.normalize i = i ∧ Incident.check_fields i = Ok tt ∧
            Incident.validate_aggregate i = Ok tt.
Proof. unfold valid. rewrite model_validate_Ok. naive_solver. Qed.

Lemma model_validate_valid `{!RuntimeLaws R} i j :
  Incident.model_validate i = Ok j → valid j.
Proof.
  rewrite model_validate_Ok, valid_iff. intros (-> & Hf & Ha).
  by rewrite normalize_idem.
Qed.

Lemma ensure_unique_Ok {A} `{Countable A} name (l : list A) u :
  Incident.ensure_unique name l = Ok u ↔ NoDup l.
Proof. unfold Incident.ensure_unique. by rewrite throw_if_Ok, has_duplicates_false. Qed.

(** *** Approval lifecycles *)

Lemma grouped_by_elem {K A} `{EqDecision K} (key : A → K) xs x :
  x ∈ xs → (key x, filter (λ y, key y = key x) xs) ∈ grouped_by key xs.
Proof.
  intros Hx. unfold grouped_by. apply list_elem_of_fmap. exists (key x). split; [done|].
  apply elem_of_distinct. by apply list_elem_of_fmap_2.
Qed.

Lemma valid_lifecycles i :
  valid i → Incident.validate_approval_lifecycles i = Ok tt.
Proof.
  intros (_ & _ & Ha)%valid_iff. unfold Incident.validate_aggregate in Ha. by run_ok.
Qed.

Lemma valid_uniqueness i : valid i → Incident.check_uniqueness i = Ok tt.
Proof.
  intros (_ & _ & Ha)%valid_iff. unfold Incident.validate_aggregate in Ha. by run_ok.
Qed.

Lemma valid_check_approval i d :
  valid i → d ∈ Incident.approvals i → Incident.check_approval i d = Ok tt.
Proof.
  intros Hv%valid_lifecycles Hd. unfold Incident.validate_approval_lifecycles in Hv.
  apply bind_Ok in Hv as ([] & Hv & _).
  rewrite for_each_Ok, Forall_forall in Hv. by apply Hv.
Qed.

Definition request_events (i : Incident.t) (request_id : string) : list ApprovalDecision.t :=
  filter (λ d, ApprovalDecision.request_id d = request_id) (Incident.approvals i).
Definition seq_leb (a b : ApprovalDecision.t) : bool :=
  ApprovalDecision.sequence a <=? ApprovalDecision.sequence b.

Lemma valid_network_approval i d :
  valid i → d ∈ Incident.approvals i → ApprovalDecision.is_network_action d = true →
  ∃ action report, action ∈ Incident.recommendations i ∧ report ∈ Incident.rca_reports i ∧
    RemediationAction.action_id action = ApprovalDecision.subject_id d ∧
    ApprovalDecision.covers_action d action (Incident.incident_id i) report = true.
Proof.
  intros Hv Hd Hn. pose proof (valid_check_approval _ _ Hv Hd) as H.
  unfold Incident.check_approval in H. run_ok. rewrite Hn in *.
  match goal with H : dict_by Incident.report_key _ !! _ = Some ?r |- _ =>
    apply lookup_dict_by in H as [Hr _]; rename r into report end.
  destruct (dict_by RemediationAction.action_id _ !! _) as [action|] eqn:E; [|done].
  apply lookup_dict_by in E as [Ha Hid]. exists action, report. split_and!; try done.
  by match goal with H : true && negb _ = false |- _ => apply negb_false_iff in H end.
Qed.

Lemma valid_check_lifecycle i d :
  valid i → d ∈ Incident.approvals i →
  Incident.check_lifecycle (request_events i (ApprovalDecision.request_id d)) = Ok tt.
Proof.
  intros Hv%valid_lifecycles Hd. unfold Incident.validate_approval_lifecycles in Hv.
  run_ok. rewrite for_each_Ok, Forall_forall in Hv.
  apply (Hv _ (grouped_by_elem ApprovalDecision.request_id _ _ Hd)).
Qed.

(** The events of a request, in the order of their sequence numbers. *)
Definition ordered_events (i : Incident.t) (request_id : string) : list ApprovalDecision.t :=
  py_sorted seq_leb (request_events i request_id).

Lemma elem_of_ordered_events i r d :
  d ∈ ordered_events i r ↔ d ∈ Incident.approvals i ∧ ApprovalDecision.request_id d = r.
Proof.
  unfold ordered_events, request_events. rewrite elem_of_py_sorted, list_elem_of_filter. tauto.
Qed.

Lemma lifecycle_spec events :
  Incident.check_lifecycle events = Ok tt → events ≠ [] →
  ∃ first rest, py_sorted seq_leb events = first :: rest ∧
    map ApprovalDecision.sequence (first :: rest) = range (length (first :: rest)) ∧
    ApprovalDecision.status first = ApprovalStatus.PENDING ∧
    ∀ e, e ∈ rest → Incident.approval_binding e = Incident.approval_binding first.
Proof.
  unfold Incident.check_lifecycle. fold seq_leb. intros H Hne.
  destruct (py_sorted _ events) as [|first rest] eqn:E.
  { apply (f_equal length) in E. rewrite length_py_sorted in E. by destruct events. }
  change (py_sorted seq_leb events = first :: rest) in E.
  exists first, rest. split; [done|]. run_ok.
  rewrite negb_false_iff, bool_decide_eq_true in *. split; [done|].
  rewrite existsb_false_iff in H.
  unfold ApprovalDecision.is_status in *. rewrite bool_decide_eq_true in *.
  split; [done|]. intros e He. specialize (H e He).
  by rewrite negb_false_iff, bool_decide_eq_true in H.
Qed.

Lemma range_elem n z : z ∈ range n ↔ 0 ≤ z < Z.of_nat n.
Proof.
  unfold range. rewrite list_elem_of_fmap. setoid_rewrite elem_of_seq. split.
  - intros (k & -> & ?). lia.
  - intros ?. exists (Z.to_nat z). lia.
Qed.

Lemma valid_ordered_events i d :
  valid i → d ∈ Incident.approvals i →
  ∃ first rest,
    ordered_events i (ApprovalDecision.request_id d) = first :: rest ∧
    map ApprovalDecision.sequence (first :: rest) = range (length (first :: rest)) ∧
    ApprovalDecision.status first = ApprovalStatus.PENDING ∧
    ∀ e, e ∈ rest → Incident.approval_binding e = Incident.approval_binding first.
Proof.
  intros Hv Hd. apply lifecycle_spec.
  - by apply valid_check_lifecycle.
  - assert (d ∈ request_events i (ApprovalDecision.request_id d)) as Hin
      by (by apply list_elem_of_filter).
    intros He. rewrite He in Hin. by apply not_elem_of_nil in Hin.
Qed.

(** *** Latest decisions *)

Lemma NoDup_map_inj {A B} (f : A → B) l x y :
  NoDup (map f l) → x ∈ l → y ∈ l → f x = f y → x = y.
Proof.
  induction l as [|z l IH]; cbn; intros Hnd Hx Hy Hf; [by apply not_elem_of_nil in Hx|].
  apply NoDup_cons in Hnd as [Hz Hnd].
  apply elem_of_cons in Hx as [->|Hx], Hy as [->|Hy].
  - done.
  - destruct Hz. rewrite Hf. by apply list_elem_of_fmap_2.
  - destruct Hz. rewrite <- Hf. by apply list_elem_of_fmap_2.
  - by apply IH.
Qed.

(** Within one request, a sequence number identifies the event. *)
Lemma valid_sequence_inj i d e :
  valid i → d ∈ Incident.approvals i → e ∈ Incident.approvals i →
  ApprovalDecision.request_id d = ApprovalDecision.request_id e →
  ApprovalDecision.sequence d = ApprovalDecision.sequence e → d = e.
Proof.
  intros Hv%valid_uniqueness Hd He Hr Hs. unfold Incident.check_uniqueness in Hv. run_ok.
  rewrite !ensure_unique_Ok in *.
  eapply (NoDup_map_inj (λ d, (ApprovalDecision.request_id d, ApprovalDecision.sequence d)));
    [done..|]. by rewrite Hr, Hs.
Qed.

Lemma latest_approval_decision_spec i r d :
  Incident.latest_approval_decision i r = Some d →
  d ∈ Incident.approvals i ∧ ApprovalDecision.request_id d = r ∧
  ∀ e, e ∈ Incident.approvals i → ApprovalDecision.request_id e = r →
    ApprovalDecision.sequence e ≤ ApprovalDecision.sequence d.
Proof.
  unfold Incident.latest_approval_decision. intros [Hd Hmax]%max_by_Some.
  apply list_elem_of_filter in Hd as [Hr Hd]. split_and!; [done..|].
  intros e He Hre. apply Hmax. by apply list_elem_of_filter.
Qed.

Lemma latest_approval_decision_Some i d :
  d ∈ Incident.approvals i →
  is_Some (Incident.latest_approval_decision i (ApprovalDecision.request_id d)).
Proof.
  intros Hd. unfold Incident.latest_approval_decision.
  destruct (max_by _ _) as [e|] eqn:E; [done|]. apply max_by_None in E.
  assert (d ∈ filter (λ e, ApprovalDecision.request_id e = ApprovalDecision.request_id d)
            (Incident.approvals i)) as Hin by (by apply list_elem_of_filter).
  rewrite E in Hin. by apply not_elem_of_nil in Hin.
Qed.

(** The set iteration of [effective_action_approval] finds a grant exactly
    when some latest decision is one. *)
Lemma effective_action_approval_Some i ids action report at_ :
  Incident.request_id_order i ids →
  is_Some (Incident.effective_action_approval i ids action report at_) ↔
  ∃ r d, Incident.latest_approval_decision i r = Some d ∧
    ApprovalDecision.covers_action d action (Incident.incident_id i) report = true ∧
    ApprovalDecision.is_effective d at_ = true.
Proof.
  intros [_ Hids]. unfold Incident.effective_action_approval. split.
  - intros [d Hd]. apply next_such_Some in Hd as [Hd Hp].
    apply list_elem_of_omap in Hd as (r & _ & Hd). apply andb_true_iff in Hp as [? ?]. eauto.
  - intros (r & d & Hd & Hc & He).
    destruct (next_such _ _) as [e|] eqn:E; [done|]. exfalso.
    rewrite next_such_None in E.
    assert (d ∈ omap (Incident.latest_approval_decision i) ids) as Hin.
    { apply list_elem_of_omap. exists r. split; [|done]. apply Hids.
      apply latest_approval_decision_spec in Hd as (Hd & <- & _).
      by apply list_elem_of_fmap_2. }
    specialize (E d Hin). by rewrite Hc, He in E.
Qed.
End valid_incidents.
