(* ===== verification/PyEq.v ===== *)
(** * Equality as Python computes it

    [x == y] of the values the models hold.  Numbers are equal by their value,
    [True == 1 == 1.0], at any depth of a JSON value; models of one class are
    equal when their fields are (computed fields are not compared), so equal
    actions may have different hashes.  [py_eqb] is [==], [≐] holds when it is
    true, and it is an equivalence. *)

From Stdlib Require Import Ascii String.
From S2P Require Import Prelude PyStr Json Models Incident.

(** ** Numbers and scalars *)

(** A Python value of type [bool | int | float | str]. *)
Inductive scalar :=
| ScBool (b : bool)
| ScInt (z : Z)
| ScFloat (f : pyfloat)
| ScStr (s : string).
#[export] Instance scalar_eq_dec : EqDecision scalar.
Proof. solve_decision. Defined.

Definition scalar_json (v : scalar) : json :=
  match v with ScBool b => JBool b | ScInt z => JInt z | ScFloat f => JFloat f | ScStr s => JStr s end.
(** [_is_scalar] of a JSON value (floats are finite). *)
Definition scalar_of (v : json) : option scalar :=
  match v with
  | JBool b => Some (ScBool b)
  | JInt z => Some (ScInt z)
  | JFloat f => Some (ScFloat f)
  | JStr s => Some (ScStr s)
  | _ => None
  end.

(** [x == y] of two floats. *)
Definition float_eqb (x y : pyfloat) : bool := float_leb x y && float_leb y x.
(** An integer as a number to compare: Python compares exactly. *)
Definition exact_int (z : Z) : pyfloat := PyFloat (z <? 0) (Z.to_N (Z.abs z)) 0.

(** [left == right] of any two scalars: [True == 1 == 1.0]. *)
Definition number_of (v : scalar) : option pyfloat :=
  match v with
  | ScBool b => Some (exact_int (if b then 1 else 0))
  | ScInt z => Some (exact_int z)
  | ScFloat f => Some f
  | ScStr _ => None
  end.
Definition scalar_eqb (left right : scalar) : bool :=
  match number_of left, number_of right with
  | Some a, Some b => float_eqb a b
  | None, None => bool_decide (left = right)
  | _, _ => false
  end.

(** ** Containers and JSON values *)

Definition same_opt {A} (eqb : A → A → bool) (x y : option A) : bool :=
  match x, y with Some a, Some b => eqb a b | None, None => true | _, _ => false end.
Fixpoint same_list {A} (eqb : A → A → bool) (x y : list A) : bool :=
  match x, y with
  | a :: x, b :: y => eqb a b && same_list eqb x y
  | [], [] => true
  | _, _ => false
  end.
Definition str_eqb (x y : string) : bool := bool_decide (x = y).

Fixpoint json_eqb (x y : json) {struct x} : bool :=
  match x, y with
  | JNull, JNull => true
  | JStr a, JStr b => str_eqb a b
  | JArr a, JArr b =>
      (fix go (a b : list json) {struct a} : bool :=
         match a, b with
         | [], [] => true
         | p :: a, q :: b => json_eqb p q && go a b
         | _, _ => false
         end) a b
  | JObj a, JObj b =>
      (fix go (a b : list (string * json)) {struct a} : bool :=
         match a, b with
         | [], [] => true
         | (k, p) :: a, (l, q) :: b => str_eqb k l && json_eqb p q && go a b
         | _, _ => false
         end) a b
  | (JBool _ | JInt _ | JFloat _), (JBool _ | JInt _ | JFloat _) =>
      match scalar_of x, scalar_of y with
      | Some a, Some b => scalar_eqb a b
      | _, _ => false
      end
  | _, _ => false
  end.
Definition attributes_eqb (a b : gmap string json) : bool :=
  bool_decide (dom a = dom b) &&
  forallb (λ kv, match b !! kv.1 with Some v => json_eqb kv.2 v | None => false end) (map_to_list a).

(** ** Models *)

Definition resource_eqb (x y : ResourceReference.t) : bool :=
  let strict r := ResourceReference.mk (ResourceReference.resource_id r)
    (ResourceReference.resource_type r) (ResourceReference.name r) (ResourceReference.technology r)
    (ResourceReference.vendor_profile r) (ResourceReference.parent_resource_id r)
    (ResourceReference.location_id r) (ResourceReference.external_ids r) ∅ in
  bool_decide (strict x = strict y)
  && attributes_eqb (ResourceReference.attributes x) (ResourceReference.attributes y).
Definition violation_eqb (x y : KpiViolation.t) : bool :=
  let strict v := KpiViolation.mk (KpiViolation.violation_id v) (KpiViolation.kpi_name v)
    (PyFloat false 0 0) (PyFloat false 0 0) (KpiViolation.comparator v) (KpiViolation.unit_ v)
    (KpiViolation.window_start v) (KpiViolation.window_end v) (KpiViolation.rule_id v)
    (KpiViolation.rule_version v) (KpiViolation.resource_ids v) (KpiViolation.dimensions v) in
  bool_decide (strict x = strict y)
  && float_eqb (KpiViolation.observed_value x) (KpiViolation.observed_value y)
  && float_eqb (KpiViolation.threshold_value x) (KpiViolation.threshold_value y).
Definition evidence_eqb (x y : EvidenceReference.t) : bool :=
  str_eqb (EvidenceReference.evidence_id x) (EvidenceReference.evidence_id y)
  && bool_decide (EvidenceReference.evidence_type x = EvidenceReference.evidence_type y)
  && str_eqb (EvidenceReference.uri x) (EvidenceReference.uri y)
  && bool_decide (EvidenceReference.source x = EvidenceReference.source y)
  && bool_decide (EvidenceReference.summary x = EvidenceReference.summary y)
  && bool_decide (EvidenceReference.collected_at x = EvidenceReference.collected_at y)
  && bool_decide (EvidenceReference.content_type x = EvidenceReference.content_type y)
  && bool_decide (EvidenceReference.checksum_sha256 x = EvidenceReference.checksum_sha256 y)
  && attributes_eqb (EvidenceReference.attributes x) (EvidenceReference.attributes y).
Definition action_eqb (x y : RemediationAction.t) : bool :=
  let strict a := RemediationAction.mk (RemediationAction.action_id a)
    (RemediationAction.action_type a) (RemediationAction.description a) [] ∅
    (RemediationAction.risk_level a) (RemediationAction.reversible a)
    (RemediationAction.rollback_plan a) (RemediationAction.expected_outcome a)
    (RemediationAction.idempotency_key a) (RemediationAction.created_at a) in
  bool_decide (strict x = strict y)
  && same_list resource_eqb (RemediationAction.target_resources x) (RemediationAction.target_resources y)
  && attributes_eqb (RemediationAction.parameters x) (RemediationAction.parameters y).
Definition report_eqb (x y : RcaReport.t) : bool :=
  let strict r := RcaReport.mk (RcaReport.report_id r) (RcaReport.incident_id r)
    (RcaReport.version r) (RcaReport.status r) (RcaReport.title r) (RcaReport.summary r)
    (RcaReport.hypotheses r) (RcaReport.root_cause r) (RcaReport.conclusion r) None [] []
    (RcaReport.generated_by r) ∅ (RcaReport.created_at r) in
  bool_decide (strict x = strict y)
  && same_opt float_eqb (RcaReport.confidence x) (RcaReport.confidence y)
  && same_list evidence_eqb (RcaReport.evidence_refs x) (RcaReport.evidence_refs y)
  && same_list action_eqb (RcaReport.recommendations x) (RcaReport.recommendations y)
  && attributes_eqb (RcaReport.model_metadata x) (RcaReport.model_metadata y).
Definition approval_eqb (x y : ApprovalDecision.t) : bool :=
  let strict d := ApprovalDecision.mk (ApprovalDecision.approval_id d)
    (ApprovalDecision.request_id d) (ApprovalDecision.sequence d) (ApprovalDecision.incident_id d)
    (ApprovalDecision.report_id d) (ApprovalDecision.report_version d)
    (ApprovalDecision.subject_id d) (ApprovalDecision.status d) (ApprovalDecision.approval_type d)
    (ApprovalDecision.action_hash d) [] (ApprovalDecision.requested_by d)
    (ApprovalDecision.decided_by d) (ApprovalDecision.reason d) (ApprovalDecision.requested_at d)
    (ApprovalDecision.decided_at d) (ApprovalDecision.expires_at d)
    (ApprovalDecision.idempotency_key d) in
  bool_decide (strict x = strict y)
  && same_list resource_eqb (ApprovalDecision.scope x) (ApprovalDecision.scope y).
Definition run_eqb (x y : ActionRun.t) : bool :=
  let strict r := ActionRun.mk (ActionRun.action_run_id r) (ActionRun.incident_id r)
    (ActionRun.action_id r) (ActionRun.action_hash r) (ActionRun.status r)
    (ActionRun.idempotency_key r) (ActionRun.attempt r) (ActionRun.started_at r)
    (ActionRun.finished_at r) (ActionRun.output_summary r) (ActionRun.error r) ∅ in
  bool_decide (strict x = strict y)
  && attributes_eqb (ActionRun.metadata x) (ActionRun.metadata y).
Definition verification_eqb (x y : VerificationRun.t) : bool :=
  let strict v := VerificationRun.mk (VerificationRun.verification_id v)
    (VerificationRun.incident_id v) (VerificationRun.action_run_ids v) (VerificationRun.status v)
    (VerificationRun.checks v) [] [] (VerificationRun.summary v) (VerificationRun.error v)
    (VerificationRun.started_at v) (VerificationRun.finished_at v) ∅ in
  bool_decide (strict x = strict y)
  && same_list violation_eqb (VerificationRun.observed_kpis x) (VerificationRun.observed_kpis y)
  && same_list evidence_eqb (VerificationRun.evidence_refs x) (VerificationRun.evidence_refs y)
  && attributes_eqb (VerificationRun.metadata x) (VerificationRun.metadata y).
Definition incident_eqb (x y : Incident.t) : bool :=
  let strict i := Incident.mk (Incident.incident_id i) (Incident.correlation_key i)
    (Incident.source_event_ids i) (Incident.technology i) (Incident.vendor_profile i)
    (Incident.status i) (Incident.severity i) (Incident.title i) (Incident.description i) []
    (Incident.detected_at i) (Incident.window_start i) (Incident.window_end i) [] []
    (Incident.hypotheses i) (Incident.root_cause i) [] [] [] [] [] ∅ (Incident.rule_versions i)
    (Incident.trace_id i) (Incident.duplicate_of i) (Incident.created_at i) (Incident.updated_at i)
    (Incident.revision i) in
  bool_decide (strict x = strict y)
  && same_list resource_eqb (Incident.affected_resources x) (Incident.affected_resources y)
  && same_list violation_eqb (Incident.violated_kpis x) (Incident.violated_kpis y)
  && same_list evidence_eqb (Incident.evidence_refs x) (Incident.evidence_refs y)
  && same_list report_eqb (Incident.rca_reports x) (Incident.rca_reports y)
  && same_list action_eqb (Incident.recommendations x) (Incident.recommendations y)
  && same_list approval_eqb (Incident.approvals x) (Incident.approvals y)
  && same_list run_eqb (Incident.action_runs x) (Incident.action_runs y)
  && same_list verification_eqb (Incident.verification_runs x) (Incident.verification_runs y)
  && attributes_eqb (Incident.model_metadata x) (Incident.model_metadata y).

(** ** [==] at every type *)

Class PyEq (A : Type) := py_eqb : A → A → bool.
#[export] Instance json_py_eq : PyEq json := json_eqb.
#[export] Instance attributes_py_eq : PyEq (gmap string json) := attributes_eqb.
#[export] Instance resource_py_eq : PyEq ResourceReference.t := resource_eqb.
#[export] Instance violation_py_eq : PyEq KpiViolation.t := violation_eqb.
#[export] Instance evidence_py_eq : PyEq EvidenceReference.t := evidence_eqb.
#[export] Instance action_py_eq : PyEq RemediationAction.t := action_eqb.
#[export] Instance report_py_eq : PyEq RcaReport.t := report_eqb.
#[export] Instance approval_py_eq : PyEq ApprovalDecision.t := approval_eqb.
#[export] Instance run_py_eq : PyEq ActionRun.t := run_eqb.
#[export] Instance verification_py_eq : PyEq VerificationRun.t := verification_eqb.
#[export] Instance incident_py_eq : PyEq Incident.t := incident_eqb.
#[export] Instance list_py_eq {A} `{PyEq A} : PyEq (list A) := same_list py_eqb.
(** Texts, instants, enums and mappings of texts: nothing in them is a number
    that could be written in two ways. *)
#[export] Instance string_py_eq : PyEq string := str_eqb.
#[export] Instance texts_py_eq : PyEq (gmap string string) := λ x y, bool_decide (x = y).
#[export] Instance severity_py_eq : PyEq IncidentSeverity.t := λ x y, bool_decide (x = y).
#[export] Instance opt_string_py_eq : PyEq (option string) := λ x y, bool_decide (x = y).
#[export] Instance opt_instant_py_eq : PyEq (option Z) := λ x y, bool_decide (x = y).

(** [after[:len(before)] == before], with the length test of the callers. *)
Definition extends {A} `{PyEq A} (before after : list A) : bool :=
  negb (Nat.ltb (length after) (length before)) && py_eqb (take (length before) after) before.
(** [x in xs]. *)
Definition py_mem {A} `{PyEq A} (x : A) (xs : list A) : bool := existsb (λ y, py_eqb x y) xs.

(** ** Numbers by their value *)

Lemma f_signed_shift f e e' :
  e' ≤ e ≤ f_expo f → f_signed f e' = f_signed f e * 2 ^ (e - e').
Proof.
  intros He. unfold f_signed.
  replace (f_expo f - e') with ((f_expo f - e) + (e - e')) by lia.
  rewrite Z.pow_add_r by lia. lia.
Qed.

Lemma float_leb_at x y e :
  e ≤ f_expo x → e ≤ f_expo y → float_leb x y = (f_signed x e <=? f_signed y e).
Proof.
  intros Hx Hy. unfold float_leb. set (m := Z.min (f_expo x) (f_expo y)).
  rewrite (f_signed_shift x m e), (f_signed_shift y m e) by lia.
  apply eq_true_iff_eq. rewrite !Z.leb_le.
  assert (0 < 2 ^ (m - e)) by (apply Z.pow_pos_nonneg; lia). nia.
Qed.

(** The value of two numbers at a common exponent. *)
Lemma float_eqb_at x y e :
  e ≤ f_expo x → e ≤ f_expo y → float_eqb x y = true ↔ f_signed x e = f_signed y e.
Proof.
  intros Hx Hy. unfold float_eqb. rewrite andb_true_iff, !(float_leb_at _ _ e) by done.
  rewrite !Z.leb_le. lia.
Qed.

Lemma float_eqb_refl x : float_eqb x x = true.
Proof. by apply (float_eqb_at x x (f_expo x)). Qed.
Lemma float_eqb_sym x y : float_eqb x y = true → float_eqb y x = true.
Proof.
  set (e := Z.min (f_expo x) (f_expo y)).
  rewrite !(float_eqb_at _ _ e) by lia. done.
Qed.
Lemma float_eqb_trans x y z :
  float_eqb x y = true → float_eqb y z = true → float_eqb x z = true.
Proof.
  set (e := Z.min (f_expo x) (Z.min (f_expo y) (f_expo z))).
  rewrite !(float_eqb_at _ _ e) by lia. congruence.
Qed.

(** ** Equality is an equivalence *)

Class Equiv_eqb {A} (eqb : A → A → bool) : Prop := {
  eqb_refl : ∀ x, eqb x x = true;
  eqb_sym : ∀ x y, eqb x y = true → eqb y x = true;
  eqb_trans : ∀ x y z, eqb x y = true → eqb y z = true → eqb x z = true
}.

#[export] Instance float_equiv : Equiv_eqb float_eqb.
Proof. split; eauto using float_eqb_refl, float_eqb_sym, float_eqb_trans. Qed.
#[export] Instance str_equiv : Equiv_eqb str_eqb.
Proof. unfold str_eqb. split; intros *; rewrite ?bool_decide_eq_true; congruence. Qed.
#[export] Instance decide_equiv {A} `{EqDecision A} : Equiv_eqb (λ x y : A, bool_decide (x = y)).
Proof. split; intros *; rewrite ?bool_decide_eq_true; congruence. Qed.
#[export] Instance Z_equiv : Equiv_eqb Z.eqb.
Proof. split; intros *; rewrite ?Z.eqb_eq; lia. Qed.
#[export] Instance bool_equiv : Equiv_eqb Bool.eqb.
Proof. by split; [intros []|intros [] []|intros [] [] []]. Qed.

Lemma equiv_and {A} (p q : A → A → bool) :
  Equiv_eqb p → Equiv_eqb q → Equiv_eqb (λ x y, p x y && q x y).
Proof.
  intros Hp Hq. split; intros *; rewrite ?andb_true_iff.
  - by rewrite !eqb_refl.
  - intros []. split; by apply eqb_sym.
  - intros [] []. split; by eapply eqb_trans.
Qed.
#[export] Instance list_equiv {A} (eqb : A → A → bool) : Equiv_eqb eqb → Equiv_eqb (same_list eqb).
Proof.
  intros He. split.
  - intros x. induction x as [|a x IH]; cbn; [done|]. by rewrite eqb_refl.
  - intros x. induction x as [|a x IH]; intros [|b y]; cbn; try done.
    rewrite !andb_true_iff. intros []. split; [by apply eqb_sym|by apply IH].
  - intros x. induction x as [|a x IH]; intros [|b y] [|c z]; cbn; try done.
    rewrite !andb_true_iff. intros [] []. split; [by eapply eqb_trans|by eapply IH].
Qed.

#[export] Instance scalar_equiv : Equiv_eqb scalar_eqb.
Proof.
  unfold scalar_eqb. split.
  - intros x. destruct (number_of x); [apply float_eqb_refl|by apply bool_decide_eq_true].
  - intros x y. destruct (number_of x), (number_of y); try done; [apply float_eqb_sym|].
    rewrite !bool_decide_eq_true. congruence.
  - intros x y z. destruct (number_of x), (number_of y), (number_of z); try done;
      [apply float_eqb_trans|]. rewrite !bool_decide_eq_true. congruence.
Qed.

(** Comparison of what a function makes of two values. *)
Lemma proj_equiv {A B} (eqb : B → B → bool) (f : A → B) :
  Equiv_eqb eqb → Equiv_eqb (λ x y, eqb (f x) (f y)).
Proof.
  intros He. split; intros *; [apply eqb_refl|apply eqb_sym|apply eqb_trans].
Qed.

Lemma decide_proj {A B} `{EqDecision B} (f : A → B) :
  Equiv_eqb (λ x y, bool_decide (f x = f y)).
Proof. split; intros *; rewrite ?bool_decide_eq_true; congruence. Qed.

(** A conjunction of comparisons of the fields. *)
Ltac conj_equiv :=
  cbv zeta;
  lazymatch goal with
  | |- Equiv_eqb (λ x y, andb _ _) => apply equiv_and; conj_equiv
  | |- Equiv_eqb (λ x y, bool_decide (@?f x = _)) =>
      apply (decide_proj f)
  | |- Equiv_eqb (λ x y, ?eqb (@?f x) _) => apply (proj_equiv eqb f); apply _
  end.


(** ** The equality of JSON values and models is an equivalence *)

Lemma json_eqb_arr a b : json_eqb (JArr a) (JArr b) = same_list json_eqb a b.
Proof. revert b. induction a as [|p a IH]; intros [|q b]; try done. cbn. f_equal. apply IH. Qed.
Definition item_eqb (x y : string * json) : bool := str_eqb x.1 y.1 && json_eqb x.2 y.2.
Lemma json_eqb_obj a b : json_eqb (JObj a) (JObj b) = same_list item_eqb a b.
Proof.
  revert b. induction a as [|[k p] a IH]; intros [|[l q] b]; try done. cbn. f_equal. apply IH.
Qed.

(** Reflexivity, symmetry and transitivity at the items of a list. *)
Lemma same_list_refl {A} (eqb : A → A → bool) l :
  Forall (λ x, eqb x x = true) l → same_list eqb l l = true.
Proof. induction 1 as [|x l Hx _ IH]; cbn; [done|]. by rewrite Hx. Qed.
Lemma same_list_sym {A} (eqb : A → A → bool) l m :
  Forall (λ x, ∀ y, eqb x y = true → eqb y x = true) l →
  same_list eqb l m = true → same_list eqb m l = true.
Proof.
  intros H. revert m. induction H as [|x l Hx _ IH]; intros [|y m]; cbn; try done.
  rewrite !andb_true_iff. intros []. auto.
Qed.
Lemma same_list_trans {A} (eqb : A → A → bool) l m n :
  Forall (λ x, ∀ y z, eqb x y = true → eqb y z = true → eqb x z = true) l →
  same_list eqb l m = true → same_list eqb m n = true → same_list eqb l n = true.
Proof.
  intros H. revert m n. induction H as [|x l Hx _ IH]; intros [|y m] [|z n]; cbn; try done.
  rewrite !andb_true_iff. intros [] []. eauto.
Qed.

(** A scalar JSON value is equal to scalars only, as those are. *)
Lemma json_eqb_scalar x y a :
  scalar_of x = Some a →
  json_eqb x y = match scalar_of y with Some b => scalar_eqb a b | None => false end.
Proof.
  destruct x; try done; intros [= <-]; destruct y; try done; cbn; unfold scalar_eqb; cbn;
    try done; unfold str_eqb; apply bool_decide_ext; split; congruence.
Qed.
Lemma json_eqb_scalar_r x y b : scalar_of y = Some b → scalar_of x = None → json_eqb x y = false.
Proof. by destruct y, x. Qed.
Lemma json_scalar_refl x a : scalar_of x = Some a → json_eqb x x = true.
Proof. intros H. rewrite (json_eqb_scalar _ _ _ H), H. apply eqb_refl. Qed.
Lemma json_scalar_sym x y a : scalar_of x = Some a → json_eqb x y = true → json_eqb y x = true.
Proof.
  intros H. rewrite (json_eqb_scalar _ _ _ H). destruct (scalar_of y) as [b|] eqn:E; [|done].
  rewrite (json_eqb_scalar _ _ _ E), H. apply eqb_sym.
Qed.
Lemma json_scalar_trans x y z a :
  scalar_of x = Some a → json_eqb x y = true → json_eqb y z = true → json_eqb x z = true.
Proof.
  intros H. rewrite !(json_eqb_scalar x _ _ H). destruct (scalar_of y) as [b|] eqn:E; [|done].
  rewrite (json_eqb_scalar _ _ _ E). destruct (scalar_of z); [|done]. apply eqb_trans.
Qed.

Lemma json_eqb_refl x : json_eqb x x = true.
Proof.
  induction x using json_ind'; try (by eapply json_scalar_refl); [done| |].
  - rewrite json_eqb_arr. by apply same_list_refl.
  - rewrite json_eqb_obj. apply same_list_refl. eapply Forall_impl; [done|]. intros kv Hkv.
    unfold item_eqb. by rewrite Hkv, eqb_refl.
Qed.
Lemma json_eqb_sym x y : json_eqb x y = true → json_eqb y x = true.
Proof.
  revert y. induction x using json_ind'; intros y; try (by eapply json_scalar_sym); [by destruct y| |].
  - destruct y; try done. rewrite !json_eqb_arr. by apply same_list_sym.
  - destruct y; try done. rewrite !json_eqb_obj. apply same_list_sym.
    eapply Forall_impl; [done|]. intros kv Hkv kv'. unfold item_eqb. rewrite !andb_true_iff.
    intros []. split; [by apply eqb_sym|auto].
Qed.
Lemma json_eqb_trans x v w : json_eqb x v = true → json_eqb v w = true → json_eqb x w = true.
Proof.
  revert v w. induction x using json_ind'; intros v w; try (by eapply json_scalar_trans); [by destruct v| |].
  - destruct v, w; try done. rewrite !json_eqb_arr. by apply same_list_trans.
  - destruct v, w; try done. rewrite !json_eqb_obj. apply same_list_trans.
    eapply Forall_impl; [done|]. intros kv Hkv a b. unfold item_eqb. rewrite !andb_true_iff.
    intros [] []. split; [by eapply eqb_trans|eauto].
Qed.
#[export] Instance json_equiv : Equiv_eqb json_eqb.
Proof. split; eauto using json_eqb_refl, json_eqb_sym, json_eqb_trans. Qed.

Lemma attributes_eqb_spec a b :
  attributes_eqb a b = true ↔
  dom a = dom b ∧ ∀ k x y, a !! k = Some x → b !! k = Some y → json_eqb x y = true.
Proof.
  unfold attributes_eqb. rewrite andb_true_iff, bool_decide_eq_true, forallb_true_iff.
  split; intros [Hd H]; (split; [done|]).
  - intros k x y Hx Hy. specialize (H (k, x)). cbn in H. rewrite Hy in H.
    apply H. by apply elem_of_map_to_list.
  - intros [k x] Hkx%elem_of_map_to_list. cbn.
    assert (is_Some (b !! k)) as [y Hy] by (apply elem_of_dom; rewrite <- Hd; by apply elem_of_dom).
    rewrite Hy. eauto.
Qed.
#[export] Instance attributes_equiv : Equiv_eqb attributes_eqb.
Proof.
  split.
  - intros a. apply attributes_eqb_spec. split; [done|]. intros k x y -> [= ->]. apply eqb_refl.
  - intros a b. rewrite !attributes_eqb_spec. intros [? H]. split; [done|].
    intros. apply eqb_sym. eauto.
  - intros a b c. rewrite !attributes_eqb_spec. intros [Hab H] [Hbc H']. split; [congruence|].
    intros k x z Hx Hz.
    assert (is_Some (b !! k)) as [y Hy] by (apply elem_of_dom; rewrite <- Hab; by apply elem_of_dom).
    eapply eqb_trans; eauto.
Qed.
#[export] Instance opt_equiv {A} (eqb : A → A → bool) : Equiv_eqb eqb → Equiv_eqb (same_opt eqb).
Proof.
  intros He. split.
  - intros [x|]; cbn; [apply eqb_refl|done].
  - intros [x|] [y|]; cbn; try done. apply eqb_sym.
  - intros [x|] [y|] [z|]; cbn; try done. apply eqb_trans.
Qed.

#[export] Instance resource_equiv : Equiv_eqb resource_eqb.
Proof. unfold resource_eqb. conj_equiv. Qed.
#[export] Instance violation_equiv : Equiv_eqb violation_eqb.
Proof. unfold violation_eqb. conj_equiv. Qed.
#[export] Instance evidence_equiv : Equiv_eqb evidence_eqb.
Proof. unfold evidence_eqb. conj_equiv. Qed.
#[export] Instance action_equiv : Equiv_eqb action_eqb.
Proof. unfold action_eqb. conj_equiv. Qed.
#[export] Instance report_equiv : Equiv_eqb report_eqb.
Proof. unfold report_eqb. conj_equiv. Qed.
#[export] Instance approval_equiv : Equiv_eqb approval_eqb.
Proof. unfold approval_eqb. conj_equiv. Qed.
#[export] Instance run_equiv : Equiv_eqb run_eqb.
Proof. unfold run_eqb. conj_equiv. Qed.
#[export] Instance verification_equiv : Equiv_eqb verification_eqb.
Proof. unfold verification_eqb. conj_equiv. Qed.
#[export] Instance incident_equiv : Equiv_eqb incident_eqb.
Proof. unfold incident_eqb. conj_equiv. Qed.

(** ** The relation *)

Class PyEqLaws (A : Type) `{PyEq A} : Prop := py_equiv :: Equiv_eqb (py_eqb (A := A)).
#[export] Instance json_py_laws : PyEqLaws json := json_equiv.
#[export] Instance attributes_py_laws : PyEqLaws (gmap string json) := attributes_equiv.
#[export] Instance resource_py_laws : PyEqLaws ResourceReference.t := resource_equiv.
#[export] Instance violation_py_laws : PyEqLaws KpiViolation.t := violation_equiv.
#[export] Instance evidence_py_laws : PyEqLaws EvidenceReference.t := evidence_equiv.
#[export] Instance action_py_laws : PyEqLaws RemediationAction.t := action_equiv.
#[export] Instance report_py_laws : PyEqLaws RcaReport.t := report_equiv.
#[export] Instance approval_py_laws : PyEqLaws ApprovalDecision.t := approval_equiv.
#[export] Instance run_py_laws : PyEqLaws ActionRun.t := run_equiv.
#[export] Instance verification_py_laws : PyEqLaws VerificationRun.t := verification_equiv.
#[export] Instance incident_py_laws : PyEqLaws Incident.t := incident_equiv.
#[export] Instance list_py_laws {A} `{PyEqLaws A} : PyEqLaws (list A).
Proof. unfold PyEqLaws, py_eqb, list_py_eq. apply _. Qed.

Definition py_eq {A} `{PyEq A} (x y : A) : Prop := py_eqb x y = true.
Infix "≐" := py_eq (at level 70) : stdpp_scope.

#[export] Instance py_eq_equivalence {A} `{PyEqLaws A} : Equivalence (py_eq (A := A)).
Proof. split; [intros x|intros x y|intros x y z]; [apply eqb_refl|apply eqb_sym|apply eqb_trans]. Qed.

Section py_eq.
Context {A : Type} `{PyEqLaws A}.
Implicit Types (x y : A) (xs ys : list A).

Lemma py_eq_list xs ys : xs ≐ ys ↔ Forall2 py_eq xs ys.
Proof.
  unfold py_eq, py_eqb at 1, list_py_eq. revert ys. induction xs as [|x xs IH]; intros [|y ys]; cbn.
  - split; [constructor|done].
  - split; [done|by inversion 1].
  - split; [done|by inversion 1].
  - rewrite andb_true_iff, IH. split; [by intros []; constructor|by inversion 1].
Qed.
Lemma elem_of_py_eq xs ys x : xs ≐ ys → x ∈ xs → ∃ y, y ∈ ys ∧ x ≐ y.
Proof.
  rewrite py_eq_list. intros H2 [n Hx]%list_elem_of_lookup.
  destruct (Forall2_lookup_l _ _ _ _ _ H2 Hx) as (y & Hy & ?).
  exists y. split; [by eapply list_elem_of_lookup_2|done].
Qed.
Lemma py_mem_spec x xs : py_mem x xs = true ↔ ∃ y, y ∈ xs ∧ x ≐ y.
Proof. apply existsb_true_iff. Qed.

(** A history that kept what it had, as Python compares it, and may have more. *)
Definition grown (before after : list A) : Prop :=
  ∃ old new, after = old ++ new ∧ before ≐ old.

Lemma extends_spec before after : extends before after = true ↔ grown before after.
Proof.
  unfold extends. rewrite andb_true_iff, negb_true_iff, Nat.ltb_ge.
  change (py_eqb ?x ?y = true) with (x ≐ y). split.
  - intros [_ He]. exists (take (length before) after), (drop (length before) after).
    rewrite take_drop. split; [done|]. by symmetry.
  - intros (old & new & -> & He). pose proof He as Hl%py_eq_list%Forall2_length.
    rewrite length_app, Hl, take_app_length. split; [lia|]. by symmetry.
Qed.
#[export] Instance grown_preorder : PreOrder grown.
Proof.
  split.
  - intros l. exists l, []. by rewrite app_nil_r.
  - intros l m n (o1 & n1 & -> & H1) (o2 & n2 & -> & H2).
    apply py_eq_list in H2. apply Forall2_app_inv_l in H2 as (o & o' & Ho & _ & ->).
    exists o, (o' ++ n2). rewrite app_assoc. split; [done|].
    etransitivity; [done|by apply py_eq_list].
Qed.
Lemma grown_app l m : grown l (l ++ m).
Proof. by exists l, m. Qed.
Lemma elem_of_grown before after x : grown before after → x ∈ before → ∃ y, y ∈ after ∧ x ≐ y.
Proof.
  intros (old & new & -> & He) Hx. destruct (elem_of_py_eq _ _ _ He Hx) as (y & Hy & ?).
  exists y. rewrite elem_of_app. auto.
Qed.
End py_eq.

#[export] Instance string_py_laws : PyEqLaws string := str_equiv.
Lemma py_eq_string (x y : string) : x ≐ y ↔ x = y.
Proof. apply bool_decide_eq_true. Qed.
Lemma py_eq_strings (x y : list string) : x ≐ y ↔ x = y.
Proof.
  rewrite py_eq_list. split.
  - induction 1 as [|a b l m Hab%py_eq_string]; congruence.
  - intros <-. by induction x; constructor.
Qed.
Lemma grown_strings (l m : list string) : grown l m ↔ l `prefix_of` m.
Proof.
  split.
  - intros (old & new & -> & ->%py_eq_strings). by exists new.
  - intros [k ->]. apply grown_app.
Qed.

(** ** What equal models share *)

Ltac py_fields :=
  unfold py_eq, py_eqb; intros H; repeat apply andb_true_iff in H as [H ?];
  apply bool_decide_eq_true in H; split_and?;
  match goal with |- ?field _ = _ => exact (f_equal field H) end.

Lemma py_eq_action (x y : RemediationAction.t) :
  x ≐ y → RemediationAction.action_id x = RemediationAction.action_id y.
Proof. unfold action_py_eq, action_eqb. py_fields. Qed.
Lemma py_eq_report (x y : RcaReport.t) :
  x ≐ y → RcaReport.report_id x = RcaReport.report_id y ∧
    RcaReport.incident_id x = RcaReport.incident_id y ∧ RcaReport.version x = RcaReport.version y.
Proof. unfold report_py_eq, report_eqb. py_fields. Qed.
Lemma py_eq_approval (x y : ApprovalDecision.t) :
  x ≐ y →
  ApprovalDecision.request_id x = ApprovalDecision.request_id y ∧
  ApprovalDecision.subject_id x = ApprovalDecision.subject_id y ∧
  ApprovalDecision.status x = ApprovalDecision.status y ∧
  ApprovalDecision.approval_type x = ApprovalDecision.approval_type y ∧
  ApprovalDecision.action_hash x = ApprovalDecision.action_hash y.
Proof. unfold approval_py_eq, approval_eqb. py_fields. Qed.
Lemma py_eq_run (x y : ActionRun.t) :
  x ≐ y →
  ActionRun.action_run_id x = ActionRun.action_run_id y ∧
  ActionRun.incident_id x = ActionRun.incident_id y ∧
  ActionRun.action_id x = ActionRun.action_id y ∧
  ActionRun.action_hash x = ActionRun.action_hash y ∧
  ActionRun.status x = ActionRun.status y.
Proof. unfold run_py_eq, run_eqb. py_fields. Qed.
Lemma py_eq_verification (x y : VerificationRun.t) :
  x ≐ y →
  VerificationRun.status x = VerificationRun.status y ∧
  VerificationRun.action_run_ids x = VerificationRun.action_run_ids y.
Proof. unfold verification_py_eq, verification_eqb. py_fields. Qed.
