(* ===== verification/Errors.v ===== *)
(** * Exceptions

    The exception classes of telco_domain, with the data each one carries.
    [ValidationError] is pydantic's, named by the failing check. *)

From Stdlib Require Import Ascii String.
From stdpp Require Import pretty.
From S2P Require Import Prelude Models.

Inductive exc :=
| ValueError (msg : string)
| RuntimeError (msg : string)
| TypeError (msg : string)
| ValidationError (check : string)
(* state_machine.py *)
| IncidentStateError (msg : string)
| InvalidTransitionError (incident_id : string) (current target : IncidentStatus.t)
| StateRevisionConflictError (incident_id : string) (expected actual : Z)
| InvalidTransitionUpdateError (protected_fields : list string)
| TransitionTimeError (transitioned_at : pydatetime) (current_updated_at : Z)
| TransitionGuardError (incident_id : string) (target : IncidentStatus.t) (reason : string)
(* ports.py *)
| IncidentRepositoryError (msg : string)
| IncidentNotFoundError (incident_id : string)
| IncidentAlreadyExistsError (incident_id : string)
| ActiveIncidentConflictError (incident_id existing_incident_id : string)
| SourceEventOwnershipConflictError (source_event_id owner requested : string)
| IncidentCorrelationConflictError (requested : string) (conflicting : list string)
| RevisionConflictError (incident_id : string) (expected actual : Z) (candidate : option Z)
| IdempotencyConflictError (idempotency_key : string)
| UnsafeIncidentWriteError (incident_id reason : string)
(* contracts.py *)
| ContractDecodeError (msg : string)
| ContractPayloadLimitError (msg : string)
| ContractEncodeError (msg : string)
| ApprovalAuthorizationError (msg : string)
(* governance.py *)
| GovernanceNotFoundError (incident_id : string)
| GovernanceStateError (msg : string)
| GovernanceAuthorizationError (msg : string)
| GovernanceIdempotencyConflictError (msg : string)
| GovernanceClockError (msg : string)
(* privacy.py, rules.py, detector.py *)
| OverflowError (msg : string)
| SensitiveDataError (msg : string)
| RuleLoadError (msg : string)
| DetectorCapacityError (msg : string).
#[export] Instance exc_eq_dec : EqDecision exc.
Proof. solve_decision. Defined.

(** A model check as a pydantic [ValidationError]. *)
Definition validated {A} (r : result string A) : result exc A :=
  match r with Ok a => Ok a | Err msg => Err (ValidationError msg) end.

Lemma validated_Ok {A} (r : result string A) a : validated r = Ok a ↔ r = Ok a.
Proof. destruct r; cbn; naive_solver. Qed.

(** The subclasses of [IncidentStateError] (all [ValueError]s). *)
Definition is_state_error (e : exc) : bool :=
  match e with
  | IncidentStateError _ | InvalidTransitionError _ _ _ | StateRevisionConflictError _ _ _
  | InvalidTransitionUpdateError _ | TransitionTimeError _ _
  | TransitionGuardError _ _ _ => true
  | _ => false
  end.

(** ** Printed errors: [str(exc)] *)

(** [", ".join(fields)]. *)
Fixpoint comma_separated (fields : list string) : string :=
  match fields with
  | [] => EmptyString
  | [f] => f
  | f :: fields => f +:+ ", " +:+ comma_separated fields
  end.

Section printed.
(** Python's [repr] of a text. *)
Context (str_repr : string → string).

Definition revision_detail (candidate : option Z) : string :=
  match candidate with
  | None => EmptyString
  | Some n => ", candidate revision was " +:+ pretty n
  end.

Definition str_repository_error (e : exc) : option string :=
  match e with
  | IncidentRepositoryError msg => Some msg
  | IncidentNotFoundError id => Some ("incident " +:+ str_repr id +:+ " was not found")
  | IncidentAlreadyExistsError id => Some ("incident " +:+ str_repr id +:+ " already exists")
  | ActiveIncidentConflictError id existing =>
      Some ("incident " +:+ str_repr id +:+ " correlates with active incident "
            +:+ str_repr existing +:+ "; use create_or_correlate")
  | SourceEventOwnershipConflictError _ _ _ =>
      Some "source event is already owned by another incident"
  | IncidentCorrelationConflictError _ _ =>
      Some "incident correlation selectors have multiple active owners"
  | RevisionConflictError id expected actual candidate =>
      Some ("revision conflict for incident " +:+ str_repr id +:+ ": expected "
            +:+ pretty expected +:+ ", persisted revision is " +:+ pretty actual
            +:+ revision_detail candidate)
  | IdempotencyConflictError key =>
      Some ("idempotency key " +:+ str_repr key +:+ " was already used for another request")
  | UnsafeIncidentWriteError _ reason => Some ("unsafe incident write rejected: " +:+ reason)
  | _ => None
  end.

Definition str_state_error (e : exc) : option string :=
  match e with
  | IncidentStateError msg => Some msg
  | InvalidTransitionError id current target =>
      Some ("incident " +:+ str_repr id +:+ " cannot transition from "
            +:+ IncidentStatus.value current +:+ " to " +:+ IncidentStatus.value target)
  | StateRevisionConflictError id expected actual =>
      Some ("incident " +:+ str_repr id +:+ " revision conflict: expected " +:+ pretty expected
            +:+ ", actual " +:+ pretty actual)
  | InvalidTransitionUpdateError fields =>
      Some ("transition updates cannot replace protected fields: " +:+ comma_separated fields)
  | TransitionTimeError _ _ =>
      Some "transitioned_at must include a timezone and must not be earlier than the incident updated_at"
  | TransitionGuardError id target reason =>
      Some ("incident " +:+ str_repr id +:+ " cannot enter " +:+ IncidentStatus.value target
            +:+ ": " +:+ reason)
  | _ => None
  end.
End printed.
