(* ===== verification/StateMachine.v ===== *)
(** * The Incident state machine (telco_domain/state_machine.py)

    The transition graph, the guards of its edges and [transition_incident],
    the pure function that computes the validated successor of an Incident. *)

From Stdlib Require Import Ascii String.
From S2P Require Import Prelude PyStr Json Models Incident Errors.
From S2P Require Import PyEq.

Import IncidentStatus.

(** ** The graph *)

(** [_TRANSITIONS]. *)
Definition TRANSITIONS (s : IncidentStatus.t) : list IncidentStatus.t :=
  match s with
  | DETECTED => [TRIAGED; DUPLICATE; FAILED; CANCELLED]
  | TRIAGED => [INVESTIGATING; DUPLICATE; REJECTED; FAILED; CANCELLED]
  | INVESTIGATING => [RCA_COMPLETE; DUPLICATE; FAILED; CANCELLED]
  | RCA_COMPLETE => [AWAITING_APPROVAL; INVESTIGATING; REJECTED; FAILED; CANCELLED]
  | AWAITING_APPROVAL => [REMEDIATING; REJECTED; FAILED; CANCELLED]
  | REMEDIATING => [VERIFYING; FAILED; CANCELLED]
  | VERIFYING => [RESOLVED; REOPENED; FAILED; CANCELLED]
  | RESOLVED => [CLOSED; REOPENED]
  | CLOSED => [REOPENED]
  | DUPLICATE => []
  | REJECTED => []
  | FAILED => []
  | CANCELLED => []
  | REOPENED => [INVESTIGATING; FAILED; CANCELLED]
  end.

Definition TERMINAL_STATUSES : list IncidentStatus.t := [DUPLICATE; REJECTED; FAILED; CANCELLED].
Definition SETTLED_STATUSES : list IncidentStatus.t := TERMINAL_STATUSES ++ [CLOSED].
Definition REOPENABLE_STATUSES : list IncidentStatus.t := [VERIFYING; RESOLVED; CLOSED].
Definition ACTIVE_STATUSES : list IncidentStatus.t :=
  filter (λ s, s ∉ SETTLED_STATUSES) members.

Definition is_settled (s : IncidentStatus.t) : bool := bool_decide (s ∈ SETTLED_STATUSES).

(** [IncidentStatus(value)] and the two graph queries. *)
Definition status_of (s : string) : option IncidentStatus.t :=
  next_such (λ x, bool_decide (value x = s)) members.
Definition allowed_transitions (s : IncidentStatus.t) : list IncidentStatus.t := TRANSITIONS s.
Definition can_transition (current target : IncidentStatus.t) : bool :=
  bool_decide (target ∈ allowed_transitions current).

Definition FROZEN_RECOMMENDATION_STATUSES : list IncidentStatus.t :=
  [RCA_COMPLETE; AWAITING_APPROVAL; REMEDIATING; VERIFYING; RESOLVED; CLOSED].

(** ** Updates

    The mapping a caller passes: the fields it replaces, and the items whose
    name is a protected field or no field at all.  [u_dumped] says in what form
    the items of its lists come: [false] for model instances, [true] for the
    dictionaries of [model_dump(mode="python")], as [save] passes them. *)
Record Updates := mk_updates {
  u_source_event_ids : option (list string);
  u_vendor_profile : option (option string);
  u_severity : option IncidentSeverity.t;
  u_title : option string;
  u_description : option string;
  u_affected_resources : option (list ResourceReference.t);
  u_window_start : option (option Z);
  u_window_end : option (option Z);
  u_violated_kpis : option (list KpiViolation.t);
  u_evidence_refs : option (list EvidenceReference.t);
  u_hypotheses : option (list string);
  u_root_cause : option (option string);
  u_rca_reports : option (list RcaReport.t);
  u_recommendations : option (list RemediationAction.t);
  u_approvals : option (list ApprovalDecision.t);
  u_action_runs : option (list ActionRun.t);
  u_verification_runs : option (list VerificationRun.t);
  u_model_metadata : option (gmap string json);
  u_rule_versions : option (gmap string string);
  u_duplicate_of : option (option string);
  u_protected : list (string * json);
  u_unknown : list (string * json);
  u_dumped : bool
}.
Definition no_updates : Updates :=
  mk_updates None None None None None None None None None None None None None
    None None None None None None None [] [] false.

(** The names that [InvalidTransitionUpdateError] reports. *)
Definition protected_names (u : Updates) : list string :=
  py_sorted String.leb (map fst (u_protected u)).

(** ** Guards *)

Definition guard_error (i : Incident.t) (target : IncidentStatus.t) (reason : string) : exc :=
  TransitionGuardError (Incident.incident_id i) target reason.

(** [_latest_report]. *)
Definition latest_report (i : Incident.t) : option RcaReport.t :=
  max_by RcaReport.version (Incident.rca_reports i).

Definition append_only_message (field : string) : string :=
  field +:+ " is append-only; existing history cannot be removed or changed".
Definition frozen_message : string :=
  "recommendations are frozen after entering AWAITING_APPROVAL".
Definition frozen (s : IncidentStatus.t) : bool :=
  bool_decide (s ∈ FROZEN_RECOMMENDATION_STATUSES).

Definition check_append {A} `{PyEq A} (i : Incident.t) (target : IncidentStatus.t)
    (field : string) (before after : list A) : result exc unit :=
  throw_if (negb (extends before after)) (guard_error i target (append_only_message field)).

(** [_validate_append_only(original, successor)]. *)
Definition validate_append_only (original successor : Incident.t) : result exc unit :=
  let target := Incident.status successor in
  check_append successor target "approvals"
    (Incident.approvals original) (Incident.approvals successor) ≫= λ _,
  check_append successor target "rca_reports"
    (Incident.rca_reports original) (Incident.rca_reports successor) ≫= λ _,
  check_append successor target "action_runs"
    (Incident.action_runs original) (Incident.action_runs successor) ≫= λ _,
  check_append successor target "verification_runs"
    (Incident.verification_runs original) (Incident.verification_runs successor) ≫= λ _,
  check_append successor target "evidence_refs"
    (Incident.evidence_refs original) (Incident.evidence_refs successor) ≫= λ _,
  check_append successor target "source_event_ids"
    (Incident.source_event_ids original) (Incident.source_event_ids successor) ≫= λ _,
  throw_if (frozen (Incident.status original) &&
            negb (py_eqb (Incident.recommendations successor) (Incident.recommendations original)))
    (guard_error successor target frozen_message).

(** [_validate_requested_history_update(original, target, changes)]. *)
Definition empty_list {A} (l : list A) : bool := match l with [] => true | _ => false end.

(** The comparison [after[:len(before)] != before] of a tuple of model
    instances with a tuple of dictionaries fails at its first item: pydantic's
    [BaseModel.__eq__] holds between models only. *)
Definition check_append_opt {A} `{PyEq A} (dumped : bool) (i : Incident.t)
    (target : IncidentStatus.t) (field : string) (before : list A) (after : option (list A)) :
    result exc unit :=
  match after with
  | None => Ok tt
  | Some after =>
      if dumped
      then throw_if (negb (empty_list before)) (guard_error i target (append_only_message field))
      else check_append i target field before after
  end.

Definition differs {A} `{PyEq A} (dumped : bool) (before after : list A) : bool :=
  if dumped then negb (empty_list before && empty_list after)
  else negb (py_eqb after before).

Definition validate_requested_history_update (original : Incident.t)
    (target : IncidentStatus.t) (changes : Updates) : result exc unit :=
  let dumped := u_dumped changes in
  check_append_opt dumped original target "approvals"
    (Incident.approvals original) (u_approvals changes) ≫= λ _,
  check_append_opt dumped original target "rca_reports"
    (Incident.rca_reports original) (u_rca_reports changes) ≫= λ _,
  check_append_opt dumped original target "action_runs"
    (Incident.action_runs original) (u_action_runs changes) ≫= λ _,
  check_append_opt dumped original target "verification_runs"
    (Incident.verification_runs original) (u_verification_runs changes) ≫= λ _,
  check_append_opt dumped original target "evidence_refs"
    (Incident.evidence_refs original) (u_evidence_refs changes) ≫= λ _,
  check_append_opt false original target "source_event_ids"
    (Incident.source_event_ids original) (u_source_event_ids changes) ≫= λ _,
  throw_if (frozen (Incident.status original) &&
            match u_recommendations changes with
            | Some rs => differs dumped (Incident.recommendations original) rs
            | None => false end)
    (guard_error original target frozen_message).

Definition eligible_report_status (s : ReportStatus.t) : bool :=
  bool_decide (s ∈ [ReportStatus.PROPOSED; ReportStatus.APPROVED; ReportStatus.PERSISTED]).

(** [_validate_rca_complete]. *)
Definition rca_complete_message : string :=
  "latest RCA report must match the Incident, be eligible, include evidence, declare a root cause or INCONCLUSIVE result, and own recommendations".
Definition validate_rca_complete (i : Incident.t) (target : IncidentStatus.t) :
    result exc unit :=
  of_option (latest_report i)
    (guard_error i target "an eligible latest RCA report is required") ≫= λ report,
  let has_conclusion :=
    has_text (RcaReport.root_cause report)
    || bool_decide (RcaReport.conclusion report = RcaConclusion.INCONCLUSIVE) in
  throw_if (negb (bool_decide (RcaReport.incident_id report = Incident.incident_id i))
            || negb (eligible_report_status (RcaReport.status report))
            || empty_list (RcaReport.evidence_refs report)
            || negb has_conclusion
            || negb (py_eqb (RcaReport.recommendations report) (Incident.recommendations i)))
    (guard_error i target rca_complete_message).

(** [_latest_approval_events]: a dict from request id to the latest event, in
    the order of the first event of each request. *)
Definition latest_approval_events (i : Incident.t) : list ApprovalDecision.t :=
  omap (λ group, max_by ApprovalDecision.sequence group.2)
    (grouped_by ApprovalDecision.request_id (Incident.approvals i)).

(** [_validate_remediation_approvals]. *)
Definition action_approved `{Runtime} (i : Incident.t) (report : RcaReport.t) (now : Z)
    (action : RemediationAction.t) : bool :=
  existsb (λ d, ApprovalDecision.is_status ApprovalStatus.APPROVED d
                && ApprovalDecision.covers_action d action (Incident.incident_id i) report
                && ApprovalDecision.is_effective d now)
    (latest_approval_events i).

Definition validate_remediation_approvals `{Runtime} (i : Incident.t)
    (target : IncidentStatus.t) (now : Z) : result exc unit :=
  let message := "latest RCA report must own the frozen remediation actions" in
  of_option (latest_report i) (guard_error i target message) ≫= λ report,
  throw_if (negb (py_eqb (RcaReport.recommendations report) (Incident.recommendations i)))
    (guard_error i target message) ≫= λ _,
  for_each (λ action, throw_if (negb (action_approved i report now action))
              (guard_error i target ("action " +:+ RemediationAction.action_id action
                                     +:+ " lacks a matching effective approval")))
    (Incident.recommendations i).

(** [_successful_action_runs]. *)
Definition runs_message : string :=
  "every recommended action requires an exact successful ActionRun".
Definition successful_run `{Runtime} (i : Incident.t) (target : IncidentStatus.t)
    (action : RemediationAction.t) : result exc ActionRun.t :=
  let candidates := filter (λ r, ActionRun.action_id r = RemediationAction.action_id action)
                      (Incident.action_runs i) in
  of_option (max_by ActionRun.attempt candidates) (guard_error i target runs_message)
    ≫= λ latest,
  throw_if (negb (bool_decide (ActionRun.status latest = ActionRunStatus.SUCCEEDED))
            || negb (bool_decide (ActionRun.incident_id latest = Some (Incident.incident_id i)))
            || negb (bool_decide (ActionRun.action_hash latest
                                  = Some (RemediationAction.action_hash action)))
            || isNone (ActionRun.finished_at latest))
    (guard_error i target runs_message) ≫= λ _,
  Ok latest.

Fixpoint map_result {E A B} (f : A → result E B) (xs : list A) : result E (list B) :=
  match xs with
  | [] => Ok []
  | x :: xs => f x ≫= λ y, map_result f xs ≫= λ ys, Ok (y :: ys)
  end.

Definition successful_action_runs `{Runtime} (i : Incident.t) (target : IncidentStatus.t) :
    result exc (list ActionRun.t) :=
  map_result (successful_run i target) (Incident.recommendations i).

(** The part of [_validate_transition_guard] for RESOLVED. *)
Definition verification_message : string :=
  "latest VerificationRun must be PASSED, complete, and cover successful runs".
Definition validate_resolved `{Runtime} (i : Incident.t) : result exc unit :=
  let target := RESOLVED in
  successful_action_runs i target ≫= λ successful_runs,
  of_option (last (Incident.verification_runs i))
    (guard_error i target "a latest VerificationRun is required") ≫= λ latest,
  let successful_ids : gset string :=
    list_to_set (map ActionRun.action_run_id successful_runs) in
  throw_if (negb (bool_decide (VerificationRun.status latest = VerificationStatus.PASSED))
            || negb (bool_decide (VerificationRun.incident_id latest
                                  = Some (Incident.incident_id i)))
            || isNone (VerificationRun.finished_at latest)
            || negb (any_text (VerificationRun.checks latest))
            || empty_list (VerificationRun.evidence_refs latest)
            || negb (bool_decide (successful_ids
                       = list_to_set (VerificationRun.action_run_ids latest))))
    (guard_error i target verification_message).

(** [_validate_transition_guard(original, incident, target, now)]. *)
Definition actions_required : string := "at least one remediation action is required".
Definition validate_transition_guard `{Runtime} (original i : Incident.t)
    (target : IncidentStatus.t) (now : Z) : result exc unit :=
  validate_append_only original i ≫= λ _,
  match target with
  | DUPLICATE =>
      throw_if (isNone (Incident.duplicate_of i))
        (guard_error i target "duplicate_of is required")
  | RCA_COMPLETE => validate_rca_complete i target
  | AWAITING_APPROVAL =>
      validate_rca_complete i target ≫= λ _,
      throw_if (empty_list (Incident.recommendations i)) (guard_error i target actions_required)
  | REMEDIATING =>
      throw_if (empty_list (Incident.recommendations i)) (guard_error i target actions_required)
        ≫= λ _,
      validate_remediation_approvals i target now
  | VERIFYING => successful_action_runs i target ≫= λ _, Ok tt
  | RESOLVED => validate_resolved i
  | _ => Ok tt
  end.

(** ** Clocks *)

(** [_normalize_transition_time]; [wall] is [datetime.now(UTC)]. *)
Definition normalize_transition_time (value : option pydatetime) (current_updated_at wall : Z) :
    result exc Z :=
  match value with
  | None => Ok (Z.max wall current_updated_at)
  | Some (Naive _ as d) => Err (TransitionTimeError d current_updated_at)
  | Some (Aware local offset) =>
      let normalized := local - offset in
      if normalized <? current_updated_at
      then Err (TransitionTimeError (Aware normalized 0) current_updated_at)
      else Ok normalized
  end.

(** [_normalize_trusted_now]. *)
Definition normalize_trusted_now (value : option pydatetime) (wall : Z) : result exc Z :=
  match value with
  | None => Ok wall
  | Some (Naive _) => Err (IncidentStateError "now must include a timezone")
  | Some (Aware local offset) => Ok (local - offset)
  end.

(** ** [transition_incident] *)

(** The payload: the Incident with the changes and the new status, revision
    and update time. *)
Definition updated_payload (i : Incident.t) (u : Updates) (target : IncidentStatus.t)
    (updated_at : Z) : Incident.t :=
  Incident.mk (Incident.incident_id i) (Incident.correlation_key i)
    (default (Incident.source_event_ids i) (u_source_event_ids u))
    (Incident.technology i)
    (default (Incident.vendor_profile i) (u_vendor_profile u))
    target
    (default (Incident.severity i) (u_severity u))
    (default (Incident.title i) (u_title u))
    (default (Incident.description i) (u_description u))
    (default (Incident.affected_resources i) (u_affected_resources u))
    (Incident.detected_at i)
    (default (Incident.window_start i) (u_window_start u))
    (default (Incident.window_end i) (u_window_end u))
    (default (Incident.violated_kpis i) (u_violated_kpis u))
    (default (Incident.evidence_refs i) (u_evidence_refs u))
    (default (Incident.hypotheses i) (u_hypotheses u))
    (default (Incident.root_cause i) (u_root_cause u))
    (default (Incident.rca_reports i) (u_rca_reports u))
    (default (Incident.recommendations i) (u_recommendations u))
    (default (Incident.approvals i) (u_approvals u))
    (default (Incident.action_runs i) (u_action_runs u))
    (default (Incident.verification_runs i) (u_verification_runs u))
    (default (Incident.model_metadata i) (u_model_metadata u))
    (default (Incident.rule_versions i) (u_rule_versions u))
    (Incident.trace_id i)
    (default (Incident.duplicate_of i) (u_duplicate_of u))
    (Incident.created_at i)
    updated_at
    (Incident.revision i + 1).

(** [wall_time] and [wall_now] are what [datetime.now(UTC)] gives at its two
    possible calls; they matter only for an argument that is [None]. *)
Definition transition_incident `{Runtime} (i : Incident.t) (target_status : string)
    (expected_revision : Z) (transitioned_at now : option pydatetime) (updates : Updates)
    (wall_time wall_now : Z) : result exc Incident.t :=
  throw_if (negb (expected_revision =? Incident.revision i))
    (StateRevisionConflictError (Incident.incident_id i) expected_revision (Incident.revision i))
    ≫= λ _,
  of_option (status_of target_status)
    (IncidentStateError ("unknown incident status: " +:+ target_status)) ≫= λ target,
  throw_if (negb (can_transition (Incident.status i) target))
    (InvalidTransitionError (Incident.incident_id i) (Incident.status i) target) ≫= λ _,
  throw_if (negb (empty_list (u_protected updates)))
    (InvalidTransitionUpdateError (protected_names updates)) ≫= λ _,
  validate_requested_history_update i target updates ≫= λ _,
  normalize_transition_time transitioned_at (Incident.updated_at i) wall_time
    ≫= λ normalized_time,
  normalize_trusted_now now wall_now ≫= λ trusted_now,
  throw_if (negb (empty_list (u_unknown updates))) (ValidationError "extra_forbidden")
    ≫= λ _,
  validated (Incident.model_validate (updated_payload i updates target normalized_time))
    ≫= λ successor,
  validate_transition_guard i successor target trusted_now ≫= λ _,
  Ok successor.

(** ** Facts about the graph *)

#[export] Instance status_eq_dec : EqDecision IncidentStatus.t := IncidentStatus.eq_dec.

Lemma elem_of_members (s : IncidentStatus.t) : s ∈ members.
Proof. destruct s; set_solver. Qed.

Lemma status_of_value s : status_of (value s) = Some s.
Proof. by destruct s. Qed.

Lemma status_of_Some str s : status_of str = Some s → value s = str.
Proof. unfold status_of. intros [_ H]%next_such_Some. by apply bool_decide_eq_true in H. Qed.

Lemma can_transition_spec s t : can_transition s t = true ↔ t ∈ TRANSITIONS s.
Proof. unfold can_transition. by rewrite bool_decide_eq_true. Qed.

(** A path of the graph, and the statuses on it. *)
Inductive path : IncidentStatus.t → list IncidentStatus.t → IncidentStatus.t → Prop :=
| path_here s : path s [] s
| path_step s t u l : t ∈ TRANSITIONS s → path t l u → path s (t :: l) u.

(** A set of statuses that no edge leaves without passing [cut]. *)
Definition closed_without (cut : IncidentStatus.t) (region : list IncidentStatus.t) : bool :=
  forallb (λ s, forallb (λ t, bool_decide (t = cut) || bool_decide (t ∈ region))
                  (TRANSITIONS s)) region.

Lemma path_cut cut region s l u :
  closed_without cut region = true → s ∈ region → u ∉ region → path s l u → cut ∈ l.
Proof.
  intros Hcl Hs Hu Hp. revert Hs Hu. induction Hp as [s|s t u l Ht Hp IH]; intros Hs Hu.
  - done.
  - unfold closed_without in Hcl. rewrite forallb_true_iff in Hcl.
    pose proof (Hcl s Hs) as Hst. rewrite forallb_true_iff in Hst. specialize (Hst t Ht).
    rewrite orb_true_iff, !bool_decide_eq_true in Hst.
    destruct Hst as [->|Hst]; [by left|]. right. by apply IH.
Qed.

(** ** What a successful transition has checked *)

Section transitions.
Context `{R : Runtime, L : !RuntimeLaws R}.

Lemma transition_Ok i ts er ta nw u w w' j :
  transition_incident i ts er ta nw u w w' = Ok j →
  ∃ target t now,
    er = Incident.revision i ∧
    status_of ts = Some target ∧
    target ∈ TRANSITIONS (Incident.status i) ∧
    u_protected u = [] ∧ u_unknown u = [] ∧
    validate_requested_history_update i target u = Ok tt ∧
    normalize_transition_time ta (Incident.updated_at i) w = Ok t ∧
    normalize_trusted_now nw w' = Ok now ∧
    Incident.model_validate (updated_payload i u target t) = Ok j ∧
    validate_transition_guard i j target now = Ok tt.
Proof.
  unfold transition_incident. intros H. run_ok.
  repeat match goal with
  | H : negb _ = false |- _ => apply negb_false_iff in H
  | H : empty_list ?l = true |- _ =>
      let E := fresh in assert (l = []) as E by (by destruct l); clear H
  | H : validated _ = Ok _ |- _ => apply validated_Ok in H
  end. subst.
  eexists _, _, _. split_and!; try done.
  - lia.
  - by apply can_transition_spec.
Qed.

Lemma normalize_transition_time_le ta c w t :
  normalize_transition_time ta c w = Ok t → c ≤ t.
Proof.
  destruct ta as [[d|d o]|]; cbn; [done|..].
  - destruct (Z.ltb_spec (d - o) c); [done|]. intros [= <-]. lia.
  - intros [= <-]. lia.
Qed.

Lemma append_only_spec i j :
  validate_append_only i j = Ok tt →
  grown (Incident.approvals i) (Incident.approvals j) ∧
  grown (Incident.rca_reports i) (Incident.rca_reports j) ∧
  grown (Incident.action_runs i) (Incident.action_runs j) ∧
  grown (Incident.verification_runs i) (Incident.verification_runs j) ∧
  grown (Incident.evidence_refs i) (Incident.evidence_refs j) ∧
  Incident.source_event_ids i `prefix_of` Incident.source_event_ids j ∧
  (Incident.status i ∈ FROZEN_RECOMMENDATION_STATUSES →
   Incident.recommendations j ≐ Incident.recommendations i).
Proof.
  unfold validate_append_only, check_append. intros H. run_ok.
  repeat match goal with
  | H : negb _ = false |- _ => apply negb_false_iff, extends_spec in H
  end.
  split_and!; [done..|by apply grown_strings|]. intros Hs. apply andb_false_iff in H as [H|H].
  - unfold frozen in H. by apply bool_decide_eq_false in H.
  - by apply negb_false_iff in H.
Qed.

Lemma transition_guard_append i j t now :
  validate_transition_guard i j t now = Ok tt → validate_append_only i j = Ok tt.
Proof. unfold validate_transition_guard. intros H. by run_ok. Qed.

(** The fields a transition of a valid Incident cannot change, and those it
    sets. *)
Lemma transition_fields i ts er ta nw u w w' j :
  valid i → transition_incident i ts er ta nw u w w' = Ok j →
  valid j ∧
  Incident.incident_id j = Incident.incident_id i ∧
  Incident.correlation_key j = Incident.correlation_key i ∧
  Incident.technology j = Incident.technology i ∧
  Incident.created_at j = Incident.created_at i ∧
  Incident.detected_at j = Incident.detected_at i ∧
  Incident.trace_id j = Incident.trace_id i ∧
  value (Incident.status j) = ts ∧
  Incident.status j ∈ TRANSITIONS (Incident.status i) ∧
  Incident.revision j = Incident.revision i + 1 ∧
  Incident.updated_at i ≤ Incident.updated_at j.
Proof.
  intros Hv H. apply transition_Ok in H
    as (t & time & now & -> & Hts & Ht & _ & _ & _ & Htime & _ & Hval & _).
  pose proof (model_validate_valid _ _ Hval) as Hvj.
  apply model_validate_Ok in Hval as (-> & _ & _).
  apply valid_iff in Hv as (Hn & _ & _).
  assert (∀ {A} (f : Incident.t → A), f (Incident.normalize i) = f i) as Hf
    by (intros A f; by rewrite Hn).
  pose proof (Hf _ Incident.incident_id). pose proof (Hf _ Incident.correlation_key).
  pose proof (Hf _ Incident.trace_id).
  apply normalize_transition_time_le in Htime. apply status_of_Some in Hts.
  cbn in *. split_and!; done.
Qed.

Lemma transition_append i ts er ta nw u w w' j :
  transition_incident i ts er ta nw u w w' = Ok j → validate_append_only i j = Ok tt.
Proof.
  intros H. apply transition_Ok in H as (t & time & now & H). destruct_and! H.
  by eapply transition_guard_append.
Qed.

(** *** Approvals *)

Lemma latest_approval_events_spec i d :
  d ∈ latest_approval_events i ↔
  ∃ r, Incident.latest_approval_decision i r = Some d.
Proof.
  unfold latest_approval_events, grouped_by. rewrite list_elem_of_omap. split.
  - intros ([r events] & Hg & Hd). apply list_elem_of_fmap in Hg as (r' & [= -> ->] & _).
    by exists r'.
  - intros (r & Hd). exists (r, request_events i r). split; [|done].
    apply list_elem_of_fmap. exists r. split; [done|]. apply elem_of_distinct.
    apply latest_approval_decision_spec in Hd as (Hd & <- & _).
    by apply list_elem_of_fmap_2.
Qed.

Lemma effective_is_approved d at_ :
  ApprovalDecision.is_effective d at_ = true →
  ApprovalDecision.status d = ApprovalStatus.APPROVED ∧
  (∃ t, ApprovalDecision.decided_at d = Some t ∧ t ≤ at_) ∧
  (∀ e, ApprovalDecision.expires_at d = Some e → at_ < e).
Proof.
  unfold ApprovalDecision.is_effective, ApprovalDecision.is_status.
  case_bool_decide; cbn; [|done].
  destruct (ApprovalDecision.decided_at d) as [t|]; [|done].
  destruct (Z.ltb_spec at_ t); [done|].
  destruct (ApprovalDecision.expires_at d) as [e|].
  - rewrite Z.ltb_lt. intros. split_and!; [done|eauto|naive_solver].
  - intros _. split_and!; [done|eauto|done].
Qed.

Lemma action_approved_spec i report now action :
  action_approved i report now action = true ↔
  ∃ r d, Incident.latest_approval_decision i r = Some d ∧
    ApprovalDecision.covers_action d action (Incident.incident_id i) report = true ∧
    ApprovalDecision.is_effective d now = true.
Proof.
  unfold action_approved. rewrite existsb_true_iff. split.
  - intros (d & Hd & Hb). apply andb_true_iff in Hb as [[_ Hc]%andb_true_iff He].
    apply latest_approval_events_spec in Hd as [r Hd]. by exists r, d.
  - intros (r & d & Hd & Hc & He). exists d. split.
    + apply latest_approval_events_spec. by exists r.
    + rewrite Hc, He. apply effective_is_approved in He as [Hs _].
      unfold ApprovalDecision.is_status. by rewrite bool_decide_eq_true_2.
Qed.

Lemma remediation_approvals_spec i t now :
  validate_remediation_approvals i t now = Ok tt ↔
  ∃ report, latest_report i = Some report ∧
    RcaReport.recommendations report ≐ Incident.recommendations i ∧
    ∀ action, action ∈ Incident.recommendations i →
      action_approved i report now action = true.
Proof.
  unfold validate_remediation_approvals. split.
  - intros H. run_ok. rewrite for_each_Ok, Forall_forall in H.
    match goal with H : negb _ = false |- _ => apply negb_false_iff in H end.
    eexists. split_and!; [done..|]. intros action Ha. specialize (H action Ha).
    by apply throw_if_Ok, negb_false_iff in H.
  - intros (report & -> & Hr & Ha). cbn. unfold py_eq in Hr. rewrite Hr. cbn.
    apply for_each_Ok, Forall_forall. intros action Hin. by rewrite Ha.
Qed.

(** *** Runs *)

Lemma map_result_Ok {E A B} (f : A → result E B) xs ys :
  map_result f xs = Ok ys ↔ Forall2 (λ x y, f x = Ok y) xs ys.
Proof.
  revert ys. induction xs as [|x xs IH]; intros ys; cbn.
  - split; [intros [= <-]; constructor|by inversion 1].
  - rewrite bind_Ok. setoid_rewrite bind_Ok. setoid_rewrite IH. split.
    + intros (y & ? & ys' & ? & [= <-]). by constructor.
    + inversion 1; subst. eauto.
Qed.

(** The run the guard accepts for an action. *)
Definition exact_success (i : Incident.t) (action : RemediationAction.t) (r : ActionRun.t) :
    Prop :=
  r ∈ Incident.action_runs i ∧
  ActionRun.action_id r = RemediationAction.action_id action ∧
  (∀ r', r' ∈ Incident.action_runs i →
     ActionRun.action_id r' = RemediationAction.action_id action →
     ActionRun.attempt r' ≤ ActionRun.attempt r) ∧
  ActionRun.status r = ActionRunStatus.SUCCEEDED ∧
  ActionRun.incident_id r = Some (Incident.incident_id i) ∧
  ActionRun.action_hash r = Some (RemediationAction.action_hash action) ∧
  is_Some (ActionRun.finished_at r).

Lemma successful_run_spec i t action r :
  successful_run i t action = Ok r → exact_success i action r.
Proof.
  unfold successful_run. intros H. run_ok. subst.
  match goal with H : max_by _ _ = Some _ |- _ =>
    apply max_by_Some in H as [Hr Hmax] end.
  apply list_elem_of_filter in Hr as [Hid Hr].
  repeat match goal with
  | H : (_ || _) = false |- _ => apply orb_false_iff in H as [? ?]
  | H : negb _ = false |- _ => apply negb_false_iff, bool_decide_eq_true in H
  end.
  unfold exact_success. split_and!; try done.
  - intros r' Hr' Hid'. apply Hmax. by apply list_elem_of_filter.
  - by destruct (ActionRun.finished_at r).
Qed.

Lemma successful_action_runs_spec i t runs :
  successful_action_runs i t = Ok runs →
  Forall2 (exact_success i) (Incident.recommendations i) runs.
Proof.
  unfold successful_action_runs. rewrite map_result_Ok.
  intros H. eapply Forall2_impl; [exact H|]. intros action r. apply successful_run_spec.
Qed.

(** The verification the guard accepts. *)
Definition exact_verification (i : Incident.t) (runs : list ActionRun.t)
    (v : VerificationRun.t) : Prop :=
  last (Incident.verification_runs i) = Some v ∧
  VerificationRun.status v = VerificationStatus.PASSED ∧
  VerificationRun.incident_id v = Some (Incident.incident_id i) ∧
  is_Some (VerificationRun.finished_at v) ∧
  any_text (VerificationRun.checks v) = true ∧
  VerificationRun.evidence_refs v ≠ [] ∧
  ∀ id, id ∈ VerificationRun.action_run_ids v ↔ id ∈ map ActionRun.action_run_id runs.

Lemma validate_resolved_spec i :
  validate_resolved i = Ok tt →
  ∃ runs v, Forall2 (exact_success i) (Incident.recommendations i) runs ∧
    exact_verification i runs v.
Proof.
  unfold validate_resolved. intros H. run_ok.
  match goal with H : successful_action_runs _ _ = Ok _ |- _ =>
    apply successful_action_runs_spec in H end.
  repeat match goal with
  | H : (_ || _) = false |- _ => apply orb_false_iff in H as [? ?]
  | H : negb (bool_decide _) = false |- _ => apply negb_false_iff, bool_decide_eq_true in H
  | H : negb _ = false |- _ => apply negb_false_iff in H
  end.
  do 2 eexists. split; [done|]. unfold exact_verification. split_and!; try done.
  - by destruct (VerificationRun.finished_at _).
  - by destruct (VerificationRun.evidence_refs _).
  - intros id. match goal with H : list_to_set _ = _ |- _ => rename H into Hset end.
    assert (id ∈ (list_to_set (map ActionRun.action_run_id x) : gset string) ↔
            id ∈ (list_to_set (VerificationRun.action_run_ids x0) : gset string)) as Hid
      by (by rewrite Hset).
    by rewrite !elem_of_list_to_set in Hid.
Qed.
End transitions.
