(* ===== verification/Samples.v ===== *)
(** * A worked incident

    One Incident driven through its whole life with the quick runtime of
    [Reference]: the inputs at which the witnesses evaluate the theorems. *)

From Stdlib Require Import Ascii String.
From S2P Require Import Prelude PyStr Json Reference Models Incident Errors StateMachine.
From S2P Require Import PyEq.

#[export] Existing Instance quick.

Definition cell : ResourceReference.t :=
  ResourceReference.mk "cell-17" ResourceType.CELL None (Some Technology.LTE) None None None ∅ ∅.

Definition evidence : EvidenceReference.t :=
  EvidenceReference.mk "ev-1" EvidenceType.METRIC "metrics://cell-17/rsrp" None None None None
    None ∅.

Definition action : RemediationAction.t :=
  RemediationAction.mk "act-1" "tilt_antenna" None [cell] {["degrees" := JInt 2]} RiskLevel.LOW
    false None None None 30.

Definition report : RcaReport.t :=
  RcaReport.mk "rca-1" "inc-1" 1 ReportStatus.PROPOSED None "antenna drift" []
    (Some "antenna drift") RcaConclusion.CONCLUSIVE None [evidence] [action] None ∅ 30.

Definition pending : ApprovalDecision.t :=
  ApprovalDecision.mk "ap-0" "req-1" 0 "inc-1" "rca-1" 1 "act-1" ApprovalStatus.PENDING
    ApprovalType.NETWORK_ACTION (Some (RemediationAction.action_hash action)) [cell]
    (Some "planner") None None 40 None (Some 1000) "key-ap-0".

Definition approved : ApprovalDecision.t :=
  ApprovalDecision.mk "ap-1" "req-1" 1 "inc-1" "rca-1" 1 "act-1" ApprovalStatus.APPROVED
    ApprovalType.NETWORK_ACTION (Some (RemediationAction.action_hash action)) [cell]
    (Some "planner") (Some "operator") None 40 (Some 50) (Some 1000) "key-ap-1".

Definition run : ActionRun.t :=
  ActionRun.mk "run-1" (Some "inc-1") "act-1" (Some (RemediationAction.action_hash action))
    ActionRunStatus.SUCCEEDED (Some "key-run-1") 1 (Some 60) (Some 65) None None ∅.

Definition verification : VerificationRun.t :=
  VerificationRun.mk "ver-1" (Some "inc-1") ["run-1"] VerificationStatus.PASSED ["kpi"] []
    [evidence] None None (Some 66) (Some 69) ∅.

Definition detected : Incident.t :=
  Incident.mk "inc-1" (Some "corr-1") ["src-1"] Technology.LTE None IncidentStatus.DETECTED
    IncidentSeverity.HIGH "Coverage loss" "RSRP below threshold" [cell] 0 None None [] [] []
    None [] [] [] [] [] ∅ ∅ "trace-1" None 0 0 0.

(** One transition at a time, at the instant [t]. *)
Definition advance (i : Incident.t) (target : string) (u : Updates) (t : Z) :
    result exc Incident.t :=
  transition_incident i target (Incident.revision i) (Some (Aware t 0)) (Some (Aware t 0)) u 0 0.
Definition after (i : Incident.t) (target : string) (u : Updates) (t : Z) : Incident.t :=
  match advance i target u t with Ok j => j | Err _ => i end.

Definition set_reports : Updates :=
  mk_updates None None None None None None None None None None None (Some (Some "antenna drift"))
    (Some [report]) (Some [action]) None None None None None None [] [] false.
Definition set_approvals (ds : list ApprovalDecision.t) : Updates :=
  mk_updates None None None None None None None None None None None None None None
    (Some ds) None None None None None [] [] false.
Definition set_action_runs (rs : list ActionRun.t) : Updates :=
  mk_updates None None None None None None None None None None None None None None None
    (Some rs) None None None None [] [] false.
Definition set_verification_runs (vs : list VerificationRun.t) : Updates :=
  mk_updates None None None None None None None None None None None None None None None None
    (Some vs) None None None [] [] false.

Definition triaged := after detected "TRIAGED" no_updates 10.
Definition investigating := after triaged "INVESTIGATING" no_updates 20.
Definition rca_complete := after investigating "RCA_COMPLETE" set_reports 30.
Definition awaiting := after rca_complete "AWAITING_APPROVAL" (set_approvals [pending]) 40.
Definition remediating := after awaiting "REMEDIATING" (set_approvals [pending; approved]) 55.
Definition verifying := after remediating "VERIFYING" (set_action_runs [run]) 65.
Definition resolved := after verifying "RESOLVED" (set_verification_runs [verification]) 70.

Example walk_statuses :
  map Incident.status
    [detected; triaged; investigating; rca_complete; awaiting; remediating; verifying; resolved]
  = [IncidentStatus.DETECTED; IncidentStatus.TRIAGED; IncidentStatus.INVESTIGATING;
     IncidentStatus.RCA_COMPLETE; IncidentStatus.AWAITING_APPROVAL; IncidentStatus.REMEDIATING;
     IncidentStatus.VERIFYING; IncidentStatus.RESOLVED].
Proof. vm_compute. reflexivity. Qed.

Example walk_revisions : Incident.revision resolved = 7.
Proof. vm_compute. reflexivity. Qed.

Example detected_valid : valid detected.
Proof. vm_compute. reflexivity. Qed.

(** The approval expires at 1000: remediation is refused from then on. *)
Example expired_is_refused :
  match advance awaiting "REMEDIATING" (set_approvals [pending; approved]) 1000 with
  | Err (TransitionGuardError _ _ _) => true | _ => false end = true.
Proof. vm_compute. reflexivity. Qed.

(** Python finds 2 equal to 2.0, so the frozen recommendation can be replaced by
    one with another content hash, which is then approved and remediated although
    the report recommends the first. *)
Definition retyped_action : RemediationAction.t :=
  RemediationAction.mk "act-1" "tilt_antenna" None [cell] {["degrees" := JFloat (PyFloat false 1 1)]}
    RiskLevel.LOW false None None None 30.
Definition retyped_pending : ApprovalDecision.t :=
  ApprovalDecision.mk "ap-0" "req-1" 0 "inc-1" "rca-1" 1 "act-1" ApprovalStatus.PENDING
    ApprovalType.NETWORK_ACTION (Some (RemediationAction.action_hash retyped_action)) [cell]
    (Some "planner") None None 40 None (Some 1000) "key-ap-0".
Definition retyped_approved : ApprovalDecision.t :=
  ApprovalDecision.mk "ap-1" "req-1" 1 "inc-1" "rca-1" 1 "act-1" ApprovalStatus.APPROVED
    ApprovalType.NETWORK_ACTION (Some (RemediationAction.action_hash retyped_action)) [cell]
    (Some "planner") (Some "operator") None 40 (Some 50) (Some 1000) "key-ap-1".
Definition retyped_awaiting : Incident.t :=
  after rca_complete "AWAITING_APPROVAL"
    (mk_updates None None None None None None None None None None None None None
       (Some [retyped_action]) (Some [retyped_pending]) None None None None None [] [] false) 40.
Definition retyped_remediating : Incident.t :=
  after retyped_awaiting "REMEDIATING" (set_approvals [retyped_pending; retyped_approved]) 55.
Lemma frozen_recommendation_retyped :
  Incident.status retyped_remediating = IncidentStatus.REMEDIATING ∧
  map RemediationAction.action_hash (Incident.recommendations retyped_remediating)
    = [RemediationAction.action_hash retyped_action] ∧
  Incident.rca_reports retyped_remediating = [report] ∧
  RemediationAction.action_hash retyped_action ≠ RemediationAction.action_hash action.
Proof. split_and!; [vm_compute; reflexivity..|]. vm_compute. discriminate. Qed.
