(* ===== verification/Lifecycle.v ===== *)
(** * What transitions promise

    Theorems about [StateMachine]: the shape of the graph, what one successful
    transition changes and has checked, the errors of a rejected one, and the
    evidence every Incident reachable from a new one carries. *)

From Stdlib Require Import Ascii String.
From S2P Require Import Prelude PyStr Json Reference Models Incident Errors StateMachine.
From S2P Require Import PyEq.
From S2P Require Import Samples.

Import IncidentStatus.

(** ** The graph *)

Definition graph_predecessors (t : IncidentStatus.t) : list IncidentStatus.t :=
  filter (λ s, t ∈ TRANSITIONS s) members.

Lemma elem_of_predecessors s t : s ∈ graph_predecessors t ↔ t ∈ TRANSITIONS s.
Proof.
  unfold graph_predecessors. rewrite list_elem_of_filter.
  pose proof (elem_of_members s). tauto.
Qed.

(** Statuses with one predecessor are reached through it. *)
Lemma path_last s l u :
  path s l u → l = [] ∧ u = s ∨ ∃ l' t, l = l' ++ [u] ∧ path s l' t ∧ u ∈ TRANSITIONS t.
Proof.
  induction 1 as [s|s t u l Ht Hp IH]; [by left|]. right.
  destruct IH as [[-> ->]|(l' & v & -> & Hp' & Hv)].
  - exists [], s. split_and!; [done|constructor|done].
  - exists (t :: l'), v. split_and!; [done|by econstructor|done].
Qed.

Lemma path_only_predecessor s l u v :
  path s l u → graph_predecessors u = [v] → u ≠ s →
  ∃ l', l = l' ++ [u] ∧ path s l' v.
Proof.
  intros Hp Hu Hne. apply path_last in Hp as [[_ ->]|(l' & t & -> & Hp & Ht)]; [done|].
  apply elem_of_predecessors in Ht. rewrite Hu in Ht. apply list_elem_of_singleton in Ht as ->.
  by exists l'.
Qed.

(** An Incident is resolved only along the governed path: every walk of
    the graph from a status that is not itself on that path to RESOLVED ends
    with RCA_COMPLETE, AWAITING_APPROVAL, REMEDIATING, VERIFYING, RESOLVED, so
    approval, remediation and verification cannot be skipped. *)
Theorem resolution_path s l :
  s ∉ [RCA_COMPLETE; AWAITING_APPROVAL; REMEDIATING; VERIFYING; RESOLVED] →
  path s l RESOLVED →
  ∃ l', l = l' ++ [RCA_COMPLETE; AWAITING_APPROVAL; REMEDIATING; VERIFYING; RESOLVED].
Proof.
  rewrite !not_elem_of_cons. intros (H1 & H2 & H3 & H4 & H5 & _) Hp.
  apply (path_only_predecessor _ _ _ VERIFYING) in Hp as (l1 & -> & Hp); [|done|done].
  apply (path_only_predecessor _ _ _ REMEDIATING) in Hp as (l2 & -> & Hp); [|done|done].
  apply (path_only_predecessor _ _ _ AWAITING_APPROVAL) in Hp as (l3 & -> & Hp); [|done|done].
  apply (path_only_predecessor _ _ _ RCA_COMPLETE) in Hp as (l4 & -> & Hp); [|done|done].
  apply path_last in Hp as [[_ Hs]|(l5 & t & -> & _)]; [done|].
  exists l5. by rewrite <- !app_assoc.
Qed.

Lemma resolution_path_witness :
  ∃ l', [TRIAGED; INVESTIGATING; RCA_COMPLETE; AWAITING_APPROVAL; REMEDIATING; VERIFYING; RESOLVED]
        = l' ++ [RCA_COMPLETE; AWAITING_APPROVAL; REMEDIATING; VERIFYING; RESOLVED].
Proof.
  apply (resolution_path DETECTED); [by apply (bool_decide_unpack _); vm_compute|].
  repeat (eapply path_step; [by apply (bool_decide_unpack _); vm_compute|]). apply path_here.
Defined.

(** The derived status sets describe the graph: the terminal statuses are
    exactly those without successors, the settled ones are the terminal ones
    and CLOSED, the active ones are the rest, the reopenable ones are exactly
    the predecessors of REOPENED, and every status can be reached from
    DETECTED. *)
Theorem graph_classification s :
  (s ∈ TERMINAL_STATUSES ↔ TRANSITIONS s = []) ∧
  (s ∈ SETTLED_STATUSES ↔ s ∈ TERMINAL_STATUSES ∨ s = CLOSED) ∧
  (s ∈ ACTIVE_STATUSES ↔ s ∉ SETTLED_STATUSES) ∧
  (s ∈ REOPENABLE_STATUSES ↔ REOPENED ∈ TRANSITIONS s) ∧
  ∃ l, path DETECTED l s.
Proof.
  split_and!.
  - unfold TERMINAL_STATUSES. destruct s; cbn; set_solver.
  - unfold SETTLED_STATUSES. set_solver.
  - unfold ACTIVE_STATUSES. rewrite list_elem_of_filter. pose proof (elem_of_members s). tauto.
  - unfold REOPENABLE_STATUSES. destruct s; cbn; set_solver.
  - destruct s.
    1: exists []; constructor.
    all: match goal with |- ∃ l, path _ l ?u =>
      let tac l := solve [exists l; repeat (eapply path_step; [by apply (bool_decide_unpack _); vm_compute|]);
                          apply path_here] in
      first [ tac [u] | tac [TRIAGED; u] | tac [TRIAGED; INVESTIGATING; u]
            | tac [TRIAGED; INVESTIGATING; RCA_COMPLETE; u]
            | tac [TRIAGED; INVESTIGATING; RCA_COMPLETE; AWAITING_APPROVAL; u]
            | tac [TRIAGED; INVESTIGATING; RCA_COMPLETE; AWAITING_APPROVAL; REMEDIATING; u]
            | tac [TRIAGED; INVESTIGATING; RCA_COMPLETE; AWAITING_APPROVAL; REMEDIATING; VERIFYING; u]
            | tac [TRIAGED; INVESTIGATING; RCA_COMPLETE; AWAITING_APPROVAL; REMEDIATING; VERIFYING; RESOLVED; u] ]
    end.
Qed.

(** ** One transition *)

Section one_transition.
Context `{R : Runtime, L : !RuntimeLaws R}.

Lemma guard_of_transition i ts er ta nw u w w' j :
  transition_incident i ts er ta nw u w w' = Ok j →
  ∃ now, normalize_trusted_now nw w' = Ok now ∧
    validate_transition_guard i j (Incident.status j) now = Ok tt.
Proof.
  intros H. apply transition_Ok in H
    as (t & time & now & _ & _ & _ & _ & _ & _ & _ & Hnow & Hval & Hg).
  apply model_validate_Ok in Hval as (-> & _ & _). by exists now.
Qed.

(** C6. A successful transition of a valid Incident yields a valid Incident
    with the requested status, reached by an edge of the graph; the revision
    grows by one, time does not go back, the identity fields stay, the
    histories only grow and frozen recommendations stay, both up to the equality
    of Python, for which [True == 1 == 1.0]. *)
Theorem transition_sound i ts er ta nw u w w' j :
  valid i → transition_incident i ts er ta nw u w w' = Ok j →
  valid j ∧
  (value (Incident.status j) = ts ∧ Incident.status j ∈ TRANSITIONS (Incident.status i)) ∧
  (Incident.revision j = Incident.revision i + 1 ∧ er = Incident.revision i) ∧
  Incident.updated_at i ≤ Incident.updated_at j ∧
  (Incident.incident_id j = Incident.incident_id i ∧
   Incident.correlation_key j = Incident.correlation_key i ∧
   Incident.technology j = Incident.technology i ∧
   Incident.trace_id j = Incident.trace_id i ∧
   Incident.detected_at j = Incident.detected_at i ∧
   Incident.created_at j = Incident.created_at i) ∧
  (grown (Incident.approvals i) (Incident.approvals j) ∧
   grown (Incident.rca_reports i) (Incident.rca_reports j) ∧
   grown (Incident.action_runs i) (Incident.action_runs j) ∧
   grown (Incident.verification_runs i) (Incident.verification_runs j) ∧
   grown (Incident.evidence_refs i) (Incident.evidence_refs j) ∧
   Incident.source_event_ids i `prefix_of` Incident.source_event_ids j) ∧
  (Incident.status i ∈ FROZEN_RECOMMENDATION_STATUSES →
   Incident.recommendations j ≐ Incident.recommendations i).
Proof.
  intros Hv H. pose proof (transition_fields _ _ _ _ _ _ _ _ _ Hv H) as Hf. destruct_and! Hf.
  pose proof (append_only_spec _ _ (transition_append _ _ _ _ _ _ _ _ _ H)) as Ha.
  destruct_and! Ha. apply transition_Ok in H as (? & ? & ? & -> & _).
  split_and!; done.
Qed.

(** The errors of the parts. *)
Definition guard_failure (e : exc) : Prop :=
  match e with TransitionGuardError _ _ _ => True | _ => False end.

Lemma requested_update_raises i t u :
  raises guard_failure (validate_requested_history_update i t u).
Proof.
  unfold validate_requested_history_update, check_append_opt, check_append.
  raises_tac; done.
Qed.

Lemma successful_runs_raises i t : raises guard_failure (successful_action_runs i t).
Proof.
  unfold successful_action_runs.
  induction (Incident.recommendations i) as [|a l IH]; cbn [map_result]; [apply raises_Ok|].
  unfold successful_run. raises_tac; try done.
Qed.

Lemma guard_raises i j t now : raises guard_failure (validate_transition_guard i j t now).
Proof.
  unfold validate_transition_guard, validate_append_only, check_append, validate_rca_complete,
    validate_remediation_approvals, validate_resolved.
  raises_tac; try done; apply successful_runs_raises.
Qed.

(** What a transition can raise once the revision is the expected one. *)
Definition transition_failure (i : Incident.t) (e : exc) : Prop :=
  match e with
  | IncidentStateError _ | InvalidTransitionError _ _ _ | InvalidTransitionUpdateError _
  | TransitionGuardError _ _ _ | TransitionTimeError _ _ | ValidationError _ => True
  | StateRevisionConflictError id _ rev =>
      id = Incident.incident_id i ∧ rev = Incident.revision i
  | _ => False
  end.

Lemma raises_weaken {A} (P Q : exc → Prop) (r : result exc A) :
  (∀ e, P e → Q e) → raises P r → raises Q r.
Proof. intros H Hr e He. by apply H, Hr. Qed.

(** The steps after the revision check. *)
Lemma transition_raises (P : exc → Prop) i ts er ta nw u w w' :
  (∀ e, transition_failure i e → (∀ id x y, e ≠ StateRevisionConflictError id x y) → P e) →
  (er ≠ Incident.revision i →
   P (StateRevisionConflictError (Incident.incident_id i) er (Incident.revision i))) →
  raises P (transition_incident i ts er ta nw u w w').
Proof.
  intros HP Hrev. unfold transition_incident. raises_tac; try (apply HP; done).
  - apply Hrev. match goal with H : negb _ = true |- _ =>
      by apply negb_true_iff, Z.eqb_neq in H end.
  - eapply raises_weaken; [|apply requested_update_raises].
    intros e He. apply HP; destruct e; done.
  - unfold normalize_transition_time. raises_tac; apply HP; done.
  - unfold normalize_trusted_now. raises_tac; apply HP; done.
  - intros e He. unfold validated in He. destruct (Incident.model_validate _); [done|].
    injection He as <-. by apply HP.
  - eapply raises_weaken; [|apply guard_raises].
    intros e He. apply HP; destruct e; done.
Qed.

(** A transition is refused exactly as its guards say, in their order: a
    stale expected revision is a conflict whatever else is wrong, and only a
    stale revision is; then an unknown status, then an edge the graph does not
    have, then protected fields among the updates.  It raises nothing but
    the errors of the state machine and of model validation. *)
Theorem transition_refusals i ts er ta nw u w w' :
  raises (transition_failure i) (transition_incident i ts er ta nw u w w') ∧
  (er ≠ Incident.revision i ↔
   transition_incident i ts er ta nw u w w'
   = Err (StateRevisionConflictError (Incident.incident_id i) er (Incident.revision i))) ∧
  (er = Incident.revision i → status_of ts = None →
   transition_incident i ts er ta nw u w w'
   = Err (IncidentStateError ("unknown incident status: " +:+ ts))) ∧
  (er = Incident.revision i → ∀ t, status_of ts = Some t →
   t ∉ TRANSITIONS (Incident.status i) →
   transition_incident i ts er ta nw u w w'
   = Err (InvalidTransitionError (Incident.incident_id i) (Incident.status i) t)) ∧
  (er = Incident.revision i → ∀ t, status_of ts = Some t →
   t ∈ TRANSITIONS (Incident.status i) → u_protected u ≠ [] →
   transition_incident i ts er ta nw u w w'
   = Err (InvalidTransitionUpdateError (protected_names u))).
Proof.
  assert (∀ t, can_transition (Incident.status i) t = bool_decide (t ∈ TRANSITIONS (Incident.status i)))
    as Hcan by done.
  split_and!.
  - apply transition_raises; [by intros|done].
  - split; [intros Hne%Z.eqb_neq; unfold transition_incident; by rewrite Hne|].
    intros H He.
    assert (raises (λ e, e ≠ StateRevisionConflictError (Incident.incident_id i) er
              (Incident.revision i)) (transition_incident i ts er ta nw u w w')) as Hr
      by (apply transition_raises; naive_solver).
    by apply (Hr _ H).
  - intros -> Hs. unfold transition_incident. rewrite Z.eqb_refl. cbn [negb throw_if].
    by rewrite Hs.
  - intros -> t Hs Ht. unfold transition_incident. rewrite Z.eqb_refl, Hs.
    cbn -[can_transition]. rewrite Hcan.
    by rewrite bool_decide_eq_false_2.
  - intros -> t Hs Ht Hu. unfold transition_incident. rewrite Z.eqb_refl, Hs.
    cbn -[can_transition]. rewrite Hcan.
    rewrite bool_decide_eq_true_2 by done. by destruct (u_protected u).
Qed.

(** *** Authority to remediate *)

(** [report] owns the recommendations of [i]; [d] is the latest event of its
    approval request and grants [action] at [now]. *)
Definition owns (i : Incident.t) (report : RcaReport.t) : Prop :=
  report ∈ Incident.rca_reports i ∧
  (∀ r, r ∈ Incident.rca_reports i → RcaReport.version r ≤ RcaReport.version report) ∧
  RcaReport.recommendations report ≐ Incident.recommendations i.

Definition granted (i : Incident.t) (report : RcaReport.t) (now : Z)
    (action : RemediationAction.t) (d : ApprovalDecision.t) : Prop :=
  d ∈ Incident.approvals i ∧
  (∀ e, e ∈ Incident.approvals i → ApprovalDecision.request_id e = ApprovalDecision.request_id d →
     ApprovalDecision.sequence e ≤ ApprovalDecision.sequence d) ∧
  ApprovalDecision.status d = ApprovalStatus.APPROVED ∧
  ApprovalDecision.covers_action d action (Incident.incident_id i) report = true ∧
  (∃ t, ApprovalDecision.decided_at d = Some t ∧ t ≤ now) ∧
  (∀ t, ApprovalDecision.expires_at d = Some t → now < t).

Lemma granted_of_action_approved i report now action :
  action_approved i report now action = true → ∃ d, granted i report now action d.
Proof.
  intros (r & d & Hd & Hc & He)%action_approved_spec. exists d.
  apply latest_approval_decision_spec in Hd as (Hd & <- & Hmax).
  apply effective_is_approved in He as (Hs & Ht & Hx). by split_and!.
Qed.

Lemma latest_report_spec i r :
  latest_report i = Some r →
  r ∈ Incident.rca_reports i ∧
  ∀ r', r' ∈ Incident.rca_reports i → RcaReport.version r' ≤ RcaReport.version r.
Proof. apply max_by_Some. Qed.

Lemma empty_list_false {A} (l : list A) : empty_list l = false ↔ l ≠ [].
Proof. by destruct l. Qed.

Lemma remediation_guard_granted i j now :
  validate_transition_guard i j REMEDIATING now = Ok tt →
  Incident.recommendations j ≠ [] ∧
  ∃ report, owns j report ∧
    ∀ action, action ∈ Incident.recommendations j → ∃ d, granted j report now action d.
Proof.
  unfold validate_transition_guard. intros H. run_ok.
  match goal with He : empty_list _ = false |- _ => apply empty_list_false in He end.
  split; [done|].
  apply remediation_approvals_spec in H as (report & Hr & Ho & Ha).
  apply latest_report_spec in Hr as [Hr Hmax]. exists report. split; [done|].
  intros action Hin. by apply granted_of_action_approved, Ha.
Qed.

(** C3. No remediation without authority: when a transition enters
    REMEDIATING at the trusted instant [now], the Incident has actions, its
    latest report recommends the same ones, as Python compares them, and for each
    action of the Incident there is an approval that is the latest event of its
    request, APPROVED, bound to the hash of that action's content, its scope and
    the report, decided no later than [now] and not expired at [now]. *)
Theorem remediation_requires_approval i ts er ta nw u w w' j now :
  transition_incident i ts er ta nw u w w' = Ok j →
  Incident.status j = REMEDIATING →
  normalize_trusted_now nw w' = Ok now →
  Incident.recommendations j ≠ [] ∧
  ∃ report, owns j report ∧
    ∀ action, action ∈ Incident.recommendations j → ∃ d, granted j report now action d.
Proof.
  intros H Hs Hn. apply guard_of_transition in H as (now' & Hn' & Hg).
  rewrite Hn in Hn'. injection Hn' as <-. rewrite Hs in Hg.
  by eapply remediation_guard_granted.
Qed.

(** The guard of REMEDIATING and [Incident.effective_action_approval]
    agree: the guard passes exactly when the latest report owns the
    recommendations and the aggregate finds an effective approval for each, in
    whatever order it visits the approval requests. *)
Theorem remediation_guard_equiv i t now ids :
  Incident.request_id_order i ids →
  (validate_remediation_approvals i t now = Ok tt ↔
   ∃ report, latest_report i = Some report ∧
     RcaReport.recommendations report ≐ Incident.recommendations i ∧
     ∀ action, action ∈ Incident.recommendations i →
       is_Some (Incident.effective_action_approval i ids action report now)).
Proof.
  intros Hids. rewrite remediation_approvals_spec.
  split; intros (report & Hr & Ho & Ha); exists report; (split_and!; [done|done|]);
    intros action Hin; specialize (Ha action Hin).
  - by apply effective_action_approval_Some, action_approved_spec.
  - by apply action_approved_spec, (effective_action_approval_Some _ ids).
Qed.

(** *** Evidence of resolution *)

(** C4. No resolution without proof: when a transition enters RESOLVED, the
    latest attempt at each recommended action succeeded, for this Incident and
    for exactly the content recommended, and the latest verification PASSED
    for this Incident with checks and evidence, over exactly those runs. *)
Theorem resolution_requires_verification i ts er ta nw u w w' j :
  transition_incident i ts er ta nw u w w' = Ok j →
  Incident.status j = RESOLVED →
  ∃ runs v, Forall2 (exact_success j) (Incident.recommendations j) runs ∧
    exact_verification j runs v.
Proof.
  intros H Hs. apply guard_of_transition in H as (now & _ & Hg). rewrite Hs in Hg.
  unfold validate_transition_guard in Hg. run_ok. by apply validate_resolved_spec.
Qed.
End one_transition.

Lemma transition_sound_witness :
  let j := remediating in
  valid j ∧
  (value (Incident.status j) = "REMEDIATING" ∧
   Incident.status j ∈ TRANSITIONS (Incident.status awaiting)) ∧
  (Incident.revision j = Incident.revision awaiting + 1 ∧ 4 = Incident.revision awaiting) ∧
  Incident.updated_at awaiting ≤ Incident.updated_at j ∧
  (Incident.incident_id j = Incident.incident_id awaiting ∧
   Incident.correlation_key j = Incident.correlation_key awaiting ∧
   Incident.technology j = Incident.technology awaiting ∧
   Incident.trace_id j = Incident.trace_id awaiting ∧
   Incident.detected_at j = Incident.detected_at awaiting ∧
   Incident.created_at j = Incident.created_at awaiting) ∧
  (grown (Incident.approvals awaiting) (Incident.approvals j) ∧
   grown (Incident.rca_reports awaiting) (Incident.rca_reports j) ∧
   grown (Incident.action_runs awaiting) (Incident.action_runs j) ∧
   grown (Incident.verification_runs awaiting) (Incident.verification_runs j) ∧
   grown (Incident.evidence_refs awaiting) (Incident.evidence_refs j) ∧
   Incident.source_event_ids awaiting `prefix_of` Incident.source_event_ids j) ∧
  (Incident.status awaiting ∈ FROZEN_RECOMMENDATION_STATUSES →
   Incident.recommendations j ≐ Incident.recommendations awaiting).
Proof.
  apply (transition_sound awaiting "REMEDIATING" 4 (Some (Aware 55 0)) (Some (Aware 55 0))
           (set_approvals [pending; approved]) 0 0); vm_compute; reflexivity.
Defined.

Lemma remediation_requires_approval_witness :
  Incident.recommendations remediating ≠ [] ∧
  ∃ report, owns remediating report ∧
    ∀ action, action ∈ Incident.recommendations remediating →
      ∃ d, granted remediating report 55 action d.
Proof.
  apply (remediation_requires_approval awaiting "REMEDIATING" 4 (Some (Aware 55 0))
           (Some (Aware 55 0)) (set_approvals [pending; approved]) 0 0); vm_compute; reflexivity.
Defined.

Lemma remediation_guard_equiv_witness :
  validate_remediation_approvals remediating REMEDIATING 55 = Ok tt ↔
   ∃ report, latest_report remediating = Some report ∧
     RcaReport.recommendations report ≐ Incident.recommendations remediating ∧
     ∀ action, action ∈ Incident.recommendations remediating →
       is_Some (Incident.effective_action_approval remediating ["req-1"] action report 55).
Proof.
  apply (remediation_guard_equiv remediating REMEDIATING 55 ["req-1"%string]).
  split; [apply NoDup_singleton|]. vm_compute map. set_solver.
Defined.

Lemma resolution_requires_verification_witness :
  ∃ runs v, Forall2 (exact_success resolved) (Incident.recommendations resolved) runs ∧
    exact_verification resolved runs v.
Proof.
  apply (resolution_requires_verification verifying "RESOLVED" 6 (Some (Aware 70 0))
           (Some (Aware 70 0)) (set_verification_runs [verification]) 0 0); vm_compute; reflexivity.
Defined.

(** ** Reachable Incidents *)

Section reachable.
Context `{R : Runtime, L : !RuntimeLaws R}.

(** The Incidents a sequence of successful transitions leads to. *)
Inductive evolves (i : Incident.t) : Incident.t → Prop :=
| evolves_refl : evolves i i
| evolves_step j k ts er ta nw u w w' :
    evolves i j → transition_incident j ts er ta nw u w w' = Ok k → evolves i k.

Lemma covers_spec d a id r :
  ApprovalDecision.covers_action d a id r = true →
  ApprovalDecision.is_network_action d = true ∧
  ApprovalDecision.subject_id d = RemediationAction.action_id a ∧
  ApprovalDecision.action_hash d = Some (RemediationAction.action_hash a).
Proof.
  unfold ApprovalDecision.covers_action. rewrite !andb_true_iff, !bool_decide_eq_true. tauto.
Qed.
Lemma valid_action_inj i a b :
  valid i → a ∈ Incident.recommendations i → b ∈ Incident.recommendations i →
  RemediationAction.action_id a = RemediationAction.action_id b → a = b.
Proof.
  intros Hv%valid_uniqueness. unfold Incident.check_uniqueness in Hv. run_ok.
  rewrite !ensure_unique_Ok in *. by apply NoDup_map_inj.
Qed.

(** The three kinds of evidence a governed Incident accumulates. *)
Definition all_approved (i : Incident.t) : Prop :=
  Incident.recommendations i ≠ [] ∧
  ∀ action, action ∈ Incident.recommendations i →
    ∃ d report, d ∈ Incident.approvals i ∧ report ∈ Incident.rca_reports i ∧
      ApprovalDecision.status d = ApprovalStatus.APPROVED ∧
      ApprovalDecision.covers_action d action (Incident.incident_id i) report = true.

Definition executed (i : Incident.t) (action : RemediationAction.t) (r : ActionRun.t) : Prop :=
  r ∈ Incident.action_runs i ∧
  ActionRun.action_id r = RemediationAction.action_id action ∧
  ActionRun.status r = ActionRunStatus.SUCCEEDED ∧
  ActionRun.incident_id r = Some (Incident.incident_id i) ∧
  ActionRun.action_hash r = Some (RemediationAction.action_hash action).
Definition all_executed (i : Incident.t) : Prop :=
  ∀ action, action ∈ Incident.recommendations i → ∃ r, executed i action r.

Definition all_verified (i : Incident.t) : Prop :=
  ∃ v, v ∈ Incident.verification_runs i ∧
    VerificationRun.status v = VerificationStatus.PASSED ∧
    ∀ action, action ∈ Incident.recommendations i →
      ∃ r, executed i action r ∧ ActionRun.action_run_id r ∈ VerificationRun.action_run_ids v.

Definition governed (i : Incident.t) : Prop :=
  (Incident.status i ∈ [REMEDIATING; VERIFYING; RESOLVED; CLOSED] → all_approved i) ∧
  (Incident.status i ∈ [VERIFYING; RESOLVED; CLOSED] → all_executed i) ∧
  (Incident.status i ∈ [RESOLVED; CLOSED] → all_verified i).

(** Evidence survives a transition that keeps the recommendations up to [==]:
    what is equal may have another hash, but the approvals, whose hashes stay,
    bind the actions of a valid Incident. *)
Record keeps (i j : Incident.t) : Prop := {
  keeps_id : Incident.incident_id j = Incident.incident_id i;
  keeps_valid : valid j;
  keeps_recommendations : Incident.recommendations j ≐ Incident.recommendations i;
  keeps_approvals : grown (Incident.approvals i) (Incident.approvals j);
  keeps_reports : grown (Incident.rca_reports i) (Incident.rca_reports j);
  keeps_runs : grown (Incident.action_runs i) (Incident.action_runs j);
  keeps_verifications : grown (Incident.verification_runs i) (Incident.verification_runs j)
}.

(** An approved action of the later Incident is one of the earlier, with its hash. *)
Lemma kept_approval i j a :
  keeps i j → all_approved i → a ∈ Incident.recommendations j →
  ∃ b d report, b ∈ Incident.recommendations i ∧
    RemediationAction.action_id b = RemediationAction.action_id a ∧
    RemediationAction.action_hash b = RemediationAction.action_hash a ∧
    d ∈ Incident.approvals j ∧ report ∈ Incident.rca_reports j ∧
    ApprovalDecision.status d = ApprovalStatus.APPROVED ∧
    ApprovalDecision.covers_action d a (Incident.incident_id j) report = true.
Proof.
  intros K [_ H] Ha.
  destruct (elem_of_py_eq _ _ _ (keeps_recommendations _ _ K) Ha) as (b & Hb & Hab%py_eq_action).
  destruct (H b Hb) as (d & r & Hd & _ & Hs & Hc).
  destruct (elem_of_grown _ _ _ (keeps_approvals _ _ K) Hd) as (d' & Hd' & He).
  apply py_eq_approval in He as (_ & Hsub & Hst & Hty & Hh).
  apply covers_spec in Hc as (Hn & Hid & Hash).
  destruct (valid_network_approval j d' (keeps_valid _ _ K) Hd') as (a' & r' & Ha' & Hr' & Hid' & Hc').
  { unfold ApprovalDecision.is_network_action in *. by rewrite <- Hty. }
  assert (a' = a) as ->.
  { eapply (valid_action_inj j); [apply K|done..|]. congruence. }
  pose proof (covers_spec _ _ _ _ Hc') as (_ & _ & Hash').
  exists b, d', r'. split_and!; congruence || done.
Qed.

Lemma keeps_all_approved i j : keeps i j → all_approved i → all_approved j.
Proof.
  intros K H. split.
  - destruct H as [Hne _]. pose proof (keeps_recommendations _ _ K) as He%py_eq_list%Forall2_length.
    intros Hj. rewrite Hj in He. by destruct (Incident.recommendations i).
  - intros a Ha. destruct (kept_approval _ _ _ K H Ha) as (b & d & r & _ & _ & _ & ?).
    by exists d, r.
Qed.

Lemma keeps_executed i j a b r :
  keeps i j → executed i b r → RemediationAction.action_id b = RemediationAction.action_id a →
  RemediationAction.action_hash b = RemediationAction.action_hash a →
  ∃ r', executed j a r' ∧ ActionRun.action_run_id r' = ActionRun.action_run_id r.
Proof.
  intros K (Hr & Hid & Hs & Hin & Hh) Hba Hash.
  destruct (elem_of_grown _ _ _ (keeps_runs _ _ K) Hr) as (r' & Hr' & He).
  apply py_eq_run in He as (? & ? & ? & ? & ?). exists r'. unfold executed.
  rewrite (keeps_id _ _ K). split_and!; congruence || done.
Qed.

Lemma keeps_all_executed i j : keeps i j → all_approved i → all_executed i → all_executed j.
Proof.
  intros K Hap H a Ha. destruct (kept_approval _ _ _ K Hap Ha) as (b & _ & _ & Hb & Hid & Hh & _).
  destruct (H b Hb) as [r Hr]. destruct (keeps_executed _ _ _ _ _ K Hr Hid Hh) as (r' & ? & _).
  by exists r'.
Qed.

Lemma keeps_all_verified i j : keeps i j → all_approved i → all_verified i → all_verified j.
Proof.
  intros K Hap (v & Hv & Hs & H).
  destruct (elem_of_grown _ _ _ (keeps_verifications _ _ K) Hv) as (v' & Hv' & He).
  apply py_eq_verification in He as [Hst Hids]. exists v'. split_and!; [done|congruence|].
  intros a Ha. destruct (kept_approval _ _ _ K Hap Ha) as (b & _ & _ & Hb & Hid & Hh & _).
  destruct (H b Hb) as (r & Hr & Hin). destruct (keeps_executed _ _ _ _ _ K Hr Hid Hh) as (r' & ? & Hr').
  exists r'. split; [done|]. by rewrite <- Hids, Hr'.
Qed.

Lemma transition_keeps i ts er ta nw u w w' j :
  valid i → transition_incident i ts er ta nw u w w' = Ok j →
  Incident.status i ∈ FROZEN_RECOMMENDATION_STATUSES → keeps i j.
Proof.
  intros Hv H Hf. pose proof (transition_fields _ _ _ _ _ _ _ _ _ Hv H) as Hi. destruct_and! Hi.
  pose proof (append_only_spec _ _ (transition_append _ _ _ _ _ _ _ _ _ H)) as Ha.
  destruct_and! Ha. by split; auto.
Qed.

Lemma exact_success_executed i a r : exact_success i a r → executed i a r.
Proof. intros (? & ? & _ & ? & ? & ? & _). by split_and!. Qed.

(** What the guards of the three statuses establish. *)
Lemma remediating_approved i j now :
  validate_transition_guard i j REMEDIATING now = Ok tt → all_approved j.
Proof.
  intros (Hne & report & (Hr & _) & H)%remediation_guard_granted.
  split; [done|]. intros a Ha. destruct (H a Ha) as (d & Hd & _ & Hs & Hc & _).
  by exists d, report.
Qed.

Lemma verifying_executed i j now :
  validate_transition_guard i j VERIFYING now = Ok tt → all_executed j.
Proof.
  unfold validate_transition_guard. intros H. run_ok.
  match goal with Hs : successful_action_runs _ _ = Ok _ |- _ =>
    apply successful_action_runs_spec in Hs; rename Hs into Hruns end.
  intros a [n Ha]%list_elem_of_lookup. destruct (Forall2_lookup_l _ _ _ _ _ Hruns Ha) as (r & _ & Hx).
  exists r. by apply exact_success_executed.
Qed.

Lemma resolved_verified i j now :
  validate_transition_guard i j RESOLVED now = Ok tt → all_verified j.
Proof.
  unfold validate_transition_guard. intros H. run_ok.
  apply validate_resolved_spec in H as (runs & v & Hruns & Hl & Hs & _ & _ & _ & _ & Hids).
  exists v. split_and!; [by apply last_Some_elem_of|done|].
  intros a [n Ha]%list_elem_of_lookup.
  destruct (Forall2_lookup_l _ _ _ _ _ Hruns Ha) as (r & Hr & Hx).
  exists r. split; [by apply exact_success_executed|]. apply Hids.
  apply list_elem_of_fmap_2. by eapply list_elem_of_lookup_2.
Qed.

(** A region of frozen statuses that is entered only at its gate. *)
Definition gated (gate : IncidentStatus.t) (region : list IncidentStatus.t) : bool :=
  forallb (λ t, bool_decide (t = gate) ||
    forallb (λ s, bool_decide (s ∈ region) && bool_decide (s ∈ FROZEN_RECOMMENDATION_STATUSES))
      (graph_predecessors t)) region.

Lemma gated_spec gate region s t :
  gated gate region = true → t ∈ TRANSITIONS s → t ∈ region →
  t = gate ∨ s ∈ region ∧ s ∈ FROZEN_RECOMMENDATION_STATUSES.
Proof.
  unfold gated. rewrite forallb_true_iff. intros H Ht Hr. specialize (H t Hr).
  rewrite orb_true_iff, bool_decide_eq_true, forallb_true_iff in H.
  destruct H as [H|H]; [by left|right]. apply elem_of_predecessors in Ht.
  specialize (H s Ht). by rewrite andb_true_iff, !bool_decide_eq_true in H.
Qed.

Lemma transition_governed i ts er ta nw u w w' j :
  valid i → governed i → transition_incident i ts er ta nw u w w' = Ok j → governed j.
Proof.
  intros Hv (Ha & He & Hver) H.
  pose proof (transition_fields _ _ _ _ _ _ _ _ _ Hv H) as Hf. destruct_and! Hf.
  pose proof (transition_keeps _ _ _ _ _ _ _ _ _ Hv H) as Hk.
  apply guard_of_transition in H as (now & _ & Hg).
  match goal with H : Incident.status j ∈ TRANSITIONS _ |- _ => rename H into Hedge end.
  split_and!; intros Hs.
  - destruct (gated_spec REMEDIATING
      [REMEDIATING; VERIFYING; RESOLVED; CLOSED] _ _ eq_refl Hedge Hs) as [E|[Hi Hz]].
    + rewrite E in Hg. by eapply remediating_approved.
    + eapply keeps_all_approved; auto.
  - destruct (gated_spec VERIFYING
      [VERIFYING; RESOLVED; CLOSED] _ _ eq_refl Hedge Hs) as [E|[Hi Hz]].
    + rewrite E in Hg. by eapply verifying_executed.
    + eapply keeps_all_executed; [by auto| |by auto]. apply Ha. clear - Hi. set_solver.
  - destruct (gated_spec RESOLVED
      [RESOLVED; CLOSED] _ _ eq_refl Hedge Hs) as [E|[Hi Hz]].
    + rewrite E in Hg. by eapply resolved_verified.
    + eapply keeps_all_verified; [by auto| |by auto]. apply Ha. clear - Hi. set_solver.
Qed.

(** C1. The evidence invariant: every Incident that transitions lead to from a
    valid new one is valid, and from REMEDIATING on it holds an APPROVED
    decision for each recommended action, from VERIFYING on a successful run
    with each action's hash, and from RESOLVED on a PASSED verification of
    those runs, whatever is appended later. *)
Theorem reachable_evidence i j :
  valid i → Incident.status i = DETECTED → evolves i j →
  valid j ∧ governed j.
Proof.
  intros Hv Hs. induction 1 as [|j k ts er ta nw u w w' _ [Hvj Hgj] Hstep].
  - split; [done|]. unfold governed. rewrite Hs. split_and!; intros Hin; exfalso; set_solver.
  - split; [|by eapply transition_governed].
    by apply transition_fields in Hstep as (? & _).
Qed.
End reachable.

Lemma reachable_evidence_witness : valid resolved ∧ governed resolved.
Proof.
  apply (reachable_evidence detected); [vm_compute; reflexivity|reflexivity|].
  apply (evolves_step _ verifying resolved "RESOLVED" 6 (Some (Aware 70 0)) (Some (Aware 70 0))
           (set_verification_runs [verification]) 0 0); [|vm_compute; reflexivity].
  apply (evolves_step _ remediating _ "VERIFYING" 5 (Some (Aware 65 0)) (Some (Aware 65 0))
           (set_action_runs [run]) 0 0); [|vm_compute; reflexivity].
  apply (evolves_step _ awaiting _ "REMEDIATING" 4 (Some (Aware 55 0)) (Some (Aware 55 0))
           (set_approvals [pending; approved]) 0 0); [|vm_compute; reflexivity].
  apply (evolves_step _ rca_complete _ "AWAITING_APPROVAL" 3 (Some (Aware 40 0)) (Some (Aware 40 0))
           (set_approvals [pending]) 0 0); [|vm_compute; reflexivity].
  apply (evolves_step _ investigating _ "RCA_COMPLETE" 2 (Some (Aware 30 0)) (Some (Aware 30 0))
           set_reports 0 0); [|vm_compute; reflexivity].
  apply (evolves_step _ triaged _ "INVESTIGATING" 1 (Some (Aware 20 0)) (Some (Aware 20 0))
           no_updates 0 0); [|vm_compute; reflexivity].
  apply (evolves_step _ detected _ "TRIAGED" 0 (Some (Aware 10 0)) (Some (Aware 10 0))
           no_updates 0 0); [constructor|vm_compute; reflexivity].
Defined.
