(* ===== verification/Binding.v ===== *)
(** * What hashes and scopes bind

    Approvals name an action by [action_hash] and its resources by
    [resource_scope_identity].  These theorems say what equality of either
    means for the actions, under the assumption that the digest does not
    collide on the texts at hand. *)

From Stdlib Require Import Ascii String.
From S2P Require Import Prelude PyStr Json Reference Models Incident StateMachine Samples.
From S2P Require Import PyEq.

Section canonical_text.
Context `{R : Runtime, L : !RuntimeLaws R}.

Lemma canonical_json_inj x y :
  dict_ordered x = true → dict_ordered y = true →
  canonical_json x = canonical_json y → x = y.
Proof.
  intros Hx Hy H. destruct (dumps_prefix_free x y EmptyString EmptyString) as [? _]; done.
Qed.

(** *** Dictionaries *)

Lemma key_leb_total {A} (x y : string * A) : key_leb x y = true ∨ key_leb y x = true.
Proof. apply StringLeb_total. Qed.

Lemma Sorted_keys_ordered {A} (l : list (string * A)) :
  Sorted key_leb l → NoDup (map fst l) → keys_ordered l = true.
Proof.
  induction 1 as [|[k x] l Hs IH Hhd]; intros Hnd; [done|].
  cbn in Hnd. apply NoDup_cons in Hnd as [Hk Hnd]. specialize (IH Hnd).
  destruct Hhd as [|[k' x'] l Hle]; [done|]. cbn in *.
  rewrite IH, andb_true_r. unfold key_ltb. apply Is_true_true in Hle. cbn in Hle.
  unfold key_leb in Hle. cbn in Hle. rewrite Hle, bool_decide_eq_false_2; [done|].
  intros ->. apply Hk. by left.
Qed.

Lemma dict_ordered_json_of_map {A} (f : A → json) (m : gmap string A) :
  map_Forall (λ _ a, dict_ordered (f a) = true) m → dict_ordered (json_of_map f m) = true.
Proof.
  intros Hm. unfold json_of_map. cbn [dict_ordered]. apply andb_true_iff. split.
  - apply Sorted_keys_ordered; [apply py_sorted_Sorted, key_leb_total|].
    rewrite py_sorted_perm, map_map. cbn. apply NoDup_fst_map_to_list.
  - apply forallb_true_iff. intros kv Hkv. rewrite elem_of_py_sorted in Hkv.
    apply list_elem_of_fmap in Hkv as ([k a] & -> & Hin). cbn.
    apply elem_of_map_to_list in Hin. by apply (Hm k a).
Qed.

Lemma map_perm_inj {A B} (f : A → B) `{!Inj (=) (=) f} l k : map f l ≡ₚ map f k → l ≡ₚ k.
Proof.
  intros (m & Hm & ->)%Permutation_map_inv. by apply (inj (fmap f)) in Hm as ->.
Qed.

Lemma json_of_map_inj {A} (f : A → json) (m m' : gmap string A) :
  Inj (=) (=) f → json_of_map f m = json_of_map f m' → m = m'.
Proof.
  intros Hf [= H].
  assert (map (λ kv : string * A, (kv.1, f kv.2)) (map_to_list m) ≡ₚ
          map (λ kv : string * A, (kv.1, f kv.2)) (map_to_list m')) as Hp.
  { rewrite <- (py_sorted_perm key_leb (map _ (map_to_list m))), H. apply py_sorted_perm. }
  apply map_to_list_inj. apply map_perm_inj in Hp; [done|].
  intros [k a] [k' a'] [= -> E]. f_equal. by apply Hf.
Qed.

(** *** Resources *)

Lemma dict_ordered_stable_identity r :
  dict_ordered (ResourceReference.stable_identity r) = true.
Proof.
  unfold ResourceReference.stable_identity. cbn [dict_ordered forallb keys_ordered fst snd].
  rewrite dict_ordered_json_of_map by (by intros ? ?).
  by destruct (ResourceReference.location_id r), (ResourceReference.parent_resource_id r),
    (ResourceReference.technology r), (ResourceReference.vendor_profile r).
Qed.

(** The fields that authorize a resource. *)
Definition same_resource (r s : ResourceReference.t) : Prop :=
  ResourceReference.resource_id r = ResourceReference.resource_id s ∧
  ResourceReference.resource_type r = ResourceReference.resource_type s ∧
  ResourceReference.technology r = ResourceReference.technology s ∧
  ResourceReference.vendor_profile r = ResourceReference.vendor_profile s ∧
  ResourceReference.parent_resource_id r = ResourceReference.parent_resource_id s ∧
  ResourceReference.location_id r = ResourceReference.location_id s ∧
  ResourceReference.external_ids r = ResourceReference.external_ids s.

Lemma json_opt_inj {A} (f : A → json) o o' :
  Inj (=) (=) f → (∀ a, f a ≠ JNull) → json_opt f o = json_opt f o' → o = o'.
Proof.
  intros Hf Hn. destruct o, o'; cbn; intros H; try done.
  - f_equal. by apply Hf.
  - by apply Hn in H.
  - symmetry in H. by apply Hn in H.
Qed.

Lemma JStr_inj : Inj (=) (=) JStr.
Proof. by intros ? ? [= ->]. Qed.

Lemma stable_identity_inj r s :
  ResourceReference.stable_identity r = ResourceReference.stable_identity s ↔
  same_resource r s.
Proof.
  split.
  - unfold ResourceReference.stable_identity. intros H.
    injection H as He Hl Hp Hi Ht Htech Hv.
    split_and!; [done|..].
    + revert Ht. by destruct (ResourceReference.resource_type r), (ResourceReference.resource_type s).
    + apply json_opt_inj in Htech; [done| |done].
      intros t t' [= E]. revert E. by destruct t, t'.
    + apply json_opt_inj in Hv; [done|apply JStr_inj|done].
    + apply json_opt_inj in Hp; [done|apply JStr_inj|done].
    + apply json_opt_inj in Hl; [done|apply JStr_inj|done].
    + eapply json_of_map_inj; [apply JStr_inj|]. by unfold json_of_map; f_equal.
  - intros (H1 & H2 & H3 & H4 & H5 & H6 & H7). unfold ResourceReference.stable_identity.
    by rewrite H1, H2, H3, H4, H5, H6, H7.
Qed.

Lemma canonical_resource_identity_inj r s :
  canonical_resource_identity r = canonical_resource_identity s ↔ same_resource r s.
Proof.
  rewrite <- stable_identity_inj. unfold canonical_resource_identity. split; [|by intros ->].
  apply canonical_json_inj; apply dict_ordered_stable_identity.
Qed.

Lemma canonical_map_inj l k :
  Forall (λ j, dict_ordered j = true) l → Forall (λ j, dict_ordered j = true) k →
  map canonical_json l = map canonical_json k → l = k.
Proof.
  intros Hl. revert k. induction Hl as [|x l Hx _ IH]; intros [|y k] Hk; try done.
  apply Forall_cons in Hk as [Hy Hk]. intros [= H1 H2].
  f_equal; [by apply canonical_json_inj|by apply IH].
Qed.

Lemma ordered_identities rs :
  Forall (λ j, dict_ordered j = true) (map ResourceReference.stable_identity rs).
Proof. apply Forall_fmap, Forall_true, dict_ordered_stable_identity. Qed.

Lemma resource_scope_identity_perm rs ss :
  resource_scope_identity rs = resource_scope_identity ss ↔
  map ResourceReference.stable_identity rs ≡ₚ map ResourceReference.stable_identity ss.
Proof.
  unfold resource_scope_identity, canonical_resource_identity. split.
  - intros H.
    assert (map canonical_json (map ResourceReference.stable_identity rs) ≡ₚ
            map canonical_json (map ResourceReference.stable_identity ss)) as Hp.
    { rewrite !map_map.
      etransitivity; [symmetry; apply (py_sorted_perm String.leb)|].
      etransitivity; [|apply (py_sorted_perm String.leb)].
      unfold canonical_resource_identity in H. by rewrite H. }
    apply Permutation_map_inv in Hp as (m & Hm & Hp). rewrite Hp.
    apply canonical_map_inj in Hm as ->; [done|apply ordered_identities|].
    rewrite <- Hp. apply ordered_identities.
  - intros H. apply py_sorted_perm_eq;
      [apply StringLeb_total|apply StringLeb_trans|apply StringLeb_antisym|].
    apply (fmap_Permutation canonical_json) in H. by rewrite <- !list_fmap_compose in H.
Qed.

(** *** Actions *)

(** The JSON values a Python [dict] of parameters can hold. *)
Definition ordered_parameters (a : RemediationAction.t) : Prop :=
  map_Forall (λ _ v, dict_ordered v = true) (RemediationAction.parameters a).

(** The digest does not collide on two texts. *)
Definition no_collision (x y : json) : Prop :=
  stable_hash x = stable_hash y → canonical_json x = canonical_json y.

Lemma dict_ordered_semantic a : dict_ordered (RemediationAction.semantic_json a) = true.
Proof.
  unfold RemediationAction.semantic_json. cbn [dict_ordered forallb keys_ordered fst snd].
  assert (∀ o, dict_ordered (json_opt JStr o) = true) as Ho by (by intros []).
  rewrite !Ho, !andb_true_r. cbn [andb]. apply andb_true_iff. split; [reflexivity|].
  apply forallb_true_iff. intros j Hj. rewrite elem_of_py_sorted in Hj.
  apply list_elem_of_fmap in Hj as (r & -> & _). apply dict_ordered_stable_identity.
Qed.

(** Everything an action does: what an approval of it must mean. *)
Definition same_effect (a b : RemediationAction.t) : Prop :=
  RemediationAction.action_type a = RemediationAction.action_type b ∧
  RemediationAction.description a = RemediationAction.description b ∧
  RemediationAction.expected_outcome a = RemediationAction.expected_outcome b ∧
  RemediationAction.parameters a = RemediationAction.parameters b ∧
  RemediationAction.reversible a = RemediationAction.reversible b ∧
  RemediationAction.risk_level a = RemediationAction.risk_level b ∧
  RemediationAction.rollback_plan a = RemediationAction.rollback_plan b ∧
  map ResourceReference.stable_identity (RemediationAction.target_resources a) ≡ₚ
  map ResourceReference.stable_identity (RemediationAction.target_resources b).

Lemma sorted_identities_perm rs ss :
  (let leb x y := String.leb (canonical_json x) (canonical_json y) in
   py_sorted leb (map ResourceReference.stable_identity rs)
   = py_sorted leb (map ResourceReference.stable_identity ss)) →
  map ResourceReference.stable_identity rs ≡ₚ map ResourceReference.stable_identity ss.
Proof.
  cbn. intros H. etransitivity; [symmetry; apply py_sorted_perm|].
  rewrite H. apply py_sorted_perm.
Qed.

Lemma action_hash_effect a b :
  ordered_parameters a → ordered_parameters b →
  no_collision (RemediationAction.semantic_json a) (RemediationAction.semantic_json b) →
  no_collision (json_of_map id (RemediationAction.parameters a))
    (json_of_map id (RemediationAction.parameters b)) →
  RemediationAction.action_hash a = RemediationAction.action_hash b → same_effect a b.
Proof.
  intros Ha Hb Hsem Hpar H. apply Hsem, canonical_json_inj in H;
    [|apply dict_ordered_semantic..].
  unfold RemediationAction.semantic_json in H.
  injection H as H1 H2 H3 H4 H5 H6 H7 H8.
  assert (Inj (=) (=) JStr) as Hinj by apply JStr_inj.
  apply Hpar, canonical_json_inj, json_of_map_inj in H4;
    [|by intros ? ?|by apply dict_ordered_json_of_map..].
  apply json_opt_inj in H2, H3, H7; [|done..].
  split_and!; try done.
  - revert H6. by destruct (RemediationAction.risk_level a), (RemediationAction.risk_level b).
  - by apply sorted_identities_perm.
Qed.

(** C11. An action hash binds the whole effect of the action: unless the digest
    collides on the texts compared, two actions with one [action_hash] have
    the same type, texts, parameters, risk, reversibility and rollback plan,
    and the same target resources up to order. *)
Theorem action_hash_binds a b :
  ordered_parameters a → ordered_parameters b →
  no_collision (RemediationAction.semantic_json a) (RemediationAction.semantic_json b) →
  no_collision (json_of_map id (RemediationAction.parameters a))
    (json_of_map id (RemediationAction.parameters b)) →
  RemediationAction.action_hash a = RemediationAction.action_hash b → same_effect a b.
Proof. apply action_hash_effect. Qed.

(** A scope identity is exactly the multiset of the resources in scope,
    each by the fields that authorize it: two scopes have the same identity
    if and only if one lists the resources of the other in some order. *)
Theorem scope_identity_exact rs ss :
  resource_scope_identity rs = resource_scope_identity ss ↔
  ∃ ss', ss' ≡ₚ ss ∧ Forall2 same_resource rs ss'.
Proof.
  rewrite resource_scope_identity_perm. split.
  - intros H. apply Permutation_map_inv in H as (ss' & H & Hp). exists ss'. split; [done|].
    clear Hp. revert ss' H. induction rs as [|r rs IH]; intros [|s ss'] H; try done.
    cbn in H. apply cons_eq_inj in H as [H1 H2].
    constructor; [by apply stable_identity_inj|by apply IH].
  - intros (ss' & <- & H). induction H as [|r s rs' ss' Hrs _ IH]; [done|]. cbn.
    apply stable_identity_inj in Hrs. by rewrite Hrs, IH.
Qed.

(** An approval that covers an action approves that action: the decision
    names the Incident, the report and its version, the action's identifier
    and hash, and its scope is the action's target resources up to order. *)
Theorem covers_action_exact d action id rep :
  ApprovalDecision.covers_action d action id rep = true ↔
  ApprovalDecision.approval_type d = ApprovalType.NETWORK_ACTION ∧
  ApprovalDecision.incident_id d = id ∧ RcaReport.incident_id rep = id ∧
  ApprovalDecision.report_id d = RcaReport.report_id rep ∧
  ApprovalDecision.report_version d = RcaReport.version rep ∧
  ApprovalDecision.subject_id d = RemediationAction.action_id action ∧
  ApprovalDecision.action_hash d = Some (RemediationAction.action_hash action) ∧
  map ResourceReference.stable_identity (ApprovalDecision.scope d) ≡ₚ
  map ResourceReference.stable_identity (RemediationAction.target_resources action).
Proof.
  unfold ApprovalDecision.covers_action, ApprovalDecision.is_network_action.
  rewrite !andb_true_iff, !bool_decide_eq_true, Z.eqb_eq, resource_scope_identity_perm. tauto.
Qed.
End canonical_text.

(** The same action proposed again: another identifier, another time. *)
Definition action_again : RemediationAction.t :=
  RemediationAction.mk "act-2" "tilt_antenna" None [cell] {["degrees" := JInt 2]} RiskLevel.LOW
    false None None (Some "again") 99.

Lemma sample_parameters (a : RemediationAction.t) :
  RemediationAction.parameters a = {["degrees" := JInt 2]} → ordered_parameters a.
Proof. unfold ordered_parameters. intros ->. by apply map_Forall_singleton. Qed.

Lemma action_hash_binds_witness : same_effect action action_again.
Proof.
  apply (action_hash_binds action action_again).
  - by apply sample_parameters.
  - by apply sample_parameters.
  - intros _. vm_compute. reflexivity.
  - intros _. vm_compute. reflexivity.
  - vm_compute. reflexivity.
Defined.

Definition cell_b : ResourceReference.t :=
  ResourceReference.mk "cell-18" ResourceType.CELL (Some "B") None None None None ∅ ∅.

Lemma scope_identity_exact_witness :
  ∃ ss', ss' ≡ₚ [cell_b; cell] ∧ Forall2 same_resource [cell; cell_b] ss'.
Proof. apply (scope_identity_exact [cell; cell_b] [cell_b; cell]). vm_compute. reflexivity. Defined.

Lemma covers_action_exact_witness :
  ApprovalDecision.covers_action approved action "inc-1" report = true ∧
  ApprovalDecision.action_hash approved = Some (RemediationAction.action_hash action).
Proof.
  assert (ApprovalDecision.covers_action approved action "inc-1" report = true) as H
    by (vm_compute; reflexivity).
  split; [done|].
  apply (covers_action_exact approved action "inc-1" report) in H.
  destruct H as (_ & _ & _ & _ & _ & _ & H & _). exact H.
Defined.
