(* ===== verification/Budget.v ===== *)
(** * Size and depth budgets (contracts.py, memory.py)

    [_payload_depth], the JSON payload budget of the contracts and the write
    policy of the repository.  Both run on freshly built JSON values, which
    share no parts, so the loop's set of seen identities plays no role here;
    [Sharing] models it. *)

From Stdlib Require Import Ascii String.
From S2P Require Import Prelude PyStr Json Privacy Models Errors.
From S2P Require Import PyEq.

Definition MAX_CONTRACT_SERIALIZED_BYTES : Z := 256000.
Definition MAX_CONTRACT_DEPTH : Z := 24.
Definition MAX_REPOSITORY_PAGE_SIZE : Z := 1000.
Definition MAX_REPOSITORY_OFFSET : Z := 100000.
Definition MAX_REPOSITORY_BATCH_BYTES : Z := 64 * 1024 * 1024.

(** ** [_payload_depth] *)

Definition children (j : json) : list json :=
  match j with JArr l => l | JObj l => map snd l | _ => [] end.

(** The loop; the head of [stack] is the end that [pop] takes. *)
Fixpoint depth_loop (fuel : nat) (stack : list (json * Z)) (maximum : Z) : Z :=
  match fuel, stack with
  | S fuel, (current, depth) :: stack =>
      let maximum := Z.max maximum depth in
      if MAX_CONTRACT_DEPTH <? depth then depth
      else depth_loop fuel (rev (map (λ item, (item, depth + 1)) (children current)) ++ stack)
             maximum
  | _, _ => maximum
  end.

Fixpoint sum_nat (l : list nat) : nat := match l with [] => 0 | n :: l => n + sum_nat l end.

(** The number of values in a payload: the loop visits each once. *)
Fixpoint nodes (j : json) : nat :=
  match j with
  | JArr l => S (sum_nat (map nodes l))
  | JObj l => S (sum_nat (map (λ kv, nodes kv.2) l))
  | _ => 1
  end.

Definition payload_depth (value : json) : Z := depth_loop (nodes value) [(value, 1)] 1.

(** ** The two budgets *)

(** [len(json.dumps(value, ...).encode("utf-8"))]. *)
Definition encoded_length `{Runtime} (value : json) : Z := Z.of_nat (String.length (dumps value)).

(** [_assert_payload_budget]. *)
Definition assert_payload_budget `{Runtime} (value : json) : result exc unit :=
  throw_if (MAX_CONTRACT_DEPTH <? payload_depth value)
    (ContractPayloadLimitError "canonical payload depth exceeds 24") ≫= λ _,
  throw_if (MAX_CONTRACT_SERIALIZED_BYTES <? encoded_length value)
    (ContractPayloadLimitError "canonical payload serialized size exceeds 256000 bytes").

(** [_assert_repository_safe(value, incident_id)], on the JSON of the value. *)
Definition assert_repository_safe `{Runtime} (plain : json) (incident_id : string) :
    result exc Z :=
  throw_if (negb (model_safe plain))
    (UnsafeIncidentWriteError incident_id "privacy or JSON policy violation") ≫= λ _,
  throw_if (MAX_CONTRACT_DEPTH <? payload_depth plain)
    (UnsafeIncidentWriteError incident_id "payload depth exceeds canonical limit") ≫= λ _,
  throw_if (MAX_CONTRACT_SERIALIZED_BYTES <? encoded_length plain)
    (UnsafeIncidentWriteError incident_id "serialized payload exceeds canonical size limit")
    ≫= λ _,
  Ok (encoded_length plain).

(** [_bounded_page(values)], on the JSON of each value. *)
Fixpoint bounded_page_from `{Runtime} (total : Z) (values : list json) : result exc unit :=
  match values with
  | [] => Ok tt
  | value :: values =>
      assert_repository_safe value "<repository-page>" ≫= λ size,
      let total := total + size in
      throw_if (MAX_REPOSITORY_BATCH_BYTES <? total)
        (UnsafeIncidentWriteError "<repository-page>" "repository batch exceeds size limit")
        ≫= λ _, bounded_page_from total values
  end.
Definition bounded_page `{Runtime} {A} (to_json : A → json) (values : list A) :
    result exc (list A) :=
  bounded_page_from 0 (map to_json values) ≫= λ _, Ok values.

(** ** Facts *)

#[local] Arguments Z.max : simpl never.
#[local] Arguments Z.add : simpl never.
#[local] Arguments Z.sub : simpl never.

(** The depth of the deepest value. *)
Fixpoint max_list (l : list Z) : Z :=
  match l with [] => 0 | z :: l => Z.max z (max_list l) end.
Fixpoint height (j : json) : Z :=
  match j with
  | JArr l => 1 + max_list (map height l)
  | JObj l => 1 + max_list (map (λ kv, height kv.2) l)
  | _ => 1
  end.

Lemma height_children j : height j = 1 + max_list (map height (children j)).
Proof. destruct j; cbn; try done. by rewrite map_map. Qed.

Lemma nodes_children j : nodes j = S (sum_nat (map nodes (children j))).
Proof. destruct j; cbn; try done. by rewrite map_map. Qed.

Lemma max_list_nonneg l : 0 ≤ max_list l.
Proof. induction l; cbn; lia. Qed.

Lemma height_pos j : 1 ≤ height j.
Proof. rewrite height_children. pose proof (max_list_nonneg (map height (children j))). lia. Qed.

Lemma max_list_app l k : max_list (l ++ k) = Z.max (max_list l) (max_list k).
Proof. induction l; cbn; [pose proof (max_list_nonneg k)|]; lia. Qed.

Lemma max_list_rev l : max_list (rev l) = max_list l.
Proof. induction l; cbn; [done|]. rewrite max_list_app. cbn. pose proof (max_list_nonneg l). lia. Qed.

Lemma sum_nat_app l k : sum_nat (l ++ k) = (sum_nat l + sum_nat k)%nat.
Proof. induction l; cbn; lia. Qed.

Lemma sum_nat_rev l : sum_nat (rev l) = sum_nat l.
Proof. induction l; cbn; [done|]. rewrite sum_nat_app. cbn. lia. Qed.

(** How deep the values still on the stack reach. *)
Definition reach (stack : list (json * Z)) : Z :=
  max_list (map (λ e, e.2 + height e.1 - 1) stack).

Lemma reach_children l d :
  0 ≤ d → reach (rev (map (λ item, (item, d + 1)) l))
  = if bool_decide (l = []) then 0 else d + max_list (map height l).
Proof.
  intros Hd. unfold reach. rewrite map_rev, max_list_rev, map_map. cbn.
  induction l as [|x l IH]; [done|]. rewrite bool_decide_eq_false_2 by done. cbn.
  rewrite IH. pose proof (height_pos x). pose proof (max_list_nonneg (map height l)).
  case_bool_decide; subst; cbn; try lia.
Qed.

Lemma depth_loop_spec fuel stack maximum :
  (sum_nat (map (λ e, nodes e.1) stack) ≤ fuel)%nat →
  Forall (λ e, 1 ≤ e.2 ≤ MAX_CONTRACT_DEPTH + 1) stack →
  1 ≤ maximum ≤ MAX_CONTRACT_DEPTH →
  depth_loop fuel stack maximum
  = Z.min (MAX_CONTRACT_DEPTH + 1) (Z.max maximum (reach stack)).
Proof.
  revert stack maximum.
  induction fuel as [|fuel IH]; intros [|[current depth] stack] maximum Hf Hs Hm;
    cbn [depth_loop]; try (unfold reach; cbn; lia).
  - exfalso. cbn in Hf. rewrite nodes_children in Hf. lia.
  - apply Forall_cons in Hs as [Hd Hs]. cbn in Hd.
    assert (reach ((current, depth) :: stack)
            = Z.max (depth + height current - 1) (reach stack)) as -> by done.
    pose proof (height_pos current).
    destruct (Z.ltb_spec MAX_CONTRACT_DEPTH depth); [lia|].
    rewrite IH.
    + unfold reach at 1. rewrite map_app, max_list_app.
      change (max_list (map _ (rev ?x))) with (reach (rev x)).
      rewrite reach_children by lia. rewrite (height_children current).
      fold (reach stack). pose proof (max_list_nonneg (map height (children current))).
      case_bool_decide as Hc; [rewrite Hc; cbn|]; lia.
    + cbn in Hf. rewrite nodes_children in Hf.
      rewrite map_app, sum_nat_app, map_rev, sum_nat_rev, map_map. cbn.
      change (map (λ x, nodes x)) with (map nodes). lia.
    + apply Forall_app. split; [|done]. apply Forall_rev, Forall_fmap, Forall_true.
      intros x. cbn. lia.
    + lia.
Qed.

(** The loop computes the depth, cut off just above the limit. *)
Lemma payload_depth_height j : payload_depth j = Z.min (MAX_CONTRACT_DEPTH + 1) (height j).
Proof.
  unfold payload_depth. rewrite depth_loop_spec.
  - unfold reach. cbn. pose proof (height_pos j). lia.
  - cbn. lia.
  - apply Forall_singleton. unfold MAX_CONTRACT_DEPTH. cbn. lia.
  - unfold MAX_CONTRACT_DEPTH. lia.
Qed.

Section budgets.
Context `{R : Runtime}.

Lemma payload_budget_spec value :
  assert_payload_budget value = Ok tt ↔
  height value ≤ MAX_CONTRACT_DEPTH ∧ encoded_length value ≤ MAX_CONTRACT_SERIALIZED_BYTES.
Proof.
  unfold assert_payload_budget. rewrite payload_depth_height. split.
  - intros H. run_ok. rewrite !Z.ltb_ge in *. lia.
  - intros [Hh He].
    destruct (Z.ltb_spec MAX_CONTRACT_DEPTH (Z.min (MAX_CONTRACT_DEPTH + 1) (height value)));
      [lia|]. cbn.
    destruct (Z.ltb_spec MAX_CONTRACT_SERIALIZED_BYTES (encoded_length value)); [lia|done].
Qed.

Lemma repository_safe_spec plain id n :
  assert_repository_safe plain id = Ok n ↔
  identifier_free plain ∧ height plain ≤ MAX_CONTRACT_DEPTH ∧
  encoded_length plain ≤ MAX_CONTRACT_SERIALIZED_BYTES ∧ n = encoded_length plain.
Proof.
  unfold assert_repository_safe. rewrite <- model_safe_free. split.
  - intros H. run_ok. subst. rewrite payload_depth_height, !Z.ltb_ge in *.
    match goal with H : negb _ = false |- _ => apply negb_false_iff in H end.
    split_and!; try done; lia.
  - intros (Hs & Hh & He & ->). rewrite Hs. cbn. rewrite payload_depth_height.
    destruct (Z.ltb_spec MAX_CONTRACT_DEPTH (Z.min (MAX_CONTRACT_DEPTH + 1) (height plain)));
      [lia|]. cbn.
    destruct (Z.ltb_spec MAX_CONTRACT_SERIALIZED_BYTES (encoded_length plain)); [lia|done].
Qed.

(** The only errors: the caller's Incident is named, the payload is not. *)
Definition unsafe_write (id : string) (e : exc) : Prop :=
  match e with UnsafeIncidentWriteError id' _ => id' = id | _ => False end.

Lemma repository_safe_raises plain id :
  raises (unsafe_write id) (assert_repository_safe plain id).
Proof. unfold assert_repository_safe. raises_tac; done. Qed.

Fixpoint total_length (values : list json) : Z :=
  match values with [] => 0 | v :: l => encoded_length v + total_length l end.

Lemma encoded_length_nonneg v : 0 ≤ encoded_length v.
Proof. unfold encoded_length. lia. Qed.

Lemma total_length_nonneg l : 0 ≤ total_length l.
Proof. induction l as [|v l IH]; cbn; [done|]. pose proof (encoded_length_nonneg v). lia. Qed.

Lemma bounded_page_from_spec total values :
  0 ≤ total ≤ MAX_REPOSITORY_BATCH_BYTES →
  bounded_page_from total values = Ok tt →
  Forall identifier_free values ∧ total + total_length values ≤ MAX_REPOSITORY_BATCH_BYTES.
Proof.
  revert total. induction values as [|v values IH]; intros total Ht; cbn [bounded_page_from].
  { intros _. split; [constructor|]. cbn. lia. }
  intros H. run_ok.
  match goal with H : assert_repository_safe _ _ = Ok _ |- _ =>
    apply repository_safe_spec in H as (Hv & _ & _ & ->) end.
  rewrite Z.ltb_ge in *. pose proof (encoded_length_nonneg v).
  apply IH in H as [? ?]; [|lia]. split; [by constructor|]. cbn. lia.
Qed.

Lemma bounded_page_Ok {A} (to_json : A → json) values page :
  bounded_page to_json values = Ok page →
  page = values ∧ Forall (λ v, identifier_free (to_json v)) values ∧
  total_length (map to_json values) ≤ MAX_REPOSITORY_BATCH_BYTES.
Proof.
  unfold bounded_page. intros H. run_ok. subst. split; [done|].
  apply bounded_page_from_spec in H0 as [Hf Hl]; [|unfold MAX_REPOSITORY_BATCH_BYTES; lia].
  split; [by rewrite Forall_map in Hf|lia].
Qed.
End budgets.
