(* ===== verification/Sharing.v ===== *)
(** * The depth loop on shared objects (contracts.py)

    [_payload_depth] walks the objects of a payload, which may share parts or
    contain themselves: it remembers the identities it has seen.  [Budget]
    runs the loop on JSON values, which share nothing; here it runs on a heap
    of containers. *)

From S2P Require Import Prelude Json Budget.
From S2P Require Import PyEq.

(** A container is known by its identity, [id(current)]. *)
Inductive value := Scalar | Object (oid : nat).

(** What a container holds: the values of a Mapping, the items of a Sequence. *)
Definition heap := gmap nat (list value).
Definition contents (h : heap) (oid : nat) : list value := default [] (h !! oid).

#[export] Instance value_eq_dec : EqDecision value.
Proof. solve_decision. Defined.

(** The loop of [_payload_depth], with the set of seen identities. *)
Fixpoint depth_walk (fuel : nat) (h : heap) (stack : list (value * Z)) (seen : gset nat)
    (maximum : Z) : option Z :=
  match fuel, stack with
  | _, [] => Some maximum
  | O, _ => None
  | S fuel, (current, depth) :: stack =>
      let maximum := Z.max maximum depth in
      if MAX_CONTRACT_DEPTH <? depth then Some depth
      else match current with
           | Scalar => depth_walk fuel h stack seen maximum
           | Object oid =>
               if decide (oid ∈ seen) then depth_walk fuel h stack seen maximum
               else depth_walk fuel h
                      (rev (map (λ item, (item, depth + 1)) (contents h oid)) ++ stack)
                      ({[oid]} ∪ seen) maximum
           end
  end.

(** As many rounds as the heap holds values, and one more. *)
Definition edges (h : heap) : nat := map_fold (λ _ items n, (length items + n)%nat) 0%nat h.
Definition object_depth (h : heap) (v : value) : option Z :=
  depth_walk (S (edges h)) h [(v, 1)] ∅ 1.

(** ** Where a value is nested *)

(** [nested h v u d]: [u] is [v] at depth 1, or inside of it at depth [d]. *)
Inductive nested (h : heap) (v : value) : value → Z → Prop :=
  | nested_top : nested h v v 1
  | nested_item oid u d :
      nested h v (Object oid) d → u ∈ contents h oid → nested h v u (d + 1).

(** ** Termination *)

(** The values that the loop has not yet met. *)
Definition unseen (h : heap) (seen : gset nat) : nat :=
  edges (filter (λ kv, kv.1 ∉ seen) h).

Lemma edges_insert h oid items :
  h !! oid = None → edges (<[oid := items]> h) = (length items + edges h)%nat.
Proof. intros Hn. unfold edges, heap in *. 
  apply (map_fold_insert_L (λ _ items n, (length items + n)%nat)); [intros; lia|done]. Qed.

Lemma unseen_take h seen oid :
  oid ∉ seen →
  unseen h seen = (length (contents h oid) + unseen h ({[oid]} ∪ seen))%nat.
Proof.
  intros Hn. unfold unseen, contents.
  assert (filter (λ kv : nat * list value, kv.1 ∉ ({[oid]} : gset nat) ∪ seen) h
          = delete oid (filter (λ kv, kv.1 ∉ seen) h)) as ->.
  { apply map_eq. intros k. apply option_eq. intros x.
    rewrite lookup_delete_Some, !map_lookup_filter_Some. cbn. set_solver. }
  destruct (h !! oid) as [items|] eqn:Hi; cbn.
  - rewrite <- (edges_insert _ oid) by apply lookup_delete_eq. f_equal.
    unfold heap in *. symmetry. apply insert_delete_id. by apply map_lookup_filter_Some.
  - f_equal. unfold heap in *. symmetry. apply delete_id. apply map_lookup_filter_None. by left.
Qed.

Lemma depth_walk_returns fuel h stack seen maximum :
  (length stack + unseen h seen ≤ fuel)%nat → is_Some (depth_walk fuel h stack seen maximum).
Proof.
  revert stack seen maximum. induction fuel as [|fuel IH]; intros [|[current depth] stack] seen
    maximum Hf; cbn in *; try done; [lia|].
  destruct (_ <? depth); [done|].
  destruct current as [|oid]; [apply IH; lia|].
  destruct (decide (oid ∈ seen)) as [Hin|Hn]; [apply IH; lia|].
  apply IH. rewrite length_app, length_rev, length_map. rewrite (unseen_take _ _ oid Hn) in Hf.
  lia.
Qed.

Lemma depth_walk_more fuel fuel' h stack seen maximum r :
  (fuel ≤ fuel')%nat → depth_walk fuel h stack seen maximum = Some r →
  depth_walk fuel' h stack seen maximum = Some r.
Proof.
  revert fuel' stack seen maximum. induction fuel as [|fuel IH];
    intros [|fuel'] [|[current depth] stack] seen maximum Hf; cbn; try done; [lia|].
  destruct (_ <? depth); [done|]. destruct current; [apply IH; lia|].
  destruct (decide _); apply IH; lia.
Qed.

(** ** What the loop returns *)

Section walk.
Context (h : heap) (v : value).

(** Met at depth [d] or before it. *)
Definition within (u : value) (d : Z) : Prop := ∃ d', d' ≤ d ∧ nested h v u d'.

(** Values to come are nested where the stack says; what an object that was
    seen contains is to come, or within the depth measured so far. *)
Record walk_inv (stack : list (value * Z)) (seen : gset nat) (maximum : Z) : Prop := {
  walk_stack : ∀ u d, (u, d) ∈ stack → nested h v u d ∧ d ≤ MAX_CONTRACT_DEPTH + 1;
  walk_seen : ∀ oid u, oid ∈ seen → u ∈ contents h oid →
    (∃ d, (u, d) ∈ stack) ∨ within u maximum ∧ ∀ o, u = Object o → o ∈ seen;
  walk_top : (∃ d, (v, d) ∈ stack) ∨ within v maximum ∧ ∀ o, v = Object o → o ∈ seen;
  walk_maximum : 1 ≤ maximum ≤ MAX_CONTRACT_DEPTH;
  walk_attained : ∃ u, nested h v u maximum
}.

Lemma within_le u d d' : within u d → d ≤ d' → within u d'.
Proof. intros (e & ? & ?) ?. exists e. split; [lia|done]. Qed.

(** A value leaves the stack. *)
Lemma walk_pop u d stack seen maximum :
  d ≤ MAX_CONTRACT_DEPTH → walk_inv ((u, d) :: stack) seen maximum →
  (∀ o, u = Object o → o ∈ seen) →
  walk_inv stack seen (Z.max maximum d).
Proof.
  intros Hd [Hst Hseen Htop Hmax (t & Ht)] Hu.
  destruct (Hst u d) as [Hud _]; [left|].
  assert (∀ x, (∃ d', (x, d') ∈ (u, d) :: stack) ∨ within x maximum ∧ (∀ o, x = Object o → o ∈ seen) →
          (∃ d', (x, d') ∈ stack) ∨ within x (Z.max maximum d) ∧ (∀ o, x = Object o → o ∈ seen))
    as Hmove.
  { intros x [(d' & [[= -> ->]|Hin]%elem_of_cons)|[Hw Ho]].
    - right. split; [|done]. exists d. split; [lia|done].
    - left. by exists d'.
    - right. split; [|done]. by eapply within_le; [|apply Z.le_max_l]. }
  split.
  - intros x d' Hx. apply Hst. by right.
  - intros oid x Ho Hx. by apply Hmove, (Hseen oid).
  - by apply Hmove.
  - lia.
  - destruct (Z.max_spec maximum d) as [[_ ->]|[_ ->]]; eauto.
Qed.

(** An object is opened: what it contains goes on the stack. *)
Lemma walk_open oid d stack seen maximum :
  d ≤ MAX_CONTRACT_DEPTH → walk_inv ((Object oid, d) :: stack) seen maximum →
  walk_inv (rev (map (λ item, (item, d + 1)) (contents h oid)) ++ stack)
    ({[oid]} ∪ seen) (Z.max maximum d).
Proof.
  intros Hd [Hst Hseen Htop Hmax (t & Ht)].
  destruct (Hst (Object oid) d) as [Hod _]; [left|].
  assert (∀ u, u ∈ contents h oid →
    (u, d + 1) ∈ rev (map (λ item, (item, d + 1)) (contents h oid)) ++ stack) as Hpush.
  { intros u Hu. apply elem_of_app. left. apply list_elem_of_In, in_rev. rewrite rev_involutive.
    apply in_map_iff. exists u. split; [done|]. by apply list_elem_of_In. }
  assert (∀ x,
    (∃ d', (x, d') ∈ (Object oid, d) :: stack) ∨ within x maximum ∧ (∀ o, x = Object o → o ∈ seen) →
    (∃ d', (x, d') ∈ rev (map (λ item, (item, d + 1)) (contents h oid)) ++ stack) ∨
    within x (Z.max maximum d) ∧ (∀ o, x = Object o → o ∈ {[oid]} ∪ seen)) as Hmove.
  { intros x [(d' & [[= -> ->]|Hin]%elem_of_cons)|[Hw Ho]].
    - right. split; [exists d; split; [lia|done]|]. intros o [= <-]. set_solver.
    - left. exists d'. apply elem_of_app. by right.
    - right. split; [by eapply within_le; [|apply Z.le_max_l]|]. intros o Hx.
      apply elem_of_union_r. by apply Ho. }
  split.
  - intros u d' [Hu|Hu]%elem_of_app; [|apply Hst; by right].
    apply list_elem_of_In in Hu. rewrite <- in_rev in Hu.
    apply in_map_iff in Hu as (x & [= <- <-] & Hx).
    split; [|lia]. eapply nested_item; [exact Hod|]. by apply list_elem_of_In.
  - intros o u [->%elem_of_singleton|Ho]%elem_of_union Hu.
    + left. exists (d + 1). by apply Hpush.
    + by apply Hmove, (Hseen o).
  - by apply Hmove.
  - lia.
  - destruct (Z.max_spec maximum d) as [[_ ->]|[_ ->]]; eauto.
Qed.

(** The walk has ended: everything that is nested was met. *)
Lemma walk_end seen maximum u d :
  walk_inv [] seen maximum → nested h v u d →
  within u maximum ∧ ∀ o, u = Object o → o ∈ seen.
Proof.
  intros [_ Hseen Htop _ _]. induction 1 as [|oid u d Hn [_ IH] Hu].
  - by destruct Htop as [(? & ?%elem_of_nil)|].
  - by destruct (Hseen oid u (IH _ eq_refl) Hu) as [(? & ?%elem_of_nil)|].
Qed.

Lemma depth_walk_sound fuel stack seen maximum r :
  walk_inv stack seen maximum → depth_walk fuel h stack seen maximum = Some r →
  1 ≤ r ≤ MAX_CONTRACT_DEPTH + 1 ∧ (∃ u, nested h v u r) ∧
  (r ≤ MAX_CONTRACT_DEPTH → ∀ u d, nested h v u d → within u r).
Proof.
  revert stack seen maximum.
  induction fuel as [|fuel IH]; intros [|[current depth] stack] seen maximum HI; cbn [depth_walk];
    try done.
  1, 2: intros [= <-]; pose proof HI as [_ _ _ Hm Ha]; split_and!; try done; try lia;
        intros _ u d Hn; by apply (walk_end seen maximum u d).
  pose proof HI as [Hst _ _ Hm _]. destruct (Hst current depth) as [Hn Hle]; [left|].
  destruct (Z.ltb_spec MAX_CONTRACT_DEPTH depth) as [Hd|Hd].
  - intros [= <-]. split_and!; [lia|lia|by exists current|lia].
  - destruct current as [|oid].
    + apply IH. by eapply walk_pop.
    + destruct (decide (oid ∈ seen)).
      * apply IH. eapply walk_pop; [exact Hd|exact HI|]. by intros ? [= <-].
      * apply IH. by apply walk_open.
Qed.
End walk.

(** C14. [_payload_depth] returns on every payload, even one that contains
    itself, within as many rounds as the payload holds values and one more.
    What it returns is the depth of some value and at most one above the limit;
    within the limit, every value is nested no deeper than that on some path.
    (On a payload without shared parts there is only one path.) *)
Theorem payload_depth_terminates h v :
  ∃ r, object_depth h v = Some r ∧ 1 ≤ r ≤ MAX_CONTRACT_DEPTH + 1 ∧
    (∃ u, nested h v u r) ∧
    (r ≤ MAX_CONTRACT_DEPTH → ∀ u d, nested h v u d → ∃ d', d' ≤ r ∧ nested h v u d').
Proof.
  unfold object_depth.
  destruct (depth_walk_returns (S (edges h)) h [(v, 1)] ∅ 1) as [r Hr].
  { assert (unseen h ∅ = edges h) as ->; [|cbn; lia].
    unfold unseen. f_equal. apply map_eq. intros k. apply option_eq. intros x.
    rewrite map_lookup_filter_Some. set_solver. }
  exists r. split; [done|]. eapply depth_walk_sound; [|exact Hr]. split.
  - intros u d [[= -> ->]|?%elem_of_nil]%elem_of_cons; [|done].
    split; [constructor|]. unfold MAX_CONTRACT_DEPTH. lia.
  - intros oid u []%elem_of_empty.
  - left. exists 1. left.
  - unfold MAX_CONTRACT_DEPTH. lia.
  - exists v. constructor.
Qed.

(** A list that contains itself, and one that holds a deep part twice: at
    depth 2, where it is met first, and at depth 13. *)
Definition chain (first last : nat) (end_ : list value) : heap :=
  list_to_map (map (λ n, (n, if (n =? last)%nat then end_ else [Object (S n)]))
                 (seq first (S last - first))).
Definition knot : heap := {[0%nat := [Scalar; Object 0]]}.
Definition aliased : heap :=
  <[0%nat := [Object 1; Object 12]]> (chain 1 11 [Object 12] ∪ chain 12 32 [Scalar]).

Example knot_depth : object_depth knot (Object 0) = Some 2.
Proof. vm_compute. reflexivity. Qed.
Example aliased_depth : object_depth aliased (Object 0) = Some 23.
Proof. vm_compute. reflexivity. Qed.

Lemma chain_nested h v first n d :
  nested h v (Object first) d →
  (∀ k, (k < n)%nat → contents h (first + k) = [Object (S (first + k))]) →
  nested h v (Object (first + n)) (d + Z.of_nat n).
Proof.
  intros Hn. induction n as [|n IH]; intros Hc; [by rewrite Nat.add_0_r, Z.add_0_r|].
  replace (d + Z.of_nat (S n)) with (d + Z.of_nat n + 1) by lia.
  eapply nested_item; [apply IH; intros; apply Hc; lia|]. rewrite Hc by lia.
  rewrite Nat.add_succ_r. left.
Qed.

(** A part held twice is measured where it is met first: a value at depth 34
    passes the limit of 24. *)
Lemma aliased_payload_admitted :
  object_depth aliased (Object 0) = Some 23 ∧ nested aliased (Object 0) Scalar 34.
Proof.
  split; [vm_compute; reflexivity|].
  change 34 with (33 + 1). apply (nested_item _ _ 32); [|vm_compute; left].
  apply (chain_nested _ _ 1 31 2).
  - apply (nested_item _ _ 0 _ 1); [constructor|vm_compute; left].
  - intros k Hk. do 31 (destruct k as [|k]; [vm_compute; reflexivity|]). lia.
Qed.
