(* ===== verification/Progress.v ===== *)
(** * An Incident is never stuck (state_machine.py)

    The transitions without a guard succeed at any trusted time, so that every
    active Incident can be settled at once; a terminal one has no successor. *)

From Stdlib Require Import Ascii String.
From S2P Require Import Prelude PyStr Json Models Incident Errors StateMachine Samples.
From S2P Require Import PyEq.

Import IncidentStatus.

(** The statuses whose transition has a guard of its own. *)
Definition GUARDED : list IncidentStatus.t :=
  [DUPLICATE; RCA_COMPLETE; AWAITING_APPROVAL; REMEDIATING; VERIFYING; RESOLVED].

(** The status in which an active Incident can be settled at once. *)
Definition settlement (s : IncidentStatus.t) : IncidentStatus.t :=
  match s with RESOLVED => CLOSED | _ => FAILED end.

(** A membership in a list of statuses. *)
Ltac in_list := solve [apply (bool_decide_unpack _); vm_compute; exact I].

Section progress.
Context `{R : Runtime}.

Lemma no_updates_accepted i t : validate_requested_history_update i t no_updates = Ok tt.
Proof.
  unfold validate_requested_history_update, check_append_opt, no_updates. cbn.
  by rewrite andb_false_r.
Qed.

Lemma check_append_same {A} `{PyEqLaws A} i t field (l : list A) :
  check_append i t field l l = Ok tt.
Proof.
  unfold check_append. assert (extends l l = true) as -> by (by apply extends_spec). done.
Qed.

Lemma unguarded_accepted i t at_ now :
  t ∉ GUARDED → validate_transition_guard i (updated_payload i no_updates t at_) t now = Ok tt.
Proof.
  intros Ht. unfold validate_transition_guard, validate_append_only. cbn.
  rewrite !check_append_same. cbn. rewrite eqb_refl.
  rewrite andb_false_r. cbn. destruct t; try done; exfalso; apply Ht; in_list.
Qed.

(** A valid Incident stays valid in another status, one revision later. *)
Lemma moved_valid i t at_ :
  valid i → Incident.updated_at i ≤ at_ → valid (updated_payload i no_updates t at_).
Proof.
  rewrite !valid_iff. intros (Hn & Hf & Ha) Ht. split_and!.
  - change (updated_payload (Incident.normalize i) no_updates t at_
            = updated_payload i no_updates t at_). by rewrite Hn.
  - unfold Incident.check_fields in *. cbn. run_ok.
    repeat match goal with H : ?x = _ |- context [?x] => rewrite H; cbn end.
    destruct (Z.ltb_spec (Incident.revision i + 1) 0); [|done].
    rewrite Z.ltb_ge in *. lia.
  - unfold Incident.validate_aggregate in *. cbn. run_ok.
    change (Incident.check_uniqueness (updated_payload i no_updates t at_))
      with (Incident.check_uniqueness i).
    change (Incident.check_run_uniqueness (updated_payload i no_updates t at_))
      with (Incident.check_run_uniqueness i).
    repeat match goal with H : ?x = _ |- context [?x] => rewrite H; cbn end.
    change (Incident.check_approval (updated_payload i no_updates t at_))
      with (Incident.check_approval i).
    change (Incident.foreign (updated_payload i no_updates t at_)) with (Incident.foreign i).
    unfold Incident.validate_approval_lifecycles, grouped_by in *.
    destruct (Z.ltb_spec at_ (Incident.created_at i)); [rewrite Z.ltb_ge in *; lia|].
    cbn in *. by repeat match goal with H : ?x = _ |- context [?x] => rewrite H; cbn end.
Qed.

Lemma unguarded_transition i t now wall :
  valid i → t ∈ TRANSITIONS (Incident.status i) → t ∉ GUARDED →
  Incident.updated_at i ≤ now →
  transition_incident i (value t) (Incident.revision i) (Some (Aware now 0))
    (Some (Aware now 0)) no_updates wall wall = Ok (updated_payload i no_updates t now).
Proof.
  intros Hv Ht Hg Hn. unfold transition_incident.
  apply can_transition_spec in Ht.
  rewrite Z.eqb_refl, status_of_value. cbn [negb throw_if mbind result_bind of_option].
  rewrite Ht. cbn [negb throw_if mbind result_bind no_updates u_protected empty_list].
  fold no_updates. rewrite no_updates_accepted. cbn. rewrite Z.sub_0_r.
  destruct (Z.ltb_spec now (Incident.updated_at i)); [lia|]. cbn.
  rewrite (moved_valid i t now Hv Hn). cbn. by rewrite unguarded_accepted.
Qed.

(** C15. No Incident is stuck: at any trusted time that is not before its last
    change, an active Incident can be settled by one transition without any
    updates (closed when it is resolved, failed otherwise), a closed one can be
    reopened, and the result is again a valid Incident with the same
    histories.  A terminal one has no successful transition. *)
Theorem never_stuck i :
  valid i →
  (Incident.status i ∉ SETTLED_STATUSES → ∀ now wall, Incident.updated_at i ≤ now →
   ∃ j, transition_incident i (value (settlement (Incident.status i))) (Incident.revision i)
          (Some (Aware now 0)) (Some (Aware now 0)) no_updates wall wall = Ok j ∧
        valid j ∧ Incident.status j ∈ SETTLED_STATUSES ∧
        Incident.approvals j = Incident.approvals i ∧
        Incident.action_runs j = Incident.action_runs i ∧
        Incident.verification_runs j = Incident.verification_runs i) ∧
  (Incident.status i = CLOSED → ∀ now wall, Incident.updated_at i ≤ now →
   ∃ j, transition_incident i (value REOPENED) (Incident.revision i)
          (Some (Aware now 0)) (Some (Aware now 0)) no_updates wall wall = Ok j ∧ valid j) ∧
  (Incident.status i ∈ TERMINAL_STATUSES → ∀ target rev at_ now u wall wall' j,
   transition_incident i target rev at_ now u wall wall' ≠ Ok j).
Proof.
  intros Hv. split_and!.
  - intros Hs now wall Hn. eexists. split.
    + apply unguarded_transition; [done| | |done];
        destruct (Incident.status i); solve [in_list|exfalso; apply Hs; in_list].
    + split; [by apply moved_valid|]. cbn. split; [|done].
      destruct (Incident.status i); in_list.
  - intros Hs now wall Hn. eexists. split; [|by apply moved_valid].
    apply unguarded_transition; [done| | |done]; rewrite ?Hs; in_list.
  - intros Hs target rev at_ now u wall wall' j H.
    unfold transition_incident in H. run_ok.
    match goal with H : negb (can_transition _ _) = false |- _ =>
      apply negb_false_iff in H; apply can_transition_spec in H; rename H into Ht end.
    destruct (Incident.status i); try (by apply elem_of_nil in Ht);
      revert Hs; apply (bool_decide_unpack _); vm_compute; exact I.
Qed.
End progress.

Lemma never_stuck_witness :
  ∃ j, transition_incident verifying (value (settlement (Incident.status verifying)))
         (Incident.revision verifying) (Some (Aware 70 0)) (Some (Aware 70 0)) no_updates 0 0
       = Ok j ∧ Incident.status j ∈ SETTLED_STATUSES.
Proof.
  destruct (never_stuck verifying) as (H & _ & _); [vm_compute; reflexivity|].
  destruct (H ltac:(in_list) 70 0 ltac:(vm_compute; discriminate)) as (j & Hj & _ & Hs & _).
  exists j. split; [exact Hj|exact Hs].
Defined.
