(* ===== verification/Repository.v ===== *)
(** * The in-memory Incident repository (telco_domain/memory.py)

    [State] holds the four dictionaries of [InMemoryIncidentRepository].  Each
    public method runs under the repository's lock, so an operation is one
    function from a state to a result and a state: the monad [M], whose state
    survives an exception.  [clock] is what [self._clock()] returns.  Detached
    copies ([_clone]) are values here. *)

From Stdlib Require Import Ascii String.
From S2P Require Import Prelude PyStr Json Privacy Models Incident Errors StateMachine Budget.
From S2P Require Import PyEq.

Record IdempotencyRecord := mk_record { fingerprint_of : string; result_of : Incident.t }.

Definition Scope : Type := string * string * string.

Record State := mk_state {
  incidents : gmap string Incident.t;
  idempotency : gmap Scope IdempotencyRecord;
  histories : gmap string (list IncidentAuditEvent.t);
  source_events : gmap (string * string) SourceEventAssociation.t
}.
Definition empty_state : State := mk_state ∅ ∅ ∅ ∅.

Definition put_incident (i : Incident.t) (s : State) : State :=
  mk_state (<[Incident.incident_id i := i]> (incidents s)) (idempotency s) (histories s)
    (source_events s).
Definition put_record (scope : Scope) (r : IdempotencyRecord) (s : State) : State :=
  mk_state (incidents s) (<[scope := r]> (idempotency s)) (histories s) (source_events s).
Definition put_history (id : string) (h : list IncidentAuditEvent.t) (s : State) : State :=
  mk_state (incidents s) (idempotency s) (<[id := h]> (histories s)) (source_events s).
Definition put_association (key : string * string) (a : SourceEventAssociation.t) (s : State) :
    State :=
  mk_state (incidents s) (idempotency s) (histories s) (<[key := a]> (source_events s)).

(** ** The state and error monad *)

Definition M (A : Type) : Type := State → result exc A * State.

#[export] Instance M_ret : MRet M := λ A a s, (Ok a, s).
#[export] Instance M_bind : MBind M := λ A B f m s,
  match m s with
  | (Ok a, s) => f a s
  | (Err e, s) => (Err e, s)
  end.

Definition lift {A} (r : result exc A) : M A := λ s, (r, s).
Definition gets {A} (f : State → A) : M A := λ s, (Ok (f s), s).
Definition modify (f : State → State) : M unit := λ s, (Ok tt, f s).
Fixpoint for_eachM {A} (f : A → M unit) (xs : list A) : M unit :=
  match xs with
  | [] => mret tt
  | x :: xs => f x ≫= λ _, for_eachM f xs
  end.

(** ** Metadata, scopes and fingerprints *)

(** [_require_non_empty(name, value, max_length)]. *)
Definition require_non_empty (name value : string) (max_length : Z) : result exc unit :=
  throw_if (is_blank value) (ValueError (name +:+ " must be a non-empty string")) ≫= λ _,
  throw_if (max_length <? py_len value) (ValueError (name +:+ " is too long")).

(** The keyword arguments of every write. *)
Record Metadata := mk_metadata {
  idempotency_key : string;
  actor : string;
  reason : string;
  trace_id : string
}.

(** The texts of a request are Python strings: UTF-8 here. *)
Definition metadata_texts (m : Metadata) : Prop :=
  utf8 (idempotency_key m) ∧ utf8 (actor m) ∧ utf8 (reason m) ∧ utf8 (trace_id m).
Definition update_texts (u : Updates) : Prop :=
  match u_source_event_ids u with Some ids => Forall utf8 ids | None => True end.

Definition require_write_metadata `{Runtime} (m : Metadata) : result exc unit :=
  require_non_empty "idempotency_key" (idempotency_key m) 256 ≫= λ _,
  require_non_empty "actor" (actor m) 256 ≫= λ _,
  require_non_empty "reason" (reason m) 4096 ≫= λ _,
  require_non_empty "trace_id" (trace_id m) 256 ≫= λ _,
  assert_repository_safe
    (JObj [("actor", JStr (actor m)); ("idempotency_key", JStr (idempotency_key m));
           ("reason", JStr (reason m)); ("trace_id", JStr (trace_id m))])
    "<audit-metadata>" ≫= λ _, Ok tt.

(** [_scope(operation, incident_id, idempotency_key)]. *)
Definition make_scope `{Runtime} (operation incident_id key : string) : result exc Scope :=
  require_non_empty "operation" operation 64 ≫= λ _,
  require_non_empty "incident_id" incident_id 256 ≫= λ _,
  require_non_empty "idempotency_key" key 256 ≫= λ _,
  Ok (lower (py_strip operation), incident_id, key).

(** [_fingerprint(operation, payload)]. *)
Definition fingerprint `{Runtime} (operation : string) (payload : json) : string :=
  sha256_hex (dumps (JObj [("operation", JStr operation); ("payload", payload)])).

Definition create_payload `{Runtime} (i : Incident.t) (m : Metadata) : json :=
  JObj [("actor", JStr (actor m)); ("incident", Incident.to_json i);
        ("reason", JStr (reason m)); ("trace_id", JStr (trace_id m))].

(** ** Lookups under the lock *)

(** [_replay(scope, fingerprint)]. *)
Definition replay (scope : Scope) (fp : string) : M (option Incident.t) :=
  gets (λ s, idempotency s !! scope) ≫= λ found,
  match found with
  | None => mret None
  | Some record =>
      lift (throw_if (negb (bool_decide (fingerprint_of record = fp)))
              (IdempotencyConflictError scope.2)) ≫= λ _,
      mret (Some (result_of record))
  end.

(** [_now()]. *)
Definition now_of (clock : pydatetime) : result exc Z :=
  match clock with
  | Naive _ => Err (ValueError "repository clock must return a timezone-aware datetime")
  | Aware local offset => Ok (local - offset)
  end.

(** [sorted(self._incidents.values(), key=lambda item: item.incident_id)]. *)
Definition id_leb (i j : Incident.t) : bool :=
  String.leb (Incident.incident_id i) (Incident.incident_id j).
Definition sorted_incidents (s : State) : list Incident.t :=
  py_sorted id_leb (map snd (map_to_list (incidents s))).

(** [_associated_source_ids_locked(incident_id)]. *)
Definition associated_source_ids (s : State) (incident_id : string) : gset string :=
  set_map snd (filter (λ key, key.1 = incident_id) (dom (source_events s))).

(** [_source_event_owner_locked(source_event_id)]. *)
Definition owners (s : State) (source_event_id : string) : gset string :=
  set_map fst (filter (λ key, key.2 = source_event_id) (dom (source_events s))).
Definition source_event_owner (s : State) (source_event_id : string) :
    result exc (option string) :=
  throw_if (Nat.ltb 1 (size (owners s source_event_id)))
    (RuntimeError "source-event ownership invariant is corrupted") ≫= λ _,
  Ok (head (elements (owners s source_event_id))).

(** The incidents that [_find_active_locked] collects. *)
Definition active_match (s : State) (correlation_key : option string)
    (source_event_ids : gset string) (exclude : option string) (i : Incident.t) : bool :=
  negb (bool_decide (Some (Incident.incident_id i) = exclude))
  && negb (is_settled (Incident.status i))
  && (isSome correlation_key && bool_decide (Incident.correlation_key i = correlation_key)
      || negb (bool_decide
           (source_event_ids ∩ associated_source_ids s (Incident.incident_id i) = ∅))).

(** [_find_active_locked(...)]. *)
Definition find_active_locked (s : State) (correlation_key : option string)
    (source_event_ids : gset string) (exclude : option string) (requested : string) :
    result exc (option Incident.t) :=
  let matches := List.filter (active_match s correlation_key source_event_ids exclude)
                   (sorted_incidents s) in
  match matches with
  | [] => Ok None
  | [i] => Ok (Some i)
  | _ => Err (IncidentCorrelationConflictError requested (map Incident.incident_id matches))
  end.

(** [_register_source_events_locked(...)]. *)
Definition check_owner (s : State) (incident_id source_event_id : string) : result exc unit :=
  source_event_owner s source_event_id ≫= λ owner,
  match owner with
  | Some o => throw_if (negb (bool_decide (o = incident_id)))
                (SourceEventOwnershipConflictError source_event_id o incident_id)
  | None => Ok tt
  end.

Definition register_one `{Runtime} (incident_id : string) (at_ : Z) (m : Metadata)
    (source_event_id : string) : M unit :=
  let key := (incident_id, source_event_id) in
  gets (λ s, source_events s !! key) ≫= λ found,
  match found with
  | Some _ => mret tt
  | None =>
      lift (validated (SourceEventAssociation.make
        (SourceEventAssociation.mk incident_id source_event_id at_ (actor m) (reason m)
           (idempotency_key m) (trace_id m)))) ≫= λ association,
      lift (assert_repository_safe (SourceEventAssociation.to_json association) incident_id)
        ≫= λ _,
      modify (put_association key association)
  end.

Definition register_source_events `{Runtime} (incident_id : string) (ids : list string)
    (at_ : Z) (m : Metadata) : M unit :=
  let incoming : gset string := list_to_set ids in
  let ordered := py_sorted String.leb (elements incoming) in
  gets (λ s, associated_source_ids s incident_id) ≫= λ existing,
  lift (throw_if (MAX_INCIDENT_SOURCE_EVENTS <? Z.of_nat (size (existing ∪ incoming)))
          (ValueError "incident source-event association capacity exceeded 1000")) ≫= λ _,
  gets (λ s, for_each (check_owner s incident_id) ordered) ≫= λ checked,
  lift checked ≫= λ _,
  for_eachM (register_one incident_id at_ m) ordered.

(** ** Commits *)

(** [_validate_new_incident(incident, trace_id, trusted_now)]. *)
Definition with_times (i : Incident.t) (created updated : Z) : Incident.t :=
  Incident.mk (Incident.incident_id i) (Incident.correlation_key i)
    (Incident.source_event_ids i) (Incident.technology i) (Incident.vendor_profile i)
    (Incident.status i) (Incident.severity i) (Incident.title i) (Incident.description i)
    (Incident.affected_resources i) (Incident.detected_at i) (Incident.window_start i)
    (Incident.window_end i) (Incident.violated_kpis i) (Incident.evidence_refs i)
    (Incident.hypotheses i) (Incident.root_cause i) (Incident.rca_reports i)
    (Incident.recommendations i) (Incident.approvals i) (Incident.action_runs i)
    (Incident.verification_runs i) (Incident.model_metadata i) (Incident.rule_versions i)
    (Incident.trace_id i) (Incident.duplicate_of i) created updated (Incident.revision i).

Definition validate_new_incident `{Runtime} (i : Incident.t) (trace : string) (now : Z) :
    result exc Incident.t :=
  throw_if (negb (Incident.revision i =? 0))
    (ValueError "a newly created incident must have revision 0") ≫= λ _,
  throw_if (negb (bool_decide (Incident.status i = IncidentStatus.DETECTED)))
    (ValueError "a newly created incident must have DETECTED status") ≫= λ _,
  throw_if (negb (bool_decide (Incident.trace_id i = trace)))
    (ValueError "trace_id must match incident.trace_id") ≫= λ _,
  validated (Incident.model_validate (with_times i now now)) ≫= λ committed,
  assert_repository_safe (Incident.to_json committed) (Incident.incident_id i) ≫= λ _,
  Ok committed.

(** [_audit_event(...)]. *)
Definition nul : string := String "000"%char EmptyString.
Definition audit_event `{Runtime} (i : Incident.t) (from_status : option IncidentStatus.t)
    (m : Metadata) (fp : string) (occurred_at : Z) : result exc IncidentAuditEvent.t :=
  let digest := sha256_hex (Incident.incident_id i +:+ nul +:+ idempotency_key m +:+ nul
                            +:+ fp) in
  validated (IncidentAuditEvent.make (IncidentAuditEvent.mk
    ("audit-" +:+ String.substring 0 32 digest) (Incident.incident_id i) from_status
    (Incident.status i) (Incident.revision i) occurred_at (actor m) (reason m)
    (idempotency_key m) (trace_id m))).

(** [_commit_create_locked(...)]. *)
Definition commit_create `{Runtime} (i : Incident.t) (scope : Scope) (fp : string)
    (m : Metadata) (at_ : Z) : M unit :=
  lift (audit_event i None m fp at_) ≫= λ event,
  register_source_events (Incident.incident_id i) (Incident.source_event_ids i) at_ m ≫= λ _,
  modify (put_incident i) ≫= λ _,
  modify (put_record scope (mk_record fp i)) ≫= λ _,
  modify (put_history (Incident.incident_id i) [event]).

(** [_commit_transition_locked(...)]. *)
Definition commit_transition `{Runtime} (current successor : Incident.t) (scope : Scope)
    (fp : string) (m : Metadata) (at_ : Z) : M unit :=
  lift (audit_event successor (Some (Incident.status current)) m fp at_) ≫= λ event,
  register_source_events (Incident.incident_id successor)
    (Incident.source_event_ids successor) at_ m ≫= λ _,
  modify (put_incident successor) ≫= λ _,
  modify (put_record scope (mk_record fp successor)) ≫= λ _,
  modify (λ s, put_history (Incident.incident_id successor)
    (default [] (histories s !! Incident.incident_id successor) ++ [event]) s).

(** [_require_reactivation_keys_locked(current, successor)]. *)
Definition require_reactivation_keys (current successor : Incident.t) : M unit :=
  if negb (is_settled (Incident.status current)) || is_settled (Incident.status successor)
  then mret tt
  else
    gets (λ s, find_active_locked s (Incident.correlation_key successor)
      (associated_source_ids s (Incident.incident_id successor))
      (Some (Incident.incident_id successor)) (Incident.incident_id successor)) ≫= λ found,
    lift found ≫= λ active,
    match active with
    | Some i => lift (Err (ActiveIncidentConflictError (Incident.incident_id successor)
                             (Incident.incident_id i)))
    | None => mret tt
    end.

(** ** Writes *)

(** [create(...)]. *)
Definition create `{Runtime} (i : Incident.t) (m : Metadata) (clock : pydatetime) :
    M Incident.t :=
  lift (require_write_metadata m) ≫= λ _,
  lift (assert_repository_safe (Incident.to_json i) (Incident.incident_id i)) ≫= λ _,
  lift (make_scope "create" (Incident.incident_id i) (idempotency_key m)) ≫= λ scope,
  let fp := fingerprint "create" (create_payload i m) in
  replay scope fp ≫= λ replayed,
  match replayed with
  | Some result => mret result
  | None =>
      gets (λ s, isSome (incidents s !! Incident.incident_id i)) ≫= λ exists_,
      lift (throw_if exists_ (IncidentAlreadyExistsError (Incident.incident_id i))) ≫= λ _,
      lift (now_of clock) ≫= λ trusted_now,
      lift (validate_new_incident i (trace_id m) trusted_now) ≫= λ committed,
      gets (λ s, find_active_locked s (Incident.correlation_key committed)
                   (list_to_set (Incident.source_event_ids committed)) None
                   (Incident.incident_id committed)) ≫= λ found,
      lift found ≫= λ active,
      lift (match active with
            | Some a => Err (ActiveIncidentConflictError (Incident.incident_id committed)
                               (Incident.incident_id a))
            | None => Ok tt
            end) ≫= λ _,
      commit_create committed scope fp m trusted_now ≫= λ _,
      mret committed
  end.

(** [create_or_correlate(...)]. *)
Definition create_or_correlate `{Runtime} (i : Incident.t) (m : Metadata) (clock : pydatetime) :
    M Incident.t :=
  lift (require_write_metadata m) ≫= λ _,
  lift (assert_repository_safe (Incident.to_json i) (Incident.incident_id i)) ≫= λ _,
  lift (make_scope "create_or_correlate" (Incident.incident_id i) (idempotency_key m))
    ≫= λ scope,
  let fp := fingerprint "create_or_correlate" (create_payload i m) in
  replay scope fp ≫= λ replayed,
  match replayed with
  | Some result => mret result
  | None =>
      lift (now_of clock) ≫= λ trusted_now,
      lift (validate_new_incident i (trace_id m) trusted_now) ≫= λ candidate,
      gets (λ s, find_active_locked s (Incident.correlation_key candidate)
                   (list_to_set (Incident.source_event_ids candidate)) None
                   (Incident.incident_id candidate)) ≫= λ found,
      lift found ≫= λ existing,
      match existing with
      | Some existing =>
          register_source_events (Incident.incident_id existing)
            (Incident.source_event_ids candidate) trusted_now m ≫= λ _,
          modify (put_record scope (mk_record fp existing)) ≫= λ _,
          mret existing
      | None =>
          gets (λ s, isSome (incidents s !! Incident.incident_id candidate)) ≫= λ exists_,
          lift (throw_if exists_ (IncidentAlreadyExistsError (Incident.incident_id candidate)))
            ≫= λ _,
          commit_create candidate scope fp m trusted_now ≫= λ _,
          mret candidate
      end
  end.

(** The JSON of an update mapping; [iso] writes the two window instants. *)
Definition updates_json `{Runtime} (iso : Z → string) (u : Updates) : json :=
  let field {A} (name : string) (f : A → json) (o : option A) : list (string * json) :=
    match o with Some a => [(name, f a)] | None => [] end in
  JObj (dict_of_items
    (field "source_event_ids" (json_list JStr) (u_source_event_ids u)
     ++ field "vendor_profile" (json_opt JStr) (u_vendor_profile u)
     ++ field "severity" (JStr ∘ IncidentSeverity.value) (u_severity u)
     ++ field "title" JStr (u_title u)
     ++ field "description" JStr (u_description u)
     ++ field "affected_resources" (json_list ResourceReference.to_json) (u_affected_resources u)
     ++ field "window_start" (json_opt (JStr ∘ iso)) (u_window_start u)
     ++ field "window_end" (json_opt (JStr ∘ iso)) (u_window_end u)
     ++ field "violated_kpis" (json_list KpiViolation.to_json) (u_violated_kpis u)
     ++ field "evidence_refs" (json_list EvidenceReference.to_json) (u_evidence_refs u)
     ++ field "hypotheses" (json_list JStr) (u_hypotheses u)
     ++ field "root_cause" (json_opt JStr) (u_root_cause u)
     ++ field "rca_reports" (json_list RcaReport.to_json) (u_rca_reports u)
     ++ field "recommendations" (json_list RemediationAction.to_json) (u_recommendations u)
     ++ field "approvals" (json_list ApprovalDecision.to_json) (u_approvals u)
     ++ field "action_runs" (json_list ActionRun.to_json) (u_action_runs u)
     ++ field "verification_runs" (json_list VerificationRun.to_json) (u_verification_runs u)
     ++ field "model_metadata" (json_of_map id) (u_model_metadata u)
     ++ field "rule_versions" (json_of_map JStr) (u_rule_versions u)
     ++ field "duplicate_of" (json_opt JStr) (u_duplicate_of u)
     ++ u_protected u ++ u_unknown u)).

(** In a dump of [mode="python"] every instant is a [datetime], which
    [_json_safe] writes with [isoformat()]. *)
Definition python_mode (R : Runtime) : Runtime := {|
  sha256_hex := @sha256_hex R;
  float_repr := @float_repr R;
  iso_utc := @isoformat R;
  isoformat := @isoformat R;
  strip := @strip R;
  lower := @lower R;
  word_non_ascii := @word_non_ascii R
|}.

(** The part of [save], [compare_and_swap] and [transition] after the
    successor is known. *)
Definition commit_successor `{Runtime} (current successor : Incident.t) (scope : Scope)
    (fp : string) (m : Metadata) (at_ : Z) : M Incident.t :=
  lift (assert_repository_safe (Incident.to_json successor) (Incident.incident_id current))
    ≫= λ _,
  require_reactivation_keys current successor ≫= λ _,
  commit_transition current successor scope fp m at_ ≫= λ _,
  mret successor.

(** [_require_current_locked], [_require_trace]. *)
Definition require_current (incident_id : string) : M Incident.t :=
  gets (λ s, incidents s !! incident_id) ≫= λ found,
  lift (of_option found (IncidentNotFoundError incident_id)).
Definition require_trace (i : Incident.t) (trace : string) : result exc unit :=
  throw_if (negb (bool_decide (Incident.trace_id i = trace)))
    (ValueError "trace_id must match the persisted incident trace_id").

Definition transition_payload `{Runtime} (target_status : string) (expected_revision : Z)
    (u : Updates) (m : Metadata) : json :=
  JObj [("actor", JStr (actor m)); ("expected_revision", JInt expected_revision);
        ("reason", JStr (reason m)); ("target_status", JStr target_status);
        ("trace_id", JStr (trace_id m)); ("updates", updates_json isoformat u)].

(** [transition(...)]. *)
Definition transition `{Runtime} (incident_id target_status : string) (expected_revision : Z)
    (m : Metadata) (u : Updates) (clock : pydatetime) : M Incident.t :=
  lift (require_write_metadata m) ≫= λ _,
  lift (throw_if (expected_revision <? 0)
          (ValueError "expected_revision must not be negative")) ≫= λ _,
  lift (assert_repository_safe (updates_json isoformat u) incident_id) ≫= λ _,
  lift (make_scope "transition" incident_id (idempotency_key m)) ≫= λ scope,
  let fp := fingerprint "transition" (transition_payload target_status expected_revision u m) in
  replay scope fp ≫= λ replayed,
  match replayed with
  | Some result => mret result
  | None =>
      require_current incident_id ≫= λ current,
      lift (throw_if (negb (Incident.revision current =? expected_revision))
        (RevisionConflictError incident_id expected_revision (Incident.revision current) None))
        ≫= λ _,
      lift (require_trace current (trace_id m)) ≫= λ _,
      lift (now_of clock) ≫= λ trusted_now,
      lift (transition_incident current target_status expected_revision
              (Some (Aware trusted_now 0)) (Some (Aware trusted_now 0)) u trusted_now trusted_now)
        ≫= λ successor,
      commit_successor current successor scope fp m trusted_now
  end.

(** The updates that [save] derives: every field it may change that differs,
    as dumped. *)
Definition changed {A} `{PyEq A} (f : Incident.t → A) (current candidate : Incident.t) :
    option A :=
  if py_eqb (f candidate) (f current) then None else Some (f candidate).
Definition derived_updates (current candidate : Incident.t) : Updates :=
  mk_updates
    (changed Incident.source_event_ids current candidate)
    (changed Incident.vendor_profile current candidate)
    (changed Incident.severity current candidate)
    (changed Incident.title current candidate)
    (changed Incident.description current candidate)
    (changed Incident.affected_resources current candidate)
    (changed Incident.window_start current candidate)
    (changed Incident.window_end current candidate)
    (changed Incident.violated_kpis current candidate)
    (changed Incident.evidence_refs current candidate)
    (changed Incident.hypotheses current candidate)
    (changed Incident.root_cause current candidate)
    (changed Incident.rca_reports current candidate)
    (changed Incident.recommendations current candidate)
    (changed Incident.approvals current candidate)
    (changed Incident.action_runs current candidate)
    (changed Incident.verification_runs current candidate)
    (changed Incident.model_metadata current candidate)
    (changed Incident.rule_versions current candidate)
    (changed Incident.duplicate_of current candidate)
    [] [] true.

Definition save_payload `{Runtime} (i : Incident.t) (expected_revision : Z) (m : Metadata) :
    json :=
  JObj [("actor", JStr (actor m)); ("expected_revision", JInt expected_revision);
        ("incident", Incident.to_json i); ("reason", JStr (reason m));
        ("trace_id", JStr (trace_id m))].

(** [save(...)]; [compare_and_swap] is another name for it. *)
Definition save `{R : Runtime} (i : Incident.t) (expected_revision : Z) (m : Metadata)
    (clock : pydatetime) : M Incident.t :=
  lift (require_write_metadata m) ≫= λ _,
  lift (assert_repository_safe (Incident.to_json i) (Incident.incident_id i)) ≫= λ _,
  lift (throw_if (expected_revision <? 0)
          (ValueError "expected_revision must not be negative")) ≫= λ _,
  lift (make_scope "save" (Incident.incident_id i) (idempotency_key m)) ≫= λ scope,
  let fp := fingerprint "save" (save_payload i expected_revision m) in
  replay scope fp ≫= λ replayed,
  match replayed with
  | Some result => mret result
  | None =>
      require_current (Incident.incident_id i) ≫= λ current,
      lift (throw_if (negb (Incident.revision current =? expected_revision)
                      || negb (Incident.revision i =? expected_revision + 1))
        (RevisionConflictError (Incident.incident_id i) expected_revision
           (Incident.revision current) (Some (Incident.revision i)))) ≫= λ _,
      lift (require_trace current (trace_id m)) ≫= λ _,
      lift (validated (Incident.model_validate i)) ≫= λ candidate,
      let updates := derived_updates current candidate in
      lift (assert_repository_safe (@updates_json (python_mode R) isoformat updates)
              (Incident.incident_id i)) ≫= λ _,
      lift (now_of clock) ≫= λ trusted_now,
      lift (transition_incident current (IncidentStatus.value (Incident.status candidate))
              expected_revision (Some (Aware trusted_now 0)) (Some (Aware trusted_now 0)) updates
              trusted_now trusted_now) ≫= λ successor,
      lift (throw_if (negb (py_eqb (with_times successor (Incident.created_at successor) 0)
                              (with_times candidate (Incident.created_at candidate) 0)))
        (UnsafeIncidentWriteError (Incident.incident_id i)
           "candidate is not the exact output of the domain state machine")) ≫= λ _,
      commit_successor current successor scope fp m trusted_now
  end.
Definition compare_and_swap `{Runtime} := save.

(** ** The migration import *)

(** The loop that normalizes the associations within the batch budget. *)
Fixpoint normalize_associations `{Runtime} (incident_id : string) (total : Z)
    (items : list SourceEventAssociation.t) : result exc (list SourceEventAssociation.t) :=
  match items with
  | [] => Ok []
  | item :: items =>
      validated (SourceEventAssociation.make item) ≫= λ normalized,
      assert_repository_safe (SourceEventAssociation.to_json normalized) incident_id ≫= λ _,
      let total := total + encoded_length (SourceEventAssociation.to_json normalized) + 1 in
      throw_if (MAX_REPOSITORY_BATCH_BYTES <? total)
        (UnsafeIncidentWriteError incident_id
           "cumulative serialized payload exceeds repository batch budget") ≫= λ _,
      normalize_associations incident_id total items ≫= λ rest,
      Ok (normalized :: rest)
  end.

Record ImportResult := mk_import { imported : Incident.t; replayed : bool }.

(** The checks before the lock. *)
Definition import_request `{Runtime} (i : Incident.t)
    (associations : list SourceEventAssociation.t) (m : Metadata) :
    result exc (Incident.t * list SourceEventAssociation.t) :=
  require_write_metadata m ≫= λ _,
  validated (Incident.model_validate i) ≫= λ candidate,
  throw_if (negb (bool_decide (Incident.status candidate = IncidentStatus.DETECTED))
            || negb (Incident.revision candidate =? 0))
    (ValueError "migration accepts only DETECTED revision-0 incidents") ≫= λ _,
  throw_if (negb (bool_decide (Incident.trace_id candidate = trace_id m)))
    (ValueError "trace_id must match the imported incident") ≫= λ _,
  assert_repository_safe (Incident.to_json candidate) (Incident.incident_id candidate) ≫= λ _,
  throw_if (MAX_INCIDENT_SOURCE_EVENTS <? Z.of_nat (length associations))
    (ValueError "migration source association capacity exceeded") ≫= λ _,
  normalize_associations (Incident.incident_id candidate) 0 associations ≫= λ normalized,
  let ids := map SourceEventAssociation.source_event_id normalized in
  throw_if (has_duplicates ids)
    (ValueError "migration source associations must be unique") ≫= λ _,
  throw_if (negb (bool_decide ((list_to_set (Incident.source_event_ids candidate) : gset string)
                               ⊆ list_to_set ids)))
    (ValueError "migration source provenance is incomplete") ≫= λ _,
  throw_if (existsb (λ a, negb (bool_decide (SourceEventAssociation.incident_id a
                                             = Incident.incident_id candidate))) normalized)
    (ValueError "migration source association binding mismatch") ≫= λ _,
  Ok (candidate, normalized).

Definition association_key (a : SourceEventAssociation.t) : string * string :=
  (SourceEventAssociation.incident_id a, SourceEventAssociation.source_event_id a).

(** The audit event of the import. *)
Definition import_audit_matches (m : Metadata) (audit : option IncidentAuditEvent.t) : bool :=
  match audit with
  | None => false
  | Some e =>
      isNone (IncidentAuditEvent.from_status e)
      && bool_decide (IncidentAuditEvent.to_status e = IncidentStatus.DETECTED)
      && bool_decide (IncidentAuditEvent.idempotency_key e = idempotency_key m)
      && bool_decide (IncidentAuditEvent.actor e = actor m)
      && bool_decide (IncidentAuditEvent.reason e = reason m)
      && bool_decide (IncidentAuditEvent.trace_id e = trace_id m)
  end.

(** The consistency checks of a replayed import. *)
Definition check_replayed_import (s : State) (candidate replay : Incident.t)
    (associations : list SourceEventAssociation.t) (m : Metadata) : result exc unit :=
  let id := Incident.incident_id candidate in
  let ids := map SourceEventAssociation.source_event_id associations in
  throw_if (negb (py_eqb replay candidate))
    (IncidentRepositoryError "persisted migration replay snapshot is inconsistent") ≫= λ _,
  of_option (incidents s !! id)
    (IncidentRepositoryError "persisted migration Incident is missing") ≫= λ current,
  for_each (λ a, throw_if (negb (bool_decide (source_events s !! association_key a = Some a)))
      (IncidentRepositoryError "persisted migration source provenance is inconsistent"))
    associations ≫= λ _,
  throw_if (negb (import_audit_matches m
      (next_such (λ e, IncidentAuditEvent.revision e =? 0) (default [] (histories s !! id)))))
    (IncidentRepositoryError "persisted migration audit is inconsistent") ≫= λ _,
  if negb (is_settled (Incident.status current))
     && (isSome (Incident.correlation_key candidate) || negb (empty_list ids))
  then
    find_active_locked s (Incident.correlation_key candidate) (list_to_set ids) None id
      ≫= λ active,
    throw_if (negb (bool_decide (Incident.incident_id <$> active = Some id)))
      (IncidentRepositoryError "persisted migration active keys are inconsistent")
  else Ok tt.

(** [import_detected_snapshot(...)]. *)
Definition import_detected_snapshot `{Runtime} (i : Incident.t)
    (associations : list SourceEventAssociation.t) (m : Metadata) (clock : pydatetime) :
    M ImportResult :=
  lift (import_request i associations m) ≫= λ request,
  let candidate := request.1 in
  let normalized := request.2 in
  let id := Incident.incident_id candidate in
  let ids := map SourceEventAssociation.source_event_id normalized in
  lift (make_scope "import_detected_snapshot" id (idempotency_key m)) ≫= λ scope,
  let fp := fingerprint "import_detected_snapshot"
    (JObj [("actor", JStr (actor m));
           ("associations", json_list SourceEventAssociation.to_json normalized);
           ("incident", Incident.to_json candidate); ("reason", JStr (reason m));
           ("trace_id", JStr (trace_id m))]) in
  replay scope fp ≫= λ replayed,
  match replayed with
  | Some result =>
      gets (λ s, check_replayed_import s candidate result normalized m) ≫= λ checked,
      lift checked ≫= λ _,
      mret (mk_import result true)
  | None =>
      gets (λ s, isSome (incidents s !! id)) ≫= λ exists_,
      lift (throw_if exists_ (IncidentAlreadyExistsError id)) ≫= λ _,
      gets (λ s, for_each (check_owner s id) ids) ≫= λ owned,
      lift owned ≫= λ _,
      gets (λ s, find_active_locked s (Incident.correlation_key candidate) (list_to_set ids)
                   None id) ≫= λ found,
      lift found ≫= λ active,
      lift (match active with
            | Some a => Err (ActiveIncidentConflictError id (Incident.incident_id a))
            | None => Ok tt
            end) ≫= λ _,
      lift (now_of clock) ≫= λ trusted_now,
      lift (audit_event candidate None m fp trusted_now) ≫= λ event,
      for_eachM (λ a, modify (put_association (association_key a) a)) normalized ≫= λ _,
      modify (put_incident candidate) ≫= λ _,
      modify (put_record scope (mk_record fp candidate)) ≫= λ _,
      modify (put_history id [event]) ≫= λ _,
      mret (mk_import candidate false)
  end.

(** ** Reads *)

(** [get(incident_id)]. *)
Definition get (incident_id : string) : M (option Incident.t) :=
  gets (λ s, incidents s !! incident_id).

(** [find_by_idempotency_key(incident_id, idempotency_key, operation)]. *)
Definition find_by_idempotency_key `{Runtime} (incident_id key operation : string) :
    M (option Incident.t) :=
  lift (make_scope operation incident_id key) ≫= λ scope,
  gets (λ s, result_of <$> idempotency s !! scope).

(** [find_active(correlation_key, source_event_id)]. *)
Definition find_active (correlation_key source_event_id : option string) :
    M (option Incident.t) :=
  lift (throw_if (isNone correlation_key && isNone source_event_id)
          (ValueError "correlation_key or source_event_id is required")) ≫= λ _,
  let source_ids : gset string :=
    match source_event_id with Some id => {[id]} | None => ∅ end in
  gets (λ s, find_active_locked s correlation_key source_ids None "<lookup>") ≫= λ found,
  lift found.

Definition require_page (limit offset : Z) : result exc unit :=
  throw_if ((limit <? 1) || (MAX_REPOSITORY_PAGE_SIZE <? limit))
    (ValueError "limit must be between 1 and 1000") ≫= λ _,
  throw_if ((offset <? 0) || (MAX_REPOSITORY_OFFSET <? offset))
    (ValueError "offset must be between 0 and 100000").

(** [values[offset : offset + limit]] of nonnegative numbers. *)
Definition slice {A} (offset limit : Z) (values : list A) : list A :=
  take (Z.to_nat limit) (drop (Z.to_nat offset) values).

(** [list(status, limit, offset)]. *)
Definition list_incidents `{Runtime} (status : option IncidentStatus.t) (limit offset : Z) :
    M (list Incident.t) :=
  lift (require_page limit offset) ≫= λ _,
  gets (λ s, match status with
             | Some st => List.filter (λ i, bool_decide (Incident.status i = st))
                            (sorted_incidents s)
             | None => sorted_incidents s
             end) ≫= λ found,
  lift (bounded_page Incident.to_json (slice offset limit found)).

(** [history(incident_id, limit, offset)]. *)
Definition history `{Runtime} (incident_id : string) (limit : option Z) (offset : Z) :
    M (list IncidentAuditEvent.t) :=
  lift (require_non_empty "incident_id" incident_id 256) ≫= λ _,
  lift (throw_if (match limit with
                  | Some l => (l <? 1) || (MAX_REPOSITORY_PAGE_SIZE <? l)
                  | None => false end)
          (ValueError "limit must be between 1 and 1000")) ≫= λ _,
  lift (throw_if ((offset <? 0) || (MAX_REPOSITORY_OFFSET <? offset))
          (ValueError "offset must be between 0 and 100000")) ≫= λ _,
  lift (throw_if (isNone limit && negb (offset =? 0))
          (ValueError "offset requires an explicit limit")) ≫= λ _,
  gets (λ s, default [] (histories s !! incident_id)) ≫= λ events,
  lift (bounded_page IncidentAuditEvent.to_json
          (match limit with
           | Some l => slice offset l events
           | None => drop (Z.to_nat offset) events
           end)).

(** [source_event_associations(incident_id, limit, offset)]. *)
Definition association_leb (a b : SourceEventAssociation.t) : bool :=
  String.leb (SourceEventAssociation.source_event_id a)
    (SourceEventAssociation.source_event_id b).
Definition source_event_associations `{Runtime} (incident_id : string) (limit offset : Z) :
    M (list SourceEventAssociation.t) :=
  lift (require_non_empty "incident_id" incident_id 256) ≫= λ _,
  lift (require_page limit offset) ≫= λ _,
  gets (λ s, py_sorted association_leb
    (map snd (List.filter (λ entry, bool_decide (entry.1.1 = incident_id))
                (map_to_list (source_events s))))) ≫= λ found,
  lift (bounded_page SourceEventAssociation.to_json (slice offset limit found)).
