(* ===== verification/Registration.v ===== *)
(** * Source-event registration

    What [register_source_events] does to the state.  Registration is all or
    nothing: the two loops of the code check every owner first, and an
    association that could be built for one source event can be built for
    every other, so an error leaves the state as it was. *)

From Stdlib Require Import Ascii String.
From S2P Require Import Prelude PyStr Json Privacy Models Incident Errors StateMachine.
From S2P Require Import PyEq.
From S2P Require Import Budget Repository.

(** The associations of a state, by Incident and source event. *)
Notation Sources := (gmap (string * string) SourceEventAssociation.t) (only parsing).

(** ** Running the monad *)

Section running.
Context {A B : Type}.

Lemma lift_bind (r : result exc A) (f : A → M B) s :
  (lift r ≫= f) s = match r with Ok a => f a s | Err e => (Err e, s) end.
Proof. by destruct r. Qed.
Lemma gets_bind (g : State → A) (f : A → M B) s : (gets g ≫= f) s = f (g s) s.
Proof. done. Qed.
Lemma modify_bind (g : State → State) (f : unit → M B) s : (modify g ≫= f) s = f tt (g s).
Proof. done. Qed.
Lemma ret_bind (a : A) (f : A → M B) s : (mret a ≫= f) s = f a s.
Proof. done. Qed.
End running.

(** [run_in H] runs the next step of the program in the hypothesis [H]. *)
Ltac run_in H :=
  rewrite ?gets_bind, ?modify_bind, ?ret_bind in H; cbn beta zeta in H;
  lazymatch type of H with
  | (lift (Ok _) ≫= _) _ = _ => rewrite lift_bind in H; cbn beta iota in H
  | (lift (Err _) ≫= _) _ = _ => rewrite lift_bind in H; injection H as <- <-
  | (lift ?r ≫= _) _ = _ =>
      rewrite lift_bind in H; destruct r eqn:?; [|injection H as <- <-]
  | (mret _) _ = _ => injection H as <- <-
  | _ => idtac
  end.

Lemma bind_run {A B} (m : M A) (f : A → M B) s r s' :
  (m ≫= f) s = (r, s') →
  (∃ a s1, m s = (Ok a, s1) ∧ f a s1 = (r, s')) ∨ (∃ e, m s = (Err e, s') ∧ r = Err e).
Proof.
  unfold mbind, M_bind. destruct (m s) as [[a|e] s1] eqn:E; intros H; [left|right].
  - by exists a, s1.
  - injection H as <- <-. by exists e.
Qed.

(** [ok_in H] and [step_ok H] run a step of a program that has returned. *)
Ltac ok_in H :=
  rewrite ?gets_bind, ?modify_bind, ?ret_bind in H; cbn beta zeta in H;
  lazymatch type of H with
  | (lift ?r ≫= _) _ = _ => rewrite lift_bind in H; destruct r eqn:?; [|discriminate H]
  end.
Ltac step_ok H :=
  let s1 := fresh "s" in
  apply bind_run in H as [(? & s1 & ? & H)|(? & ? & [=])].

(** ** Lengths of encoded texts *)

Lemma escape_char_length c tail :
  (String.length (escape_char c tail) ≤ 6 + String.length tail)%nat.
Proof.
  unfold escape_char. repeat case_bool_decide; cbn; try lia.
  destruct (byte_of c <? 32)%N; cbn; lia.
Qed.

Lemma escape_length s tail :
  (String.length (escape s tail) ≤ 6 * String.length s + String.length tail)%nat.
Proof.
  induction s as [|c s IH]; cbn [escape String.length]; [lia|].
  pose proof (escape_char_length c (escape s tail)). lia.
Qed.

Lemma quoted_length s tail :
  (String.length (quoted s tail) ≤ 6 * String.length s + 2 + String.length tail)%nat.
Proof.
  unfold quoted. cbn [String.length].
  pose proof (escape_length s (String quote_mark tail)) as H. cbn [String.length] in H. lia.
Qed.

(** ** One association *)

Section registration.
Context `{R : Runtime, L : !RuntimeLaws R}.

(** The association [register_one] builds for a source event. *)
Definition association_of (incident_id : string) (at_ : Z) (m : Metadata) (sid : string) :
    SourceEventAssociation.t :=
  SourceEventAssociation.mk incident_id sid at_ (actor m) (reason m) (idempotency_key m)
    (trace_id m).
Definition build (incident_id : string) (at_ : Z) (m : Metadata) (sid : string) :
    result exc SourceEventAssociation.t :=
  validated (SourceEventAssociation.make (association_of incident_id at_ m sid)) ≫= λ a,
  assert_repository_safe (SourceEventAssociation.to_json a) incident_id ≫= λ _, Ok a.

Lemma register_one_run id at_ m sid s :
  register_one id at_ m sid s =
  match source_events s !! (id, sid) with
  | Some _ => (Ok tt, s)
  | None => match build id at_ m sid with
            | Ok a => (Ok tt, put_association (id, sid) a s)
            | Err e => (Err e, s)
            end
  end.
Proof.
  unfold register_one, build. rewrite gets_bind.
  destruct (source_events s !! (id, sid)); [done|].
  rewrite lift_bind. destruct (validated _); [|done]. cbn.
  by destruct (assert_repository_safe _ _).
Qed.

(** A text of at most [n] characters, and one an association may carry. *)
Definition short_text (n : Z) (s : string) : Prop := utf8 s ∧ py_len s ≤ n.
Definition good_source (sid : string) : Prop :=
  strip sid = sid ∧ identifier sid = true ∧ utf8 sid ∧ has_labeled_identifier sid = false.

Lemma identifier_length s : utf8 s → identifier s = true → (String.length s ≤ 1024)%nat.
Proof.
  unfold identifier. intros Hu [_ Hl%Z.leb_le]%andb_true_iff.
  pose proof (utf8_length s 256 Hu Hl). lia.
Qed.
Lemma nonempty_length s : utf8 s → nonempty_str s = true → (String.length s ≤ 4096)%nat.
Proof.
  unfold nonempty_str. intros Hu [_ Hl%Z.leb_le]%andb_true_iff.
  pose proof (utf8_length s 1024 Hu Hl). lia.
Qed.

(** An object whose values are texts. *)
Definition text_object (l : list (string * string)) : json :=
  JObj (map (λ kv, (kv.1, JStr kv.2)) l).
Fixpoint text_size (l : list (string * string)) : nat :=
  match l with
  | [] => 0
  | kv :: l => 6 * String.length kv.1 + 6 * String.length kv.2 + 6 + text_size l
  end.

Lemma fields_onto_length l :
  (String.length (fields_onto (map (λ kv, (kv.1, JStr kv.2)) l) EmptyString)
   ≤ text_size l + 1)%nat.
Proof.
  induction l as [|[k v] l IH]; [done|].
  cbn [map fields_onto fold_right fst snd text_size dumps_onto] in *.
  fold (fields_onto (map (λ kv : string * string, (kv.1, JStr kv.2)) l) EmptyString) in *.
  set (rest := fields_onto _ _) in *. cbn [String.length].
  pose proof (quoted_length k (String ":" (quoted v rest))) as H1.
  pose proof (quoted_length v rest) as H2. cbn [String.length] in H1. lia.
Qed.

Lemma text_object_length l :
  keys_ordered l = true →
  (String.length (dumps (text_object l)) ≤ text_size l + 2)%nat.
Proof.
  intros Hl. unfold dumps, text_object. rewrite dumps_obj by (by rewrite (keys_ordered_map JStr)).
  destruct l as [|[k v] l]; [done|].
  cbn [map fst snd text_size dumps_onto String.length].
  pose proof (fields_onto_length l) as H0.
  set (rest := fields_onto _ _) in *.
  pose proof (quoted_length k (String ":" (quoted v rest))) as H1.
  pose proof (quoted_length v rest) as H2. cbn [String.length] in H1. lia.
Qed.

Lemma text_object_free l :
  identifier_free (text_object l) ↔
  Forall (λ kv, has_labeled_identifier kv.1 = false ∧
    (is_sensitive_key kv.1 = true → kv.2 = EmptyString) ∧ has_labeled_identifier kv.2 = false) l.
Proof.
  unfold text_object. split.
  - intros H. inversion H as [| | | | | |l' Hf]; subst. rewrite Forall_map in Hf.
    eapply Forall_impl; [exact Hf|]. intros [k v]. cbn. rewrite bool_decide_eq_true.
    intros (? & ? & Hv). inversion Hv. done.
  - intros H. constructor. rewrite Forall_map. eapply Forall_impl; [exact H|].
    intros [k v]. cbn. rewrite bool_decide_eq_true. intros (? & ? & ?). split_and!; [done..|].
    by constructor.
Qed.

(** The same association, for another source event. *)
Definition association_texts (a : SourceEventAssociation.t) : list (string * string) :=
  [ ("actor", SourceEventAssociation.actor a);
    ("idempotency_key", SourceEventAssociation.idempotency_key a);
    ("incident_id", SourceEventAssociation.incident_id a);
    ("reason", SourceEventAssociation.reason a);
    ("registered_at", iso_utc (SourceEventAssociation.registered_at a));
    ("schema_version", SCHEMA_VERSION);
    ("source_event_id", SourceEventAssociation.source_event_id a);
    ("trace_id", SourceEventAssociation.trace_id a) ]%string.

Lemma association_json a :
  SourceEventAssociation.to_json a = text_object (association_texts a).
Proof. done. Qed.

Definition association_utf8 (a : SourceEventAssociation.t) : Prop :=
  utf8 (SourceEventAssociation.actor a) ∧ utf8 (SourceEventAssociation.idempotency_key a) ∧
  utf8 (SourceEventAssociation.incident_id a) ∧ utf8 (SourceEventAssociation.reason a) ∧
  utf8 (SourceEventAssociation.source_event_id a) ∧ utf8 (SourceEventAssociation.trace_id a).

(** A checked association is far below the size limit. *)
Lemma association_small a :
  association_utf8 a → SourceEventAssociation.check a = Ok tt →
  encoded_length (SourceEventAssociation.to_json a) ≤ MAX_CONTRACT_SERIALIZED_BYTES.
Proof.
  intros (Hu1 & Hu2 & Hu3 & Hu4 & Hu5 & Hu6) H. unfold SourceEventAssociation.check in H. run_ok.
  rewrite negb_false_iff in *.
  unfold encoded_length. rewrite association_json.
  pose proof (text_object_length (association_texts a) eq_refl) as Hl.
  repeat match goal with
  | H : identifier _ = true |- _ => apply identifier_length in H; [|assumption]
  | H : nonempty_str _ = true |- _ => apply nonempty_length in H; [|assumption]
  end.
  pose proof (iso_utc_length (SourceEventAssociation.registered_at a)) as Hi.
  cbn [association_texts text_size fst snd] in Hl.
  unfold MAX_CONTRACT_SERIALIZED_BYTES.
  change (String.length "actor") with 5%nat in Hl.
  change (String.length "idempotency_key") with 15%nat in Hl.
  change (String.length "incident_id") with 11%nat in Hl.
  change (String.length "reason") with 6%nat in Hl.
  change (String.length "registered_at") with 13%nat in Hl.
  change (String.length "schema_version") with 14%nat in Hl.
  change (String.length SCHEMA_VERSION) with 3%nat in Hl.
  change (String.length "source_event_id") with 15%nat in Hl.
  change (String.length "trace_id") with 8%nat in Hl.
  lia.
Qed.

Lemma build_Ok id at_ m sid a :
  build id at_ m sid = Ok a ↔
  SourceEventAssociation.make (association_of id at_ m sid) = Ok a ∧
  identifier_free (SourceEventAssociation.to_json a) ∧
  encoded_length (SourceEventAssociation.to_json a) ≤ MAX_CONTRACT_SERIALIZED_BYTES.
Proof.
  unfold build. split.
  - intros H. run_ok. rewrite validated_Ok in *.
    match goal with H : assert_repository_safe _ _ = Ok _ |- _ =>
      apply repository_safe_spec in H as (? & _ & ? & _) end.
    subst. done.
  - intros (Hm & Hf & Hl). rewrite Hm. cbn.
    assert (assert_repository_safe (SourceEventAssociation.to_json a) id
            = Ok (encoded_length (SourceEventAssociation.to_json a))) as ->; [|done].
    apply repository_safe_spec. split_and!; [done| |done|done].
    unfold MAX_CONTRACT_DEPTH. cbn. lia.
Qed.

(** What the making of an association checks besides the source event. *)
Lemma make_other id at_ m sid sid' a :
  good_source sid' → SourceEventAssociation.make (association_of id at_ m sid) = Ok a →
  ∃ a', SourceEventAssociation.make (association_of id at_ m sid') = Ok a' ∧
    a' = SourceEventAssociation.mk (SourceEventAssociation.incident_id a) sid'
           (SourceEventAssociation.registered_at a) (SourceEventAssociation.actor a)
           (SourceEventAssociation.reason a) (SourceEventAssociation.idempotency_key a)
           (SourceEventAssociation.trace_id a).
Proof.
  intros (Hs & Hi & _). unfold SourceEventAssociation.make, SourceEventAssociation.check. cbn.
  intros H. run_ok. subst a. rewrite negb_false_iff in *. cbn. rewrite Hs, Hi.
  repeat match goal with H : ?b = true |- context [?b] => rewrite H end. cbn. eauto.
Qed.

Lemma make_utf8 id at_ m sid a :
  utf8 id → metadata_texts m → utf8 sid →
  SourceEventAssociation.make (association_of id at_ m sid) = Ok a →
  association_utf8 a ∧ SourceEventAssociation.check a = Ok tt.
Proof.
  unfold SourceEventAssociation.make, metadata_texts, association_utf8. cbn.
  intros Hi (Hk & Ha & Hr & Ht) Hs H. run_ok. subst a. cbn.
  split; [split_and!; by apply strip_utf8|done].
Qed.

(** If it can be built for one source event, it can for every other. *)
Lemma build_other id at_ m sid sid' a :
  utf8 id → metadata_texts m → good_source sid' → build id at_ m sid = Ok a →
  ∃ a', build id at_ m sid' = Ok a'.
Proof.
  intros Hid Hm Hg (Hk & Hf & _)%build_Ok.
  destruct (make_other _ _ _ _ _ _ Hg Hk) as (a' & Ha' & E). exists a'.
  apply build_Ok. split_and!; [done| |].
  - rewrite association_json in *. apply text_object_free in Hf. apply text_object_free.
    subst a'. unfold association_texts in *. cbn [SourceEventAssociation.actor
      SourceEventAssociation.idempotency_key SourceEventAssociation.incident_id
      SourceEventAssociation.reason SourceEventAssociation.registered_at
      SourceEventAssociation.source_event_id SourceEventAssociation.trace_id].
    rewrite !Forall_cons in *. destruct Hg as (_ & _ & _ & Hg).
    repeat split; try tauto; done.
  - destruct Hg as (_ & _ & Hu & _).
    apply association_small; by apply (make_utf8 _ _ _ _ _ Hid Hm Hu) in Ha' as [? ?].
Qed.

(** ** The loop *)

(** [src'] registers [sids] for [id] on top of [src]. *)
Definition registered (id : string) (at_ : Z) (m : Metadata) (sids : list string)
    (src src' : Sources) : Prop :=
  (∀ key, key.1 ≠ id ∨ key.2 ∉ sids ∨ is_Some (src !! key) → src' !! key = src !! key) ∧
  (∀ sid, sid ∈ sids → src !! (id, sid) = None →
     ∃ a, build id at_ m sid = Ok a ∧ src' !! (id, sid) = Some a).

Definition with_sources (s : State) (src : Sources) : State :=
  mk_state (incidents s) (idempotency s) (histories s) src.

Lemma with_sources_same s : with_sources s (source_events s) = s.
Proof. by destruct s. Qed.

Lemma register_loop id at_ m sids s r s' :
  utf8 id → metadata_texts m → Forall good_source sids → NoDup sids →
  for_eachM (register_one id at_ m) sids s = (r, s') →
  (∀ e, r = Err e → s' = s) ∧
  (r = Ok tt → ∃ src', s' = with_sources s src' ∧
     registered id at_ m sids (source_events s) src').
Proof.
  intros Hid Hm. revert s. induction sids as [|sid sids IH]; intros s Hg Hnd H.
  { injection H as <- <-. split; [done|]. intros _. exists (source_events s).
    split; [by rewrite with_sources_same|]. split; [done|]. by intros sid Hin%not_elem_of_nil. }
  apply Forall_cons in Hg as [Hsid Hg]. apply NoDup_cons in Hnd as [Hnot Hnd].
  cbn [for_eachM] in H. unfold mbind, M_bind in H. rewrite register_one_run in H.
  destruct (source_events s !! (id, sid)) as [a|] eqn:Hkey.
  - destruct (IH s Hg Hnd H) as [He Hok]. split; [done|]. intros Hr.
    destruct (Hok Hr) as (src' & -> & Hkeep & Hnew). exists src'. split; [done|]. split.
    + intros [k1 k2] Hk. apply Hkeep. cbn in *. rewrite not_elem_of_cons in Hk.
      destruct Hk as [?|[[? ?]|?]]; tauto.
    + intros sid' [->|Hin]%elem_of_cons Hn; [congruence|by apply Hnew].
  - destruct (build id at_ m sid) as [a|e] eqn:Hb; [|by injection H as <- <-].
    destruct (IH _ Hg Hnd H) as [He Hok]. split.
    { intros e Hr. exfalso. clear IH Hok He. subst r. revert H.
      generalize (put_association (id, sid) a s). clear Hkey Hnot Hnd.
      induction sids as [|sid' sids IH]; intros s0 H; [done|].
      apply Forall_cons in Hg as [Hsid' Hg].
      cbn [for_eachM] in H. unfold mbind, M_bind in H. rewrite register_one_run in H.
      destruct (source_events s0 !! (id, sid')); [by eapply IH|].
      destruct (build_other id at_ m sid sid' a Hid Hm Hsid' Hb) as [a' Ha'].
      rewrite Ha' in H. by eapply IH. }
    intros Hr. destruct (Hok Hr) as (src' & -> & Hkeep & Hnew). exists src'. split; [done|].
    cbn in Hkeep, Hnew. split.
    + intros [k1 k2] Hk. cbn in *. rewrite not_elem_of_cons in Hk.
      destruct (decide ((k1, k2) = (id, sid))) as [[= -> ->]|Hne].
      { destruct Hk as [?|[[? ?]|[x Hx]]]; [done|done|congruence]. }
      rewrite <- (lookup_insert_ne (source_events s) (id, sid) (k1, k2) a) by done.
      apply Hkeep. rewrite lookup_insert_ne by done.
      destruct Hk as [?|[[? ?]|?]]; tauto.
    + intros sid' [->|Hin]%elem_of_cons Hn.
      * exists a. split; [done|]. rewrite Hkeep; [apply lookup_insert_eq|]. by right; left.
      * assert (sid' ≠ sid) by (intros ->; done).
        apply Hnew; [done|]. by rewrite lookup_insert_ne by congruence.
Qed.

(** ** Owners and capacity *)

Lemma elem_of_associated s id sid :
  sid ∈ associated_source_ids s id ↔ is_Some (source_events s !! (id, sid)).
Proof.
  unfold associated_source_ids. rewrite elem_of_map. setoid_rewrite elem_of_filter.
  setoid_rewrite elem_of_dom. split.
  - by intros ([k1 k2] & -> & <- & H).
  - intros H. by exists (id, sid).
Qed.

Lemma elem_of_owners s sid o : o ∈ owners s sid ↔ is_Some (source_events s !! (o, sid)).
Proof.
  unfold owners. rewrite elem_of_map. setoid_rewrite elem_of_filter.
  setoid_rewrite elem_of_dom. split.
  - by intros ([k1 k2] & -> & <- & H).
  - intros H. by exists (o, sid).
Qed.

Lemma check_owner_spec s id sid o :
  check_owner s id sid = Ok tt → is_Some (source_events s !! (o, sid)) → o = id.
Proof.
  unfold check_owner, source_event_owner. intros H Ho%elem_of_owners. run_ok. subst.
  assert (owners s sid ≡ {[o]}) as Hs.
  { rewrite Nat.ltb_ge in *. apply set_equiv. intros x. rewrite elem_of_singleton.
    split; [|by intros ->]. intros Hx.
    apply (size_singleton_inv (owners s sid)); [|done..].
    assert (size (owners s sid) ≠ 0)%nat; [|lia].
    intros H0%size_empty_inv. set_solver. }
  apply leibniz_equiv in Hs. rewrite Hs, elements_singleton in H. cbn in H.
  apply throw_if_Ok, negb_false_iff, bool_decide_eq_true in H. done.
Qed.

(** What a registration promises of the associations. *)
Record links (id : string) (sids : list string) (src src' : Sources) : Prop := {
  links_keep : ∀ key, is_Some (src !! key) → src' !! key = src !! key;
  links_new : ∀ key, is_Some (src' !! key) →
    is_Some (src !! key) ∨
    key.1 = id ∧ key.2 ∈ sids ∧ ∀ o, is_Some (src !! (o, key.2)) → o = id;
  links_all : ∀ sid, sid ∈ sids → is_Some (src' !! (id, sid));
  links_capacity : ∀ s, source_events s = src' →
    Z.of_nat (size (associated_source_ids s id)) ≤ MAX_INCIDENT_SOURCE_EVENTS
}.

Lemma associated_after s s' id sids :
  (∀ key, is_Some (source_events s' !! key) →
    is_Some (source_events s !! key) ∨ key.1 = id ∧ key.2 ∈ sids) →
  associated_source_ids s' id ⊆ associated_source_ids s id ∪ list_to_set sids.
Proof.
  intros H sid. rewrite elem_of_union, elem_of_list_to_set, !elem_of_associated.
  intros Hs%H. cbn in Hs. tauto.
Qed.

Lemma NoDup_ordered (X : gset string) : NoDup (py_sorted String.leb (elements X)).
Proof. rewrite py_sorted_perm. apply NoDup_elements. Qed.

Lemma register_spec id sids at_ m s r s' :
  utf8 id → metadata_texts m → Forall good_source sids →
  register_source_events id sids at_ m s = (r, s') →
  (∀ e, r = Err e → s' = s) ∧
  (r = Ok tt → ∃ src', s' = with_sources s src' ∧
     (∀ key, key.1 ≠ id ∨ key.2 ∉ sids → src' !! key = source_events s !! key) ∧
     (∀ sid, sid ∈ sids → source_events s !! (id, sid) = None →
        ∃ a, build id at_ m sid = Ok a ∧ src' !! (id, sid) = Some a) ∧
     links id sids (source_events s) src').
Proof.
  intros Hid Hm Hg H. unfold register_source_events in H.
  run_in H; [|by split]. run_in H; [|by split].
  set (ordered := py_sorted String.leb (elements (list_to_set sids))) in *.
  assert (∀ sid, sid ∈ ordered ↔ sid ∈ sids) as Hord.
  { intros sid. unfold ordered. by rewrite elem_of_py_sorted, elem_of_elements, elem_of_list_to_set. }
  apply register_loop in H as [He Hok]; [|done|done| |apply NoDup_ordered].
  2: { rewrite Forall_forall in Hg. apply Forall_forall. intros sid Hin%Hord. by apply Hg. }
  split; [done|]. intros Hr. destruct (Hok Hr) as (src' & -> & Hkeep & Hnew).
  exists src'. split; [done|]. setoid_rewrite Hord in Hnew. setoid_rewrite Hord in Hkeep.
  assert (∀ key, is_Some (src' !! key) → is_Some (source_events s !! key) ∨
            key.1 = id ∧ key.2 ∈ sids) as Hdom.
  { intros [k1 k2] Hk. cbn.
    destruct (decide (k1 = id)) as [->|]; [|left; rewrite <- Hkeep; [done|by left]].
    destruct (decide (k2 ∈ sids)); [by right|left; rewrite <- Hkeep; [done|by right; left]]. }
  split_and!; [intros key Hk; apply Hkeep; tauto|done|].
  match goal with H : throw_if _ _ = Ok _ |- _ => apply throw_if_Ok, Z.ltb_ge in H; rename H into Hcap end.
  match goal with H : for_each _ _ = Ok _ |- _ =>
    rewrite for_each_Ok, Forall_forall in H; rename H into Hown end.
  split.
  - intros key Hk. apply Hkeep. tauto.
  - intros key Hk. destruct (Hdom key Hk) as [?|[? Hin]]; [by left|right].
    split_and!; [done..|]. intros o Ho. eapply check_owner_spec; [|exact Ho].
    by apply Hown, Hord.
  - intros sid Hsid. destruct (source_events s !! (id, sid)) as [found|] eqn:E.
    + rewrite Hkeep, E; [done|]. cbn. right. right. by rewrite E.
    + by destruct (Hnew sid Hsid E) as (? & _ & ->).
  - intros s0 Hs0. etransitivity; [|exact Hcap]. apply inj_le, subseteq_size.
    apply associated_after. intros key. rewrite Hs0. apply Hdom.
Qed.
End registration.
