(* ===== verification/RepositoryInv.v ===== *)
(** * The repository's invariant

    What every state of the repository satisfies ([Inv]), the four ways an
    operation can change a state ([effect]), and that each keeps the
    invariant. *)

From Stdlib Require Import Ascii String.
From S2P Require Import Prelude PyStr Json Privacy Models Incident Errors StateMachine.
From S2P Require Import PyEq.
From S2P Require Import Budget Repository Registration.

Definition active (i : Incident.t) : Prop := is_settled (Incident.status i) = false.

Definition stored (s : State) (i : Incident.t) : Prop :=
  incidents s !! Incident.incident_id i = Some i.

Definition text_incident (i : Incident.t) : Prop :=
  utf8 (Incident.incident_id i) ∧ utf8 (Incident.trace_id i) ∧
  Forall utf8 (Incident.source_event_ids i).

(** The audit log of one Incident: created as DETECTED at revision 0, then one
    event per transition, along the graph, numbered without gaps.  The last
    two arguments are the status and revision the log ends with. *)
Inductive audit_log (id : string) :
    list IncidentAuditEvent.t → IncidentStatus.t → Z → Prop :=
| log_created e :
    IncidentAuditEvent.incident_id e = id →
    IncidentAuditEvent.from_status e = None →
    IncidentAuditEvent.to_status e = IncidentStatus.DETECTED →
    IncidentAuditEvent.revision e = 0 →
    audit_log id [e] IncidentStatus.DETECTED 0
| log_advanced h status revision e :
    audit_log id h status revision →
    IncidentAuditEvent.incident_id e = id →
    IncidentAuditEvent.from_status e = Some status →
    IncidentAuditEvent.to_status e ∈ TRANSITIONS status →
    IncidentAuditEvent.revision e = revision + 1 →
    audit_log id (h ++ [e]) (IncidentAuditEvent.to_status e) (revision + 1).

Section invariant.
Context `{R : Runtime, L : !RuntimeLaws R}.

Record Inv (s : State) : Prop := {
  inv_incident : ∀ id i, incidents s !! id = Some i →
    Incident.incident_id i = id ∧ valid i ∧ text_incident i;
  inv_history : ∀ id i, incidents s !! id = Some i →
    ∃ h, histories s !! id = Some h ∧ audit_log id h (Incident.status i) (Incident.revision i);
  inv_history_dom : ∀ id, is_Some (histories s !! id) → is_Some (incidents s !! id);
  inv_linked : ∀ id sid, is_Some (source_events s !! (id, sid)) → is_Some (incidents s !! id);
  inv_owner : ∀ a b sid, is_Some (source_events s !! (a, sid)) →
    is_Some (source_events s !! (b, sid)) → a = b;
  inv_sources : ∀ id i sid, incidents s !! id = Some i → sid ∈ Incident.source_event_ids i →
    is_Some (source_events s !! (id, sid));
  inv_capacity : ∀ id,
    Z.of_nat (size (associated_source_ids s id)) ≤ MAX_INCIDENT_SOURCE_EVENTS;
  inv_active : ∀ i j k, stored s i → stored s j → active i → active j →
    Incident.correlation_key i = Some k → Incident.correlation_key j = Some k → i = j;
  inv_record : ∀ scope record, idempotency s !! scope = Some record →
    valid (result_of record) ∧ text_incident (result_of record) ∧
    ∃ j, incidents s !! Incident.incident_id (result_of record) = Some j ∧
      Incident.revision (result_of record) ≤ Incident.revision j
}.

Lemma inv_empty : Inv empty_state.
Proof.
  split; cbn; intros *; rewrite ?lookup_empty; try done; try by intros [? [=]].
Qed.

(** No stored active Incident has the correlation key of [c]. *)
Definition no_rival (s : State) (c : Incident.t) : Prop :=
  ∀ j k, stored s j → active j → Incident.incident_id j ≠ Incident.incident_id c →
    Incident.correlation_key c = Some k → Incident.correlation_key j ≠ Some k.

(** ** The effects of operations *)

Inductive effect (s : State) : State → Prop :=
| effect_none : effect s s
| effect_correlate existing ids src scope fp :
    stored s existing →
    links (Incident.incident_id existing) ids (source_events s) src →
    idempotency s !! scope = None →
    effect s (mk_state (incidents s) (<[scope := mk_record fp existing]> (idempotency s))
                (histories s) src)
| effect_create c ids src scope fp event :
    incidents s !! Incident.incident_id c = None →
    valid c → text_incident c →
    Incident.status c = IncidentStatus.DETECTED → Incident.revision c = 0 →
    no_rival s c →
    (∀ sid, sid ∈ Incident.source_event_ids c → sid ∈ ids) →
    links (Incident.incident_id c) ids (source_events s) src →
    audit_log (Incident.incident_id c) [event] IncidentStatus.DETECTED 0 →
    idempotency s !! scope = None →
    effect s (mk_state (<[Incident.incident_id c := c]> (incidents s))
                (<[scope := mk_record fp c]> (idempotency s))
                (<[Incident.incident_id c := [event]]> (histories s)) src)
| effect_advance current successor src scope fp event :
    stored s current →
    valid successor → text_incident successor →
    Incident.incident_id successor = Incident.incident_id current →
    Incident.correlation_key successor = Incident.correlation_key current →
    Incident.status successor ∈ TRANSITIONS (Incident.status current) →
    Incident.revision successor = Incident.revision current + 1 →
    validate_append_only current successor = Ok tt →
    (active successor → active current ∨ no_rival s successor) →
    links (Incident.incident_id successor) (Incident.source_event_ids successor)
      (source_events s) src →
    IncidentAuditEvent.incident_id event = Incident.incident_id current →
    IncidentAuditEvent.from_status event = Some (Incident.status current) →
    IncidentAuditEvent.to_status event = Incident.status successor →
    IncidentAuditEvent.revision event = Incident.revision successor →
    idempotency s !! scope = None →
    effect s (mk_state (<[Incident.incident_id successor := successor]> (incidents s))
                (<[scope := mk_record fp successor]> (idempotency s))
                (<[Incident.incident_id successor :=
                     default [] (histories s !! Incident.incident_id successor) ++ [event]]>
                   (histories s)) src).

(** ** Associations under a registration *)

Lemma links_is_Some id ids src src' key :
  links id ids src src' → is_Some (src !! key) → is_Some (src' !! key).
Proof. intros Hl H. by rewrite (links_keep _ _ _ _ Hl key H). Qed.

Lemma links_owner id ids src src' a b sid :
  links id ids src src' →
  (∀ a b sid, is_Some (src !! (a, sid)) → is_Some (src !! (b, sid)) → a = b) →
  is_Some (src' !! (a, sid)) → is_Some (src' !! (b, sid)) → a = b.
Proof.
  intros Hl Hown Ha Hb.
  apply (links_new _ _ _ _ Hl) in Ha as [Ha|(E1 & _ & Ha)], Hb as [Hb|(E2 & _ & Hb)];
    cbn in *; subst.
  - by eapply Hown.
  - by apply Hb.
  - symmetry. by apply Ha.
  - done.
Qed.

Lemma links_capacity_other id ids s s' id' :
  links id ids (source_events s) (source_events s') →
  Z.of_nat (size (associated_source_ids s id')) ≤ MAX_INCIDENT_SOURCE_EVENTS →
  Z.of_nat (size (associated_source_ids s' id')) ≤ MAX_INCIDENT_SOURCE_EVENTS.
Proof.
  intros Hl Hcap. destruct (decide (id' = id)) as [->|Hne].
  - by apply (links_capacity _ _ _ _ Hl).
  - etransitivity; [|exact Hcap]. apply inj_le, subseteq_size.
    intros sid. rewrite !elem_of_associated. intros H.
    apply (links_new _ _ _ _ Hl) in H as [?|[? _]]; done.
Qed.

(** ** Each effect keeps the invariant *)

Lemma stored_lookup s id i : Inv s → incidents s !! id = Some i → stored s i.
Proof. intros HI H. destruct (inv_incident _ HI _ _ H) as (<- & _). done. Qed.

Lemma correlate_inv s existing ids src scope fp :
  Inv s → stored s existing →
  links (Incident.incident_id existing) ids (source_events s) src →
  Inv (mk_state (incidents s) (<[scope := mk_record fp existing]> (idempotency s))
         (histories s) src).
Proof.
  intros HI Hst Hl. split; cbn.
  - apply (inv_incident _ HI).
  - apply (inv_history _ HI).
  - apply (inv_history_dom _ HI).
  - intros id sid H. apply (links_new _ _ _ _ Hl) in H as [H|[E _]]; cbn in *.
    + by eapply (inv_linked _ HI).
    + subst id. by exists existing.
  - intros a b sid. apply (links_owner _ _ _ _ _ _ _ Hl), (inv_owner _ HI).
  - intros id i sid H1 H2. eapply links_is_Some; [done|]. by eapply (inv_sources _ HI).
  - intros id. eapply (links_capacity_other _ _ s); [done|]. apply (inv_capacity _ HI).
  - apply (inv_active _ HI).
  - intros scope' record. destruct (decide (scope = scope')) as [->|Hne].
    + rewrite lookup_insert_eq. intros [= <-]. cbn.
      destruct (inv_incident _ HI _ _ Hst) as (_ & Hv & Ht). split_and!; [done..|].
      exists existing. split; [done|lia].
    + rewrite lookup_insert_ne by done. apply (inv_record _ HI).
Qed.

(** Replacing or adding one Incident: the rest of the invariant. *)
Lemma put_inv s i ids src scope fp h :
  Inv s → valid i → text_incident i →
  audit_log (Incident.incident_id i) h (Incident.status i) (Incident.revision i) →
  links (Incident.incident_id i) ids (source_events s) src →
  (∀ sid, sid ∈ Incident.source_event_ids i → sid ∈ ids) →
  (active i → no_rival s i) →
  (∀ j, incidents s !! Incident.incident_id i = Some j →
     Incident.revision j ≤ Incident.revision i) →
  Inv (mk_state (<[Incident.incident_id i := i]> (incidents s))
         (<[scope := mk_record fp i]> (idempotency s))
         (<[Incident.incident_id i := h]> (histories s)) src).
Proof.
  intros HI Hv Ht Hlog Hl Hids Hriv Hrev. split; cbn.
  - intros id j [[<- <-]|[Hne H]]%lookup_insert_Some; [done|]. by apply (inv_incident _ HI).
  - intros id j [[<- <-]|[Hne H]]%lookup_insert_Some.
    + exists h. by rewrite lookup_insert_eq.
    + rewrite lookup_insert_ne by done. by apply (inv_history _ HI).
  - intros id. destruct (decide (Incident.incident_id i = id)) as [<-|Hne];
      [by rewrite !lookup_insert_eq|]. rewrite !lookup_insert_ne by done.
    apply (inv_history_dom _ HI).
  - intros id sid H. apply lookup_insert_is_Some'.
    apply (links_new _ _ _ _ Hl) in H as [H|[E _]]; cbn in *; [right|by left].
    by eapply (inv_linked _ HI).
  - intros a b sid. apply (links_owner _ _ _ _ _ _ _ Hl), (inv_owner _ HI).
  - intros id j sid [[<- <-]|[Hne H]]%lookup_insert_Some Hsid.
    + apply (links_all _ _ _ _ Hl). by apply Hids.
    + eapply links_is_Some; [done|]. by eapply (inv_sources _ HI).
  - intros id. eapply (links_capacity_other _ _ s); [done|]. apply (inv_capacity _ HI).
  - intros x y k Hx Hy Hax Hay Hkx Hky.
    unfold stored in Hx, Hy. cbn in Hx, Hy.
    apply lookup_insert_Some in Hx as [[Ex <-]|[Ex Hx]], Hy as [[Ey <-]|[Ey Hy]].
    + done.
    + exfalso. apply (Hriv Hax y k); done.
    + exfalso. apply (Hriv Hay x k); done.
    + by eapply (inv_active _ HI).
  - intros scope' record. destruct (decide (scope = scope')) as [->|Hne].
    + rewrite lookup_insert_eq. intros [= <-]. cbn. split_and!; [done..|].
      exists i. rewrite lookup_insert_eq. split; [done|lia].
    + rewrite lookup_insert_ne by done. intros H.
      destruct (inv_record _ HI _ _ H) as (Hvr & Htr & j & Hj & Hjr). split_and!; [done..|].
      destruct (decide (Incident.incident_id i = Incident.incident_id (result_of record)))
        as [E|Hne'].
      * exists i. rewrite E, lookup_insert_eq. split; [done|].
        rewrite <- E in Hj. specialize (Hrev j Hj). lia.
      * exists j. by rewrite lookup_insert_ne.
Qed.

Lemma effect_inv s s' : Inv s → effect s s' → Inv s'.
Proof.
  intros HI [|existing ids src scope fp Hst Hl Hsc
    |c ids src scope fp event Hn Hv Ht Hs Hr Hriv Hids Hl Hlog Hsc
    |cur suc src scope fp event Hst Hv Ht Hid Hck Hedge Hrev _ Hact Hl He1 He2 He3 He4 Hsc].
  - done.
  - by eapply correlate_inv.
  - eapply put_inv; try done; [by rewrite Hs, Hr|]. intros j Hj. congruence.
  - unfold stored in Hst. destruct (inv_history _ HI _ _ Hst) as (h & Hh & Hlog).
    eapply put_inv; try done.
    + rewrite Hid, Hh. cbn [default]. rewrite <- He3, Hrev.
      apply (log_advanced _ _ (Incident.status cur)); [done..| |by rewrite He4].
      by rewrite He3.
    + intros Ha. destruct (Hact Ha) as [Hac|]; [|done].
      intros j k Hj Haj Hne Hk Hjk. rewrite Hck in Hk. apply Hne. rewrite Hid.
      f_equal. by eapply (inv_active _ HI).
    + intros j Hj. rewrite Hid, Hst in Hj. injection Hj as <-. lia.
Qed.
End invariant.
