(* ===== verification/RepositoryFacts.v ===== *)
(** * What the repository promises

    Every operation changes the state by one of the effects of
    [RepositoryInv], and not at all when it raises; so the invariant holds in
    every state a sequence of operations leads to.  A retry of a write returns
    the first result. *)

From Stdlib Require Import Ascii String.
From S2P Require Import Prelude PyStr Json Privacy Models Incident Errors StateMachine.
From S2P Require Import PyEq.
From S2P Require Import Budget Repository Registration RepositoryInv Reference Samples.

(** ** Requests

    The writes of the repository as data.  The lock serializes them: an
    execution is a list of requests, each with the clock reading it takes. *)

Inductive Request :=
| Create (i : Incident.t) (m : Metadata)
| CreateOrCorrelate (i : Incident.t) (m : Metadata)
| Import (i : Incident.t) (associations : list SourceEventAssociation.t) (m : Metadata)
| Save (i : Incident.t) (expected_revision : Z) (m : Metadata)
| Transition (incident_id target : string) (expected_revision : Z) (m : Metadata) (u : Updates).

Definition serve `{Runtime} (q : Request) (clock : pydatetime) : M Incident.t :=
  match q with
  | Create i m => create i m clock
  | CreateOrCorrelate i m => create_or_correlate i m clock
  | Import i associations m =>
      import_detected_snapshot i associations m clock ≫= λ result, mret (imported result)
  | Save i expected_revision m => save i expected_revision m clock
  | Transition id target expected_revision m u => transition id target expected_revision m u clock
  end.

(** Its texts are Python strings, and an Incident it carries has the stripped
    identifier of an instance that pydantic has validated. *)
Definition request_texts `{Runtime} (q : Request) : Prop :=
  match q with
  | Create i m | CreateOrCorrelate i m | Save i _ m | Import i _ m =>
      text_incident i ∧ strip (Incident.incident_id i) = Incident.incident_id i ∧
      metadata_texts m
  | Transition _ _ _ m u =>
      metadata_texts m ∧ update_texts u
  end.

Section operations.
Context `{R : Runtime, L : !RuntimeLaws R}.

(** ** Lookups *)

Lemma elem_of_sorted_incidents s i :
  i ∈ sorted_incidents s ↔ ∃ id, incidents s !! id = Some i.
Proof.
  unfold sorted_incidents. rewrite elem_of_py_sorted, list_elem_of_fmap. split.
  - intros ([id j] & -> & H%elem_of_map_to_list). by exists id.
  - intros [id H]. exists (id, i). split; [done|]. by apply elem_of_map_to_list.
Qed.

Lemma find_active_cases s ck sids ex req o :
  find_active_locked s ck sids ex req = Ok o →
  match o with
  | None => ∀ i, i ∈ sorted_incidents s → active_match s ck sids ex i = false
  | Some i => i ∈ sorted_incidents s ∧ active_match s ck sids ex i = true
  end.
Proof.
  unfold find_active_locked.
  destruct (List.filter _ _) as [|i [|j l]] eqn:E; intros [= <-].
  - intros i Hi. destruct (active_match _ _ _ _ i) eqn:Hm; [|done].
    assert (i ∈ List.filter (active_match s ck sids ex) (sorted_incidents s)) as Hin.
    { apply list_elem_of_In, List.filter_In. by rewrite <- list_elem_of_In. }
    rewrite E in Hin. by apply not_elem_of_nil in Hin.
  - assert (i ∈ List.filter (active_match s ck sids ex) (sorted_incidents s)) as Hin
      by (rewrite E; by left).
    apply list_elem_of_In, List.filter_In in Hin. by rewrite list_elem_of_In.
Qed.

Lemma find_active_Some s ck sids ex req i :
  Inv s → find_active_locked s ck sids ex req = Ok (Some i) → stored s i ∧ active i.
Proof.
  intros HI [Hi Hm]%find_active_cases. apply elem_of_sorted_incidents in Hi as [id Hi].
  split; [by eapply stored_lookup|]. unfold active_match in Hm.
  apply andb_true_iff in Hm as [[_ Hm]%andb_true_iff _]. by apply negb_true_iff in Hm.
Qed.

Lemma find_active_None s c sids ex req :
  find_active_locked s (Incident.correlation_key c) sids ex req = Ok None →
  ex = None ∨ ex = Some (Incident.incident_id c) → no_rival s c.
Proof.
  intros H Hex j k Hj Ha Hne Hc Hk. pose proof (find_active_cases _ _ _ _ _ _ H) as Hn.
  cbn in Hn. specialize (Hn j).
  rewrite elem_of_sorted_incidents in Hn. specialize (Hn (ex_intro _ (Incident.incident_id j) Hj)).
  assert (Some (Incident.incident_id j) ≠ ex) as Hx
    by (destruct Hex as [->| ->]; [done|congruence]).
  unfold active_match in Hn. rewrite (bool_decide_eq_false_2 _ Hx), Ha, Hk, Hc in Hn.
  cbn [negb andb isSome isNone] in Hn.
  by rewrite (bool_decide_eq_true_2 (Some k = Some k)) in Hn.
Qed.

Lemma replay_run {B} scope fp s (k : option Incident.t → M B) :
  (replay scope fp ≫= k) s =
  match idempotency s !! scope with
  | None => k None s
  | Some record =>
      if bool_decide (fingerprint_of record = fp) then k (Some (result_of record)) s
      else (Err (IdempotencyConflictError scope.2), s)
  end.
Proof.
  unfold replay, mbind, M_bind, gets. destruct (idempotency s !! scope) as [record|]; [|done].
  cbn. by case_bool_decide.
Qed.

Lemma require_current_run id s (k : Incident.t → M Incident.t) :
  (require_current id ≫= k) s =
  match incidents s !! id with
  | Some i => k i s
  | None => (Err (IncidentNotFoundError id), s)
  end.
Proof.
  unfold require_current, mbind, M_bind, gets, lift. cbn. by destruct (incidents s !! id).
Qed.

(** ** The parts of a commit *)

Lemma audit_event_fields i from m fp at_ e :
  valid i → audit_event i from m fp at_ = Ok e →
  IncidentAuditEvent.incident_id e = Incident.incident_id i ∧
  IncidentAuditEvent.from_status e = from ∧
  IncidentAuditEvent.to_status e = Incident.status i ∧
  IncidentAuditEvent.revision e = Incident.revision i.
Proof.
  unfold audit_event, IncidentAuditEvent.make. intros Hv H%validated_Ok. run_ok. subst e. cbn.
  split_and!; try done. apply valid_iff in Hv as (Hn & _).
  by apply (f_equal Incident.incident_id) in Hn.
Qed.

Lemma valid_source_ids i sid :
  valid i → sid ∈ Incident.source_event_ids i → strip sid = sid ∧ identifier sid = true.
Proof.
  intros (Hn & Hf & _)%valid_iff Hs. split.
  - apply (f_equal Incident.source_event_ids) in Hn. cbn in Hn.
    apply list_elem_of_lookup in Hs as [n Hs].
    assert (map strip (Incident.source_event_ids i) !! n = Some (strip sid)) as Hm
      by (by rewrite list_lookup_fmap, Hs).
    rewrite Hn, Hs in Hm. by injection Hm.
  - unfold Incident.check_fields in Hf. run_ok. rewrite negb_false_iff in *.
    match goal with H : forallb identifier _ = true |- _ =>
      rewrite forallb_true_iff in H; by apply H end.
Qed.

Lemma safe_source_ids i sid :
  identifier_free (Incident.to_json i) → sid ∈ Incident.source_event_ids i →
  has_labeled_identifier sid = false.
Proof.
  intros H Hs. unfold Incident.to_json in H.
  inversion H as [| | | | | |l Hl]; subst. rewrite Forall_forall in Hl.
  specialize (Hl ("source_event_ids", json_list JStr (Incident.source_event_ids i))%string).
  destruct Hl as (_ & _ & Hf); [set_solver|]. cbn in Hf.
  inversion Hf as [| | | | |l Hl|]; subst. rewrite Forall_map, Forall_forall in Hl.
  specialize (Hl sid Hs). by inversion Hl.
Qed.

Lemma good_sources i :
  valid i → text_incident i → identifier_free (Incident.to_json i) →
  Forall good_source (Incident.source_event_ids i).
Proof.
  intros Hv (_ & _ & Hu) Hf. apply Forall_forall. intros sid Hs.
  destruct (valid_source_ids i sid Hv Hs) as [H1 H2].
  rewrite Forall_forall in Hu. split_and!; [done..|by apply Hu|by eapply safe_source_ids].
Qed.

Lemma normalize_texts i : text_incident i → text_incident (Incident.normalize i).
Proof.
  intros (Hi & Ht & Hs). split_and!; cbn; [by apply strip_utf8..|].
  apply Forall_map. eapply Forall_impl; [exact Hs|]. intros s. apply strip_utf8.
Qed.

Lemma validate_new_spec i trace now c :
  text_incident i → validate_new_incident i trace now = Ok c →
  valid c ∧ text_incident c ∧ Incident.status c = IncidentStatus.DETECTED ∧
  Incident.revision c = 0 ∧ identifier_free (Incident.to_json c) ∧
  Incident.incident_id c = strip (Incident.incident_id i).
Proof.
  intros Ht H. unfold validate_new_incident in H. run_ok. subst.
  rewrite validated_Ok, negb_false_iff, ?bool_decide_eq_true, ?Z.eqb_eq in *.
  match goal with H : Incident.model_validate _ = Ok _ |- _ => rename H into Hm end.
  match goal with H : assert_repository_safe _ _ = Ok _ |- _ =>
    apply repository_safe_spec in H as (Hf & _) end.
  pose proof (model_validate_valid _ _ Hm) as Hv. apply model_validate_Ok in Hm as (-> & _).
  split_and!; try done. by apply normalize_texts.
Qed.

Lemma commit_create_effect c scope fp m at_ s r s' :
  Inv s → valid c → text_incident c → metadata_texts m →
  identifier_free (Incident.to_json c) →
  Incident.status c = IncidentStatus.DETECTED → Incident.revision c = 0 →
  incidents s !! Incident.incident_id c = None → no_rival s c →
  idempotency s !! scope = None →
  commit_create c scope fp m at_ s = (r, s') →
  effect s s' ∧ (∀ e, r = Err e → s' = s).
Proof.
  intros HI Hv Ht Hm Hf Hs Hr Hn Hriv Hsc H. unfold commit_create in H.
  run_in H; [|by split; [constructor|]].
  unfold mbind at 1, M_bind at 1 in H.
  destruct (register_source_events _ _ _ _ _) as [r1 s1] eqn:Hreg.
  apply register_spec in Hreg as [He Hok]; [|by apply Ht|done|by apply good_sources].
  destruct r1 as [[]|e].
  - destruct (Hok eq_refl) as (src & -> & _ & _ & Hl).
    rewrite !modify_bind in H. unfold modify in H. injection H as <- <-. split; [|done].
    match goal with H : audit_event _ _ _ _ _ = Ok ?e |- _ =>
      destruct (audit_event_fields _ _ _ _ _ _ Hv H) as (E1 & E2 & E3 & E4) end.
    eapply (effect_create s c _ src); try done.
    constructor; [done..|congruence|congruence].
  - injection H as <- <-. rewrite (He e eq_refl). split; [constructor|done].
Qed.

Lemma reactivation_run cur suc s (k : unit → M Incident.t) r s' :
  (require_reactivation_keys cur suc ≫= k) s = (r, s') →
  (∃ e, r = Err e ∧ s' = s) ∨
  ((active suc → active cur ∨ no_rival s suc) ∧ k tt s = (r, s')).
Proof.
  unfold require_reactivation_keys, active. intros H.
  destruct (is_settled (Incident.status cur)), (is_settled (Incident.status suc)) eqn:Hs;
    cbn [negb orb] in H; try (right; split; [by auto|done]).
  unfold mbind at 1, M_bind at 1 in H. rewrite gets_bind, lift_bind in H.
  destruct (find_active_locked _ _ _ _ _) as [[i|]|e] eqn:E;
    [injection H as <- <-; left; by eexists| |injection H as <- <-; left; by eexists].
  right. split; [|done]. intros _. right. eapply find_active_None; [exact E|]. by right.
Qed.

(** A successor the state machine has built from a stored Incident. *)
Definition successor_of (current successor : Incident.t) : Prop :=
  valid successor ∧ text_incident successor ∧
  Incident.incident_id successor = Incident.incident_id current ∧
  Incident.correlation_key successor = Incident.correlation_key current ∧
  Incident.status successor ∈ TRANSITIONS (Incident.status current) ∧
  Incident.revision successor = Incident.revision current + 1 ∧
  validate_append_only current successor = Ok tt.

Lemma transition_successor current target rev t now u w w' suc :
  valid current → text_incident current →
  update_texts u →
  transition_incident current target rev t now u w w' = Ok suc → successor_of current suc.
Proof.
  intros Hv Ht Hu H. pose proof (transition_fields _ _ _ _ _ _ _ _ _ Hv H) as Hf.
  pose proof (transition_append _ _ _ _ _ _ _ _ _ H) as Happ.
  destruct_and! Hf. split_and!; try done.
  apply transition_Ok in H as (? & ? & ? & _ & _ & _ & _ & _ & _ & _ & _ & Hm & _).
  apply model_validate_Ok in Hm as (-> & _). apply normalize_texts.
  destruct Ht as (Hi & Htr & Hs). split_and!; [done..|]. cbn. unfold update_texts in Hu.
  by destruct (u_source_event_ids u).
Qed.

Lemma commit_successor_effect cur suc scope fp m at_ s r s' :
  Inv s → stored s cur → successor_of cur suc → metadata_texts m →
  idempotency s !! scope = None →
  commit_successor cur suc scope fp m at_ s = (r, s') →
  effect s s' ∧ (∀ e, r = Err e → s' = s).
Proof.
  intros HI Hst (Hv & Ht & Hid & Hck & Hedge & Hrev & Happ) Hm Hsc H. unfold commit_successor in H.
  run_in H; [|by split; [constructor|]].
  match goal with H : assert_repository_safe _ _ = Ok _ |- _ =>
    apply repository_safe_spec in H as (Hf & _) end.
  apply reactivation_run in H as [(e & -> & ->)|[Hact H]]; [by split; [constructor|]|].
  unfold commit_transition in H. unfold mbind at 1, M_bind at 1 in H.
  rewrite lift_bind in H.
  destruct (audit_event _ _ _ _ _) as [event|e] eqn:He;
    [|injection H as <- <-; by split; [constructor|]].
  unfold mbind at 1, M_bind at 1 in H.
  destruct (register_source_events _ _ _ _ _) as [r1 s1] eqn:Hreg.
  apply register_spec in Hreg as [Herr Hok]; [|by apply Ht|done|by apply good_sources].
  destruct r1 as [[]|e].
  - destruct (Hok eq_refl) as (src & -> & _ & _ & Hl).
    rewrite !modify_bind in H. unfold modify in H. injection H as <- <-. split; [|done].
    destruct (audit_event_fields _ _ _ _ _ _ Hv He) as (E1 & E2 & E3 & E4).
    eapply (effect_advance s cur suc src); try done. congruence.
  - injection H as <- <-. rewrite (Herr e eq_refl). split; [constructor|done].
Qed.

(** ** Each operation *)

Definition well_behaved (op : M Incident.t) : Prop :=
  ∀ s r s', Inv s → op s = (r, s') → effect s s' ∧ (∀ e, r = Err e → s' = s).

Lemma unchanged s (r : result exc Incident.t) : effect s s ∧ (∀ e, r = Err e → s = s).
Proof. by split; [constructor|]. Qed.

Lemma then_ret {A} (op : M A) (b : Incident.t) s r s' :
  (op ≫= λ _, mret b) s = (r, s') → ∃ r1, op s = (r1, s') ∧ ∀ e, r = Err e → r1 = Err e.
Proof.
  unfold mbind, M_bind. destruct (op s) as [[x|e] s1]; intros [= <- <-]; eexists; naive_solver.
Qed.

Lemma not_stored s id : isSome (incidents s !! id) = false → incidents s !! id = None.
Proof. by destruct (incidents s !! id). Qed.

Lemma create_well_behaved i m clock :
  text_incident i → strip (Incident.incident_id i) = Incident.incident_id i →
  metadata_texts m → well_behaved (create i m clock).
Proof.
  intros Ht Hstrip Hm s r s' HI H. unfold create in H.
  do 3 (run_in H; [|apply unchanged]). rewrite replay_run in H.
  destruct (idempotency s !! _) as [record|] eqn:Hsc.
  { case_bool_decide; [run_in H|injection H as <- <-]; apply unchanged. }
  do 4 (run_in H; [|apply unchanged]).
  match goal with
  | Hf : find_active_locked _ _ _ _ _ = Ok ?o, Hn : validate_new_incident _ _ _ = Ok ?c |- _ =>
      destruct o as [j|]; [run_in H; apply unchanged|];
      apply validate_new_spec in Hn as (Hv & Htc & Hs & Hr & Hfree & Hid); [|done];
      apply find_active_None in Hf; [|by left]
  end.
  run_in H. apply then_ret in H as (r1 & H & Hr1).
  match goal with H : throw_if _ _ = Ok _ |- _ => apply throw_if_Ok, not_stored in H end.
  apply commit_create_effect in H as [He Herr]; try done; [|by rewrite Hid, Hstrip].
  split; [done|]. intros e Hx. by eapply Herr, Hr1.
Qed.

Lemma create_or_correlate_well_behaved i m clock :
  text_incident i → metadata_texts m → well_behaved (create_or_correlate i m clock).
Proof.
  intros Ht Hm s r s' HI H. unfold create_or_correlate in H.
  do 3 (run_in H; [|apply unchanged]). rewrite replay_run in H.
  destruct (idempotency s !! _) as [record|] eqn:Hsc.
  { case_bool_decide; [run_in H|injection H as <- <-]; apply unchanged. }
  do 3 (run_in H; [|apply unchanged]).
  match goal with
  | Hf : find_active_locked _ _ _ _ _ = Ok ?o, Hn : validate_new_incident _ _ _ = Ok ?c |- _ =>
      apply validate_new_spec in Hn as (Hv & Htc & Hs & Hr & Hfree & Hid); [|done];
      destruct o as [j|]; [apply find_active_Some in Hf as [Hj Hja]; [|done]
                          |apply find_active_None in Hf; [|by left]]
  end.
  - unfold mbind at 1, M_bind at 1 in H.
    destruct (register_source_events _ _ _ _ _) as [r1 s1] eqn:Hreg.
    destruct (inv_incident _ HI _ _ Hj) as (_ & _ & [Hju _]).
    apply register_spec in Hreg as [Herr Hok]; [|done|done|by apply good_sources].
    destruct r1 as [[]|e].
    + destruct (Hok eq_refl) as (src & -> & _ & _ & Hl).
      rewrite modify_bind in H. run_in H. split; [|done].
      unfold put_record, with_sources. cbn. by eapply effect_correlate.
    + injection H as <- <-. rewrite (Herr e eq_refl). apply unchanged.
  - run_in H; [|apply unchanged]. apply then_ret in H as (r1 & H & Hr1).
    match goal with H : throw_if _ _ = Ok _ |- _ => apply throw_if_Ok, not_stored in H end.
    apply commit_create_effect in H as [He Herr]; try done.
    split; [done|]. intros e Hx. by eapply Herr, Hr1.
Qed.

Lemma transition_well_behaved id target rev m u clock :
  metadata_texts m →
  update_texts u →
  well_behaved (transition id target rev m u clock).
Proof.
  intros Hm Hu s r s' HI H. unfold transition in H.
  do 4 (run_in H; [|apply unchanged]). rewrite replay_run in H.
  destruct (idempotency s !! _) as [record|] eqn:Hsc.
  { case_bool_decide; [run_in H|injection H as <- <-]; apply unchanged. }
  rewrite require_current_run in H.
  destruct (incidents s !! id) as [current|] eqn:Hcur; [|injection H as <- <-; apply unchanged].
  do 4 (run_in H; [|apply unchanged]).
  destruct (inv_incident _ HI _ _ Hcur) as (Hid & Hv & Ht).
  match goal with Hx : transition_incident _ _ _ _ _ _ _ _ = Ok _ |- _ =>
    apply transition_successor in Hx; [|done..] end.
  eapply commit_successor_effect; try done. by eapply stored_lookup.
Qed.

Lemma save_well_behaved i rev m clock :
  text_incident i → metadata_texts m → well_behaved (save i rev m clock).
Proof.
  intros Hti Hm s r s' HI H. unfold save in H.
  do 4 (run_in H; [|apply unchanged]). rewrite replay_run in H.
  destruct (idempotency s !! _) as [record|] eqn:Hsc.
  { case_bool_decide; [run_in H|injection H as <- <-]; apply unchanged. }
  rewrite require_current_run in H.
  destruct (incidents s !! _) as [current|] eqn:Hcur; [|injection H as <- <-; apply unchanged].
  do 7 (run_in H; [|apply unchanged]).
  destruct (inv_incident _ HI _ _ Hcur) as (Hid & Hv & Ht).
  match goal with Hc : validated _ = Ok ?c |- _ =>
    apply validated_Ok, model_validate_Ok in Hc as (-> & _) end.
  match goal with Hx : transition_incident _ _ _ _ _ _ _ _ = Ok _ |- _ =>
    apply transition_successor in Hx; [|done..|] end.
  - eapply commit_successor_effect; try done. by eapply stored_lookup.
  - unfold update_texts. cbn -[Incident.normalize]. unfold changed.
    destruct (py_eqb _ (Incident.source_event_ids current)); [exact I|].
    exact (proj2 (proj2 (normalize_texts i Hti))).
Qed.

(** *** The import *)

Definition add_all (l : list SourceEventAssociation.t) (src : Sources) : Sources :=
  foldl (λ src a, <[association_key a := a]> src) src l.

Lemma import_loop l s :
  for_eachM (λ a, modify (put_association (association_key a) a)) l s
  = (Ok tt, with_sources s (add_all l (source_events s))).
Proof.
  revert s. induction l as [|a l IH]; intros s; cbn [for_eachM].
  - by destruct s.
  - rewrite modify_bind, IH. done.
Qed.

Lemma lookup_add_all_ne l src key :
  key ∉ map association_key l → add_all l src !! key = src !! key.
Proof.
  revert src. induction l as [|a l IH]; intros src Hk; [done|]. cbn in *.
  apply not_elem_of_cons in Hk as [Hne Hk]. unfold add_all in *. cbn.
  rewrite IH by done. by rewrite lookup_insert_ne.
Qed.

Lemma lookup_add_all_in l src key :
  key ∈ map association_key l → is_Some (add_all l src !! key).
Proof.
  revert src. induction l as [|a l IH]; intros src Hk; [by apply not_elem_of_nil in Hk|].
  cbn in Hk. unfold add_all. cbn.
  destruct (decide (key ∈ map association_key l)) as [Hin|Hout]; [by apply IH|].
  apply elem_of_cons in Hk as [->|Hk]; [|done].
  fold (add_all l (<[association_key a := a]> src)).
  rewrite lookup_add_all_ne by done. by rewrite lookup_insert_eq.
Qed.

Lemma normalize_associations_length id total l k :
  normalize_associations id total l = Ok k → length k = length l.
Proof.
  revert total k. induction l as [|a l IH]; intros total k; cbn; [by intros [= <-]|].
  intros H. run_ok. subst k. cbn. f_equal. by eapply IH.
Qed.

Lemma import_request_spec i l m c k :
  text_incident i → import_request i l m = Ok (c, k) →
  valid c ∧ text_incident c ∧ Incident.status c = IncidentStatus.DETECTED ∧
  Incident.revision c = 0 ∧
  (∀ a, a ∈ k → SourceEventAssociation.incident_id a = Incident.incident_id c) ∧
  (∀ sid, sid ∈ Incident.source_event_ids c →
     sid ∈ map SourceEventAssociation.source_event_id k) ∧
  Z.of_nat (length k) ≤ MAX_INCIDENT_SOURCE_EVENTS.
Proof.
  intros Ht H. unfold import_request in H. run_ok. simplify_eq.
  repeat match goal with
  | H : validated _ = Ok _ |- _ => apply validated_Ok in H
  | H : (_ || _) = false |- _ => apply orb_false_iff in H as [? ?]
  | H : negb _ = false |- _ => apply negb_false_iff in H
  | H : bool_decide _ = true |- _ => apply bool_decide_eq_true in H
  | H : (_ =? _) = true |- _ => apply Z.eqb_eq in H
  end.
  match goal with H : Incident.model_validate _ = Ok _ |- _ => rename H into Hv end.
  match goal with H : normalize_associations _ _ _ = Ok _ |- _ =>
    apply normalize_associations_length in H as Hlen end.
  split_and!; try done.
  - by eapply model_validate_valid.
  - apply model_validate_Ok in Hv as (-> & _). by apply normalize_texts.
  - intros a Ha. match goal with H : existsb _ _ = false |- _ =>
      rewrite existsb_false_iff in H; specialize (H a Ha) end.
    by match goal with H : negb _ = false |- _ =>
      apply negb_false_iff, bool_decide_eq_true in H end.
  - intros sid Hs. match goal with H : _ ⊆ _ |- _ => specialize (H sid) end.
    rewrite !elem_of_list_to_set in *. auto.
  - rewrite Z.ltb_ge in *. lia.
Qed.

Lemma import_links s c k :
  Inv s → incidents s !! Incident.incident_id c = None →
  (∀ a, a ∈ k → SourceEventAssociation.incident_id a = Incident.incident_id c) →
  Z.of_nat (length k) ≤ MAX_INCIDENT_SOURCE_EVENTS →
  (let ids := map SourceEventAssociation.source_event_id k in
   for_each (check_owner s (Incident.incident_id c)) ids = Ok tt →
   links (Incident.incident_id c) ids (source_events s) (add_all k (source_events s))).
Proof.
  intros HI Hn Hid Hlen ids Hown. rewrite for_each_Ok, Forall_forall in Hown.
  assert (∀ sid, source_events s !! (Incident.incident_id c, sid) = None) as Hfresh.
  { intros sid. destruct (source_events s !! _) as [a|] eqn:E; [|done].
    destruct (inv_linked _ HI (Incident.incident_id c) sid) as [x Hx]; [by exists a|].
    congruence. }
  assert (∀ key, key ∈ map association_key k →
            key.1 = Incident.incident_id c ∧ key.2 ∈ ids) as Hkeys.
  { intros key (a & -> & Ha)%list_elem_of_fmap. cbn. split; [by apply Hid|].
    by apply list_elem_of_fmap_2. }
  assert (∀ key, is_Some (add_all k (source_events s) !! key) →
            is_Some (source_events s !! key) ∨
            key.1 = Incident.incident_id c ∧ key.2 ∈ ids) as Hdom.
  { intros key Hk. destruct (decide (key ∈ map association_key k)) as [Hin|Hout].
    - right. by apply Hkeys.
    - left. by rewrite lookup_add_all_ne in Hk. }
  split.
  - intros [k1 k2] Hk. apply lookup_add_all_ne. intros [E _]%Hkeys. cbn in E. subst k1.
    rewrite Hfresh in Hk. by destruct Hk.
  - intros key Hk. destruct (Hdom key Hk) as [?|[? ?]]; [by left|right].
    split_and!; [done..|]. intros o. by apply check_owner_spec, Hown.
  - intros sid (a & -> & Ha)%list_elem_of_fmap. apply lookup_add_all_in.
    apply list_elem_of_fmap. exists a. split; [|done]. unfold association_key. by rewrite Hid.
  - intros s0 Hs0. etransitivity; [|exact Hlen]. apply inj_le.
    rewrite <- (length_map SourceEventAssociation.source_event_id k).
    etransitivity; [|apply size_list_to_set_le]. apply subseteq_size.
    intros sid. rewrite elem_of_associated, elem_of_list_to_set, Hs0.
    intros H. destruct (Hdom _ H) as [Hx|[_ ?]]; [|done]. rewrite Hfresh in Hx. by destruct Hx.
Qed.

Lemma import_well_behaved i l m clock :
  text_incident i →
  well_behaved (import_detected_snapshot i l m clock ≫= λ result, mret (imported result)).
Proof.
  intros Ht s r s' HI H.
  assert (∀ (op : M ImportResult) r1 s1, op s = (r1, s1) →
    effect s s1 ∧ (∀ e, r1 = Err e → s1 = s) →
    (op ≫= λ result, mret (imported result)) s = (r, s') →
    effect s s' ∧ (∀ e, r = Err e → s' = s)) as Hret.
  { intros op r1 s1 Hop [He Herr] Hb. unfold mbind, M_bind in Hb. rewrite Hop in Hb.
    destruct r1; injection Hb as <- <-; (split; [done|]); naive_solver. }
  destruct (import_detected_snapshot i l m clock s) as [r1 s1] eqn:Hi.
  eapply Hret; [exact Hi| |exact H]. clear Hret H r s'. rename Hi into H.
  unfold import_detected_snapshot in H.
  run_in H; [|by split; [constructor|]]. destruct a as [c k]. cbn [fst snd] in H.
  match goal with H : import_request _ _ _ = Ok _ |- _ =>
    apply import_request_spec in H as (Hv & Htc & Hs & Hr & Hids & Hsub & Hlen); [|done] end.
  run_in H; [|by split; [constructor|]].
  rewrite replay_run in H. destruct (idempotency s !! _) as [record|] eqn:Hsc.
  { case_bool_decide; [|injection H as <- <-; by split; [constructor|]].
    run_in H; [run_in H|]; by split; [constructor|]. }
  do 3 (run_in H; [|by split; [constructor|]]).
  match goal with
  | Hf : find_active_locked _ _ _ _ _ = Ok ?o, Ho : for_each _ _ = Ok ?u |- _ =>
      destruct o as [j|], u; [run_in H; by split; [constructor|]|];
      apply find_active_None in Hf; [|by left]
  end.
  run_in H. do 2 (run_in H; [|by split; [constructor|]]).
  match goal with H : throw_if _ _ = Ok _ |- _ => apply throw_if_Ok, not_stored in H as Hn end.
  match goal with H : for_each _ _ = Ok _ |- _ =>
    eapply import_links in H as Hl; [|done..] end.
  unfold mbind at 1, M_bind at 1 in H. rewrite import_loop, !modify_bind in H.
  injection H as <- <-. split; [|done].
  match goal with H : audit_event _ _ _ _ _ = Ok ?e |- _ =>
    destruct (audit_event_fields _ _ _ _ _ _ Hv H) as (E1 & E2 & E3 & E4) end.
  unfold put_history, put_record, put_incident, with_sources. cbn.
  eapply effect_create; try done. constructor; [done..|congruence|congruence].
Qed.

(** ** Every request *)

Lemma serve_well_behaved q clock : request_texts q → well_behaved (serve q clock).
Proof.
  destruct q; cbn.
  - intros (? & ? & ?). by apply create_well_behaved.
  - intros (? & ? & ?). by apply create_or_correlate_well_behaved.
  - intros (? & ? & ?). by apply import_well_behaved.
  - intros (? & ? & ?). by apply save_well_behaved.
  - intros (? & ?). by apply transition_well_behaved.
Qed.

(** The state after a list of requests: the lock serializes them, and a
    request that raises is over. *)
Definition after_requests (qs : list (Request * pydatetime)) (s : State) : State :=
  foldl (λ s q, (serve q.1 q.2 s).2) s qs.
Definition all_texts (qs : list (Request * pydatetime)) : Prop :=
  Forall (λ q, request_texts q.1) qs.

Lemma serve_inv q clock s : request_texts q → Inv s → Inv (serve q clock s).2.
Proof.
  intros Hq HI. destruct (serve q clock s) as [r s'] eqn:E.
  destruct (serve_well_behaved q clock Hq s r s' HI E) as [He _].
  by eapply effect_inv.
Qed.

Lemma after_requests_inv qs s : all_texts qs → Inv s → Inv (after_requests qs s).
Proof.
  intros Hq. revert s. induction Hq as [|[q c] qs Hq _ IH]; intros s HI; [done|].
  cbn. apply IH. by apply serve_inv.
Qed.

(** ** Idempotency records *)

Lemma effect_records s s' scope record :
  effect s s' → idempotency s !! scope = Some record → idempotency s' !! scope = Some record.
Proof.
  intros He Hr. destruct He; cbn; [done|..]; rewrite lookup_insert_ne by congruence; done.
Qed.

Lemma after_requests_records qs s scope record :
  all_texts qs → Inv s → idempotency s !! scope = Some record →
  idempotency (after_requests qs s) !! scope = Some record.
Proof.
  intros Hq. revert s. induction Hq as [|[q c] qs Hq _ IH]; intros s HI H; [done|].
  cbn in *. apply IH; [by apply serve_inv|].
  destruct (serve q c s) as [r s'] eqn:E.
  destruct (serve_well_behaved q c Hq s r s' HI E) as [He _]. by eapply effect_records.
Qed.

(** The checks a request passes before it takes the lock, and the scope and
    fingerprint of its record. *)
Definition admission (q : Request) : result exc (Scope * string) :=
  match q with
  | Create i m =>
      require_write_metadata m ≫= λ _,
      assert_repository_safe (Incident.to_json i) (Incident.incident_id i) ≫= λ _,
      make_scope "create" (Incident.incident_id i) (idempotency_key m) ≫= λ scope,
      Ok (scope, fingerprint "create" (create_payload i m))
  | CreateOrCorrelate i m =>
      require_write_metadata m ≫= λ _,
      assert_repository_safe (Incident.to_json i) (Incident.incident_id i) ≫= λ _,
      make_scope "create_or_correlate" (Incident.incident_id i) (idempotency_key m) ≫= λ scope,
      Ok (scope, fingerprint "create_or_correlate" (create_payload i m))
  | Import i l m =>
      import_request i l m ≫= λ request,
      make_scope "import_detected_snapshot" (Incident.incident_id request.1)
        (idempotency_key m) ≫= λ scope,
      Ok (scope, fingerprint "import_detected_snapshot"
        (JObj [("actor", JStr (actor m));
               ("associations", json_list SourceEventAssociation.to_json request.2);
               ("incident", Incident.to_json request.1); ("reason", JStr (reason m));
               ("trace_id", JStr (trace_id m))]))
  | Save i rev m =>
      require_write_metadata m ≫= λ _,
      assert_repository_safe (Incident.to_json i) (Incident.incident_id i) ≫= λ _,
      throw_if (rev <? 0) (ValueError "expected_revision must not be negative") ≫= λ _,
      make_scope "save" (Incident.incident_id i) (idempotency_key m) ≫= λ scope,
      Ok (scope, fingerprint "save" (save_payload i rev m))
  | Transition id target rev m u =>
      require_write_metadata m ≫= λ _,
      throw_if (rev <? 0) (ValueError "expected_revision must not be negative") ≫= λ _,
      assert_repository_safe (updates_json isoformat u) id ≫= λ _,
      make_scope "transition" id (idempotency_key m) ≫= λ scope,
      Ok (scope, fingerprint "transition" (transition_payload target rev u m))
  end.

Definition is_import (q : Request) : bool :=
  match q with Import _ _ _ => true | _ => false end.

(** A request that finds a record returns it, or refuses another fingerprint,
    and reads and writes nothing else. *)
Lemma serve_recorded q clock s scope fp record :
  is_import q = false → admission q = Ok (scope, fp) →
  idempotency s !! scope = Some record →
  serve q clock s =
  (if bool_decide (fingerprint_of record = fp) then Ok (result_of record)
   else Err (IdempotencyConflictError scope.2), s).
Proof.
  destruct q as [i m|i m|i l m|i rev m|id target rev m u]; intros Him Ha Hr; try done;
    cbn [serve admission] in *;
    unfold create, create_or_correlate, save, transition; run_ok; simplify_eq.
  all: repeat (rewrite lift_bind;
    match goal with H : ?x = Ok _ |- context [?x] => rewrite H | |- context [throw_if ?b _] =>
      match goal with H : b = false |- _ => rewrite H; cbn [throw_if] end end).
  all: rewrite replay_run, Hr; by case_bool_decide.
Qed.

Lemma commit_create_records c scope fp m at_ s u s' :
  commit_create c scope fp m at_ s = (Ok u, s') →
  idempotency s' !! scope = Some (mk_record fp c).
Proof.
  unfold commit_create. intros H. do 2 step_ok H. rewrite !modify_bind in H.
  apply (f_equal snd) in H. cbn in H. subst s'. apply lookup_insert_eq.
Qed.

Lemma commit_successor_records cur suc scope fp m at_ s i s' :
  commit_successor cur suc scope fp m at_ s = (Ok i, s') →
  idempotency s' !! scope = Some (mk_record fp i).
Proof.
  unfold commit_successor. intros H. do 3 step_ok H. injection H as <- <-.
  match goal with H : commit_transition _ _ _ _ _ _ _ = _ |- _ => rename H into Hc end.
  unfold commit_transition in Hc. do 2 step_ok Hc. rewrite !modify_bind in Hc.
  apply (f_equal snd) in Hc. cbn in Hc. subst. apply lookup_insert_eq.
Qed.

(** What a replay leads to. *)
Lemma replay_ok {B} scope fp s (k : option Incident.t → M B) r s' :
  (replay scope fp ≫= k) s = (Ok r, s') →
  (∃ i, idempotency s !! scope = Some (mk_record fp i) ∧ k (Some i) s = (Ok r, s')) ∨
  (idempotency s !! scope = None ∧ k None s = (Ok r, s')).
Proof.
  rewrite replay_run. destruct (idempotency s !! scope) as [[fp' i]|]; [|by right].
  cbn. case_bool_decide as Hfp; [|done]. subst fp'. intros H. left. by exists i.
Qed.

Lemma ret_ok {A} (x i : A) s s' : (mret x : M A) s = (Ok i, s') → i = x ∧ s' = s.
Proof. by intros [= <- <-]. Qed.

(** A request that returns has left its record. *)
Lemma serve_records q clock s i s' :
  serve q clock s = (Ok i, s') →
  ∃ scope fp, admission q = Ok (scope, fp) ∧
    idempotency s' !! scope = Some (mk_record fp i).
Proof.
  assert (∀ x scope fp, idempotency s !! scope = Some (mk_record fp x) →
    (mret x : M Incident.t) s = (Ok i, s') → idempotency s' !! scope = Some (mk_record fp i))
    as Hret by (by intros x scope fp H [= <- <-]).
  destruct q as [c m|c m|c l m|c rev m|id target rev m u]; cbn [serve admission]; intros H.
  - unfold create in H. do 3 (ok_in H). eexists _, _. split; [done|].
    apply replay_ok in H as [(x & Hx & H)|[_ H]]; [by eapply Hret|].
    do 5 (ok_in H). apply bind_run in H as [(? & s1 & Hc & H)|(? & ? & [=])].
    apply ret_ok in H as [-> ->]. by eapply commit_create_records.
  - unfold create_or_correlate in H. do 3 (ok_in H). eexists _, _. split; [done|].
    apply replay_ok in H as [(x & Hx & H)|[_ H]]; [by eapply Hret|].
    do 3 (ok_in H). case_match.
    + step_ok H. rewrite modify_bind in H. apply ret_ok in H as [-> ->]. apply lookup_insert_eq.
    + ok_in H. step_ok H. apply ret_ok in H as [-> ->]. by eapply commit_create_records.
  - step_ok H. apply ret_ok in H as [-> ->].
    match goal with H : import_detected_snapshot _ _ _ _ _ = _ |- _ => rename H into Hi end.
    unfold import_detected_snapshot in Hi. do 2 (ok_in Hi). eexists _, _.
    split; [cbn; by match goal with H : make_scope _ _ _ = Ok _ |- _ => rewrite H end|].
    apply replay_ok in Hi as [(y & Hy & Hi)|[_ Hi]].
    + ok_in Hi. by apply ret_ok in Hi as [-> ->].
    + do 6 (ok_in Hi). rewrite import_loop in Hi || step_ok Hi.
      rewrite !modify_bind in Hi. apply ret_ok in Hi as [-> ->]. apply lookup_insert_eq.
  - unfold save in H. do 4 (ok_in H). eexists _, _. split; [done|].
    apply replay_ok in H as [(x & Hx & H)|[_ H]]; [by eapply Hret|].
    rewrite require_current_run in H. case_match; [|done].
    do 7 (ok_in H). by eapply commit_successor_records.
  - unfold transition in H. do 4 (ok_in H). eexists _, _. split; [done|].
    apply replay_ok in H as [(x & Hx & H)|[_ H]]; [by eapply Hret|].
    rewrite require_current_run in H. case_match; [|done].
    do 4 (ok_in H). by eapply commit_successor_records.
Qed.
(** ** Transitions that commit *)

Lemma commit_successor_ok cur suc scope fp m at_ s i s' :
  commit_successor cur suc scope fp m at_ s = (Ok i, s') →
  i = suc ∧ incidents s' = <[Incident.incident_id suc := suc]> (incidents s).
Proof.
  unfold commit_successor. intros H. ok_in H.
  apply reactivation_run in H as [(e & [=] & _)|[_ H]].
  step_ok H. apply ret_ok in H as [-> ->]. split; [done|].
  match goal with H : commit_transition _ _ _ _ _ _ _ = _ |- _ => rename H into Hc end.
  unfold commit_transition in Hc. ok_in Hc. step_ok Hc.
  match goal with H : register_source_events _ _ _ _ _ = _ |- _ => rename H into Hreg end.
  rewrite !modify_bind in Hc. apply (f_equal snd) in Hc. cbn in Hc. subst. cbn. f_equal.
  unfold register_source_events in Hreg. do 2 (ok_in Hreg). revert Hreg.
  generalize (py_sorted String.leb (elements (list_to_set (C := gset string)
    (Incident.source_event_ids suc)))). clear. intros l. revert s.
  induction l as [|sid l IH]; intros s H; [by injection H as _ <-|].
  cbn [for_eachM] in H. unfold mbind, M_bind in H. rewrite register_one_run in H.
  destruct (source_events s !! _); [by apply IH|].
  destruct (build _ _ _ _); [|done]. by apply IH in H.
Qed.

Lemma serve_transition_ok id target rev m u clock s i s' scope fp :
  serve (Transition id target rev m u) clock s = (Ok i, s') →
  admission (Transition id target rev m u) = Ok (scope, fp) →
  idempotency s !! scope = None →
  ∃ current now, now_of clock = Ok now ∧ incidents s !! id = Some current ∧
    Incident.revision current = rev ∧ Incident.trace_id current = trace_id m ∧
    transition_incident current target rev (Some (Aware now 0)) (Some (Aware now 0)) u now now
    = Ok i ∧
    incidents s' = <[Incident.incident_id i := i]> (incidents s).
Proof.
  cbn [serve admission]. unfold transition. intros H Ha Hn.
  do 4 (ok_in H). cbn in Ha. injection Ha as <- <-.
  rewrite replay_run, Hn in H. rewrite require_current_run in H.
  destruct (incidents s !! id) as [current|]; [|done]. do 4 (ok_in H).
  apply commit_successor_ok in H as [-> Hs].
  match goal with H : throw_if (negb (Incident.revision current =? _)) _ = _ |- _ =>
    apply throw_if_Ok, negb_false_iff, Z.eqb_eq in H end.
  match goal with H : require_trace _ _ = _ |- _ =>
    unfold require_trace in H; apply throw_if_Ok, negb_false_iff, bool_decide_eq_true in H end.
  eexists _, _. split_and!; done.
Qed.

End operations.
