(* ===== verification/RepositoryProps.v ===== *)
(** * Theorems about the repository

    The promises of [InMemoryIncidentRepository], for every sequence of
    requests, with the requests of the worked incident as instances. *)

From Stdlib Require Import Ascii String.
From S2P Require Import Prelude PyStr Json Privacy Models Incident Errors StateMachine Lifecycle.
From S2P Require Import PyEq.
From S2P Require Import Budget Repository Registration RepositoryInv RepositoryFacts.
From S2P Require Import Reference Samples.

Section promises.
Context `{R : Runtime, L : !RuntimeLaws R}.

(** C5. The repository's invariant: after any sequence of requests, failed ones
    included, every stored Incident is valid and under its own identifier, has
    an unbroken audit log that follows the graph from DETECTED to its status
    and revision, and owns its source events alone and within capacity; no
    two active Incidents share a correlation key; and no idempotency record is
    newer than the Incident it names. *)
Theorem repository_invariant qs : all_texts qs → Inv (after_requests qs empty_state).
Proof. intros Hq. apply after_requests_inv; [done|apply inv_empty]. Qed.

(** C10. Writes are atomic: a request that raises, at whatever point, leaves
    the incidents, the audit log, the provenance and the idempotency records
    exactly as they were. *)
Theorem failed_write_changes_nothing qs q clock e s' :
  all_texts qs → request_texts q →
  serve q clock (after_requests qs empty_state) = (Err e, s') →
  s' = after_requests qs empty_state.
Proof.
  intros Hqs Hq H.
  assert (Inv (after_requests qs empty_state)) as HI
    by (apply after_requests_inv; [done|apply inv_empty]).
  destruct (serve_well_behaved q clock Hq _ _ _ HI H) as [_ He]. by apply (He e).
Qed.

(** C9. Writes other than imports are idempotent: once a create, correlation,
    transition, save or swap has returned, repeating it after any other requests
    and at any clock reading returns the first result again and changes nothing.
    (The retry of an import compares the recorded result with the Incident that
    it is given, and may be refused.) *)
Theorem retry_returns_first_result q qs s clock clock' i s' :
  Inv s → request_texts q → all_texts qs → is_import q = false →
  serve q clock s = (Ok i, s') →
  serve q clock' (after_requests qs s') = (Ok i, after_requests qs s').
Proof.
  intros HI Hq Hqs Him H.
  assert (Inv s') as HI' by (pose proof (serve_inv q clock s Hq HI) as Hi; by rewrite H in Hi).
  apply serve_records in H as (scope & fp & Ha & Hr).
  apply (after_requests_records qs) in Hr; [|done..].
  rewrite (serve_recorded q clock' _ scope fp _ Him Ha Hr). cbn.
  by rewrite bool_decide_eq_true_2.
Qed.

(** An idempotency key names one request: using its scope again for a
    request with another fingerprint is refused, and changes nothing. *)
Theorem key_reuse_refused q q' qs s clock clock' i s' scope fp fp' :
  Inv s → request_texts q → all_texts qs → is_import q' = false →
  serve q clock s = (Ok i, s') →
  admission q = Ok (scope, fp) → admission q' = Ok (scope, fp') → fp ≠ fp' →
  serve q' clock' (after_requests qs s')
  = (Err (IdempotencyConflictError scope.2), after_requests qs s').
Proof.
  intros HI Hq Hqs Him H Ha Ha' Hne.
  assert (Inv s') as HI' by (pose proof (serve_inv q clock s Hq HI) as Hi; by rewrite H in Hi).
  apply serve_records in H as (scope0 & fp0 & Ha0 & Hr).
  rewrite Ha in Ha0. injection Ha0 as <- <-.
  apply (after_requests_records qs) in Hr; [|done..].
  rewrite (serve_recorded q' clock' _ scope fp' _ Him Ha' Hr). cbn.
  by rewrite bool_decide_eq_false_2.
Qed.

(** *** The audit log *)

Lemma path_snoc s l t u : path s l t → u ∈ TRANSITIONS t → path s (l ++ [u]) u.
Proof.
  induction 1 as [s|s v t l Hv Hp IH]; intros Hu; cbn.
  - econstructor; [done|constructor].
  - econstructor; [done|]. by apply IH.
Qed.

Lemma audit_log_shape id h st rev :
  audit_log id h st rev →
  ∃ e l, h = e :: l ∧ IncidentAuditEvent.from_status e = None ∧
    IncidentAuditEvent.to_status e = IncidentStatus.DETECTED ∧
    path IncidentStatus.DETECTED (map IncidentAuditEvent.to_status l) st ∧
    map IncidentAuditEvent.revision h = range (length h) ∧
    Z.of_nat (length h) = rev + 1 ∧
    ∀ x, x ∈ h → IncidentAuditEvent.incident_id x = id.
Proof.
  induction 1 as [e Hid Hf Ht Hr|h st rev e Hlog IH Hid Hf Ht Hr].
  - exists e, []. split_and!; try done; [constructor| |].
    + cbn. by rewrite Hr.
    + by intros x ->%list_elem_of_singleton.
  - destruct IH as (e0 & l & -> & H0 & H1 & Hp & Hm & Hlen & Hall).
    exists e0, (l ++ [e]). split_and!; try done.
    + rewrite map_app. cbn. by eapply path_snoc.
    + rewrite map_app, Hm, length_app. cbn [map length]. unfold range.
      rewrite seq_app, fmap_app. cbn [seq fmap list_fmap app]. f_equal.
      cbn [length] in *. do 2 f_equal. lia.
    + rewrite length_app. cbn [length] in *. lia.
    + intros x [Hx| ->%list_elem_of_singleton]%elem_of_app; [by apply Hall|done].
Qed.

(** The audit log tells the whole story of an Incident: after any requests
    it has one event per revision, numbered from 0 without gaps, the first
    creating it as DETECTED and the others a walk of the transition graph to
    the status it has now. *)
Theorem audit_log_complete qs id i :
  all_texts qs →
  incidents (after_requests qs empty_state) !! id = Some i →
  ∃ e l, histories (after_requests qs empty_state) !! id = Some (e :: l) ∧
    IncidentAuditEvent.to_status e = IncidentStatus.DETECTED ∧
    path IncidentStatus.DETECTED (map IncidentAuditEvent.to_status l) (Incident.status i) ∧
    map IncidentAuditEvent.revision (e :: l) = range (length (e :: l)) ∧
    Z.of_nat (length l) = Incident.revision i.
Proof.
  intros Hq Hi.
  assert (Inv (after_requests qs empty_state)) as HI
    by (apply after_requests_inv; [done|apply inv_empty]).
  destruct (inv_history _ HI _ _ Hi) as (h & Hh & Hlog).
  apply audit_log_shape in Hlog as (e & l & -> & _ & Ht & Hp & Hm & Hl & _).
  exists e, l. split_and!; try done. cbn [length] in Hl. lia.
Qed.

(** *** Active Incidents and source events *)

Lemma active_match_key s k i :
  active_match s (Some k) ∅ None i = true ↔ active i ∧ Incident.correlation_key i = Some k.
Proof.
  unfold active_match, active. cbn [isSome isNone negb].
  rewrite intersection_empty_l_L, (bool_decide_eq_true_2 (∅ = ∅)), orb_false_r by done.
  rewrite bool_decide_eq_false_2 by done. cbn.
  rewrite andb_true_iff, negb_true_iff, bool_decide_eq_true. tauto.
Qed.

Lemma NoDup_sorted_incidents s : Inv s → NoDup (sorted_incidents s).
Proof.
  intros HI. unfold sorted_incidents. rewrite py_sorted_perm.
  apply NoDup_fmap_2_strong; [|apply NoDup_map_to_list].
  intros [k1 i1] [k2 i2] H1%elem_of_map_to_list H2%elem_of_map_to_list. cbn. intros ->.
  destruct (inv_incident _ HI _ _ H1) as (<- & _), (inv_incident _ HI _ _ H2) as (<- & _). done.
Qed.

(** Correlation is unambiguous: in every reachable state, looking an
    Incident up by its correlation key never meets a conflict, and finds
    exactly the active Incident that has the key. *)
Theorem correlation_unambiguous qs k :
  all_texts qs →
  let s := after_requests qs empty_state in
  ∃ o, find_active (Some k) None s = (Ok o, s) ∧
    ∀ i, o = Some i ↔ stored s i ∧ active i ∧ Incident.correlation_key i = Some k.
Proof.
  intros Hq s.
  assert (Inv s) as HI by (apply after_requests_inv; [done|apply inv_empty]).
  assert (∀ i, i ∈ sorted_incidents s ∧ active_match s (Some k) ∅ None i = true ↔
            stored s i ∧ active i ∧ Incident.correlation_key i = Some k) as Hm.
  { intros i. rewrite active_match_key, elem_of_sorted_incidents. split.
    - intros ([id Hi] & ?). split; [by eapply stored_lookup|done].
    - intros (Hi & ?). split; [by eexists|done]. }
  unfold find_active. cbn [isNone andb]. rewrite lift_bind. cbn [throw_if].
  rewrite gets_bind. unfold lift.
  destruct (find_active_locked s (Some k) ∅ None "<lookup>") as [o|e] eqn:E.
  - exists o. split; [done|]. pose proof (find_active_cases _ _ _ _ _ _ E) as Hc.
    intros i. rewrite <- Hm. destruct o as [j|].
    + split; [by intros [= <-]|]. intros Hi. f_equal.
      apply Hm in Hi as (? & ? & ?). apply Hm in Hc as (? & ? & ?).
      by eapply (inv_active _ HI).
    + split; [done|]. intros [Hi Hx]. by rewrite Hc in Hx.
  - exfalso. unfold find_active_locked in E.
    set (l := List.filter (active_match s (Some k) ∅ None) (sorted_incidents s)) in *.
    assert (NoDup l) as Hnd by (apply NoDup_ListNoDup, List.NoDup_filter, NoDup_ListNoDup,
                                 NoDup_sorted_incidents; done).
    assert (∀ i, i ∈ l → stored s i ∧ active i ∧ Incident.correlation_key i = Some k) as Hl.
    { intros i Hi. apply Hm. apply list_elem_of_In, List.filter_In in Hi.
      by rewrite list_elem_of_In. }
    destruct l as [|i [|j l']]; try done.
    destruct (Hl i) as (? & ? & ?); [by left|]. destruct (Hl j) as (? & ? & ?); [by right; left|].
    apply NoDup_cons in Hnd as [Hn _]. apply Hn.
    assert (i = j) as -> by (by eapply (inv_active _ HI)). by left.
Qed.

Lemma owner_spec s sid :
  Inv s → ∃ o, source_event_owner s sid = Ok o ∧
    ∀ x, o = Some x ↔ is_Some (source_events s !! (x, sid)).
Proof.
  intros HI. unfold source_event_owner.
  assert (∀ x y, x ∈ owners s sid → y ∈ owners s sid → x = y) as Hu.
  { intros x y. rewrite !elem_of_owners. apply (inv_owner _ HI). }
  assert (Nat.ltb 1 (size (owners s sid)) = false) as ->.
  { apply Nat.ltb_ge. rewrite size_set_elements || unfold size, set_size. cbn.
    pose proof (NoDup_elements (owners s sid)) as Hnd.
    assert (∀ x, x ∈ elements (owners s sid) → x ∈ owners s sid) as He
      by (intros x; by rewrite elem_of_elements).
    destruct (elements (owners s sid)) as [|x [|y l]]; cbn; [lia|lia|].
    apply NoDup_cons in Hnd as [Hn _]. destruct Hn.
    rewrite (Hu x y); [by left|apply He; by left|apply He; right; by left]. }
  exists (head (elements (owners s sid))). split; [done|]. intros x.
  rewrite <- elem_of_owners, <- elem_of_elements.
  assert (∀ x, x ∈ elements (owners s sid) → x ∈ owners s sid) as He
    by (intros y; by rewrite elem_of_elements).
  destruct (elements (owners s sid)) as [|y l]; cbn.
  - split; [done|]. by intros ?%not_elem_of_nil.
  - split; [intros [= ->]; by left|]. intros Hx. f_equal. apply Hu; apply He; [by left|done].
Qed.

Lemma effect_sources s s' key :
  effect s s' → is_Some (source_events s !! key) → is_Some (source_events s' !! key).
Proof. intros He Hk. destruct He; cbn; [done|by eapply links_is_Some..]. Qed.

Lemma after_requests_sources qs s key :
  all_texts qs → Inv s → is_Some (source_events s !! key) →
  is_Some (source_events (after_requests qs s) !! key).
Proof.
  intros Hq. revert s. induction Hq as [|[q c] qs Hq _ IH]; intros s HI H; [done|].
  cbn in *. apply IH; [by apply serve_inv|].
  destruct (serve q c s) as [r s'] eqn:E.
  destruct (serve_well_behaved q c Hq s r s' HI E) as [He _]. by eapply effect_sources.
Qed.

(** A source event has one owner for ever: in every reachable state its
    owner is found without the corruption error, is the one Incident it is
    associated with, and stays its owner after any further requests. *)
Theorem source_event_has_one_owner qs qs' sid id :
  all_texts qs → all_texts qs' →
  let s := after_requests qs empty_state in
  (∃ o, source_event_owner s sid = Ok o ∧
     ∀ x, o = Some x ↔ is_Some (source_events s !! (x, sid))) ∧
  (source_event_owner s sid = Ok (Some id) →
   source_event_owner (after_requests qs' s) sid = Ok (Some id)).
Proof.
  intros Hq Hq' s.
  assert (Inv s) as HI by (apply after_requests_inv; [done|apply inv_empty]).
  assert (Inv (after_requests qs' s)) as HI' by (by apply after_requests_inv).
  destruct (owner_spec s sid HI) as (o & Ho & Hx).
  destruct (owner_spec _ sid HI') as (o' & Ho' & Hx').
  split; [by exists o|]. rewrite Ho, Ho'. intros [= ->]. f_equal. apply Hx'.
  apply after_requests_sources; [done..|]. by apply Hx.
Qed.

(** *** Compare and swap *)

(** C37. A transition request commits exactly the state machine's successor: a
    first request that returns has read the stored Incident at the expected
    revision and under the caller's trace, applied [transition_incident] at
    the trusted clock, and replaced that Incident and no other. *)
Theorem transition_commits_successor id target rev m u clock s i s' scope fp :
  Inv s →
  serve (Transition id target rev m u) clock s = (Ok i, s') →
  admission (Transition id target rev m u) = Ok (scope, fp) →
  idempotency s !! scope = None →
  ∃ current now, now_of clock = Ok now ∧ incidents s !! id = Some current ∧
    Incident.revision current = rev ∧ Incident.trace_id current = trace_id m ∧
    transition_incident current target rev (Some (Aware now 0)) (Some (Aware now 0)) u now now
    = Ok i ∧
    incidents s' !! id = Some i ∧
    ∀ id', id' ≠ id → incidents s' !! id' = incidents s !! id'.
Proof.
  intros HI H Ha Hn.
  destruct (serve_transition_ok _ _ _ _ _ _ _ _ _ _ _ H Ha Hn)
    as (current & now & Hnow & Hc & Hr & Ht & Hi & Hs).
  destruct (inv_incident _ HI _ _ Hc) as (Hid & Hv & _).
  pose proof (transition_fields _ _ _ _ _ _ _ _ _ Hv Hi) as Hf. destruct_and! Hf.
  assert (Incident.incident_id i = id) as Hi' by congruence.
  exists current, now. rewrite Hs, Hi'. split_and!; try done.
  - apply lookup_insert_eq.
  - intros id' Hne. by apply lookup_insert_ne.
Qed.

(** No lost updates: of two transitions issued against the same revision of
    an Incident, under different scopes, only the first commits; the second
    is refused with the revision the first one left. *)
Theorem no_lost_update id rev target m u clock s i s' scope fp
    target' m' u' clock' scope' fp' :
  Inv s → request_texts (Transition id target rev m u) →
  serve (Transition id target rev m u) clock s = (Ok i, s') →
  admission (Transition id target rev m u) = Ok (scope, fp) →
  idempotency s !! scope = None →
  admission (Transition id target' rev m' u') = Ok (scope', fp') →
  idempotency s' !! scope' = None →
  serve (Transition id target' rev m' u') clock' s'
  = (Err (RevisionConflictError id rev (rev + 1) None), s').
Proof.
  intros HI Hq H Ha Hn Ha' Hn'.
  destruct (serve_transition_ok _ _ _ _ _ _ _ _ _ _ _ H Ha Hn)
    as (current & now & _ & Hc & Hr & _ & Hi & Hs).
  destruct (inv_incident _ HI _ _ Hc) as (Hid & Hv & _).
  pose proof (transition_fields _ _ _ _ _ _ _ _ _ Hv Hi) as Hf. destruct_and! Hf.
  assert (incidents s' !! id = Some i) as Hc'.
  { rewrite Hs. assert (Incident.incident_id i = id) as -> by congruence.
    apply lookup_insert_eq. }
  cbn [serve admission] in *. unfold transition. clear H Ha.
  run_ok. simplify_eq.
  repeat (rewrite lift_bind;
    match goal with H : ?x = Ok _ |- context [?x] => rewrite H | |- context [throw_if ?b _] =>
      match goal with H : b = false |- _ => rewrite H; cbn [throw_if] end end).
  rewrite replay_run, Hn', require_current_run, Hc', lift_bind.
  destruct (Z.eqb_spec (Incident.revision i) (Incident.revision current)); [lia|]. cbn.
  do 3 f_equal. congruence.
Qed.

(** *** Saving a snapshot *)

(** [save] and [compare_and_swap] cannot append to a history that has
    begun: a candidate that changes the approvals of an Incident which already
    has one is always refused, although the same update through [transition]
    may be accepted; the dumped items never equal the stored models. *)
Theorem save_cannot_extend_approvals i rev m clock s scope fp current :
  admission (Save i rev m) = Ok (scope, fp) → idempotency s !! scope = None →
  incidents s !! Incident.incident_id i = Some current →
  Incident.approvals current ≠ [] →
  ¬ Incident.approvals i ≐ Incident.approvals current →
  ∀ j s', serve (Save i rev m) clock s ≠ (Ok j, s').
Proof.
  intros Ha Hn Hc Hne Hdiff j s' E. cbn [serve admission] in *. unfold save in E.
  do 4 (ok_in E). cbn in Ha. injection Ha as <- <-.
  rewrite replay_run, Hn, require_current_run, Hc in E. do 6 (ok_in E).
  match goal with H : transition_incident _ _ _ _ _ _ _ _ = Ok _ |- _ =>
    apply transition_Ok in H as (? & ? & ? & _ & _ & _ & _ & _ & Hh & _) end.
  unfold validate_requested_history_update in Hh. cbn in Hh. run_ok.
  match goal with H : check_append_opt true _ _ "approvals" _ _ = _ |- _ =>
    rename H into Hap end.
  match goal with H : validated _ = Ok _ |- _ =>
    apply validated_Ok, model_validate_Ok in H as (-> & _) end.
  unfold changed in Hap. cbn in Hap. apply not_true_is_false in Hdiff. rewrite Hdiff in Hap.
  cbn in Hap. by destruct (Incident.approvals current).
Qed.
End promises.

(** ** The worked incident as requests *)

Definition meta (key : string) : Metadata := mk_metadata key "operator" "routine step" "trace-1".
Definition at_time (t : Z) : pydatetime := Aware t 0.
Definition step_request (target : string) (rev : Z) (key : string) (u : Updates) : Request :=
  Transition "inc-1" target rev (meta key) u.
Definition to_approval : list (Request * pydatetime) :=
  [ (Create detected (meta "k0"), at_time 1);
    (step_request "TRIAGED" 0 "k1" no_updates, at_time 10);
    (step_request "INVESTIGATING" 1 "k2" no_updates, at_time 20);
    (step_request "RCA_COMPLETE" 2 "k3" set_reports, at_time 30);
    (step_request "AWAITING_APPROVAL" 3 "k4" (set_approvals [pending]), at_time 40) ].
Definition from_approval : list (Request * pydatetime) :=
  [ (step_request "REMEDIATING" 4 "k5" (set_approvals [pending; approved]), at_time 55);
    (step_request "VERIFYING" 5 "k6" (set_action_runs [run]), at_time 65);
    (step_request "RESOLVED" 6 "k7" (set_verification_runs [verification]), at_time 70) ].
Definition workflow : list (Request * pydatetime) := to_approval ++ from_approval.

Lemma step_texts target rev key u :
  utf8b key = true → u_source_event_ids u = None → request_texts (step_request target rev key u).
Proof.
  intros Hk Hu. unfold step_request. cbn. unfold update_texts. rewrite Hu. split; [|done].
  split_and!; by apply utf8b_utf8.
Qed.
Lemma create_texts key : utf8b key = true → request_texts (Create detected (meta key)).
Proof.
  intros Hk. split; [split_and!; [by apply utf8b_utf8..|]|split; [done|split_and!; by apply utf8b_utf8]].
  apply Forall_singleton. by apply utf8b_utf8.
Qed.
Lemma to_approval_texts : all_texts to_approval.
Proof.
  repeat constructor; cbn [fst]; first [by apply create_texts | by apply step_texts].
Qed.
Lemma from_approval_texts : all_texts from_approval.
Proof. repeat constructor; cbn [fst]; by apply step_texts. Qed.
Lemma workflow_texts : all_texts workflow.
Proof. apply Forall_app. split; [apply to_approval_texts|apply from_approval_texts]. Qed.

Definition s_approval : State := after_requests to_approval empty_state.
Lemma s_approval_inv : Inv s_approval.
Proof. apply after_requests_inv; [apply to_approval_texts|apply inv_empty]. Qed.

Lemma repository_invariant_witness : Inv (after_requests workflow empty_state).
Proof. apply repository_invariant. apply workflow_texts. Defined.

Lemma failed_write_changes_nothing_witness :
  let s := after_requests to_approval empty_state in
  s = after_requests to_approval empty_state ∧
  (serve (step_request "VERIFYING" 4 "k9" no_updates) (at_time 50) s).2 = s.
Proof.
  split; [reflexivity|].
  assert (is_ok (serve (step_request "VERIFYING" 4 "k9" no_updates) (at_time 50)
              (after_requests to_approval empty_state)).1 = false) as Hok
    by (vm_compute; reflexivity).
  destruct (serve (step_request "VERIFYING" 4 "k9" no_updates) (at_time 50)
              (after_requests to_approval empty_state)) as [[i|e] s'] eqn:E.
  - discriminate Hok.
  - apply (failed_write_changes_nothing to_approval
             (step_request "VERIFYING" 4 "k9" no_updates) (at_time 50) e s');
      [apply to_approval_texts|by apply step_texts|exact E].
Defined.

Lemma after_first q c qs s r s' :
  serve q c s = (r, s') → after_requests ((q, c) :: qs) s = after_requests qs s'.
Proof. intros E. cbn. by rewrite E. Qed.

Lemma retry_returns_first_result_witness :
  ∃ i, serve (Create detected (meta "k0")) (at_time 99) (after_requests workflow empty_state)
       = (Ok i, after_requests workflow empty_state).
Proof.
  assert (is_ok (serve (Create detected (meta "k0")) (at_time 1) empty_state).1 = true) as Hok
    by (vm_compute; reflexivity).
  destruct (serve (Create detected (meta "k0")) (at_time 1) empty_state) as [[i|e] s'] eqn:E.
  - exists i.
    rewrite (after_first _ _ _ _ _ _ E : after_requests workflow empty_state
                                         = after_requests (tail workflow) s').
    apply (retry_returns_first_result (Create detected (meta "k0")) (tail workflow) empty_state
             (at_time 1) (at_time 99) i s').
    + apply inv_empty.
    + by apply create_texts.
    + pose proof workflow_texts as Hw. by apply Forall_cons in Hw as [_ Hw].
    + reflexivity.
    + exact E.
  - discriminate Hok.
Defined.

Lemma audit_log_complete_witness :
  ∃ i e l, incidents (after_requests workflow empty_state) !! "inc-1"%string = Some i ∧
    histories (after_requests workflow empty_state) !! "inc-1"%string = Some (e :: l) ∧
    Z.of_nat (length l) = Incident.revision i.
Proof.
  assert (isSome (incidents (after_requests workflow empty_state) !! "inc-1"%string) = true) as Hi
    by (vm_compute; reflexivity).
  destruct (incidents (after_requests workflow empty_state) !! "inc-1"%string) as [i|] eqn:E.
  - destruct (audit_log_complete workflow "inc-1" i workflow_texts E) as (e & l & H & _ & _ & _ & Hl).
    exists i, e, l. split; [reflexivity|split; [exact H|exact Hl]].
  - discriminate Hi.
Defined.

Lemma correlation_unambiguous_witness :
  ∃ o, find_active (Some "corr-1"%string) None (after_requests workflow empty_state)
       = (Ok o, after_requests workflow empty_state).
Proof.
  destruct (correlation_unambiguous workflow "corr-1" workflow_texts) as (o & H & _).
  exists o. exact H.
Defined.

Lemma source_event_has_one_owner_witness :
  source_event_owner (after_requests from_approval s_approval) "src-1" = Ok (Some "inc-1"%string).
Proof.
  apply (source_event_has_one_owner to_approval from_approval "src-1" "inc-1"
           to_approval_texts from_approval_texts).
  vm_compute. reflexivity.
Defined.

(** The state after creation, and a request on it. *)
Definition s_created : State := (serve (Create detected (meta "k0")) (at_time 1) empty_state).2.
Lemma s_created_inv : Inv s_created.
Proof. apply serve_inv; [by apply create_texts|apply inv_empty]. Qed.

Definition admitted (q : Request) : option (Scope * string) :=
  match admission q with Ok a => Some a | Err _ => None end.
Lemma admitted_Ok q a : admitted q = Some a → admission q = Ok a.
Proof. unfold admitted. destruct (admission q); [by intros [= ->]|done]. Qed.

(** The scope and fingerprint of a request, where it is admitted. *)
Definition scope_of (q : Request) : Scope :=
  match admission q with Ok a => a.1 | Err _ => (EmptyString, EmptyString, EmptyString) end.
Definition print_of (q : Request) : string :=
  match admission q with Ok a => a.2 | Err _ => EmptyString end.
Lemma admission_parts q :
  is_ok (admission q) = true → admission q = Ok (scope_of q, print_of q).
Proof. unfold scope_of, print_of. by destruct (admission q) as [[??]|]. Qed.

(** What a request returns, where it does. *)
Definition returned (q : Request) (c : pydatetime) (s : State) : Incident.t :=
  match (serve q c s).1 with Ok i => i | Err _ => detected end.
Lemma serve_parts q c s :
  is_ok (serve q c s).1 = true → serve q c s = (Ok (returned q c s), (serve q c s).2).
Proof. unfold returned. by destruct (serve q c s) as [[i|e] s']. Qed.

Lemma key_reuse_refused_witness :
  let q := Create detected (meta "k0") in
  let q' := Create detected (mk_metadata "k0" "operator" "another step" "trace-1") in
  serve q' (at_time 99) (after_requests [] s_created)
  = (Err (IdempotencyConflictError (scope_of q).2), after_requests [] s_created).
Proof.
  intros q q'.
  apply (key_reuse_refused q q' [] empty_state (at_time 1) (at_time 99)
           (returned q (at_time 1) empty_state) s_created (scope_of q) (print_of q)
           (print_of q')).
  - apply inv_empty.
  - by apply create_texts.
  - constructor.
  - reflexivity.
  - apply serve_parts. vm_compute. reflexivity.
  - apply admission_parts. vm_compute. reflexivity.
  - assert (scope_of q = scope_of q') as -> by (vm_compute; reflexivity).
    apply admission_parts. vm_compute. reflexivity.
  - assert (bool_decide (print_of q = print_of q') = false) as H by (vm_compute; reflexivity).
    apply bool_decide_eq_false in H. exact H.
Defined.

Lemma transition_commits_successor_witness :
  let q := step_request "TRIAGED" 0 "k1" no_updates in
  incidents (serve q (at_time 10) s_created).2 !! "inc-1"%string
  = Some (returned q (at_time 10) s_created).
Proof.
  intros q.
  destruct (transition_commits_successor "inc-1" "TRIAGED" 0 (meta "k1") no_updates (at_time 10)
    s_created (returned q (at_time 10) s_created) (serve q (at_time 10) s_created).2
    (scope_of q) (print_of q)) as (cur & now & _ & _ & _ & _ & _ & H & _).
  - apply s_created_inv.
  - apply serve_parts. vm_compute. reflexivity.
  - apply admission_parts. vm_compute. reflexivity.
  - vm_compute. reflexivity.
  - exact H.
Defined.

Lemma no_lost_update_witness :
  let q := step_request "TRIAGED" 0 "k1" no_updates in
  let s' := (serve q (at_time 10) s_created).2 in
  serve (step_request "FAILED" 0 "k2" no_updates) (at_time 11) s'
  = (Err (RevisionConflictError "inc-1" 0 1 None), s').
Proof.
  intros q s'.
  apply (no_lost_update "inc-1" 0 "TRIAGED" (meta "k1") no_updates (at_time 10) s_created
    (returned q (at_time 10) s_created) s' (scope_of q) (print_of q)
    "FAILED" (meta "k2") no_updates (at_time 11)
    (scope_of (step_request "FAILED" 0 "k2" no_updates))
    (print_of (step_request "FAILED" 0 "k2" no_updates))).
  - apply s_created_inv.
  - by apply step_texts.
  - apply serve_parts. vm_compute. reflexivity.
  - apply admission_parts. vm_compute. reflexivity.
  - vm_compute. reflexivity.
  - apply admission_parts. vm_compute. reflexivity.
  - vm_compute. reflexivity.
Defined.

(** The successor that [transition] accepts for REMEDIATING, saved instead. *)
Definition remediating_snapshot : Incident.t :=
  returned (step_request "REMEDIATING" 4 "k5" (set_approvals [pending; approved])) (at_time 55)
    s_approval.

Lemma save_cannot_extend_approvals_witness :
  let q := Save remediating_snapshot 4 (meta "k5") in
  is_ok (serve (step_request "REMEDIATING" 4 "k5" (set_approvals [pending; approved]))
           (at_time 55) s_approval).1 = true ∧
  ∀ j s', serve q (at_time 55) s_approval ≠ (Ok j, s').
Proof.
  intros q. split; [vm_compute; reflexivity|].
  apply (save_cannot_extend_approvals remediating_snapshot 4 (meta "k5") (at_time 55) s_approval
           (scope_of q) (print_of q)
           (returned (step_request "AWAITING_APPROVAL" 3 "k4" (set_approvals [pending]))
              (at_time 40) (after_requests (take 4 to_approval) empty_state))).
  - apply admission_parts. vm_compute. reflexivity.
  - vm_compute. reflexivity.
  - vm_compute. reflexivity.
  - vm_compute. discriminate.
  - vm_compute. discriminate.
Defined.

(** ** Inputs that the checks before the lock admit and the commit does not *)

Fixpoint repeated (n : nat) (c : ascii) : string :=
  match n with O => EmptyString | S n => String c (repeated n c) end.
Definition long_reason : Metadata :=
  mk_metadata "k0" "operator" (repeated 1025 "a") "trace-1".

(** The reason limits disagree: [_require_write_metadata] admits a reason of
    up to 4096 characters, but the audit event takes at most 1024, so a
    create whose reason has 1025 is admitted and then fails validation. *)
Lemma long_reason_admitted_then_rejected :
  require_write_metadata long_reason = Ok tt ∧
  serve (Create detected long_reason) (at_time 1) empty_state
  = (Err (ValidationError "reason"), empty_state).
Proof. split; vm_compute; reflexivity. Qed.

Definition padded : Metadata := mk_metadata "k0" " operator" "routine step" "trace-1".
Definition import_request_sample : Request :=
  Import detected [SourceEventAssociation.mk "inc-1" "src-1" 0 "collector" "seen" "k" "trace-1"]
    padded.

(** The retry of an import is not always idempotent: with blanks around the
    actor, the import succeeds, and the identical retry raises an audit
    inconsistency, because the stored event holds the stripped actor. *)
Lemma padded_import_retry_fails :
  let first := serve import_request_sample (at_time 1) empty_state in
  is_ok first.1 = true ∧
  (serve import_request_sample (at_time 1) first.2).1
  = Err (IncidentRepositoryError "persisted migration audit is inconsistent").
Proof. split; vm_compute; reflexivity. Qed.
