(* ===== verification/Contracts.v ===== *)
(** * Inter-agent contracts (telco_domain/contracts.py)

    The messages, the checks their classes make of the bindings between their
    parts, the resolution of an approval reference, and the two boundaries:
    [to_data_part] on the way out, [parse_contract_message] on the way in.
    Building a message from JSON is pydantic's work: [parse_contract_message]
    takes it from [Decoder]. *)

From Stdlib Require Import Ascii String.
From stdpp Require Import pretty.
From S2P Require Import Prelude PyStr Json Privacy Models Incident Errors Budget.
From S2P Require Import PyEq.

Definition opaque_id : string → bool := identifier.
Definition short_text (s : string) : bool := py_len s <=? 4096.

(** ** [ApprovalReference] *)

Module ApprovalReference.
Record t := mk {
  approval_id : string;
  request_id : string;
  decision_sequence : Z;
  incident_id : string;
  report_id : string;
  report_version : Z;
  subject_id : string;
  action_hash : string;
  based_on_revision : Z;
  validated_at : Z;
  validator_id : string
}.
#[global] Instance eq_dec : EqDecision t.
Proof. solve_decision. Defined.

Definition check (r : t) : result string unit :=
  throw_if (negb (opaque_id (approval_id r))) "approval_id" ≫= λ _,
  throw_if (negb (opaque_id (request_id r))) "request_id" ≫= λ _,
  throw_if (decision_sequence r <? 1) "decision_sequence" ≫= λ _,
  throw_if (negb (opaque_id (incident_id r))) "incident_id" ≫= λ _,
  throw_if (negb (opaque_id (report_id r))) "report_id" ≫= λ _,
  throw_if (report_version r <? 1) "report_version" ≫= λ _,
  throw_if (negb (opaque_id (subject_id r))) "subject_id" ≫= λ _,
  throw_if (negb (sha256_digest (action_hash r))) "action_hash" ≫= λ _,
  throw_if (based_on_revision r <? 0) "based_on_revision" ≫= λ _,
  throw_if (negb (opaque_id (validator_id r))) "validator_id".

Definition to_json `{Runtime} (r : t) : json :=
  JObj [ ("action_hash", JStr (action_hash r));
         ("approval_id", JStr (approval_id r));
         ("based_on_revision", JInt (based_on_revision r));
         ("decision_sequence", JInt (decision_sequence r));
         ("incident_id", JStr (incident_id r));
         ("report_id", JStr (report_id r));
         ("report_version", JInt (report_version r));
         ("request_id", JStr (request_id r));
         ("subject_id", JStr (subject_id r));
         ("validated_at", JStr (iso_utc (validated_at r)));
         ("validator_id", JStr (validator_id r)) ].
End ApprovalReference.

(** ** The envelope: the fields of [ContractMessage] *)

Module Envelope.
Record t := mk {
  message_id : string;
  workflow_id : string;
  incident_id : string;
  trace_id : string;
  idempotency_key : string;
  sent_at : Z
}.
#[global] Instance eq_dec : EqDecision t.
Proof. solve_decision. Defined.

Definition check (e : t) : result string unit :=
  throw_if (negb (opaque_id (message_id e))) "message_id" ≫= λ _,
  throw_if (negb (opaque_id (workflow_id e))) "workflow_id" ≫= λ _,
  throw_if (negb (opaque_id (incident_id e))) "incident_id" ≫= λ _,
  throw_if (negb (opaque_id (trace_id e))) "trace_id" ≫= λ _,
  throw_if (negb (opaque_id (idempotency_key e))) "idempotency_key".

Definition items `{Runtime} (message_type : string) (e : t) : list (string * json) :=
  [ ("schema_version", JStr SCHEMA_VERSION);
    ("message_type", JStr message_type);
    ("message_id", JStr (message_id e));
    ("workflow_id", JStr (workflow_id e));
    ("incident_id", JStr (incident_id e));
    ("trace_id", JStr (trace_id e));
    ("idempotency_key", JStr (idempotency_key e));
    ("sent_at", JStr (iso_utc (sent_at e))) ]%string.
End Envelope.

(** ** The eight messages *)

Record IncidentTrigger := mk_trigger {
  trigger_incident : Incident.t;
  trigger_summary_zh : string
}.
Record RcaRequest := mk_rca_request {
  rca_incident : Incident.t;
  rca_based_on_revision : Z;
  rca_requested_report_version : Z
}.
Record RcaResult := mk_rca_result {
  result_request_message_id : string;
  result_report : RcaReport.t;
  result_based_on_revision : Z;
  result_requested_report_version : Z;
  result_summary_zh : string
}.
Record ApprovalRequest := mk_approval_request {
  ask_request_id : string;
  ask_approval_type : ApprovalType.t;
  ask_report : RcaReport.t;
  ask_action : option RemediationAction.t;
  ask_scope : list ResourceReference.t;
  ask_based_on_revision : Z;
  ask_expires_at : option Z;
  ask_summary_zh : string
}.
Record ApprovalResult := mk_approval_result {
  answer_request_id : string;
  answer_decision : ApprovalDecision.t;
  answer_summary_zh : string
}.
Record NetworkChangeRequest := mk_network_change {
  change_action : RemediationAction.t;
  change_report : RcaReport.t;
  change_based_on_revision : Z;
  change_approval_reference : ApprovalReference.t
}.
Record VerificationRequest := mk_verification_request {
  verify_action_run : ActionRun.t;
  verify_verification : VerificationRun.t
}.
Record VerificationResult := mk_verification_result {
  verified_verification : VerificationRun.t;
  verified_summary_zh : string
}.

(** The union [ContractPayload]. *)
Inductive Body :=
| ITrigger (b : IncidentTrigger)
| IRcaRequest (b : RcaRequest)
| IRcaResult (b : RcaResult)
| IApprovalRequest (b : ApprovalRequest)
| IApprovalResult (b : ApprovalResult)
| INetworkChange (b : NetworkChangeRequest)
| IVerificationRequest (b : VerificationRequest)
| IVerificationResult (b : VerificationResult).
Record ContractMessage := mk_message { envelope : Envelope.t; body : Body }.

(** [_MESSAGE_TYPES] and the [message_type] literals. *)
Inductive MessageType :=
| TIncidentTrigger | TRcaRequest | TRcaResult | TApprovalRequest | TApprovalResult
| TNetworkChangeRequest | TVerificationRequest | TVerificationResult.
#[export] Instance message_type_eq_dec : EqDecision MessageType.
Proof. solve_decision. Defined.

Definition message_type_value (t : MessageType) : string :=
  match t with
  | TIncidentTrigger => "incident_trigger"
  | TRcaRequest => "rca_request"
  | TRcaResult => "rca_result"
  | TApprovalRequest => "approval_request"
  | TApprovalResult => "approval_result"
  | TNetworkChangeRequest => "network_change_request"
  | TVerificationRequest => "verification_request"
  | TVerificationResult => "verification_result"
  end.
Definition MESSAGE_TYPES : list MessageType :=
  [TIncidentTrigger; TRcaRequest; TRcaResult; TApprovalRequest; TApprovalResult;
   TNetworkChangeRequest; TVerificationRequest; TVerificationResult].
Definition type_of (b : Body) : MessageType :=
  match b with
  | ITrigger _ => TIncidentTrigger
  | IRcaRequest _ => TRcaRequest
  | IRcaResult _ => TRcaResult
  | IApprovalRequest _ => TApprovalRequest
  | IApprovalResult _ => TApprovalResult
  | INetworkChange _ => TNetworkChangeRequest
  | IVerificationRequest _ => TVerificationRequest
  | IVerificationResult _ => TVerificationResult
  end.

(** ** Binding checks: the [model_validator]s *)

(** [_resource_identities]: the same sorted texts as [_resource_scope_identity]. *)
Definition resource_identities `{Runtime} (rs : list ResourceReference.t) : list string :=
  py_sorted String.leb (map (λ r, dumps (ResourceReference.stable_identity r)) rs).

(** [_report_contains_action]. *)
Definition report_contains_action `{Runtime} (report : RcaReport.t)
    (action : RemediationAction.t) : bool :=
  existsb (λ r, bool_decide (RemediationAction.action_id r = RemediationAction.action_id action)
                && bool_decide (RemediationAction.action_hash r
                                = RemediationAction.action_hash action))
    (RcaReport.recommendations report).

Definition differ {A} `{EqDecision A} (x y : A) : bool := negb (bool_decide (x = y)).

Lemma differ_false {A} `{EqDecision A} (x y : A) : differ x y = false ↔ x = y.
Proof. unfold differ. by rewrite negb_false_iff, bool_decide_eq_true. Qed.

Lemma throw_differ {A E} `{EqDecision A} (x y : A) (e : E) u :
  throw_if (differ x y) e = Ok u ↔ x = y.
Proof. by rewrite throw_if_Ok, differ_false. Qed.

Definition check_incident_envelope (e : Envelope.t) (i : Incident.t) : result string unit :=
  throw_if (differ (Incident.incident_id i) (Envelope.incident_id e))
    "incident.incident_id must match envelope incident_id" ≫= λ _,
  throw_if (differ (Incident.trace_id i) (Envelope.trace_id e))
    "incident.trace_id must match envelope trace_id".

Definition check_trigger (e : Envelope.t) (b : IncidentTrigger) : result string unit :=
  check_incident_envelope e (trigger_incident b).

Definition check_rca_request (e : Envelope.t) (b : RcaRequest) : result string unit :=
  check_incident_envelope e (rca_incident b) ≫= λ _,
  throw_if (differ (Incident.revision (rca_incident b)) (rca_based_on_revision b))
    "based_on_revision must match incident.revision".

Definition check_report_envelope (e : Envelope.t) (r : RcaReport.t) : result string unit :=
  throw_if (differ (RcaReport.incident_id r) (Envelope.incident_id e))
    "report.incident_id must match envelope incident_id".

Definition check_rca_result (e : Envelope.t) (b : RcaResult) : result string unit :=
  check_report_envelope e (result_report b) ≫= λ _,
  throw_if (differ (RcaReport.version (result_report b)) (result_requested_report_version b))
    "report.version must match requested_report_version".

Definition check_approval_request `{Runtime} (e : Envelope.t) (b : ApprovalRequest) :
    result string unit :=
  check_report_envelope e (ask_report b) ≫= λ _,
  if bool_decide (ask_approval_type b = ApprovalType.NETWORK_ACTION) then
    of_option (ask_action b) "network action approval requires an action" ≫= λ action,
    throw_if (isNone (ask_expires_at b)) "network action approval requires expires_at" ≫= λ _,
    throw_if (match ask_scope b with [] => true | _ => false end)
      "network action approval requires non-empty scope" ≫= λ _,
    throw_if (differ (resource_identities (ask_scope b))
                (resource_identities (RemediationAction.target_resources action)))
      "approval scope must exactly match action targets" ≫= λ _,
    throw_if (negb (report_contains_action (ask_report b) action))
      "action must be an immutable recommendation in report"
  else Ok tt.

Definition check_approval_result (e : Envelope.t) (b : ApprovalResult) : result string unit :=
  throw_if (differ (ApprovalDecision.request_id (answer_decision b)) (answer_request_id b))
    "decision.request_id must match request_id" ≫= λ _,
  throw_if (differ (ApprovalDecision.incident_id (answer_decision b)) (Envelope.incident_id e))
    "decision.incident_id must match envelope incident_id".

Definition check_network_change `{Runtime} (e : Envelope.t) (b : NetworkChangeRequest) :
    result string unit :=
  let reference := change_approval_reference b in
  check_report_envelope e (change_report b) ≫= λ _,
  throw_if (differ (ApprovalReference.incident_id reference) (Envelope.incident_id e))
    "approval reference is bound to another incident" ≫= λ _,
  throw_if (differ (ApprovalReference.report_id reference) (RcaReport.report_id (change_report b)))
    "approval reference report_id does not match report" ≫= λ _,
  throw_if (differ (ApprovalReference.report_version reference)
              (RcaReport.version (change_report b)))
    "approval reference report_version does not match report" ≫= λ _,
  throw_if (differ (ApprovalReference.subject_id reference)
              (RemediationAction.action_id (change_action b)))
    "approval reference subject_id does not match action" ≫= λ _,
  throw_if (differ (ApprovalReference.action_hash reference)
              (RemediationAction.action_hash (change_action b)))
    "approval reference action_hash does not match action" ≫= λ _,
  throw_if (differ (ApprovalReference.based_on_revision reference) (change_based_on_revision b))
    "approval reference revision does not match request" ≫= λ _,
  throw_if (negb (report_contains_action (change_report b) (change_action b)))
    "action must be an immutable recommendation in report".

Definition check_verification_request (e : Envelope.t) (b : VerificationRequest) :
    result string unit :=
  throw_if (differ (ActionRun.status (verify_action_run b)) ActionRunStatus.SUCCEEDED)
    "verification requires a SUCCEEDED ActionRun" ≫= λ _,
  throw_if (differ (ActionRun.incident_id (verify_action_run b)) (Some (Envelope.incident_id e)))
    "action_run.incident_id must match envelope incident_id" ≫= λ _,
  throw_if (differ (VerificationRun.incident_id (verify_verification b))
              (Some (Envelope.incident_id e)))
    "verification.incident_id must match envelope incident_id" ≫= λ _,
  throw_if (negb (bool_decide (ActionRun.action_run_id (verify_action_run b)
                               ∈ VerificationRun.action_run_ids (verify_verification b))))
    "verification must include action_run.action_run_id".

Definition check_verification_result (e : Envelope.t) (b : VerificationResult) :
    result string unit :=
  throw_if (differ (VerificationRun.incident_id (verified_verification b))
              (Some (Envelope.incident_id e)))
    "verification.incident_id must match envelope incident_id".

Definition check_bindings `{Runtime} (m : ContractMessage) : result string unit :=
  let e := envelope m in
  match body m with
  | ITrigger b => check_trigger e b
  | IRcaRequest b => check_rca_request e b
  | IRcaResult b => check_rca_result e b
  | IApprovalRequest b => check_approval_request e b
  | IApprovalResult b => check_approval_result e b
  | INetworkChange b => check_network_change e b
  | IVerificationRequest b => check_verification_request e b
  | IVerificationResult b => check_verification_result e b
  end.

(** ** Field constraints *)

Definition check_incident `{Runtime} (i : Incident.t) : result string unit :=
  Incident.model_validate i ≫= λ _, Ok tt.

Definition check_body_fields `{Runtime} (b : Body) : result string unit :=
  match b with
  | ITrigger b =>
      check_incident (trigger_incident b) ≫= λ _,
      throw_if (negb (short_text (trigger_summary_zh b))) "summary_zh"
  | IRcaRequest b =>
      check_incident (rca_incident b) ≫= λ _,
      throw_if (rca_based_on_revision b <? 0) "based_on_revision" ≫= λ _,
      throw_if (rca_requested_report_version b <? 1) "requested_report_version"
  | IRcaResult b =>
      throw_if (negb (opaque_id (result_request_message_id b))) "request_message_id" ≫= λ _,
      RcaReport.check (result_report b) ≫= λ _,
      throw_if (result_based_on_revision b <? 0) "based_on_revision" ≫= λ _,
      throw_if (result_requested_report_version b <? 1) "requested_report_version" ≫= λ _,
      throw_if (negb (short_text (result_summary_zh b))) "summary_zh"
  | IApprovalRequest b =>
      throw_if (negb (opaque_id (ask_request_id b))) "request_id" ≫= λ _,
      RcaReport.check (ask_report b) ≫= λ _,
      match ask_action b with Some a => RemediationAction.check a | None => Ok tt end ≫= λ _,
      for_each ResourceReference.check (ask_scope b) ≫= λ _,
      throw_if (ask_based_on_revision b <? 0) "based_on_revision" ≫= λ _,
      throw_if (negb (short_text (ask_summary_zh b))) "summary_zh"
  | IApprovalResult b =>
      throw_if (negb (opaque_id (answer_request_id b))) "request_id" ≫= λ _,
      ApprovalDecision.check (answer_decision b) ≫= λ _,
      throw_if (negb (short_text (answer_summary_zh b))) "summary_zh"
  | INetworkChange b =>
      RemediationAction.check (change_action b) ≫= λ _,
      RcaReport.check (change_report b) ≫= λ _,
      throw_if (change_based_on_revision b <? 0) "based_on_revision" ≫= λ _,
      ApprovalReference.check (change_approval_reference b)
  | IVerificationRequest b =>
      ActionRun.check (verify_action_run b) ≫= λ _,
      VerificationRun.check (verify_verification b)
  | IVerificationResult b =>
      VerificationRun.check (verified_verification b) ≫= λ _,
      throw_if (negb (short_text (verified_summary_zh b))) "summary_zh"
  end.

(** What pydantic checks when it builds a message. *)
Definition check_message `{Runtime} (m : ContractMessage) : result string unit :=
  Envelope.check (envelope m) ≫= λ _,
  check_body_fields (body m) ≫= λ _,
  check_bindings m.

(** ** The way out *)

Definition body_items `{Runtime} (b : Body) : list (string * json) :=
  match b with
  | ITrigger b =>
      [("incident", Incident.to_json (trigger_incident b));
       ("summary_zh", JStr (trigger_summary_zh b))]
  | IRcaRequest b =>
      [("incident", Incident.to_json (rca_incident b));
       ("based_on_revision", JInt (rca_based_on_revision b));
       ("requested_report_version", JInt (rca_requested_report_version b))]
  | IRcaResult b =>
      [("request_message_id", JStr (result_request_message_id b));
       ("report", RcaReport.to_json (result_report b));
       ("based_on_revision", JInt (result_based_on_revision b));
       ("requested_report_version", JInt (result_requested_report_version b));
       ("summary_zh", JStr (result_summary_zh b))]
  | IApprovalRequest b =>
      [("request_id", JStr (ask_request_id b));
       ("approval_type", JStr (ApprovalType.value (ask_approval_type b)));
       ("report", RcaReport.to_json (ask_report b));
       ("action", json_opt RemediationAction.to_json (ask_action b));
       ("scope", json_list ResourceReference.to_json (ask_scope b));
       ("based_on_revision", JInt (ask_based_on_revision b));
       ("expires_at", json_opt (JStr ∘ iso_utc) (ask_expires_at b));
       ("summary_zh", JStr (ask_summary_zh b))]
  | IApprovalResult b =>
      [("request_id", JStr (answer_request_id b));
       ("decision", ApprovalDecision.to_json (answer_decision b));
       ("summary_zh", JStr (answer_summary_zh b))]
  | INetworkChange b =>
      [("action", RemediationAction.to_json (change_action b));
       ("report", RcaReport.to_json (change_report b));
       ("based_on_revision", JInt (change_based_on_revision b));
       ("approval_reference", ApprovalReference.to_json (change_approval_reference b))]
  | IVerificationRequest b =>
      [("action_run", ActionRun.to_json (verify_action_run b));
       ("verification", VerificationRun.to_json (verify_verification b))]
  | IVerificationResult b =>
      [("verification", VerificationRun.to_json (verified_verification b));
       ("summary_zh", JStr (verified_summary_zh b))]
  end%string.

(** [model_dump(mode="json", round_trip=True)]. *)
Definition message_json `{Runtime} (m : ContractMessage) : json :=
  JObj (dict_of_items
    (Envelope.items (message_type_value (type_of (body m))) (envelope m) ++ body_items (body m))).

(** [to_data_part()]. *)
Definition to_data_part `{Runtime} (m : ContractMessage) : result exc json :=
  let payload := message_json m in
  assert_payload_budget payload ≫= λ _,
  throw_if (negb (model_safe payload))
    (ContractEncodeError "canonical payload violates the privacy policy") ≫= λ _,
  Ok payload.

(** [to_display_text()]. *)
Definition to_display_text (m : ContractMessage) : string :=
  "[" +:+ SCHEMA_VERSION +:+ "] " +:+ message_type_value (type_of (body m))
  +:+ " incident_id=" +:+ Envelope.incident_id (envelope m)
  +:+ " workflow_id=" +:+ Envelope.workflow_id (envelope m)
  +:+ " trace_id=" +:+ Envelope.trace_id (envelope m).

(** ** [validate_approval_reference] *)

Definition reference_matches (r : ApprovalReference.t) (d : ApprovalDecision.t) : bool :=
  bool_decide (ApprovalDecision.incident_id d = ApprovalReference.incident_id r)
  && bool_decide (ApprovalDecision.report_id d = ApprovalReference.report_id r)
  && (ApprovalDecision.report_version d =? ApprovalReference.report_version r)
  && bool_decide (ApprovalDecision.subject_id d = ApprovalReference.subject_id r)
  && bool_decide (ApprovalDecision.action_hash d = Some (ApprovalReference.action_hash r)).

Definition validate_approval_reference `{Runtime} (reference : ApprovalReference.t)
    (decisions : list ApprovalDecision.t) (action : RemediationAction.t) (report : RcaReport.t)
    (trusted_now : pydatetime) : result exc ApprovalDecision.t :=
  match trusted_now with
  | Naive _ => Err (ApprovalAuthorizationError "trusted_now must include a timezone")
  | Aware local offset =>
      let matching := py_sorted seq_leb
        (filter (λ d, ApprovalDecision.request_id d = ApprovalReference.request_id reference)
           decisions) in
      throw_if (match matching with [] => true | _ => false end)
        (ApprovalAuthorizationError "approval request was not found") ≫= λ _,
      throw_if (differ (map ApprovalDecision.sequence matching) (range (length matching)))
        (ApprovalAuthorizationError "approval lifecycle is not contiguous") ≫= λ _,
      of_option (last matching) (RuntimeError "unreachable") ≫= λ latest,
      throw_if (differ (ApprovalDecision.approval_id latest)
                  (ApprovalReference.approval_id reference)
                || differ (ApprovalDecision.sequence latest)
                     (ApprovalReference.decision_sequence reference))
        (ApprovalAuthorizationError "approval reference is not the latest decision") ≫= λ _,
      throw_if (negb (reference_matches reference latest))
        (ApprovalAuthorizationError "approval reference binding does not match") ≫= λ _,
      throw_if (negb (ApprovalDecision.covers_action latest action
                        (ApprovalReference.incident_id reference) report))
        (ApprovalAuthorizationError "latest decision does not cover the action") ≫= λ _,
      throw_if (negb (ApprovalDecision.is_effective latest (local - offset)))
        (ApprovalAuthorizationError "latest decision is not effective") ≫= λ _,
      Ok latest
  end.

(** ** The way in *)

(** [data.get(key)]. *)
Fixpoint dict_get (key : string) (items : list (string * json)) : option json :=
  match items with
  | [] => None
  | (k, v) :: items => if bool_decide (k = key) then Some v else dict_get key items
  end.

Definition message_type_of (s : string) : option MessageType :=
  next_such (λ t, bool_decide (message_type_value t = s)) MESSAGE_TYPES.

(** pydantic's error list: the location of each error and its type. *)
Definition LocPart : Type := string + Z.
Definition ErrorItem : Type := list LocPart * string.

(** [model_fields] of the models nested in the messages. *)
Definition nested_fields : list string :=
  [ (* Incident *) "schema_version"; "incident_id"; "correlation_key"; "source_event_ids";
    "technology"; "vendor_profile"; "status"; "severity"; "title"; "description";
    "affected_resources"; "detected_at"; "window_start"; "window_end"; "violated_kpis";
    "evidence_refs"; "hypotheses"; "root_cause"; "rca_reports"; "recommendations"; "approvals";
    "action_runs"; "verification_runs"; "model_metadata"; "rule_versions"; "trace_id";
    "duplicate_of"; "created_at"; "updated_at"; "revision";
    (* RcaReport *) "report_id"; "version"; "summary"; "conclusion"; "confidence"; "generated_by";
    (* RemediationAction *) "action_id"; "action_type"; "target_resources"; "parameters";
    "risk_level"; "requires_approval"; "reversible"; "rollback_plan"; "expected_outcome";
    "idempotency_key";
    (* ApprovalDecision *) "approval_id"; "request_id"; "sequence"; "report_version";
    "subject_id"; "approval_type"; "action_hash"; "scope"; "requested_by"; "decided_by";
    "reason"; "requested_at"; "decided_at"; "expires_at";
    (* ApprovalReference *) "decision_sequence"; "based_on_revision"; "validated_at";
    "validator_id";
    (* ActionRun *) "action_run_id"; "attempt"; "started_at"; "finished_at"; "output_summary";
    "error"; "metadata";
    (* VerificationRun *) "verification_id"; "action_run_ids"; "checks"; "observed_kpis";
    (* ResourceReference *) "resource_id"; "resource_type"; "name"; "parent_resource_id";
    "location_id"; "external_ids"; "attributes" ]%string.

(** [model_fields] of a message class. *)
Definition envelope_fields : list string :=
  ["schema_version"; "message_type"; "message_id"; "workflow_id"; "incident_id"; "trace_id";
   "idempotency_key"; "sent_at"]%string.
Definition body_fields (t : MessageType) : list string :=
  match t with
  | TIncidentTrigger => ["incident"; "summary_zh"]
  | TRcaRequest => ["incident"; "based_on_revision"; "requested_report_version"]
  | TRcaResult =>
      ["request_message_id"; "report"; "based_on_revision"; "requested_report_version";
       "summary_zh"]
  | TApprovalRequest =>
      ["request_id"; "approval_type"; "report"; "action"; "scope"; "based_on_revision";
       "expires_at"; "summary_zh"]
  | TApprovalResult => ["request_id"; "decision"; "summary_zh"]
  | TNetworkChangeRequest => ["action"; "report"; "based_on_revision"; "approval_reference"]
  | TVerificationRequest => ["action_run"; "verification"]
  | TVerificationResult => ["verification"; "summary_zh"]
  end%string.
Definition safe_field_names (t : MessageType) : list string :=
  envelope_fields ++ body_fields t ++ nested_fields.

(** One part of an error location. *)
Definition unknown_field : string := "<unknown_field>".
Definition part_text (t : MessageType) (p : LocPart) : string :=
  match p with
  | inl name => if bool_decide (name ∈ safe_field_names t) then name else unknown_field
  | inr n => pretty n
  end.
Fixpoint joined (sep : string) (parts : list string) : string :=
  match parts with
  | [] => EmptyString
  | [p] => p
  | p :: parts => p +:+ sep +:+ joined sep parts
  end.
Definition safe_error (t : MessageType) (e : ErrorItem) : string * string :=
  (joined "." (map (part_text t) e.1), e.2).

(** What the boundary uses of pydantic and of Python: [model_validate] of a
    message class, and [repr] of a text. *)
Class Decoder := {
  model_validate : MessageType → json → list ErrorItem + ContractMessage;
  str_repr : string → string
}.

Section parsing.
Context `{Runtime, Decoder}.

(** [f"{safe_errors!r}"]. *)
Definition errors_text (errors : list (string * string)) : string :=
  "[" +:+ joined ", " (map (λ e, "{'location': " +:+ str_repr e.1 +:+ ", 'type': "
                                 +:+ str_repr e.2 +:+ "}") errors) +:+ "]".

(** [parse_contract_message(data)]. *)
Definition parse_contract_message (data : json) : result exc ContractMessage :=
  match data with
  | JObj items =>
      assert_payload_budget data ≫= λ _,
      throw_if (negb (model_safe data))
        (ContractDecodeError "canonical payload violates the privacy policy") ≫= λ _,
      throw_if (differ (dict_get "schema_version" items) (Some (JStr SCHEMA_VERSION)))
        (ContractDecodeError "unsupported or missing schema_version") ≫= λ _,
      of_option (match dict_get "message_type" items with
                 | Some (JStr s) => message_type_of s
                 | _ => None
                 end)
        (ContractDecodeError "unsupported or missing message_type") ≫= λ message_type,
      match model_validate message_type data with
      | inr message => Ok message
      | inl errors =>
          Err (ContractDecodeError ("invalid canonical payload fields: " +:+
            errors_text (map (safe_error message_type) errors)))
      end
  | _ => Err (ContractDecodeError "canonical payload must be a structured mapping")
  end.
End parsing.
