(* ===== verification/ContractProps.v ===== *)
(** * What the contracts guarantee

    Authorization through a reference, the bindings of a network change
    request, and the two boundaries a message crosses. *)

From Stdlib Require Import Ascii String.
From stdpp Require Import pretty.
From S2P Require Import Prelude PyStr Json Reference Privacy Models Incident Errors StateMachine Samples Binding Budget Contracts.
From S2P Require Import PyEq.

(** ** Dictionaries of a message *)

Lemma dict_get_set key k v (l : list (string * json)) :
  dict_get key (dict_set k v l) = if bool_decide (k = key) then Some v else dict_get key l.
Proof.
  induction l as [|[k' v'] l IH]; cbn; [done|].
  destruct (bool_decide_reflect (k = k')) as [->|Hne]; cbn.
  { by destruct (bool_decide_reflect (k' = key)). }
  destruct (String.leb k k'); cbn; [done|]. rewrite IH.
  destruct (bool_decide_reflect (k = key)), (bool_decide_reflect (k' = key)); congruence.
Qed.

Lemma dict_get_of_items key (items : list (string * json)) :
  dict_get key (dict_of_items items) = dict_get key (rev items).
Proof.
  unfold dict_of_items.
  assert (∀ d, dict_get key (foldl (λ d (kv : string * json), dict_set kv.1 kv.2 d) d items)
    = match dict_get key (rev items) with Some v => Some v | None => dict_get key d end) as H.
  { assert (∀ l k : list (string * json), dict_get key (l ++ k)
      = match dict_get key l with Some v => Some v | None => dict_get key k end) as Happ.
    { induction l as [|[k' v'] l IH]; intros k; cbn; [done|]. by destruct (bool_decide _). }
    induction items as [|[k v] items IH]; intros d; cbn; [done|].
    rewrite IH, Happ, dict_get_set. cbn.
    destruct (dict_get key (rev items)); [done|]. by destruct (bool_decide _). }
  rewrite H. by destruct (dict_get key (rev items)).
Qed.

Lemma message_type_of_value t : message_type_of (message_type_value t) = Some t.
Proof. by destruct t. Qed.

Lemma message_type_of_Some s t : message_type_of s = Some t → s = message_type_value t.
Proof. by intros [_ ->%bool_decide_eq_true]%next_such_Some. Qed.

Lemma message_header `{Runtime} m :
  ∃ items, message_json m = JObj items ∧
    dict_get "schema_version" items = Some (JStr SCHEMA_VERSION) ∧
    dict_get "message_type" items = Some (JStr (message_type_value (type_of (body m)))).
Proof.
  eexists. split; [done|]. rewrite !dict_get_of_items. destruct m as [e []]; done.
Qed.

(** ** Authorization *)

Definition lifecycle (request_id : string) (ds : list ApprovalDecision.t) :
    list ApprovalDecision.t :=
  py_sorted seq_leb (filter (λ d, ApprovalDecision.request_id d = request_id) ds).

Definition contiguous (events : list ApprovalDecision.t) : Prop :=
  map ApprovalDecision.sequence events = range (length events).

(** A reference names a decision. *)
Definition names (r : ApprovalReference.t) (d : ApprovalDecision.t) : Prop :=
  ApprovalDecision.approval_id d = ApprovalReference.approval_id r ∧
  ApprovalDecision.sequence d = ApprovalReference.decision_sequence r ∧
  ApprovalDecision.incident_id d = ApprovalReference.incident_id r ∧
  ApprovalDecision.report_id d = ApprovalReference.report_id r ∧
  ApprovalDecision.report_version d = ApprovalReference.report_version r ∧
  ApprovalDecision.subject_id d = ApprovalReference.subject_id r ∧
  ApprovalDecision.action_hash d = Some (ApprovalReference.action_hash r).

(** The decision a reference to it must be. *)
Definition reference_to (d : ApprovalDecision.t) (hash : string) : ApprovalReference.t :=
  ApprovalReference.mk (ApprovalDecision.approval_id d) (ApprovalDecision.request_id d)
    (ApprovalDecision.sequence d) (ApprovalDecision.incident_id d)
    (ApprovalDecision.report_id d) (ApprovalDecision.report_version d)
    (ApprovalDecision.subject_id d) hash 0 0 "gateway".

Lemma reference_matches_spec r d :
  reference_matches r d = true ↔
  ApprovalDecision.incident_id d = ApprovalReference.incident_id r ∧
  ApprovalDecision.report_id d = ApprovalReference.report_id r ∧
  ApprovalDecision.report_version d = ApprovalReference.report_version r ∧
  ApprovalDecision.subject_id d = ApprovalReference.subject_id r ∧
  ApprovalDecision.action_hash d = Some (ApprovalReference.action_hash r).
Proof.
  unfold reference_matches. rewrite !andb_true_iff, !bool_decide_eq_true, Z.eqb_eq. tauto.
Qed.

(** The last of a contiguous lifecycle has the greatest sequence number. *)
Lemma contiguous_last events d e :
  contiguous events → last events = Some d → e ∈ events →
  e = d ∨ ApprovalDecision.sequence e < ApprovalDecision.sequence d.
Proof.
  intros Hc Hd He. apply last_Some in Hd as [front ->].
  apply elem_of_app in He as [He| ->%list_elem_of_singleton]; [right|by left].
  unfold contiguous, range in Hc. rewrite map_app, length_app, seq_app, fmap_app in Hc.
  apply app_inj_1 in Hc as [Hf Hl]; [|by rewrite length_map, length_fmap, length_seq].
  cbn in Hl. injection Hl as Hl.
  assert (ApprovalDecision.sequence e ∈ range (length front)) as Hin
    by (unfold range; rewrite <- Hf; by apply list_elem_of_fmap_2).
  apply range_elem in Hin. lia.
Qed.

Section authorization.
Context `{R : Runtime}.

Lemma covers_action_facts d action id report :
  ApprovalDecision.covers_action d action id report = true ↔
  ApprovalDecision.incident_id d = id ∧
  (ApprovalDecision.is_network_action d = true ∧ RcaReport.incident_id report = id ∧
   ApprovalDecision.report_id d = RcaReport.report_id report ∧
   ApprovalDecision.report_version d = RcaReport.version report ∧
   ApprovalDecision.subject_id d = RemediationAction.action_id action ∧
   resource_scope_identity (ApprovalDecision.scope d)
     = resource_scope_identity (RemediationAction.target_resources action)) ∧
  ApprovalDecision.action_hash d = Some (RemediationAction.action_hash action).
Proof.
  unfold ApprovalDecision.covers_action.
  rewrite !andb_true_iff, !bool_decide_eq_true, Z.eqb_eq. tauto.
Qed.

Lemma validate_reference_spec reference ds action report local offset d :
  validate_approval_reference reference ds action report (Aware local offset) = Ok d ↔
  let events := lifecycle (ApprovalReference.request_id reference) ds in
  contiguous events ∧ last events = Some d ∧ names reference d ∧
  ApprovalDecision.covers_action d action (ApprovalReference.incident_id reference) report
    = true ∧
  ApprovalDecision.is_effective d (local - offset) = true.
Proof.
  unfold validate_approval_reference, names. cbn zeta. fold (lifecycle (ApprovalReference.request_id reference) ds).
  set (events := lifecycle _ _). split.
  - intros H. run_ok. subst.
    match goal with H : _ || _ = false |- _ => apply orb_false_iff in H as [? ?] end.
    rewrite !differ_false, !negb_false_iff in *.
    match goal with H : reference_matches _ _ = true |- _ =>
      apply reference_matches_spec in H; destruct_and! H end.
    by split_and!.
  - intros (Hc & Hl & (H1 & H2 & H3) & Hcov & Heff).
    destruct events as [|x events]; [done|]. cbn [throw_if mbind result_bind].
    rewrite (proj2 (differ_false _ _)) by done. cbn [throw_if mbind result_bind].
    rewrite Hl. cbn [of_option mbind result_bind].
    rewrite !(proj2 (differ_false _ _)) by done. cbn [orb throw_if mbind result_bind].
    rewrite (proj2 (reference_matches_spec _ _)) by done. cbn [negb throw_if mbind result_bind].
    by rewrite Hcov, Heff.
Qed.

Lemma validate_reference_raises reference ds action report now :
  raises (λ e, ∃ msg, e = ApprovalAuthorizationError msg)
    (validate_approval_reference reference ds action report now).
Proof.
  unfold validate_approval_reference. destruct now; [raises_tac; eauto|].
  destruct (py_sorted _ _) as [|x l]; cbn [throw_if mbind result_bind]; [raises_tac; eauto|].
  destruct (last (x :: l)) as [d|] eqn:E; [|by apply last_None in E].
  cbn [of_option mbind result_bind]. raises_tac; eauto.
Qed.

Lemma last_is_latest i r d :
  contiguous (ordered_events i r) → last (ordered_events i r) = Some d →
  Incident.latest_approval_decision i r = Some d.
Proof.
  intros Hc Hl. unfold Incident.latest_approval_decision. fold (request_events i r).
  assert (∀ e, e ∈ request_events i r ↔ e ∈ ordered_events i r) as Hin
    by (intros e; symmetry; apply elem_of_py_sorted).
  apply max_by_greatest.
  - apply Hin. by apply last_Some_elem_of.
  - intros e He%Hin. by apply (contiguous_last (ordered_events i r)).
Qed.

Lemma latest_is_last i r d :
  valid i → Incident.latest_approval_decision i r = Some d →
  contiguous (ordered_events i r) ∧ last (ordered_events i r) = Some d.
Proof.
  intros Hv H. pose proof (latest_approval_decision_spec _ _ _ H) as (Hd & <- & _).
  destruct (valid_ordered_events i d Hv Hd) as (first & rest & He & Hc & _).
  rewrite <- He in Hc. split; [done|].
  destruct (last (ordered_events i _)) as [d'|] eqn:E; [|apply last_None in E; congruence].
  rewrite (last_is_latest _ _ _ Hc E) in H. done.
Qed.

(** C12. A reference authorizes exactly the decision it names: the lookup
    returns [d] if and only if the events of the request are numbered without
    gaps, [d] is the last of them, the reference names [d] in every field,
    [d] covers the action of the report, and [d] is effective at the trusted
    instant.  In every other case it raises [ApprovalAuthorizationError]. *)
Theorem authorization_exact reference ds action report local offset d :
  (validate_approval_reference reference ds action report (Aware local offset) = Ok d ↔
   let events := lifecycle (ApprovalReference.request_id reference) ds in
   contiguous events ∧ last events = Some d ∧ names reference d ∧
   ApprovalDecision.covers_action d action (ApprovalReference.incident_id reference) report
     = true ∧
   ApprovalDecision.is_effective d (local - offset) = true) ∧
  ∀ now, raises (λ e, ∃ msg, e = ApprovalAuthorizationError msg)
    (validate_approval_reference reference ds action report now).
Proof. split; [apply validate_reference_spec|intros; apply validate_reference_raises]. Qed.

(** The gateway and the state machine agree: on the approvals of a valid
    Incident, some reference authorizes the action at an instant if and only
    if the REMEDIATING guard accepts the action at that instant. *)
Theorem authorization_agrees_with_guard i action report now :
  valid i →
  (∃ reference d, ApprovalReference.incident_id reference = Incident.incident_id i ∧
     validate_approval_reference reference (Incident.approvals i) action report (Aware now 0)
       = Ok d) ↔
  action_approved i report now action = true.
Proof.
  intros Hv. rewrite action_approved_spec. split.
  - intros (reference & d & Hi & (Hc & Hl & _ & Hcov & Heff)%validate_reference_spec).
    exists (ApprovalReference.request_id reference), d.
    rewrite Z.sub_0_r, Hi in *. split; [by apply last_is_latest|done].
  - intros (r & d & Hd & Hcov & Heff).
    pose proof (latest_approval_decision_spec _ _ _ Hd) as (_ & Hr & _).
    apply latest_is_last in Hd as [Hc Hl]; [|done].
    pose proof (proj1 (covers_action_facts _ _ _ _) Hcov) as (Hi & _ & Hh).
    exists (reference_to d (RemediationAction.action_hash action)), d. split; [done|].
    apply validate_reference_spec. cbn. rewrite Z.sub_0_r, Hr, Hi.
    by split_and!.
Qed.

(** An approval can be withdrawn: once a later event of the request is
    recorded, whatever it says, the older reference authorizes nothing, at any
    time and for any action. *)
Theorem superseded_reference_refused reference ds action report now e :
  e ∈ ds → ApprovalDecision.request_id e = ApprovalReference.request_id reference →
  ApprovalReference.decision_sequence reference < ApprovalDecision.sequence e →
  ∃ msg, validate_approval_reference reference ds action report now
         = Err (ApprovalAuthorizationError msg).
Proof.
  intros He Hr Hlt.
  destruct (validate_approval_reference _ _ _ _ _) as [d|err] eqn:H.
  - destruct now as [|local offset]; [done|].
    apply validate_reference_spec in H as (Hc & Hl & (_ & Hs & _) & _).
    assert (e ∈ lifecycle (ApprovalReference.request_id reference) ds) as Hin.
    { unfold lifecycle. by rewrite elem_of_py_sorted, list_elem_of_filter. }
    destruct (contiguous_last _ _ _ Hc Hl Hin) as [->|]; lia.
  - destruct (validate_reference_raises _ _ _ _ _ _ H) as [msg ->]. eauto.
Qed.
End authorization.

(** ** Network change requests *)

Section network_changes.
Context `{R : Runtime, L : !RuntimeLaws R}.

Lemma report_contains_action_spec rep action :
  report_contains_action rep action = true ↔
  ∃ r, r ∈ RcaReport.recommendations rep ∧
    RemediationAction.action_id r = RemediationAction.action_id action ∧
    RemediationAction.action_hash r = RemediationAction.action_hash action.
Proof.
  unfold report_contains_action. rewrite existsb_true_iff.
  setoid_rewrite andb_true_iff. setoid_rewrite bool_decide_eq_true. done.
Qed.

(** The digest does not collide on the texts of two actions. *)
Definition distinguishable (a b : RemediationAction.t) : Prop :=
  ordered_parameters a ∧ ordered_parameters b ∧
  no_collision (RemediationAction.semantic_json a) (RemediationAction.semantic_json b) ∧
  no_collision (json_of_map id (RemediationAction.parameters a))
    (json_of_map id (RemediationAction.parameters b)).

(** Executing a network change request runs what was approved: when the
    message passes its validators and the gateway resolves its reference, the
    decision and the report belong to the Incident of the envelope, the
    decision is an effective approval whose scope is the targets of the
    action, and the action is a recommendation of the report: same identifier,
    and (unless the digest collides on the two) same effect. *)
Theorem network_change_bound e b ds now d :
  check_message (mk_message e (INetworkChange b)) = Ok tt →
  validate_approval_reference (change_approval_reference b) ds (change_action b)
    (change_report b) (Aware now 0) = Ok d →
  d ∈ ds ∧ ApprovalDecision.incident_id d = Envelope.incident_id e ∧
  RcaReport.incident_id (change_report b) = Envelope.incident_id e ∧
  ApprovalDecision.is_effective d now = true ∧
  map ResourceReference.stable_identity (ApprovalDecision.scope d) ≡ₚ
  map ResourceReference.stable_identity
    (RemediationAction.target_resources (change_action b)) ∧
  ∃ r, r ∈ RcaReport.recommendations (change_report b) ∧
    RemediationAction.action_id r = ApprovalDecision.subject_id d ∧
    (distinguishable r (change_action b) → same_effect r (change_action b)).
Proof.
  intros Hm (_ & Hl & _ & Hcov & Heff)%validate_reference_spec. rewrite Z.sub_0_r in Heff.
  unfold check_message, check_bindings, check_network_change, check_report_envelope in Hm.
  cbn [envelope body] in Hm. run_ok. rewrite !differ_false, ?negb_false_iff in *.
  pose proof (proj1 (covers_action_facts _ _ _ _) Hcov)
    as (Hi & (_ & Hri & _ & _ & Hs & Hscope) & _).
  apply last_Some_elem_of in Hl. unfold lifecycle in Hl.
  rewrite elem_of_py_sorted, list_elem_of_filter in Hl. destruct Hl as [_ Hd].
  apply resource_scope_identity_perm in Hscope.
  apply report_contains_action_spec in Hm as (r & Hr & Hid & Hh).
  split_and!; try done; [congruence|].
  exists r. split_and!; [done|congruence|].
  intros (? & ? & ? & ?). by apply action_hash_effect.
Qed.
End network_changes.

(** ** The boundaries *)

Section boundary.
Context `{R : Runtime, D : Decoder}.

(** A payload within the budget and free of subscriber identifiers. *)
Definition admissible (data : json) : Prop :=
  height data ≤ MAX_CONTRACT_DEPTH ∧ encoded_length data ≤ MAX_CONTRACT_SERIALIZED_BYTES ∧
  identifier_free data.

Lemma to_data_part_spec m j :
  to_data_part m = Ok j ↔ j = message_json m ∧ admissible j.
Proof.
  unfold to_data_part, admissible. split.
  - intros H. run_ok. subst. rewrite negb_false_iff, model_safe_free in *.
    match goal with H : assert_payload_budget _ = _ |- _ =>
      apply payload_budget_spec in H as [? ?] end. done.
  - intros (-> & Hh & Hl & Hf). rewrite (proj2 (payload_budget_spec _)) by done. cbn.
    by rewrite (proj2 (model_safe_free _) Hf).
Qed.

Lemma parse_spec data m :
  parse_contract_message data = Ok m ↔
  admissible data ∧ ∃ items t, data = JObj items ∧
    dict_get "schema_version" items = Some (JStr SCHEMA_VERSION) ∧
    dict_get "message_type" items = Some (JStr (message_type_value t)) ∧
    model_validate t data = inr m.
Proof.
  unfold parse_contract_message, admissible. split.
  - destruct data as [| | | | | |items]; try done. intros H. run_ok.
    rewrite negb_false_iff, model_safe_free, differ_false in *.
    match goal with H : assert_payload_budget _ = _ |- _ =>
      apply payload_budget_spec in H as [? ?] end.
    split; [done|].
    destruct (dict_get "message_type" items) as [[]|] eqn:Et; try done.
    match goal with H : message_type_of _ = Some ?t |- _ =>
      apply message_type_of_Some in H as ->; exists items, t end.
    destruct (model_validate _ _); naive_solver.
  - intros ((Hh & Hl & Hf) & items & t & -> & Hv & Ht & Hm).
    rewrite (proj2 (payload_budget_spec _)) by done. cbn [mbind result_bind].
    rewrite (proj2 (model_safe_free _) Hf), Ht, message_type_of_value.
    rewrite (proj2 (differ_false _ _)) by done. cbn [negb throw_if mbind result_bind of_option].
    by rewrite Hm.
Qed.

(** pydantic: a message that [model_validate] returns passed the validators
    its class declares. *)
Hypothesis model_validate_checks : ∀ t data m,
  model_validate t data = inr m → type_of (body m) = t ∧ check_message m = Ok tt.

(** The way in: a payload is accepted if and only if it is an object
    within the depth and size budgets, free of subscriber identifiers, of
    schema version 1.0 and of a known message type whose class accepts it;
    the message then has that type and satisfies every validator. *)
Theorem parse_exact data m :
  parse_contract_message data = Ok m ↔
  admissible data ∧ check_message m = Ok tt ∧
  ∃ items, data = JObj items ∧
    dict_get "schema_version" items = Some (JStr SCHEMA_VERSION) ∧
    dict_get "message_type" items = Some (JStr (message_type_value (type_of (body m)))) ∧
    model_validate (type_of (body m)) data = inr m.
Proof.
  rewrite parse_spec. split.
  - intros (Ha & items & t & -> & Hv & Ht & Hm).
    destruct (model_validate_checks _ _ _ Hm) as [<- Hc]. split_and!; [done..|]. by exists items.
  - intros (Ha & _ & items & -> & Hv & Ht & Hm). split; [done|].
    by exists items, (type_of (body m)).
Qed.
End boundary.

Section round_trip.
Context `{R : Runtime, D : Decoder}.

(** What an error of the boundary says: one of these fixed texts, or the
    errors of the class with each location masked. *)
Definition fixed_texts : list string :=
  [ "canonical payload must be a structured mapping";
    "canonical payload violates the privacy policy";
    "unsupported or missing schema_version"; "unsupported or missing message_type" ]%string.
Definition limit_texts : list string :=
  [ "canonical payload depth exceeds 24";
    "canonical payload serialized size exceeds 256000 bytes" ]%string.

(** A location that shows declared field names and positions only. *)
Definition masked (t : MessageType) (location : string) : Prop :=
  ∃ parts, location = joined "." parts ∧
    Forall (λ p, p ∈ safe_field_names t ∨ p = unknown_field ∨ ∃ n : Z, p = pretty n) parts.

Definition boundary_error (e : exc) : Prop :=
  match e with
  | ContractPayloadLimitError msg => msg ∈ limit_texts
  | ContractDecodeError msg =>
      msg ∈ fixed_texts ∨
      ∃ t errors, msg = "invalid canonical payload fields: " +:+ errors_text errors ∧
        Forall (λ e, masked t e.1) errors
  | _ => False
  end.

Lemma safe_error_masked t e : masked t (safe_error t e).1.
Proof.
  exists (map (part_text t) e.1). split; [done|]. apply Forall_fmap, Forall_true.
  intros [name|n]; cbn; [|by eauto]. case_bool_decide; auto.
Qed.

(** The boundary does not echo its input: a refused payload raises only
    [ContractDecodeError] or its [ContractPayloadLimitError], with a fixed
    text or with error locations made of declared field names, positions and
    the mark for unknown fields. *)
Theorem refusals_reveal_nothing data : raises boundary_error (parse_contract_message data).
Proof.
  unfold parse_contract_message, assert_payload_budget.
  raises_tac; cbn; try (left; unfold fixed_texts; set_solver);
    try (unfold limit_texts; set_solver).
  right. eexists _, _. split; [done|]. apply Forall_fmap, Forall_true.
  intros e. apply safe_error_masked.
Qed.
End round_trip.

(** ** Witnesses: the worked Incident asks for its remediation *)

Definition reference_1 : ApprovalReference.t :=
  reference_to approved (RemediationAction.action_hash action).
Definition envelope_1 : Envelope.t :=
  Envelope.mk "msg-1" "wf-1" "inc-1" "trace-1" "key-msg-1" 60.
Definition change_1 : NetworkChangeRequest := mk_network_change action report 0 reference_1.
Definition message_1 : ContractMessage := mk_message envelope_1 (INetworkChange change_1).

(** A decoder that knows one message. *)
#[export] Instance decoder_1 : Decoder := {
  model_validate t j :=
    if bool_decide (t = TNetworkChangeRequest) && bool_decide (j = message_json message_1)
    then inr message_1 else inl [([inl "imsi 123456"%string; inr 0], "extra_forbidden"%string)];
  str_repr s := "'" +:+ s +:+ "'"
}.

Lemma decoder_1_checks t data m :
  model_validate t data = inr m → type_of (body m) = t ∧ check_message m = Ok tt.
Proof.
  unfold model_validate, decoder_1.
  case_bool_decide as Ht; cbn [andb]; [|done]. case_bool_decide; [|done].
  intros H'. assert (m = message_1) as -> by congruence. subst t.
  split; [done|]. vm_compute. reflexivity.
Qed.

(** Data on its own: no message type. *)
Example unknown_location_is_masked :
  parse_contract_message (JObj [("message_type", JStr "rca_result");
                                ("schema_version", JStr "1.0")])
  = Err (ContractDecodeError
      "invalid canonical payload fields: [{'location': '<unknown_field>.0', 'type': 'extra_forbidden'}]").
Proof. vm_compute. reflexivity. Qed.

Lemma remediating_valid : valid remediating.
Proof. vm_compute. reflexivity. Qed.

Lemma authorization_agrees_with_guard_witness :
  ∃ reference d, ApprovalReference.incident_id reference = Incident.incident_id remediating ∧
    validate_approval_reference reference (Incident.approvals remediating) action report
      (Aware 60 0) = Ok d.
Proof.
  apply (authorization_agrees_with_guard remediating action report 60).
  - apply remediating_valid.
  - vm_compute. reflexivity.
Defined.

Definition cancelled : ApprovalDecision.t :=
  ApprovalDecision.mk "ap-2" "req-1" 2 "inc-1" "rca-1" 1 "act-1" ApprovalStatus.CANCELLED
    ApprovalType.NETWORK_ACTION (Some (RemediationAction.action_hash action)) [cell]
    (Some "planner") (Some "operator") None 40 (Some 58) (Some 1000) "key-ap-2".

Lemma superseded_reference_refused_witness :
  ∃ msg, validate_approval_reference reference_1 [pending; approved; cancelled] action report
           (Aware 60 0) = Err (ApprovalAuthorizationError msg).
Proof.
  apply (superseded_reference_refused reference_1 _ action report (Aware 60 0) cancelled);
    [set_solver|reflexivity|reflexivity].
Defined.

Lemma network_change_bound_witness :
  ∃ d, ApprovalDecision.is_effective d 60 = true ∧ ApprovalDecision.incident_id d = "inc-1"%string.
Proof.
  assert (check_message message_1 = Ok tt) as Hm by (vm_compute; reflexivity).
  assert (validate_approval_reference reference_1 [pending; approved] action report (Aware 60 0)
          = Ok approved) as Hr by (vm_compute; reflexivity).
  destruct (network_change_bound envelope_1 change_1 [pending; approved] 60 approved Hm Hr)
    as (_ & Hi & _ & He & _).
  exists approved. split; [exact He|exact Hi].
Defined.

Lemma parse_exact_witness :
  admissible (message_json message_1) ∧ check_message message_1 = Ok tt.
Proof.
  assert (parse_contract_message (message_json message_1) = Ok message_1) as H
    by (vm_compute; reflexivity).
  apply (parse_exact decoder_1_checks) in H. destruct H as (Ha & Hc & _).
  split; [exact Ha|exact Hc].
Defined.

