(* ===== verification/PrivacyProps.v ===== *)
(** * What the privacy guards guarantee

    The boundary check finds exactly the payloads that carry a subscriber
    identifier, and redaction removes them, changes nothing else and is
    idempotent. *)

From Stdlib Require Import Ascii String.
From S2P Require Import Prelude PyStr Json Reference Privacy Samples.
From S2P Require Import PyEq.

(** ** Dictionaries in key order *)

Lemma key_ltb_trans x y z : key_ltb x y = true → key_ltb y z = true → key_ltb x z = true.
Proof.
  unfold key_ltb. rewrite !andb_true_iff, !negb_true_iff, !bool_decide_eq_false.
  intros [H1 N1] [H2 N2]. split; [by eapply StringLeb_trans|].
  intros ->. by apply N1, StringLeb_antisym.
Qed.

Lemma keys_ordered_cons {A} (x : string * A) l :
  keys_ordered (x :: l) = true ↔
  Forall (λ y, key_ltb x.1 y.1 = true) l ∧ keys_ordered l = true.
Proof.
  revert x. induction l as [|y l IH]; intros x; [by cbn|].
  change (keys_ordered (x :: y :: l)) with (key_ltb x.1 y.1 && keys_ordered (y :: l)).
  rewrite andb_true_iff, Forall_cons. split; [|by intros [[? ?] ?]].
  intros [Hxy Hy]. split; [split; [done|]|done]. apply IH in Hy as [Hy _].
  eapply Forall_impl; [exact Hy|]. cbn. intros z. by apply key_ltb_trans.
Qed.

Lemma dict_set_last {A} k (v : A) l :
  Forall (λ y : string * A, key_ltb y.1 k = true) l → dict_set k v l = l ++ [(k, v)].
Proof.
  induction 1 as [|[k' v'] l Hk _ IH]; cbn; [done|].
  unfold key_ltb in Hk. cbn in Hk. apply andb_true_iff in Hk as [Hle Hne].
  rewrite negb_true_iff, bool_decide_eq_false in Hne.
  rewrite bool_decide_eq_false_2 by congruence.
  destruct (String.leb k k') eqn:E; [|by rewrite IH].
  destruct Hne. by apply StringLeb_antisym.
Qed.

Lemma dict_of_items_id {A} (l : list (string * A)) :
  keys_ordered l = true → dict_of_items l = l.
Proof.
  assert (∀ (l d : list (string * A)), keys_ordered l = true →
    Forall (λ x, Forall (λ y : string * A, key_ltb y.1 x.1 = true) d) l →
    foldl (λ d kv, dict_set kv.1 kv.2 d) d l = d ++ l) as Hgo.
  { clear l. induction l as [|[k v] l IH]; intros d Hl Hd; cbn; [by rewrite app_nil_r|].
    apply keys_ordered_cons in Hl as [Hk Hl]. apply Forall_cons in Hd as [Hkd Hd]. cbn in *.
    rewrite (dict_set_last k v d Hkd), IH, <- app_assoc; [done..|].
    apply Forall_forall. intros x Hx. rewrite Forall_forall in Hk, Hd.
    apply Forall_app. split; [by apply Hd|]. apply Forall_singleton. by apply Hk. }
  intros Hl. unfold dict_of_items. rewrite Hgo; [done..|]. by apply Forall_true.
Qed.

Lemma keys_ordered_dict_set {A} k (v : A) l :
  keys_ordered l = true → keys_ordered (dict_set k v l) = true.
Proof.
  induction l as [|[k' v'] l IH]; cbn [dict_set]; [done|].
  intros Hl. pose proof (proj1 (keys_ordered_cons _ _) Hl) as [Hk Ht]. cbn in Hk.
  destruct (bool_decide_reflect (k = k')) as [->|Hne]; [by apply keys_ordered_cons|].
  assert (String.leb k k' = true ∨ String.leb k' k = true) as Htot by apply StringLeb_total.
  destruct (String.leb k k') eqn:E; apply keys_ordered_cons; cbn [fst].
  - assert (key_ltb k k' = true) as Hkk
      by (unfold key_ltb; rewrite E; cbn; by rewrite bool_decide_eq_false_2).
    split; [|done]. constructor; [done|]. eapply Forall_impl; [exact Hk|]. cbn.
    intros y. by apply key_ltb_trans.
  - destruct Htot as [?|Htot]; [done|]. split; [|by apply IH]. apply Forall_forall.
    intros y [->|Hy]%elem_of_dict_set; cbn; [|rewrite Forall_forall in Hk; by apply Hk].
    unfold key_ltb. rewrite Htot. cbn. by rewrite bool_decide_eq_false_2 by congruence.
Qed.

Lemma keys_ordered_dict_of_items {A} (l : list (string * A)) :
  keys_ordered (dict_of_items l) = true.
Proof.
  unfold dict_of_items. assert (keys_ordered (@nil (string * A)) = true) as Hd by done.
  revert Hd. generalize (@nil (string * A)).
  induction l as [|[k v] l IH]; intros d Hd; cbn; [done|].
  by apply IH, keys_ordered_dict_set.
Qed.

(** ** The pattern *)

Section guards.
Context `{R : Runtime}.

(** A text mentions an identifier: somewhere, not inside a word, a label is
    followed by a separator and a value of at least six characters. *)
Definition mentions (s : string) : Prop :=
  ∃ before after, chars s = before ++ after ∧ labeled after ∧
    match last before with Some ch => is_word ch = false | None => True end.

Lemma search_from_spec prev l :
  search_from prev l = true ↔
  ∃ before after, l = before ++ after ∧ labeled after ∧
    match last before with
    | Some ch => is_word ch = false
    | None => match prev with Some ch => is_word ch = false | None => True end
    end.
Proof.
  assert (∀ prev l, isSome (match_here prev l) = true → ∃ before after,
    l = before ++ after ∧ labeled after ∧
    match last before with
    | Some ch => is_word ch = false
    | None => match prev with Some ch => is_word ch = false | None => True end end) as Hhere.
  { intros p k [Hp Hk]%match_here_labeled. by exists [], k. }
  revert prev. induction l as [|x l IH]; intros prev; cbn [search_from];
    rewrite orb_true_iff; split.
  - intros [H|H]; [by apply Hhere|done].
  - intros (before & after & H & Hl & Hb). symmetry in H. apply app_nil_iff in H as [-> ->].
    left. by apply match_here_labeled.
  - intros [H|H]; [by apply Hhere|]. apply IH in H as (before & after & -> & Hl & Hb).
    exists (x :: before), after. split_and!; [done..|]. rewrite last_cons.
    by destruct (last before).
  - intros (before & after & H & Hl & Hb). destruct before as [|y before].
    + cbn in H. subst. left. by apply match_here_labeled.
    + injection H as <- ->. right. apply IH. exists before, after. split_and!; [done..|].
      rewrite last_cons in Hb. by destruct (last before).
Qed.

(** C38. The boundary check is exact: a text is reported if and only if it
    mentions an identifier, and a payload passes [assert_model_safe] if and
    only if no string and no key in it mentions one and every key that names
    an identifier has an empty value. *)
Theorem boundary_check_exact :
  (∀ s, has_labeled_identifier s = true ↔ mentions s) ∧
  (∀ v, model_safe v = true ↔ identifier_free v).
Proof.
  split; [|apply model_safe_free].
  intros s. unfold has_labeled_identifier, mentions. by rewrite search_from_spec.
Qed.

Lemma identifier_free_redacted v : identifier_free v → redacted v.
Proof.
  induction v as [|b|z|f|s|l IH|l IH] using json_ind'; intros H; try by constructor.
  - constructor. by inversion H.
  - constructor. inversion_clear H. rewrite Forall_forall in *. intros x Hx. auto.
  - constructor. inversion_clear H. rewrite Forall_forall in *. intros x Hx.
    specialize (IH x Hx). match goal with H : ∀ x, x ∈ l → _ |- _ => specialize (H x Hx) end.
    naive_solver.
Qed.

(** Redaction leaves a redacted payload as it is. *)
Lemma redacted_fixed v :
  redacted v → dict_ordered v = true → redact_sensitive_data v = v.
Proof.
  induction v as [|b|z|f|s|l IH|l IH] using json_ind'; intros Hr Ho;
    cbn [redact_sensitive_data]; try done; inversion_clear Hr as [| | | | |? Hl|? Hl].
  - f_equal. by apply redact_text_unchanged.
  - f_equal. cbn in Ho. rewrite forallb_true_iff in Ho.
    rewrite Forall_forall in IH, Hl. rewrite <- map_id. apply map_ext_in.
    intros x Hx%list_elem_of_In. by apply IH; auto.
  - f_equal. cbn in Ho. apply andb_true_iff in Ho as [Hk Ho]. rewrite forallb_true_iff in Ho.
    rewrite Forall_forall in IH, Hl. rewrite <- (dict_of_items_id l Hk) at 2. f_equal.
    rewrite <- map_id. apply map_ext_in. intros [k v] Hx%list_elem_of_In.
    destruct (Hl _ Hx) as (Hlab & Hsens & Hv). specialize (IH _ Hx). specialize (Ho _ Hx).
    cbn in *. rewrite Hlab. f_equal.
    destruct (is_sensitive_key k); cbn [andb]; [|by apply IH].
    destruct (Hsens eq_refl) as [He| ->]; [|done]. rewrite He. cbn. by apply IH.
Qed.

Lemma redact_dict_ordered v :
  dict_ordered v = true → dict_ordered (redact_sensitive_data v) = true.
Proof.
  induction v as [|b|z|f|s|l IH|l IH] using json_ind'; intros Ho; cbn in *; try done.
  - rewrite forallb_true_iff in *. rewrite Forall_forall in IH.
    intros x (y & -> & Hy)%list_elem_of_fmap. auto.
  - apply andb_true_iff in Ho as [_ Ho]. rewrite keys_ordered_dict_of_items. cbn.
    rewrite forallb_true_iff in *. rewrite Forall_forall in IH.
    intros x (y & -> & Hy)%elem_of_dict_of_items%list_elem_of_fmap. cbn.
    destruct (is_sensitive_key y.1 && negb (is_empty y.2)); [done|]. by apply IH; auto.
Qed.

(** Redaction removes every mention of an identifier, keeps a payload that
    had none exactly as it was, and redacting twice is redacting once. *)
Theorem redaction_exact v :
  dict_ordered v = true →
  redacted (redact_sensitive_data v) ∧
  (identifier_free v → redact_sensitive_data v = v) ∧
  redact_sensitive_data (redact_sensitive_data v) = redact_sensitive_data v.
Proof.
  intros Ho. split_and!.
  - apply redact_sensitive_data_redacted.
  - intros Hf. apply redacted_fixed; [|done]. by apply identifier_free_redacted.
  - apply redacted_fixed; [apply redact_sensitive_data_redacted|by apply redact_dict_ordered].
Qed.
End guards.

Definition leaky : json :=
  JObj [("IMSI", JStr "310150123456789"); ("note", JStr "caller imsi=310150123456789, cell 17")].

Example leaky_redacted :
  redact_sensitive_data leaky =
  JObj [("IMSI", JStr "[REDACTED]"); ("note", JStr "caller imsi=[REDACTED], cell 17")].
Proof. vm_compute. reflexivity. Qed.

Lemma redaction_exact_witness :
  redacted (redact_sensitive_data leaky) ∧
  redact_sensitive_data (redact_sensitive_data leaky) = redact_sensitive_data leaky.
Proof. destruct (redaction_exact leaky eq_refl) as (H1 & _ & H2). split; [exact H1|exact H2]. Defined.
