(* ===== verification/Ports.v ===== *)
(** * The ports of the domain (telco_domain/ports.py)

    The Protocols through which an orchestrator meets its adapters, as type
    classes over the state [W] of the world outside it, and the effects of
    such a program: reading and changing the world, raising, catching. *)

From Stdlib Require Import Ascii String.
From S2P Require Import Prelude PyStr Json Models Incident Errors StateMachine Repository Contracts.
From S2P Require Import PyEq.

(** ** Programs with effects *)

Definition Eff (W A : Type) : Type := W → result exc A * W.

#[export] Instance Eff_ret {W} : MRet (Eff W) := λ A a w, (Ok a, w).
#[export] Instance Eff_bind {W} : MBind (Eff W) := λ A B f m w,
  match m w with
  | (Ok a, w) => f a w
  | (Err e, w) => (Err e, w)
  end.

(** A computation that only returns or raises. *)
Definition pure {W A} (r : result exc A) : Eff W A := λ w, (r, w).
(** [try: m  except ApprovalAuthorizationError as exc: handler]. *)
Definition except_authorization {W A} (m : Eff W A) (handler : string → Eff W A) : Eff W A :=
  λ w, match m w with
       | (Err (ApprovalAuthorizationError msg), w) => handler msg w
       | r => r
       end.

(** ** The Protocols *)

Class IncidentRepository (W : Type) := {
  create : Incident.t → Metadata → Eff W Incident.t;
  create_or_correlate : Incident.t → Metadata → Eff W Incident.t;
  get : string → Eff W (option Incident.t);
  save : Incident.t → Z → Metadata → Eff W Incident.t;
  compare_and_swap : Incident.t → Z → Metadata → Eff W Incident.t;
  transition : string → IncidentStatus.t → Z → Metadata → Updates → Eff W Incident.t;
  find_by_idempotency_key : string → string → string → Eff W (option Incident.t);
  find_active : option string → option string → Eff W (option Incident.t);
  list_incidents : option IncidentStatus.t → Z → Z → Eff W (list Incident.t);
  history : string → option Z → Z → Eff W (list IncidentAuditEvent.t);
  source_event_associations : string → Z → Z → Eff W (list SourceEventAssociation.t)
}.

(** [analyze(request)]: an RCA request message to an RCA result message. *)
Class RcaGateway (W : Type) := {
  analyze : Envelope.t → RcaRequest → Eff W (Envelope.t * RcaResult)
}.

(** A [Clock]: what a call of it returns. *)
Class TrustedClock (W : Type) := {
  clock : Eff W pydatetime
}.

(** ** What an orchestrator may rely on *)

(** [j] is [i] or a later revision of it, whose histories extend those of [i], as
    Python compares them. *)
Definition advanced (i j : Incident.t) : Prop :=
  Incident.incident_id j = Incident.incident_id i ∧
  (j = i ∨
   Incident.revision i < Incident.revision j ∧
   grown (Incident.approvals i) (Incident.approvals j) ∧
   grown (Incident.rca_reports i) (Incident.rca_reports j) ∧
   grown (Incident.action_runs i) (Incident.action_runs j) ∧
   grown (Incident.verification_runs i) (Incident.verification_runs j)).

(** The laws of a world that holds a repository, a clock and an RCA gateway,
    and in which others may act whenever the orchestrator waits. *)
Class WorldLaws (W : Type) `{R : Runtime, !IncidentRepository W, !TrustedClock W,
    !RcaGateway W} := {
  (** A world in order, the snapshots it stores, and the passage of time. *)
  sane : W → Prop;
  stored : W → Incident.t → Prop;
  later : W → W → Prop;
  later_preorder :: PreOrder later;
  sane_later : ∀ w w', later w w' → sane w → sane w';
  stored_later : ∀ w w' i, sane w → later w w' → stored w i → ∃ j, stored w' j ∧ advanced i j;
  stored_unique : ∀ w i j, stored w i → stored w j →
    Incident.incident_id i = Incident.incident_id j → i = j;
  stored_valid : ∀ w i, sane w → stored w i → valid i ∧ utf8 (Incident.trace_id i);
  (** Reading, asking the time and asking for an analysis let time pass. *)
  get_spec : ∀ id w r w', sane w → Ports.get id w = (r, w') → later w w' ∧
    match r with
    | Ok (Some i) => stored w' i ∧ Incident.incident_id i = id
    | _ => True
    end;
  clock_spec : ∀ w r w', sane w → clock w = (r, w') → later w w';
  analyze_spec : ∀ e b w r w', sane w → analyze e b w = (r, w') → later w w';
  (** What the idempotency key of a transition of an Incident returned. *)
  recorded : W → string → string → Incident.t → Prop;
  recorded_valid : ∀ w id key i, sane w → recorded w id key i →
    valid i ∧ utf8 (Incident.trace_id i);
  recorded_later : ∀ w w' id key i, sane w → later w w' → recorded w id key i →
    recorded w' id key i;
  (** [transition] returns what its key returned before, changing nothing, or
      commits the successor that the state machine computes from the stored
      Incident; or it raises. *)
  transition_spec : ∀ id target rev m u w r w',
    sane w → metadata_texts m → update_texts u →
    Ports.transition id target rev m u w = (r, w') → later w w' ∧
    match r with
    | Ok i => recorded w' id (idempotency_key m) i ∧ ∃ w1, later w w1 ∧
        ((recorded w1 id (idempotency_key m) i ∧ w' = w1) ∨
         (∀ j, ¬ recorded w1 id (idempotency_key m) j) ∧ later w1 w' ∧ stored w' i ∧
         ∃ current now, stored w1 current ∧ Incident.incident_id current = id ∧
           transition_incident current (IncidentStatus.value target) rev (Some (Aware now 0))
             (Some (Aware now 0)) u now now = Ok i)
    | Err _ => True
    end
}.

Section commits.
Context `{WL : WorldLaws W}.

(** [i] is what a transition of [id] to [target] left under its key, between the
    worlds [w0] and [w]: committed there, against the Incident stored at the time,
    or recorded before under the same key. *)
Definition committed (id : string) (target : IncidentStatus.t) (rev : Z) (key : string)
    (u : Updates) (w0 : W) (i : Incident.t) (w : W) : Prop :=
  recorded w id key i ∧ ∃ w1, later w0 w1 ∧ later w1 w ∧
    (recorded w1 id key i ∨
     (∀ j, ¬ recorded w1 id key j) ∧ stored w i ∧
     ∃ current now, stored w1 current ∧ Incident.incident_id current = id ∧
       transition_incident current (IncidentStatus.value target) rev (Some (Aware now 0))
         (Some (Aware now 0)) u now now = Ok i).

Lemma transition_committed id target rev m u w i w' :
  sane w → metadata_texts m → update_texts u →
  Ports.transition id target rev m u w = (Ok i, w') →
  later w w' ∧ committed id target rev (idempotency_key m) u w i w' ∧
  valid i ∧ utf8 (Incident.trace_id i).
Proof.
  intros Hs Hm Hu H. destruct (transition_spec _ _ _ _ _ _ _ _ Hs Hm Hu H) as (Hl & Hr & Hc).
  split; [done|]. split; [|by eapply recorded_valid; [eapply sane_later|]].
  destruct Hc as (w1 & Hl1 & Hc). split; [done|]. exists w1. split; [done|].
  destruct Hc as [[Hc ->]|(Hn & Hl2 & Hst & Hc)]; (split; [done|]); [by left|by right].
Qed.
End commits.
