(* ===== verification/LocalWorld.v ===== *)
(** * The world of a local process

    The in-memory repository behind its port, shared with other actors: before
    each operation of the orchestrator takes the repository's lock, any
    requests of others may have been served.  [others], the two clocks and the
    RCA gateway are arbitrary; [tick] counts what the orchestrator has asked. *)

From Stdlib Require Import Ascii String.
From S2P Require Import Prelude PyStr Json Models Incident Errors StateMachine Repository.
From S2P Require Import PyEq.
From S2P Require Import Registration RepositoryInv RepositoryFacts Contracts Ports.

Record World := mk_world { store : State; tick : nat }.

Section world.
Context `{R : Runtime}.
Context (others : nat → list (Request * pydatetime)).
Context (repository_clock trusted_clock : nat → pydatetime).
Context (gateway : Envelope.t → RcaRequest → nat → result exc (Envelope.t * RcaResult)).

(** The store when the lock is taken. *)
Definition store_at (w : World) : State := after_requests (others (tick w)) (store w).

Definition locked {A} (op : pydatetime → M A) : Eff World A := λ w,
  let (r, s) := op (repository_clock (tick w)) (store_at w) in (r, mk_world s (S (tick w))).

#[local] Instance memory_repository : IncidentRepository World := {
  Ports.create i m := locked (Repository.create i m);
  Ports.create_or_correlate i m := locked (Repository.create_or_correlate i m);
  Ports.get id := locked (λ _, Repository.get id);
  Ports.save i rev m := locked (Repository.save i rev m);
  Ports.compare_and_swap i rev m := locked (Repository.compare_and_swap i rev m);
  Ports.transition id target rev m u :=
    locked (Repository.transition id (IncidentStatus.value target) rev m u);
  Ports.find_by_idempotency_key id key operation :=
    locked (λ _, Repository.find_by_idempotency_key id key operation);
  Ports.find_active key event := locked (λ _, Repository.find_active key event);
  Ports.list_incidents status limit offset := locked (λ _, Repository.list_incidents status limit offset);
  Ports.history id limit offset := locked (λ _, Repository.history id limit offset);
  Ports.source_event_associations id limit offset :=
    locked (λ _, Repository.source_event_associations id limit offset)
}.

#[local] Instance process_clock : TrustedClock World := {
  clock w := (Ok (trusted_clock (tick w)), mk_world (store w) (S (tick w)))
}.

#[local] Instance given_gateway : RcaGateway World := {
  analyze e b w := (gateway e b (tick w), mk_world (store w) (S (tick w)))
}.

(** ** The laws hold *)

Context `{L : !RuntimeLaws R}.
Hypothesis others_texts : ∀ n, all_texts (others n).

Definition world_later (w w' : World) : Prop :=
  rtc effect (store w) (store w') ∧ (tick w ≤ tick w')%nat.

Lemma world_later_preorder : PreOrder world_later.
Proof.
  split; [intros w; split; [constructor|lia]|].
  intros w1 w2 w3 [H1 ?] [H2 ?]. split; [by etransitivity|lia].
Qed.

Lemma effects_inv s s' : rtc effect s s' → Inv s → Inv s'.
Proof. induction 1; [done|]. intros HI. by eauto using effect_inv. Qed.

Lemma requests_effects qs s :
  all_texts qs → Inv s → rtc effect s (after_requests qs s).
Proof.
  intros Hq. revert s. induction Hq as [|[q c] qs Hq _ IH]; intros s HI; [constructor|].
  cbn in *. destruct (serve q c s) as [r s'] eqn:E.
  destruct (serve_well_behaved q c Hq s r s' HI E) as [He _].
  pose proof (IH s' (effect_inv _ _ HI He)) as Hr. cbn. rewrite ?E.
  eapply rtc_l; [exact He|exact Hr].
Qed.

Lemma store_at_effects w : Inv (store w) → rtc effect (store w) (store_at w).
Proof. apply requests_effects, others_texts. Qed.

Lemma advanced_trans i j k : advanced i j → advanced j k → advanced i k.
Proof.
  intros [Hi [->|H1]] [Hj [->|H2]]; split; try congruence; [by left|by right..|].
  right. destruct_and! H1. destruct_and! H2.
  split_and!; [lia|by etransitivity..].
Qed.

Lemma effect_advanced s s' i :
  effect s s' → RepositoryInv.stored s i → ∃ j, RepositoryInv.stored s' j ∧ advanced i j.
Proof.
  unfold RepositoryInv.stored. intros He Hi. destruct He as
    [|existing ids src scope fp _ _ _|c ids src scope fp event Hn _ _ _ _ _ _ _ _ _
    |cur suc src scope fp event Hst _ _ Hid _ _ Hrev Happ _ _ _ _ _ _ _]; cbn.
  - exists i. split; [done|split; [done|by left]].
  - exists i. split; [done|split; [done|by left]].
  - exists i. split; [|split; [done|by left]]. rewrite lookup_insert_ne; congruence.
  - destruct (decide (Incident.incident_id suc = Incident.incident_id i)) as [E|Hne].
    + unfold RepositoryInv.stored in Hst. rewrite <- Hid, E, Hi in Hst. injection Hst as <-.
      exists suc. rewrite E. split; [by rewrite lookup_insert_eq|split; [done|right]].
      apply append_only_spec in Happ. destruct_and! Happ. split_and!; [lia|done..].
    + exists i. split; [by rewrite lookup_insert_ne|split; [done|by left]].
Qed.

Lemma effects_advanced s s' i :
  rtc effect s s' → RepositoryInv.stored s i → ∃ j, RepositoryInv.stored s' j ∧ advanced i j.
Proof.
  intros H. revert i. induction H as [s|s1 s2 s3 He _ IH]; intros i Hi.
  - exists i. split; [done|split; [done|by left]].
  - destruct (effect_advanced _ _ _ He Hi) as (j & Hj & Hij).
    destruct (IH j Hj) as (k & Hk & Hjk). exists k. split; [done|by eapply advanced_trans].
Qed.

(** The record of a transition of an Incident. *)
Definition world_recorded (w : World) (id key : string) (i : Incident.t) : Prop :=
  ∃ fp, idempotency (store w) !! ("transition"%string, id, key) = Some (mk_record fp i).

Lemma transition_scope id key scope :
  make_scope "transition" id key = Ok scope → scope = ("transition"%string, id, key).
Proof.
  unfold make_scope. intros H. run_ok. subst. do 2 f_equal.
  change (py_strip "transition") with "transition"%string. by apply lower_plain.
Qed.

Lemma admission_scope id target rev m u scope fp :
  admission (Transition id target rev m u) = Ok (scope, fp) →
  scope = ("transition"%string, id, idempotency_key m).
Proof.
  cbn. intros H. run_ok. simplify_eq.
  match goal with H : make_scope _ _ _ = Ok _ |- _ => by apply transition_scope in H end.
Qed.

Lemma locked_run {A} (op : pydatetime → M A) w r w' :
  locked op w = (r, w') →
  op (repository_clock (tick w)) (store_at w) = (r, store w') ∧ tick w' = S (tick w) ∧
  w' = mk_world (store w') (S (tick w)).
Proof. unfold locked. destruct (op _ _) as [r1 s1]. by intros [= <- <-]. Qed.

Lemma world_transition id target rev m u w r w' :
  Inv (store w) → metadata_texts m → update_texts u →
  locked (Repository.transition id (IncidentStatus.value target) rev m u) w = (r, w') →
  world_later w w' ∧
  match r with
  | Ok i => world_recorded w' id (idempotency_key m) i ∧ ∃ w1, world_later w w1 ∧
      ((world_recorded w1 id (idempotency_key m) i ∧ w' = w1) ∨
       (∀ j, ¬ world_recorded w1 id (idempotency_key m) j) ∧ world_later w1 w' ∧
       RepositoryInv.stored (store w') i ∧
       ∃ current now, RepositoryInv.stored (store w1) current ∧
         Incident.incident_id current = id ∧
         transition_incident current (IncidentStatus.value target) rev (Some (Aware now 0))
           (Some (Aware now 0)) u now now = Ok i)
  | Err _ => True
  end.
Proof.
  intros HI Hm Hu H. apply locked_run in H as (H & Ht & ->). cbn [store tick] in *.
  pose proof (store_at_effects w HI) as He. pose proof (effects_inv _ _ He HI) as HI1.
  set (q := Transition id (IncidentStatus.value target) rev m u).
  change (serve q (repository_clock (tick w)) (store_at w) = (r, store w')) in H.
  destruct (serve_well_behaved q _ (conj Hm Hu) _ _ _ HI1 H) as [Heff _].
  assert (world_later w (mk_world (store w') (S (tick w)))) as Hl.
  { split; cbn; [|lia]. etransitivity; [exact He|]. by apply rtc_once. }
  split; [exact Hl|]. destruct r as [i|e]; [|exact I].
  pose proof H as Hrec. apply serve_records in Hrec as (scope & fp & Ha & Hr).
  pose proof (admission_scope _ _ _ _ _ _ _ Ha) as ->.
  split; [by exists fp|]. exists (mk_world (store_at w) (S (tick w))).
  split; [split; cbn; [done|lia]|].
  destruct (idempotency (store_at w) !! ("transition"%string, id, idempotency_key m))
    as [record|] eqn:Hrecord.
  - left. assert (serve q (repository_clock (tick w)) (store_at w) = (Ok i, store w')) as H' by done.
    rewrite (serve_recorded q _ _ _ _ _ eq_refl Ha Hrecord) in H'. case_bool_decide; [|done].
    injection H' as <- Hs. rewrite <- Hs. split; [|done]. exists fp. cbn. rewrite Hrecord.
    destruct record. cbn in *. by subst.
  - right. destruct (serve_transition_ok _ _ _ _ _ _ _ _ _ _ _ H Ha Hrecord)
      as (current & now & _ & Hc & _ & _ & Hi & Hs).
    split_and!.
    + intros j [fp' Hj]. cbn in Hj. congruence.
    + split; cbn; [by apply rtc_once|lia].
    + unfold RepositoryInv.stored. cbn. rewrite Hs. by rewrite lookup_insert_eq.
    + destruct (inv_incident _ HI1 _ _ Hc) as (Hid & _). exists current, now.
      split_and!; [|done..]. unfold RepositoryInv.stored. cbn. by rewrite Hid.
Qed.

(** *** The local process satisfies the laws of the ports *)

#[local, refine] Instance world_laws : WorldLaws World := {
  sane w := Inv (store w);
  Ports.stored w := RepositoryInv.stored (store w);
  later := world_later;
  later_preorder := world_later_preorder;
  recorded := world_recorded
}.
Proof.
  - intros w w' [H _] HI. by eapply effects_inv.
  - intros w w' i _ [H _]. by apply effects_advanced.
  - unfold RepositoryInv.stored. congruence.
  - intros w i HI Hi. destruct (inv_incident _ HI _ _ Hi) as (_ & ? & _ & ? & _). done.
  - intros id w r w' HI H. change (locked (λ _, Repository.get id) w = (r, w')) in H.
    apply locked_run in H as (H & _ & ->). cbn [store tick].
    injection H as <- <-. pose proof (store_at_effects w HI) as He. split; [split; cbn; [done|lia]|].
    destruct (incidents (store_at w) !! id) as [i|] eqn:E; [|done]. cbn.
    destruct (inv_incident _ (effects_inv _ _ He HI) _ _ E) as (Hid & _).
    unfold RepositoryInv.stored. by rewrite Hid.
  - intros w r w' _ [= <- <-]. split; cbn; [constructor|lia].
  - intros e b w r w' _ [= <- <-]. split; cbn; [constructor|lia].
  - intros w id key i HI [fp Hr]. by destruct (inv_record _ HI _ _ Hr) as (? & (_ & ? & _) & _).
  - intros w w' id key i HI [H _] [fp Hr]. exists fp. clear HI.
    induction H as [|s1 s2 s3 He _ IH]; [done|]. apply IH. by eapply effect_records.
  - intros id target rev m u w r w' HI Hm Hu H. by apply world_transition.
Defined.
End world.
