(* ===== verification/GovernanceBase.v ===== *)
(** * Local governance: identifiers, clocks and texts (telco_local/governance.py)

    The digests that name messages, steps and requests, the checks of the
    texts a caller passes, and the views of an Incident that the governance
    classes share. *)

From Stdlib Require Import Ascii String.
From S2P Require Import Prelude PyStr Json Models Incident Errors StateMachine Contracts Ports.
From S2P Require Import PyEq.

Definition LOCAL_SIMULATION_ACTION_TYPE : string := "LOCAL_SIMULATION".
Definition LOCAL_SIMULATION_PARAMETERS : gmap string json :=
  {["scenario" := JStr "local-governance-recovery"; "version" := JStr "1.0"]}.
Definition LOCAL_SIMULATION_ROLLBACK : string :=
  "No rollback is required because the local simulation never changes network state.".
Definition MARKER_KEY : string := "local_governance".
Definition EXECUTION_FAILURE_MARKER_KEY : string := "local_governance_execution_failure".
Definition EXECUTION_APPROVAL_EXPIRED_CODE : string := "APPROVAL_NO_LONGER_EFFECTIVE".
Definition EXECUTION_APPROVAL_EXPIRED_REASON : string :=
  "Fail local simulation because its approval is no longer effective".
(** 15 minutes, in microseconds. *)
Definition DEFAULT_APPROVAL_TTL : Z := 900000000.

(** ** [timedelta.total_seconds()]: [microseconds / 10**6], correctly rounded *)

Definition round_half_even (n d : Z) : Z :=
  let q := n / d in
  let r := 2 * (n mod d) in
  if r <? d then q else if d <? r then q + 1 else if Z.even q then q else q + 1.

Fixpoint odd_part (p : positive) (e : Z) : positive * Z :=
  match p with xO p => odd_part p (e + 1) | _ => (p, e) end.

Definition float_of (neg : bool) (m e : Z) : pyfloat :=
  match m with
  | Zpos p => let (p, e) := odd_part p e in PyFloat neg (Npos p) e
  | _ => PyFloat neg 0 0
  end.

(** [n / d] for positive integers, in the normal range of doubles. *)
Definition true_div (n d : Z) : pyfloat :=
  let k := Z.log2 n - Z.log2 d in
  let below := if 0 <=? k then n <? d * 2 ^ k else n * 2 ^ (- k) <? d in
  let e := (if below then k - 1 else k) - 52 in
  let m := if 0 <=? e then round_half_even n (d * 2 ^ e) else round_half_even (n * 2 ^ (- e)) d in
  float_of false m e.

Definition total_seconds (microseconds : Z) : pyfloat := true_div microseconds 1000000.

Example total_seconds_900 : total_seconds 900000000 = PyFloat false 225 2.
Proof. reflexivity. Qed.
(** 0.1 is 0x1.999999999999ap-4. *)
Example total_seconds_tenth : total_seconds 100000 = PyFloat false 3602879701896397 (-55).
Proof. reflexivity. Qed.

(** ** Digests and identifiers *)

Section identifiers.
Context `{Runtime}.

(** [_digest], [_stable_id] and [_step_key], on the JSON of their arguments. *)
Definition digest (parts : list json) : string := sha256_hex (dumps (JArr parts)).
Definition stable_id (prefix : string) (parts : list json) : string :=
  prefix +:+ "-" +:+ substring 0 32 (digest (JStr prefix :: parts)).
Definition step_key (root_idempotency_key step : string) (request_parts : list json) : string :=
  stable_id ("local-governance-" +:+ step)
    (JStr (digest [JStr root_idempotency_key]) :: request_parts).
End identifiers.

(** [_is_sha256_digest]: of a JSON value. *)
Definition is_sha256_digest (value : option json) : bool :=
  match value with Some (JStr s) => is_hex64 s | _ => false end.

(** ** Arguments *)

(** [_trusted_now(clock)], on what the clock returned. *)
Definition trusted_instant (value : pydatetime) : result exc Z :=
  match value with
  | Naive _ =>
      Err (GovernanceClockError "local governance clock must return a timezone-aware datetime")
  | Aware local offset => Ok (local - offset)
  end.
Definition trusted_now {W} `{TrustedClock W} : Eff W Z :=
  clock ≫= λ value, pure (trusted_instant value).

(** [_require_text(name, value, maximum)]. *)
Definition require_text (name value : string) (maximum : Z) : result exc string :=
  throw_if (is_blank value) (ValueError (name +:+ " must be a non-empty string")) ≫= λ _,
  let normalized := py_strip value in
  throw_if (maximum <? py_len normalized) (ValueError (name +:+ " is too long")) ≫= λ _,
  Ok normalized.

(** [_require_action_hash(value)]. *)
Definition require_action_hash (value : string) : result exc string :=
  throw_if (negb (is_hex64 value))
    (ValueError "expected_action_hash must be a lowercase SHA-256 digest") ≫= λ _,
  Ok value.

(** ** Views of an Incident *)

(** [max(xs, key=...)] for keys that are compared by [ltb]. *)
Definition max_ltb {A} (ltb : A → A → bool) (xs : list A) : option A :=
  match xs with
  | [] => None
  | x :: xs => Some (foldl (λ best y, if ltb best y then y else best) x xs)
  end.

Definition string_ltb (x y : string) : bool := String.leb x y && negb (bool_decide (x = y)).

(** [(requested_at, request_id, sequence)] of [a] before that of [b]. *)
Definition decision_ltb (a b : ApprovalDecision.t) : bool :=
  let ta := ApprovalDecision.requested_at a in
  let tb := ApprovalDecision.requested_at b in
  let ra := ApprovalDecision.request_id a in
  let rb := ApprovalDecision.request_id b in
  if ta =? tb then
    if bool_decide (ra = rb) then ApprovalDecision.sequence a <? ApprovalDecision.sequence b
    else string_ltb ra rb
  else ta <? tb.

(** [_latest_approval(incident)]; [_latest_report] is [latest_report]. *)
Definition latest_approval (i : Incident.t) : option ApprovalDecision.t :=
  max_ltb decision_ltb (Incident.approvals i).

(** [GovernanceResult] and its properties. *)
Record GovernanceResult := mk_governance { g_incident : Incident.t; g_replayed : bool }.

Definition g_report (g : GovernanceResult) : option RcaReport.t := latest_report (g_incident g).
Definition g_action (g : GovernanceResult) : option RemediationAction.t :=
  g_report g ≫= λ report, head (RcaReport.recommendations report).
Definition g_approval (g : GovernanceResult) : option ApprovalDecision.t :=
  latest_approval (g_incident g).
Definition g_verification (g : GovernanceResult) : option VerificationRun.t :=
  last (Incident.verification_runs (g_incident g)).
Definition awaiting_approval (g : GovernanceResult) : bool :=
  bool_decide (Incident.status (g_incident g) = IncidentStatus.AWAITING_APPROVAL)
  && match g_approval g with
     | Some d => ApprovalDecision.is_status ApprovalStatus.PENDING d
     | None => false
     end.

(** The one recommendation of a report. *)
Definition sole_action (report : option RcaReport.t) : option RemediationAction.t :=
  match report with
  | Some r => match RcaReport.recommendations r with [a] => Some a | _ => None end
  | None => None
  end.

(** ** Updates of a transition *)

Definition update_metadata (m : gmap string json) : Updates :=
  mk_updates None None None None None None None None None None None None None None
    None None None (Some m) None None [] [] false.
Definition update_rca (root_cause : option string) (hypotheses : list string)
    (reports : list RcaReport.t) (actions : list RemediationAction.t) : Updates :=
  mk_updates None None None None None None None None None None (Some hypotheses)
    (Some root_cause) (Some reports) (Some actions) None None None None None None [] [] false.
Definition update_approvals (ds : list ApprovalDecision.t) : Updates :=
  mk_updates None None None None None None None None None None None None None None
    (Some ds) None None None None None [] [] false.
Definition update_action_runs (rs : list ActionRun.t) : Updates :=
  mk_updates None None None None None None None None None None None None None None None
    (Some rs) None None None None [] [] false.
Definition update_verification_runs (vs : list VerificationRun.t) : Updates :=
  mk_updates None None None None None None None None None None None None None None None None
    (Some vs) None None None [] [] false.

(** Building a message: pydantic runs the validators.  The models nested in it
    are instances that were validated when they were built. *)
Definition build `{Runtime} (e : Envelope.t) (b : Body) : result exc ContractMessage :=
  let m := mk_message e b in
  validated (check_message m) ≫= λ _, Ok m.
