(* ===== verification/Gateways.v ===== *)
(** * Local governance: policy and gateways (telco_local/governance.py)

    The policy that proposes the one permitted action, and the three gateways:
    approvals, the simulated execution, and verification.  The gateways run
    over any Incident repository and any clock. *)

From Stdlib Require Import Ascii String.
From stdpp Require Import pretty.
From S2P Require Import Prelude PyStr Json Models Incident Errors StateMachine Repository Contracts Ports GovernanceBase.
From S2P Require Import PyEq.

(** ** [LocalSimulationPolicy] *)

Module LocalSimulationPolicy.
Section policy.
Context `{Runtime}.

Definition version : string := "1.0".

(** The base report: the JSON of the report without two of its fields. *)
Definition base_report (report : RcaReport.t) : json :=
  match RcaReport.to_json report with
  | JObj fields =>
      JObj (List.filter (λ kv, negb (bool_decide (kv.1 = "report_id"%string))
                               && negb (bool_decide (kv.1 = "recommendations"%string))) fields)
  | j => j
  end.

Definition policy_identity (incident : Incident.t) (report : RcaReport.t)
    (workflow_fingerprint : string) : json :=
  JObj [ ("base_report", base_report report);
         ("incident_id", JStr (Incident.incident_id incident));
         ("policy", JStr "local-simulation-policy");
         ("targets", JArr (map ResourceReference.stable_identity
                             (Incident.affected_resources incident)));
         ("version", JStr version);
         ("workflow_fingerprint", JStr workflow_fingerprint) ].

Definition simulation_action (incident : Incident.t) (report : RcaReport.t)
    (workflow_fingerprint : string) (created_at : Z) : RemediationAction.t :=
  let identity := policy_identity incident report workflow_fingerprint in
  RemediationAction.mk (stable_id "local-simulation-action" [identity])
    LOCAL_SIMULATION_ACTION_TYPE
    (Some "Simulate a governance recovery locally without contacting or changing any network resource.")
    (Incident.affected_resources incident) LOCAL_SIMULATION_PARAMETERS RiskLevel.LOW true
    (Some LOCAL_SIMULATION_ROLLBACK) (Some "Local deterministic verification completes.")
    (Some (stable_id "local-simulation-action-key" [identity])) created_at.

(** The report the action is attached to. *)
Definition with_action (report : RcaReport.t) (action : RemediationAction.t) : RcaReport.t :=
  let report_identity :=
    JObj [ ("action", RemediationAction.to_json action); ("base_report", base_report report);
           ("policy", JStr "local-simulation-policy"); ("policy_version", JStr version) ] in
  let metadata := <["local_simulation_policy" :=
    JObj [ ("action_type", JStr LOCAL_SIMULATION_ACTION_TYPE); ("side_effects", JBool false);
           ("version", JStr version) ]]> (RcaReport.model_metadata report) in
  RcaReport.mk (stable_id "local-simulation-report" [report_identity])
    (RcaReport.incident_id report) (RcaReport.version report) (RcaReport.status report)
    (RcaReport.title report) (RcaReport.summary report) (RcaReport.hypotheses report)
    (RcaReport.root_cause report) (RcaReport.conclusion report) (RcaReport.confidence report)
    (RcaReport.evidence_refs report) [action] (RcaReport.generated_by report) metadata
    (RcaReport.created_at report).

(** [attach_action(incident, report, workflow_fingerprint, created_at)]. *)
Definition attach_action (incident : Incident.t) (report : RcaReport.t)
    (workflow_fingerprint : string) (created_at : Z) : result exc RcaReport.t :=
  throw_if (negb (bool_decide (RcaReport.conclusion report = RcaConclusion.CONCLUSIVE)))
    (GovernanceStateError "only a CONCLUSIVE RCA may propose a local simulation") ≫= λ _,
  throw_if (negb (has_text (RcaReport.root_cause report))
            || empty_list (RcaReport.evidence_refs report))
    (GovernanceStateError "a conclusive local simulation requires root cause and evidence")
    ≫= λ _,
  throw_if (empty_list (Incident.affected_resources incident))
    (GovernanceStateError "a local simulation requires at least one affected resource") ≫= λ _,
  throw_if (negb (empty_list (RcaReport.recommendations report)))
    (GovernanceStateError "the read-only RCA gateway must not propose network actions") ≫= λ _,
  let action := simulation_action incident report workflow_fingerprint created_at in
  validated (RemediationAction.check action) ≫= λ _,
  let attached := with_action report action in
  validated (RcaReport.check attached) ≫= λ _,
  Ok attached.
End policy.
End LocalSimulationPolicy.

(** ** [LocalApprovalGateway] *)

Module LocalApprovalGateway.
Section gateway.
Context `{Runtime}.

(** [_pending_from_request(request, requested_at)]. *)
Definition pending_from_request (e : Envelope.t) (b : ApprovalRequest) (requested_at : Z) :
    result exc ApprovalDecision.t :=
  match ask_action b, ask_expires_at b with
  | Some action, Some expires_at =>
      let d := ApprovalDecision.mk
        (stable_id "local-approval-pending" [JStr (ask_request_id b)]) (ask_request_id b) 0
        (Envelope.incident_id e) (RcaReport.report_id (ask_report b))
        (RcaReport.version (ask_report b)) (RemediationAction.action_id action)
        ApprovalStatus.PENDING ApprovalType.NETWORK_ACTION
        (Some (RemediationAction.action_hash action)) (ask_scope b)
        (Some "local-governance-engine"%string) None None requested_at None (Some expires_at)
        (Envelope.idempotency_key e) in
      validated (ApprovalDecision.check d) ≫= λ _, Ok d
  | _, _ => Err (GovernanceStateError "local simulation approval requires action and expiry")
  end.

(** [_approval_result(request, decision, sent_at)]. *)
Definition approval_result (e : Envelope.t) (b : ApprovalRequest) (decision : ApprovalDecision.t)
    (sent_at : Z) : result exc ContractMessage :=
  let sequence := JInt (ApprovalDecision.sequence decision) in
  build
    (Envelope.mk
      (stable_id "local-approval-result"
         [JStr (Envelope.message_id e); JStr (ApprovalDecision.approval_id decision); sequence])
      (Envelope.workflow_id e) (Envelope.incident_id e) (Envelope.trace_id e)
      (stable_id "local-approval-result-key" [JStr (Envelope.idempotency_key e); sequence])
      sent_at)
    (IApprovalResult (mk_approval_result (ask_request_id b) decision "本地模拟动作等待显式审批。")).

(** [latest == report], of a report that may be [None]. *)
Definition same_report (latest : option RcaReport.t) (report : RcaReport.t) : bool :=
  match latest with Some r => py_eqb r report | None => false end.

(** [expected_binding == actual_binding]. *)
Definition same_binding (e : Envelope.t) (b : ApprovalRequest) (pending : ApprovalDecision.t) :
    bool :=
  bool_decide (Envelope.incident_id e = ApprovalDecision.incident_id pending)
  && bool_decide (RcaReport.report_id (ask_report b) = ApprovalDecision.report_id pending)
  && (RcaReport.version (ask_report b) =? ApprovalDecision.report_version pending)
  && bool_decide (RemediationAction.action_id <$> ask_action b
                  = Some (ApprovalDecision.subject_id pending))
  && bool_decide (RemediationAction.action_hash <$> ask_action b
                  = ApprovalDecision.action_hash pending)
  && py_eqb (ask_scope b) (ApprovalDecision.scope pending)
  && bool_decide (ask_expires_at b = ApprovalDecision.expires_at pending)
  && bool_decide (Envelope.idempotency_key e = ApprovalDecision.idempotency_key pending).

Context `{!IncidentRepository W, !TrustedClock W}.

(** [request_approval(request)]. *)
Definition request_approval (e : Envelope.t) (b : ApprovalRequest) : Eff W ContractMessage :=
  trusted_now ≫= λ now,
  pure (throw_if (negb (bool_decide (ask_approval_type b = ApprovalType.NETWORK_ACTION)))
    (GovernanceStateError "local governance only supports network-action approval records"))
    ≫= λ _,
  pure (throw_if (match ask_expires_at b with None => true | Some t => t <=? now end)
    (GovernanceAuthorizationError "approval expiry must be later than the trusted gateway time"))
    ≫= λ _,
  Ports.get (Envelope.incident_id e) ≫= λ found,
  pure (of_option found (GovernanceNotFoundError (Envelope.incident_id e))) ≫= λ current,
  let existing := filter (λ d, ApprovalDecision.request_id d = ask_request_id b)
                    (Incident.approvals current) in
  match max_by (λ d, - ApprovalDecision.sequence d) existing with
  | Some pending =>
      pure (throw_if (negb (ApprovalDecision.sequence pending =? 0)
                      || negb (same_binding e b pending))
        (GovernanceIdempotencyConflictError
           "approval request identifier was reused with another binding")) ≫= λ _,
      pure (approval_result e b pending now)
  | None =>
      pure (throw_if (negb (bool_decide (Incident.status current = IncidentStatus.RCA_COMPLETE)))
        (GovernanceStateError "approval requests require an RCA_COMPLETE incident")) ≫= λ _,
      pure (throw_if (negb (Incident.revision current =? ask_based_on_revision b))
        (GovernanceStateError
           "approval request revision does not match the current incident revision")) ≫= λ _,
      pure (throw_if (negb (same_report (latest_report current) (ask_report b))
                      || negb (match ask_action b with
                               | Some action => py_mem action (RcaReport.recommendations (ask_report b))
                               | None => false
                               end))
        (GovernanceAuthorizationError
           "approval request does not bind the latest persisted report action")) ≫= λ _,
      pure (pending_from_request e b now) ≫= λ pending,
      Ports.transition (Envelope.incident_id e) IncidentStatus.AWAITING_APPROVAL
        (Incident.revision current)
        (mk_metadata (Envelope.idempotency_key e) "local-approval-gateway"
           "Request explicit approval for the local simulation" (Incident.trace_id current))
        (update_approvals (Incident.approvals current ++ [pending])) ≫= λ committed,
      pure (of_option (Incident.latest_approval_decision committed (ask_request_id b))
              (GovernanceStateError "pending approval was not persisted")) ≫= λ decision,
      pure (approval_result e b decision now)
  end.

(** The decision that [decide] appends. *)
Definition decision_status (approve : bool) (pending : ApprovalDecision.t) (now : Z) :
    ApprovalStatus.t :=
  let expired := match ApprovalDecision.expires_at pending with
                 | None => true | Some t => t <=? now end in
  if approve then if expired then ApprovalStatus.EXPIRED else ApprovalStatus.APPROVED
  else ApprovalStatus.REJECTED.

Definition terminal_decision (pending : ApprovalDecision.t) (status : ApprovalStatus.t)
    (approval_id actor reason event_key : string) (now : Z) : ApprovalDecision.t :=
  ApprovalDecision.mk approval_id (ApprovalDecision.request_id pending) 1
    (ApprovalDecision.incident_id pending) (ApprovalDecision.report_id pending)
    (ApprovalDecision.report_version pending) (ApprovalDecision.subject_id pending) status
    (ApprovalDecision.approval_type pending) (ApprovalDecision.action_hash pending)
    (ApprovalDecision.scope pending) (ApprovalDecision.requested_by pending) (Some actor)
    (Some reason) (ApprovalDecision.requested_at pending) (Some now)
    (ApprovalDecision.expires_at pending) event_key.

(** The checks of [decide] on the current Incident, up to the pending approval. *)
Definition decidable_approval (current : Incident.t) (expected_action_hash : string)
    (expected_revision : Z) : result exc ApprovalDecision.t :=
  throw_if (negb (bool_decide (Incident.status current = IncidentStatus.AWAITING_APPROVAL)))
    (GovernanceStateError "an explicit decision requires an AWAITING_APPROVAL incident") ≫= λ _,
  throw_if (negb (Incident.revision current =? expected_revision))
    (GovernanceStateError ("approval preview revision " +:+ pretty expected_revision
       +:+ " is stale; current revision is " +:+ pretty (Incident.revision current))) ≫= λ _,
  of_option (latest_report current ≫= λ r, (λ a, (r, a)) <$> sole_action (Some r))
    (GovernanceStateError "local governance requires exactly one persisted simulation action")
    ≫= λ '(report, action),
  throw_if (negb (bool_decide (RemediationAction.action_hash action = expected_action_hash)))
    (GovernanceAuthorizationError
       "approved action hash does not match the current local simulation") ≫= λ _,
  let refusal := GovernanceAuthorizationError
    "the latest pending approval does not cover the simulation action" in
  of_option (latest_approval current) refusal ≫= λ pending,
  throw_if (negb (ApprovalDecision.sequence pending =? 0)
            || negb (ApprovalDecision.is_status ApprovalStatus.PENDING pending)
            || negb (ApprovalDecision.covers_action pending action
                       (Incident.incident_id current) report)) refusal ≫= λ _,
  Ok pending.

(** The key and the identifier of the decision. *)
Definition event_key (idempotency_key : string) : string :=
  step_key idempotency_key "approval-decision" [].
Definition decision_id (approve : bool) (expected_action_hash : string) (expected_revision : Z)
    (actor reason idempotency_key : string) : string :=
  stable_id "local-approval-decision"
    [ JStr (digest [JStr idempotency_key]);
      JStr (digest [ JStr "approval-decision-v1"; JBool approve; JStr expected_action_hash;
                     JInt expected_revision; JStr actor; JStr reason ]) ].

(** [decide(incident_id, ...)]. *)
Definition decide (incident_id : string) (approve : bool) (expected_action_hash : string)
    (expected_revision : Z) (actor reason idempotency_key : string) : Eff W Incident.t :=
  pure (require_action_hash expected_action_hash) ≫= λ expected_action_hash,
  pure (throw_if (expected_revision <? 0)
    (ValueError "expected_revision must be a non-negative integer")) ≫= λ _,
  trusted_now ≫= λ now,
  pure (require_text "actor" actor 256) ≫= λ actor,
  pure (require_text "reason" reason 4096) ≫= λ reason,
  pure (require_text "idempotency_key" idempotency_key 256) ≫= λ idempotency_key,
  let key := event_key idempotency_key in
  let approval_id :=
    decision_id approve expected_action_hash expected_revision actor reason idempotency_key in
  Ports.get incident_id ≫= λ found,
  pure (of_option found (GovernanceNotFoundError incident_id)) ≫= λ current,
  match next_such (λ d, bool_decide (ApprovalDecision.idempotency_key d = key))
          (Incident.approvals current) with
  | Some replay =>
      pure (throw_if (negb (bool_decide (ApprovalDecision.approval_id replay = approval_id)))
        (GovernanceIdempotencyConflictError
           "approval decision key was retried with another request")) ≫= λ _,
      mret current
  | None =>
      pure (decidable_approval current expected_action_hash expected_revision) ≫= λ pending,
      let status := decision_status approve pending now in
      let terminal := terminal_decision pending status approval_id actor reason key now in
      pure (validated (ApprovalDecision.check terminal)) ≫= λ _,
      let target := if bool_decide (status = ApprovalStatus.APPROVED)
                    then IncidentStatus.REMEDIATING else IncidentStatus.REJECTED in
      Ports.transition incident_id target (Incident.revision current)
        (mk_metadata key actor
           ("Record explicit local simulation decision: " +:+ ApprovalStatus.value status)
           (Incident.trace_id current))
        (update_approvals (Incident.approvals current ++ [terminal]))
  end.

(** [resolve_for_execution(request)]. *)
Definition resolve_for_execution (e : Envelope.t) (b : NetworkChangeRequest) :
    Eff W ApprovalDecision.t :=
  Ports.get (Envelope.incident_id e) ≫= λ found,
  pure (of_option found (GovernanceNotFoundError (Envelope.incident_id e))) ≫= λ current,
  pure (throw_if (negb (bool_decide (Incident.status current = IncidentStatus.REMEDIATING)))
    (ApprovalAuthorizationError "local action execution requires a REMEDIATING incident"))
    ≫= λ _,
  pure (throw_if (negb (Incident.revision current =? change_based_on_revision b + 1))
    (ApprovalAuthorizationError "incident revision changed after the approved preview")) ≫= λ _,
  pure (throw_if (negb (same_report (latest_report current) (change_report b))
                  || negb (py_mem (change_action b) (Incident.recommendations current)))
    (ApprovalAuthorizationError
       "execution request does not match the frozen incident recommendation")) ≫= λ _,
  trusted_now ≫= λ now,
  pure (validate_approval_reference (change_approval_reference b) (Incident.approvals current)
          (change_action b) (change_report b) (Aware now 0)).
End gateway.
End LocalApprovalGateway.

(** ** [SimulatedActionGateway] *)

Module SimulatedActionGateway.
Section gateway.
Context `{Runtime}.

Definition fixed_simulation (action : RemediationAction.t) : bool :=
  bool_decide (RemediationAction.action_type action = LOCAL_SIMULATION_ACTION_TYPE)
  && py_eqb (RemediationAction.parameters action) LOCAL_SIMULATION_PARAMETERS
  && RemediationAction.reversible action
  && bool_decide (RemediationAction.rollback_plan action = Some LOCAL_SIMULATION_ROLLBACK).

Definition run_id (incident_id idempotency_key action_hash : string) : string :=
  stable_id "local-simulation-run" [JStr incident_id; JStr idempotency_key; JStr action_hash].

Definition simulated_run (e : Envelope.t) (action : RemediationAction.t) (now : Z) : ActionRun.t :=
  ActionRun.mk
    (run_id (Envelope.incident_id e) (Envelope.idempotency_key e)
       (RemediationAction.action_hash action))
    (Some (Envelope.incident_id e)) (RemediationAction.action_id action)
    (Some (RemediationAction.action_hash action)) ActionRunStatus.SUCCEEDED
    (Some (Envelope.idempotency_key e)) 1 (Some now) (Some now)
    (Some "Local simulation completed; no network state was changed."%string) None
    {["mode" := JStr "simulation"; "side_effects" := JBool false]}.

Context `{!IncidentRepository W, !TrustedClock W}.

(** [execute(request)]. *)
Definition execute (e : Envelope.t) (b : NetworkChangeRequest) : Eff W ActionRun.t :=
  let action := change_action b in
  pure (throw_if (negb (fixed_simulation action))
    (GovernanceAuthorizationError
       "the local action gateway accepts only the fixed local simulation")) ≫= λ _,
  LocalApprovalGateway.resolve_for_execution e b ≫= λ _,
  trusted_now ≫= λ now,
  let run := simulated_run e action now in
  pure (validated (ActionRun.check run)) ≫= λ _,
  mret run.
End gateway.
End SimulatedActionGateway.

(** ** [LocalVerificationGateway] *)

Module LocalVerificationGateway.
Section gateway.
Context `{Runtime}.

(** The [requested_outcome] of the metadata, and the status it names. *)
Definition requested_status (outcome : option json) : result exc VerificationStatus.t :=
  match outcome with
  | Some (JStr s) =>
      if bool_decide (s = "PASSED"%string) then Ok VerificationStatus.PASSED
      else if bool_decide (s = "FAILED"%string) then Ok VerificationStatus.FAILED
      else Err (GovernanceStateError
                  "local verification requires an explicit deterministic outcome")
  | Some (JArr _ | JObj _) => Err (TypeError "unhashable type")
  | _ => Err (GovernanceStateError
                "local verification requires an explicit deterministic outcome")
  end.

Definition test_evidence (verification_id : string) (status : VerificationStatus.t) (now : Z) :
    EvidenceReference.t :=
  EvidenceReference.mk
    (stable_id "local-verification-evidence"
       [JStr verification_id; JStr (VerificationStatus.value status)])
    EvidenceType.TEST_RESULT ("local-simulation://verification/" +:+ verification_id)
    (Some "local-verification-gateway"%string)
    (Some (if bool_decide (status = VerificationStatus.PASSED)
           then "Local simulated health checks passed."
           else "Local simulated health checks failed.")%string)
    (Some now) None None {["mode" := JStr "simulation"; "side_effects" := JBool false]}.

Definition concluded (pending : VerificationRun.t) (status : VerificationStatus.t) (now : Z) :
    VerificationRun.t :=
  let evidence := test_evidence (VerificationRun.verification_id pending) status now in
  VerificationRun.mk (VerificationRun.verification_id pending)
    (VerificationRun.incident_id pending) (VerificationRun.action_run_ids pending) status
    (VerificationRun.checks pending) (VerificationRun.observed_kpis pending) [evidence]
    (EvidenceReference.summary evidence)
    (if bool_decide (status = VerificationStatus.FAILED)
     then Some "Local simulated verification failed"%string else None)
    (Some now) (Some now)
    (<["side_effects" := JBool false]>
       (<["mode" := JStr "simulation"]> (VerificationRun.metadata pending))).

Context `{!TrustedClock W}.

(** [verify(request)]. *)
Definition verify (e : Envelope.t) (b : VerificationRequest) :
    Eff W (Envelope.t * VerificationResult) :=
  let pending := verify_verification b in
  pure (throw_if (negb (bool_decide (VerificationRun.status pending
                                     = VerificationStatus.PENDING)))
    (GovernanceStateError "local verification input must be PENDING")) ≫= λ _,
  pure (requested_status (VerificationRun.metadata pending !! "requested_outcome"%string))
    ≫= λ status,
  trusted_now ≫= λ now,
  let evidence := test_evidence (VerificationRun.verification_id pending) status now in
  pure (validated (EvidenceReference.check evidence)) ≫= λ _,
  let verification := concluded pending status now in
  pure (validated (VerificationRun.check verification)) ≫= λ _,
  let e' := Envelope.mk
    (stable_id "local-verification-result"
       [ JStr (Envelope.message_id e); JStr (VerificationRun.verification_id verification);
         JStr (VerificationStatus.value status) ])
    (Envelope.workflow_id e) (Envelope.incident_id e) (Envelope.trace_id e)
    (stable_id "local-verification-result-key" [JStr (Envelope.idempotency_key e)]) now in
  let result := mk_verification_result verification
    (default EmptyString (EvidenceReference.summary evidence)) in
  pure (build e' (IVerificationResult result)) ≫= λ _,
  mret (e', result).
End gateway.
End LocalVerificationGateway.
