(* ===== verification/Governance.v ===== *)
(** * The local governance engine (telco_local/governance.py)

    [LocalGovernanceEngine]: [prepare] drives an Incident from DETECTED to an
    approval request, [decide] records the explicit decision, [execute] runs
    the simulation and its verification.  Each step of [prepare] is a function
    of the Incident reached so far and of whether this call has written. *)

From Stdlib Require Import Ascii String.
From S2P Require Import Prelude PyStr Json Models Incident Errors StateMachine Repository Contracts Ports GovernanceBase Gateways.
From S2P Require Import PyEq.

Module LocalGovernanceEngine.
Section engine.
Context `{Runtime, !IncidentRepository W, !TrustedClock W, !RcaGateway W}.

(** [_get(incident_id)]. *)
Definition get_incident (incident_id : string) : Eff W Incident.t :=
  pure (require_text "incident_id" incident_id 256) ≫= λ incident_id,
  Ports.get incident_id ≫= λ found,
  pure (of_option found (GovernanceNotFoundError incident_id)).

(** ** The marker of a governance request *)

Record Marker := mk_marker {
  marker_actor : string;
  approval_ttl_seconds : pyfloat;
  request_fingerprint : string;
  root_fingerprint : string;
  workflow_id : string
}.

(** [_marker(root_idempotency_key, approval_ttl, actor)]. *)
Definition make_marker (root_idempotency_key : string) (approval_ttl : Z) (actor : string) :
    Marker :=
  let root_fingerprint := digest [JStr root_idempotency_key] in
  let seconds := total_seconds approval_ttl in
  mk_marker actor seconds
    (digest [JStr "local-governance-prepare-v1"; JStr root_fingerprint; JFloat seconds;
             JStr actor])
    root_fingerprint
    (stable_id "local-governance-workflow" [JStr root_fingerprint]).

Definition marker_json (m : Marker) : json :=
  JObj [ ("actor", JStr (marker_actor m)); ("approval_ttl_seconds", JFloat (approval_ttl_seconds m));
         ("mode", JStr "simulation"); ("policy_version", JStr LocalSimulationPolicy.version);
         ("request_fingerprint", JStr (request_fingerprint m));
         ("root_fingerprint", JStr (root_fingerprint m));
         ("workflow_id", JStr (workflow_id m)) ].

(** [_require_marker(incident, expected)]. *)
Definition require_marker (incident : Incident.t) (expected : Marker) : result exc unit :=
  match Incident.model_metadata incident !! MARKER_KEY with
  | Some (JObj actual) =>
      throw_if (differ (dict_get "root_fingerprint" actual)
                  (Some (JStr (root_fingerprint expected))))
        (GovernanceStateError "incident is already owned by another governance request") ≫= λ _,
      throw_if (differ (dict_get "request_fingerprint" actual)
                  (Some (JStr (request_fingerprint expected))))
        (GovernanceIdempotencyConflictError
           "prepare idempotency key was retried with another request") ≫= λ _,
      throw_if (negb (py_eqb (JObj actual) (marker_json expected)))
        (GovernanceStateError "persisted local governance binding is inconsistent")
  | _ => Err (GovernanceStateError "incident is already owned by another lifecycle")
  end.

(** ** The failure of an execution whose approval has expired *)

(** [_execution_failure_binding(...)]. *)
Definition failure_binding (root_fingerprint request_fingerprint : string) : json :=
  JObj [ ("code", JStr EXECUTION_APPROVAL_EXPIRED_CODE);
         ("request_fingerprint", JStr request_fingerprint);
         ("root_fingerprint", JStr root_fingerprint); ("side_effects", JBool false) ].

(** [_require_complete_execution_failure_binding(incident)]. *)
Definition binding_keys : list string :=
  ["code"; "request_fingerprint"; "root_fingerprint"; "side_effects"]%string.
Definition complete_binding (raw : list (string * json)) : bool :=
  bool_decide ((list_to_set (map fst raw) : gset string) = list_to_set binding_keys)
  && bool_decide (dict_get "code" raw = Some (JStr EXECUTION_APPROVAL_EXPIRED_CODE))
  && bool_decide (dict_get "side_effects" raw = Some (JBool false))
  && is_sha256_digest (dict_get "request_fingerprint" raw)
  && is_sha256_digest (dict_get "root_fingerprint" raw).
Definition require_failure_binding (incident : Incident.t) : result exc (list (string * json)) :=
  let refusal :=
    GovernanceStateError "FAILED incident lacks a complete local execution failure binding" in
  match Incident.model_metadata incident !! EXECUTION_FAILURE_MARKER_KEY,
        latest_report incident, sole_action (latest_report incident),
        latest_approval incident with
  | Some (JObj raw), Some report, Some action, Some approval =>
      throw_if (negb (complete_binding raw)
                || negb (empty_list (Incident.action_runs incident))
                || negb (empty_list (Incident.verification_runs incident))
                || differ (RemediationAction.action_type action) LOCAL_SIMULATION_ACTION_TYPE
                || negb (py_eqb (RemediationAction.parameters action) LOCAL_SIMULATION_PARAMETERS)
                || negb (ApprovalDecision.is_status ApprovalStatus.APPROVED approval)
                || negb (ApprovalDecision.covers_action approval action
                           (Incident.incident_id incident) report)) refusal ≫= λ _,
      Ok raw
  | _, _, _, _ => Err refusal
  end.

(** [_fail_expired_execution(...)]. *)
Definition fail_expired_execution (incident : Incident.t)
    (idempotency_key actor root_fingerprint request_fingerprint : string) :
    Eff W GovernanceResult :=
  pure (throw_if (differ (Incident.status incident) IncidentStatus.REMEDIATING)
    (GovernanceStateError "expired execution recovery requires a REMEDIATING incident")) ≫= λ _,
  Ports.transition (Incident.incident_id incident) IncidentStatus.FAILED
    (Incident.revision incident)
    (mk_metadata
       (step_key idempotency_key "approval-no-longer-effective" [JStr request_fingerprint])
       actor EXECUTION_APPROVAL_EXPIRED_REASON (Incident.trace_id incident))
    (update_metadata
       (<[EXECUTION_FAILURE_MARKER_KEY := failure_binding root_fingerprint request_fingerprint]>
          (Incident.model_metadata incident))) ≫= λ committed,
  mret (mk_governance committed false).

(** ** [prepare] *)

Section preparing.
Context (idempotency_key actor : string) (approval_ttl : Z) (marker : Marker).

(** A write of this request. *)
Definition step_metadata (key reason : string) (current : Incident.t) : Metadata :=
  mk_metadata key actor reason (Incident.trace_id current).

Definition claim_step (current : Incident.t) : Eff W (Incident.t * bool) :=
  if bool_decide (Incident.status current = IncidentStatus.DETECTED) then
    Ports.transition (Incident.incident_id current) IncidentStatus.TRIAGED
      (Incident.revision current)
      (step_metadata (step_key idempotency_key "triage" [])
         "Triage incident for deterministic local governance" current)
      (update_metadata (<[MARKER_KEY := marker_json marker]> (Incident.model_metadata current)))
      ≫= λ current,
    mret (current, true)
  else
    pure (require_marker current marker) ≫= λ _,
    mret (current, false).

Definition investigate_step (state : Incident.t * bool) : Eff W (Incident.t * bool) :=
  let (current, wrote) := state in
  if bool_decide (Incident.status current = IncidentStatus.TRIAGED) then
    Ports.transition (Incident.incident_id current) IncidentStatus.INVESTIGATING
      (Incident.revision current)
      (step_metadata (step_key idempotency_key "investigate" [])
         "Start deterministic local RCA" current)
      no_updates ≫= λ current,
    mret (current, true)
  else mret (current, wrote).

(** [_validate_rca_result(request, result)]. *)
Definition validate_rca_result (e : Envelope.t) (b : RcaRequest) (e' : Envelope.t)
    (b' : RcaResult) : result exc unit :=
  let report := result_report b' in
  throw_if (differ (Envelope.incident_id e') (Envelope.incident_id e)
            || differ (Envelope.trace_id e') (Envelope.trace_id e)
            || differ (result_based_on_revision b') (rca_based_on_revision b)
            || differ (result_requested_report_version b') (rca_requested_report_version b)
            || differ (RcaReport.incident_id report) (Envelope.incident_id e)
            || differ (RcaReport.version report) (rca_requested_report_version b))
    (GovernanceStateError "RCA result is not bound to the requested incident revision") ≫= λ _,
  throw_if (negb (eligible_report_status (RcaReport.status report)))
    (GovernanceStateError "RCA result is not eligible for persistence") ≫= λ _,
  throw_if (empty_list (RcaReport.evidence_refs report))
    (GovernanceStateError "RCA result must include local evidence") ≫= λ _,
  throw_if (negb (empty_list (RcaReport.recommendations report)))
    (GovernanceStateError "the read-only local RCA gateway returned an action").

Definition rca_envelope (current : Incident.t) (now : Z) : Envelope.t :=
  Envelope.mk
    (stable_id "local-rca-request"
       [JStr (request_fingerprint marker); JInt (Incident.revision current)])
    (workflow_id marker) (Incident.incident_id current) (Incident.trace_id current)
    (step_key idempotency_key "rca-request" []) now.
Definition next_report_version (current : Incident.t) : Z :=
  default 0 (RcaReport.version <$> latest_report current) + 1.

(** The report to persist: a conclusive one with the simulation attached. *)
Definition report_to_persist (current : Incident.t) (report : RcaReport.t) (now : Z) :
    result exc RcaReport.t :=
  if bool_decide (RcaReport.conclusion report = RcaConclusion.CONCLUSIVE)
  then LocalSimulationPolicy.attach_action current report (request_fingerprint marker) now
  else Ok report.

Definition analyze_step (state : Incident.t * bool) : Eff W (Incident.t * bool) :=
  let (current, wrote) := state in
  if bool_decide (Incident.status current = IncidentStatus.INVESTIGATING) then
    trusted_now ≫= λ now,
    let e := rca_envelope current now in
    let b := mk_rca_request current (Incident.revision current) (next_report_version current) in
    pure (build e (IRcaRequest b)) ≫= λ _,
    Ports.analyze e b ≫= λ '(e', b'),
    pure (validate_rca_result e b e' b') ≫= λ _,
    pure (report_to_persist current (result_report b') now) ≫= λ report,
    Ports.transition (Incident.incident_id current) IncidentStatus.RCA_COMPLETE
      (Incident.revision current)
      (step_metadata (step_key idempotency_key "rca-complete" [])
         "Persist deterministic local RCA result" current)
      (update_rca (RcaReport.root_cause report) (RcaReport.hypotheses report)
         (Incident.rca_reports current ++ [report]) (RcaReport.recommendations report))
      ≫= λ current,
    mret (current, true)
  else mret (current, wrote).

(** The approval request for the recommendation of a report. *)
Definition ask_envelope (current : Incident.t) (action : RemediationAction.t) (now : Z) :
    Envelope.t :=
  Envelope.mk
    (stable_id "local-approval-request-message"
       [JStr (request_fingerprint marker); JStr (RemediationAction.action_hash action)])
    (workflow_id marker) (Incident.incident_id current) (Incident.trace_id current)
    (step_key idempotency_key "approval-request" []) now.
Definition ask_body (current : Incident.t) (report : RcaReport.t) (action : RemediationAction.t)
    (now : Z) : ApprovalRequest :=
  mk_approval_request
    (stable_id "local-approval-request"
       [ JStr (request_fingerprint marker); JStr (RcaReport.report_id report);
         JStr (RemediationAction.action_hash action) ])
    ApprovalType.NETWORK_ACTION report (Some action) (RemediationAction.target_resources action)
    (Incident.revision current) (Some (now + approval_ttl))
    "请显式审批隔离环境中的本地模拟动作。".

(** What [prepare] returns for the status it has reached. *)
Definition finish (state : Incident.t * bool) : result exc GovernanceResult :=
  let (current, wrote) := state in
  if bool_decide (Incident.status current = IncidentStatus.FAILED) then
    require_failure_binding current ≫= λ _, Ok (mk_governance current true)
  else if bool_decide (Incident.status current ∈
      [ IncidentStatus.AWAITING_APPROVAL; IncidentStatus.REMEDIATING; IncidentStatus.VERIFYING;
        IncidentStatus.RESOLVED; IncidentStatus.REOPENED; IncidentStatus.REJECTED ]) then
    require_marker current marker ≫= λ _, Ok (mk_governance current (negb wrote))
  else Err (GovernanceStateError
              ("prepare cannot resume incident in "
               +:+ IncidentStatus.value (Incident.status current))).

Definition request_step (state : Incident.t * bool) : Eff W GovernanceResult :=
  let (current, wrote) := state in
  if bool_decide (Incident.status current = IncidentStatus.RCA_COMPLETE) then
    pure (of_option (latest_report current)
      (GovernanceStateError "RCA_COMPLETE incident has no report")) ≫= λ report,
    if bool_decide (RcaReport.conclusion report = RcaConclusion.INCONCLUSIVE) then
      mret (mk_governance current (negb wrote))
    else
      pure (of_option (sole_action (Some report))
        (GovernanceStateError "conclusive local RCA must contain one simulation action"))
        ≫= λ action,
      trusted_now ≫= λ now,
      let e := ask_envelope current action now in
      let b := ask_body current report action now in
      pure (build e (IApprovalRequest b)) ≫= λ _,
      LocalApprovalGateway.request_approval e b ≫= λ _,
      get_incident (Incident.incident_id current) ≫= λ current,
      pure (finish (current, true))
  else pure (finish state).
End preparing.

(** [prepare(incident_id, idempotency_key, actor, approval_ttl)]. *)
Definition DAY : Z := 24 * 3600 * 1000000.
Definition prepare (incident_id idempotency_key actor : string) (approval_ttl : Z) :
    Eff W GovernanceResult :=
  pure (require_text "idempotency_key" idempotency_key 256) ≫= λ key,
  pure (require_text "actor" actor 256) ≫= λ actor,
  pure (throw_if ((approval_ttl <=? 0) || (DAY <? approval_ttl))
    (ValueError "approval_ttl must be greater than zero and at most 24 hours")) ≫= λ _,
  let marker := make_marker key approval_ttl actor in
  get_incident incident_id ≫= λ current,
  claim_step key actor marker current ≫= λ state,
  investigate_step key actor state ≫= λ state,
  analyze_step key actor marker state ≫= λ state,
  request_step key approval_ttl marker state.

(** ** [decide] *)

Definition decide (incident_id : string) (approve : bool) (expected_action_hash : string)
    (expected_revision : Z) (actor reason idempotency_key : string) : Eff W GovernanceResult :=
  get_incident incident_id ≫= λ before,
  pure (require_text "idempotency_key" idempotency_key 256) ≫= λ key,
  let had_event :=
    existsb (λ d, bool_decide (ApprovalDecision.idempotency_key d
                               = LocalApprovalGateway.event_key key))
      (Incident.approvals before) in
  LocalApprovalGateway.decide incident_id approve expected_action_hash expected_revision actor
    reason idempotency_key ≫= λ committed,
  mret (mk_governance committed had_event).

(** ** [execute] *)

Definition execute_fingerprint (current : Incident.t) (root_fingerprint actor : string)
    (verification_passed : bool) (action : RemediationAction.t)
    (approval : option ApprovalDecision.t) : string :=
  digest [ JStr "local-governance-execute-v2"; JStr (Incident.incident_id current);
           JStr root_fingerprint; JStr actor; JBool verification_passed;
           JStr (RemediationAction.action_hash action);
           json_opt JStr (ApprovalDecision.approval_id <$> approval) ].

(** The retry of an execution that failed. *)
Definition failed_replay (current : Incident.t) (root_fingerprint request_fingerprint : string) :
    result exc GovernanceResult :=
  match require_failure_binding current with
  | Err _ =>
      Err (GovernanceStateError "FAILED incident was not produced by expired execution recovery")
  | Ok raw =>
      throw_if (differ (dict_get "root_fingerprint" raw) (Some (JStr root_fingerprint)))
        (GovernanceStateError "FAILED incident belongs to another execution request") ≫= λ _,
      throw_if (differ (dict_get "request_fingerprint" raw) (Some (JStr request_fingerprint)))
        (GovernanceIdempotencyConflictError
           "execution key was retried with another request") ≫= λ _,
      throw_if (negb (py_eqb (JObj raw) (failure_binding root_fingerprint request_fingerprint)))
        (GovernanceStateError "persisted execution failure binding is inconsistent") ≫= λ _,
      Ok (mk_governance current true)
  end.

(** The request that asks the action gateway to run the simulation. *)
Definition change_envelope (current : Incident.t) (action : RemediationAction.t)
    (action_key request_fingerprint : string) (now : Z) : Envelope.t :=
  Envelope.mk
    (stable_id "local-change-request"
       [JStr request_fingerprint; JStr (RemediationAction.action_hash action)])
    (stable_id "local-execution-workflow" [JStr request_fingerprint])
    (Incident.incident_id current) (Incident.trace_id current) action_key now.
Definition execution_reference (current : Incident.t) (report : RcaReport.t)
    (action : RemediationAction.t) (approval : ApprovalDecision.t) (now : Z) :
    ApprovalReference.t :=
  ApprovalReference.mk (ApprovalDecision.approval_id approval)
    (ApprovalDecision.request_id approval) (ApprovalDecision.sequence approval)
    (Incident.incident_id current) (RcaReport.report_id report) (RcaReport.version report)
    (RemediationAction.action_id action) (RemediationAction.action_hash action)
    (Incident.revision current - 1) now "local-governance-engine".

(** The approval that covers the action, or a refusal. *)
Definition covering_approval (current : Incident.t) (report : RcaReport.t)
    (action : RemediationAction.t) : result exc ApprovalDecision.t :=
  let refusal :=
    GovernanceAuthorizationError "latest approval does not cover the simulation action" in
  of_option (latest_approval current) refusal ≫= λ approval,
  throw_if (negb (ApprovalDecision.is_status ApprovalStatus.APPROVED approval)
            || negb (ApprovalDecision.covers_action approval action
                       (Incident.incident_id current) report)) refusal ≫= λ _,
  Ok approval.

(** The [try] of [execute]: the run, or what is left when the gateway refuses
    the approval and it has expired in the meantime. *)
Definition run_or_fail (e : Envelope.t) (b : NetworkChangeRequest)
    (approval : ApprovalDecision.t) (failed : Eff W GovernanceResult) :
    Eff W (ActionRun.t + GovernanceResult) :=
  except_authorization
    (SimulatedActionGateway.execute e b ≫= λ run, mret (inl run))
    (λ msg,
       trusted_now ≫= λ now,
       if negb (ApprovalDecision.is_effective approval now) then
         failed ≫= λ g, mret (inr g)
       else pure (Err (GovernanceAuthorizationError msg))).

(** REMEDIATING: run the simulation under its approval, and record the run; or
    record that the approval has expired. *)
Definition simulate (current : Incident.t) (report : RcaReport.t) (action : RemediationAction.t)
    (idempotency_key actor root_fingerprint request_fingerprint action_key : string) :
    Eff W (Incident.t + GovernanceResult) :=
  pure (covering_approval current report action) ≫= λ approval,
  let failed :=
    fail_expired_execution current idempotency_key actor root_fingerprint request_fingerprint in
  trusted_now ≫= λ now,
  if negb (ApprovalDecision.is_effective approval now) then failed ≫= λ g, mret (inr g)
  else
    let reference := execution_reference current report action approval now in
    pure (validated (ApprovalReference.check reference)) ≫= λ _,
    let e := change_envelope current action action_key request_fingerprint now in
    let b := mk_network_change action report (Incident.revision current - 1) reference in
    pure (build e (INetworkChange b)) ≫= λ _,
    run_or_fail e b approval failed ≫= λ outcome,
    match outcome with
    | inr g => mret (inr g)
    | inl run =>
        Ports.transition (Incident.incident_id current) IncidentStatus.VERIFYING
          (Incident.revision current)
          (mk_metadata action_key actor "Record side-effect-free local simulation run"
             (Incident.trace_id current))
          (update_action_runs (Incident.action_runs current ++ [run])) ≫= λ current,
        mret (inl current)
    end.

(** VERIFYING: find the run, verify it, and settle the Incident. *)
Definition find_run (current : Incident.t) (run_id action_hash : string) :
    result exc ActionRun.t :=
  of_option (next_such (λ r, bool_decide (ActionRun.action_run_id r = run_id))
               (Incident.action_runs current))
    (if negb (empty_list (Incident.action_runs current))
     then GovernanceIdempotencyConflictError
            "another execution request already produced the action run"
     else GovernanceStateError "simulated action run was not persisted") ≫= λ run,
  throw_if (differ (ActionRun.status run) ActionRunStatus.SUCCEEDED
            || differ (ActionRun.action_hash run) (Some action_hash))
    (GovernanceStateError "simulated action run is not successful") ≫= λ _,
  Ok run.

Definition pending_verification (current : Incident.t) (run : ActionRun.t)
    (verification_id request_fingerprint : string) (verification_passed : bool) :
    VerificationRun.t :=
  VerificationRun.mk verification_id (Some (Incident.incident_id current))
    [ActionRun.action_run_id run] VerificationStatus.PENDING
    ["local deterministic post-remediation health check"%string] [] [] None None None None
    {[ "mode" := JStr "simulation";
       "requested_outcome" := JStr (if verification_passed then "PASSED" else "FAILED");
       "request_fingerprint" := JStr request_fingerprint ]}.

Definition verify_step (current : Incident.t) (run : ActionRun.t)
    (idempotency_key actor verification_id request_fingerprint : string)
    (verification_passed : bool) : Eff W GovernanceResult :=
  trusted_now ≫= λ now,
  let pending := pending_verification current run verification_id request_fingerprint
                   verification_passed in
  pure (validated (VerificationRun.check pending)) ≫= λ _,
  let verification_key := step_key idempotency_key "verify" [JStr request_fingerprint] in
  let e := Envelope.mk
    (stable_id "local-verification-request" [JStr request_fingerprint; JStr verification_id])
    (stable_id "local-execution-workflow" [JStr request_fingerprint])
    (Incident.incident_id current) (Incident.trace_id current) verification_key now in
  let b := mk_verification_request run pending in
  pure (build e (IVerificationRequest b)) ≫= λ _,
  LocalVerificationGateway.verify e b ≫= λ '(_, verified),
  let verification := verified_verification verified in
  let target :=
    if bool_decide (VerificationRun.status verification = VerificationStatus.PASSED)
    then IncidentStatus.RESOLVED else IncidentStatus.REOPENED in
  Ports.transition (Incident.incident_id current) target (Incident.revision current)
    (mk_metadata verification_key actor
       ("Record local simulated verification: "
        +:+ VerificationStatus.value (VerificationRun.status verification))
       (Incident.trace_id current))
    (update_verification_runs (Incident.verification_runs current ++ [verification]))
    ≫= λ current,
  mret (mk_governance current false).

(** [execute(incident_id, idempotency_key, actor, verification_passed)]. *)
Definition execute (incident_id idempotency_key actor : string) (verification_passed : bool) :
    Eff W GovernanceResult :=
  pure (require_text "idempotency_key" idempotency_key 256) ≫= λ key,
  pure (require_text "actor" actor 256) ≫= λ actor,
  let root_fingerprint := digest [JStr key] in
  get_incident incident_id ≫= λ current,
  pure (of_option (latest_report current ≫= λ r, (λ a, (r, a)) <$> sole_action (Some r))
    (GovernanceStateError "execution requires one frozen local simulation action"))
    ≫= λ '(report, action),
  let fingerprint := execute_fingerprint current root_fingerprint actor verification_passed action
                       (latest_approval current) in
  let verification_id :=
    stable_id "local-verification" [JStr root_fingerprint; JStr incident_id] in
  match next_such (λ v, bool_decide (VerificationRun.verification_id v = verification_id))
          (Incident.verification_runs current) with
  | Some existing =>
      pure (throw_if (differ (VerificationRun.metadata existing !! "request_fingerprint"%string)
                        (Some (JStr fingerprint)))
        (GovernanceIdempotencyConflictError "execution key was retried with another request"))
        ≫= λ _,
      mret (mk_governance current true)
  | None =>
      if bool_decide (Incident.status current = IncidentStatus.FAILED) then
        pure (failed_replay current root_fingerprint fingerprint)
      else
        let action_key := step_key key "simulate-action"
          [JStr fingerprint; JStr (RemediationAction.action_hash action)] in
        let expected_run_id :=
          SimulatedActionGateway.run_id (Incident.incident_id current) action_key
            (RemediationAction.action_hash action) in
        (if bool_decide (Incident.status current = IncidentStatus.REMEDIATING)
         then simulate current report action key actor root_fingerprint fingerprint action_key
         else mret (inl current)) ≫= λ outcome,
        match outcome with
        | inr g => mret g
        | inl current =>
            pure (throw_if (differ (Incident.status current) IncidentStatus.VERIFYING)
              (GovernanceStateError
                 "local execution requires a REMEDIATING or resumable VERIFYING incident"))
              ≫= λ _,
            pure (find_run current expected_run_id (RemediationAction.action_hash action))
              ≫= λ run,
            verify_step current run key actor verification_id fingerprint verification_passed
        end
  end.
End engine.
End LocalGovernanceEngine.
