(* ===== verification/GovernanceFacts.v ===== *)
(** * Facts about the governance programs

    How a program that returned ran ([step_in]), that every program of the
    engine only lets time pass ([calm]), and that its texts are strings. *)

From Stdlib Require Import Ascii String.
From S2P Require Import Prelude PyStr Json Models Incident Errors StateMachine Repository.
From S2P Require Import PyEq.
From S2P Require Import Contracts Ports GovernanceBase Gateways Governance.

(** ** Texts made of ASCII characters *)

Definition plainb (s : string) : bool := string_forall (λ c, (byte_of c <? 128)%N) s.

Lemma plain_chars s :
  plainb s = true →
  Forall (λ ch, ∃ c, ch = String c EmptyString ∧ (byte_of c <? 128)%N = true) (chars s).
Proof.
  unfold plainb. induction s as [|c s IH]; cbn; [constructor|].
  intros [Hc Hs]%andb_true_iff. specialize (IH Hs).
  destruct IH as [|h t (d & -> & Hd) Ht]; [by repeat constructor; exists c|].
  cbn [starts_continuation]. unfold is_continuation.
  assert ((128 <=? byte_of d)%N = false) as -> by (apply N.leb_gt; by apply N.ltb_lt in Hd).
  cbn. constructor; [by exists c|]. constructor; [by exists d|done].
Qed.

Lemma plain_utf8 s : plainb s = true → utf8 s.
Proof.
  intros H%plain_chars. eapply Forall_impl; [exact H|]. intros ch (c & -> & _). cbn. lia.
Qed.

Lemma plain_app s t : plainb (s +:+ t) = plainb s && plainb t.
Proof.
  unfold plainb. induction s as [|c s IH]; [done|]. rewrite app_cons. cbn. rewrite IH.
  by destruct (_ <? _)%N.
Qed.

Lemma plain_substring n m s : plainb s = true → plainb (substring n m s) = true.
Proof.
  unfold plainb. revert n m. induction s as [|c s IH]; intros [|n] [|m]; cbn; try done.
  - intros [-> Hs]%andb_true_iff. by apply IH.
  - intros [_ Hs]%andb_true_iff. by apply IH.
  - intros [_ Hs]%andb_true_iff. by apply IH.
Qed.

Section texts.
Context `{R : Runtime, L : !RuntimeLaws R}.

Lemma plain_digest parts : plainb (digest parts) = true.
Proof.
  unfold digest. pose proof (sha256_hex64 (dumps (JArr parts))) as H.
  unfold is_hex64 in H. apply andb_true_iff in H as [_ H].
  eapply string_forall_impl; [|exact H]. intros c. unfold is_lower_hex, is_digit.
  rewrite orb_true_iff, !andb_true_iff, !N.leb_le, N.ltb_lt. lia.
Qed.

Lemma plain_stable_id prefix parts : plainb prefix = true → plainb (stable_id prefix parts) = true.
Proof.
  intros Hp. unfold stable_id. rewrite !plain_app, Hp. cbn. apply plain_substring, plain_digest.
Qed.

Lemma utf8_step_key key step parts : plainb step = true → utf8 (step_key key step parts).
Proof.
  intros Hs. apply plain_utf8, plain_stable_id. by rewrite plain_app, Hs.
Qed.

Lemma require_text_Ok name value n s :
  require_text name value n = Ok s ↔
  is_blank value = false ∧ py_len (py_strip value) ≤ n ∧ s = py_strip value.
Proof.
  unfold require_text. split.
  - intros H. run_ok. subst. rewrite Z.ltb_ge in *. done.
  - intros (-> & Hl & ->). cbn. by destruct (Z.ltb_spec n (py_len (py_strip value))); [lia|].
Qed.

Lemma metadata_plain key actor reason trace :
  utf8 key → utf8 actor → plainb reason = true → utf8 trace →
  metadata_texts (mk_metadata key actor reason trace).
Proof. intros. split_and!; [done..|by apply plain_utf8|done]. Qed.
End texts.

(** ** Runs of a program *)

Section runs.
Context {W : Type}.

Lemma bind_pure_run {A B} (r : result exc A) (f : A → Eff W B) w :
  (pure r ≫= f) w = match r with Ok a => f a w | Err e => (Err e, w) end.
Proof. by destruct r. Qed.

Lemma bind_ok {A B} (m : Eff W A) (f : A → Eff W B) w b w' :
  (m ≫= f) w = (Ok b, w') → ∃ a w1, m w = (Ok a, w1) ∧ f a w1 = (Ok b, w').
Proof. unfold mbind, Eff_bind. destruct (m w) as [[a|e] w1]; [eauto|done]. Qed.

Lemma ret_ok_eff {A} (a b : A) (w w' : W) : (mret a : Eff W A) w = (Ok b, w') → b = a ∧ w' = w.
Proof. by intros [= <- <-]. Qed.

Lemma pure_ok {A} (r : result exc A) (a : A) (w w' : W) :
  pure r w = (Ok a, w') → r = Ok a ∧ w' = w.
Proof. by intros [= -> <-]. Qed.
End runs.

(** [step_in H] takes the first operation off a run [H] that returned. *)
Ltac step_in H :=
  match type of H with
  | (pure ?r ≫= _) _ = (Ok _, _) =>
      rewrite bind_pure_run in H;
      let a := fresh "a" in let E := fresh "E" in
      destruct r as [a|] eqn:E; [|discriminate H]
  | (mret _ ≫= _) _ = _ => unfold mbind at 1, Eff_bind at 1, mret at 1, Eff_ret at 1 in H
  | (_ ≫= _) _ = (Ok _, _) =>
      let a := fresh "a" in let w := fresh "w" in let E := fresh "E" in
      apply bind_ok in H as (a & w & E & H)
  | mret _ _ = (Ok _, _) => apply ret_ok_eff in H as [H ?]; subst
  | pure _ _ = (Ok _, _) => apply pure_ok in H as [H ?]; subst
  end.

Section programs.
Context `{WL : WorldLaws W, L : !RuntimeLaws R}.

(** ** Programs only let time pass *)

(** An Incident of the repository. *)
Definition known (i : Incident.t) : Prop := valid i ∧ utf8 (Incident.trace_id i).

(** In a sane world the program only lets time pass, and what it returns
    satisfies [Q]. *)
Definition calm {A} (m : Eff W A) (Q : A → Prop) : Prop := ∀ w r w',
  sane w → m w = (r, w') → later w w' ∧ match r with Ok a => Q a | Err _ => True end.

Lemma calm_bind {A B} (m : Eff W A) (f : A → Eff W B) Q Q' :
  calm m Q → (∀ a, Q a → calm (f a) Q') → calm (m ≫= f) Q'.
Proof.
  intros Hm Hf w r w' Hs. unfold mbind, Eff_bind.
  destruct (m w) as [[a|e] w1] eqn:E; destruct (Hm _ _ _ Hs E) as [Hl Ha].
  - intros H. destruct (Hf a Ha _ _ _ (sane_later _ _ Hl Hs) H) as [Hl' Hb].
    split; [by etransitivity|done].
  - by intros [= <- <-].
Qed.

Lemma calm_pure {A} (r : result exc A) : calm (pure r) (λ a, r = Ok a).
Proof. intros w r' w' _ [= <- <-]. by destruct r. Qed.
Lemma calm_ret {A} (a : A) : calm (mret a) (λ b, b = a).
Proof. by intros w r' w' _ [= <- <-]. Qed.
Lemma calm_get id :
  calm (Ports.get id) (λ o, ∀ i, o = Some i → known i ∧ Incident.incident_id i = id).
Proof.
  intros w r w' Hs H. destruct (get_spec _ _ _ _ Hs H) as [Hl Hr]. split; [done|].
  destruct r as [[i|]|]; try done. destruct Hr as [Hst Hi]. intros _ [= <-].
  split; [|done]. by eapply stored_valid; [eapply sane_later|].
Qed.
Lemma calm_now : calm trusted_now (λ _, True).
Proof.
  intros w r w' Hs. unfold trusted_now, mbind, Eff_bind.
  destruct (clock w) as [[a|e] w1] eqn:E; intros [= <- <-];
    (split; [by eapply clock_spec|]); [by destruct (trusted_instant a)|done].
Qed.
Lemma calm_analyze e b : calm (Ports.analyze e b) (λ _, True).
Proof. intros w r w' Hs H. split; [by eapply analyze_spec|by destruct r]. Qed.
Lemma calm_transition id target rev m u :
  metadata_texts m → update_texts u → calm (Ports.transition id target rev m u) known.
Proof.
  intros Hm Hu w [i|e] w' Hs H; [|by destruct (transition_spec _ _ _ _ _ _ _ _ Hs Hm Hu H)].
  by destruct (transition_committed _ _ _ _ _ _ _ _ Hs Hm Hu H) as (Hl & _ & Hk).
Qed.
Lemma calm_except {A} (m : Eff W A) h Q :
  calm m Q → (∀ msg, calm (h msg) Q) → calm (except_authorization m h) Q.
Proof.
  intros Hm Hh w r w' Hs. unfold except_authorization.
  destruct (m w) as [[a|e] w1] eqn:E; destruct (Hm _ _ _ Hs E) as [Hl Ha]; [by intros [= <- <-]|].
  destruct e; try by intros [= <- <-].
  intros H. destruct (Hh msg _ _ _ (sane_later _ _ Hl Hs) H) as [Hl' Hb].
  split; [by etransitivity|done].
Qed.
Lemma calm_weaken {A} (m : Eff W A) (Q Q' : A → Prop) :
  calm m Q → (∀ a, Q a → Q' a) → calm m Q'.
Proof.
  intros Hm Hq w r w' Hs H. destruct (Hm _ _ _ Hs H) as [Hl Ha]. split; [done|].
  destruct r; [by apply Hq|done].
Qed.

End programs.

Create HintDb calm.

(** [calm_tac] follows a program through its operations.  Its texts remain. *)
Ltac calm_tac :=
  repeat (cbn beta in *; match goal with
  | |- calm (_ ≫= _) _ => eapply calm_bind; [|intros ? ?]
  | |- calm (pure _) _ => apply calm_pure || (eapply calm_weaken; [apply calm_pure|])
  | |- calm (mret _) _ => apply calm_ret || (eapply calm_weaken; [apply calm_ret|])
  | |- calm (Ports.get _) _ => apply calm_get
  | |- calm trusted_now _ => apply calm_now
  | |- calm (Ports.analyze _ _) _ => apply calm_analyze
  | |- calm (except_authorization _ _) _ => apply calm_except; [|intros ?]
  | |- calm (let (_, _) := ?x in _) _ => destruct x
  | |- calm _ _ => solve [eauto with calm]
  | |- calm (match ?x with _ => _ end) _ => destruct x eqn:?
  end);
  try lazymatch goal with |- calm _ _ => idtac | |- ∀ _, _ → _ => intros ? ? end;
  cbn beta in *.

Section engine_calm.
Context `{WL : WorldLaws W, L : !RuntimeLaws R}.

(** An Incident that was just read. *)
Lemma get_one_run id e w i w' :
  sane w → (Ports.get id ≫= λ found, pure (of_option found e)) w = (Ok i, w') →
  later w w' ∧ stored w' i ∧ Incident.incident_id i = id.
Proof.
  intros Hs H. step_in H. step_in H. apply of_option_Ok in H as ->.
  destruct (get_spec _ _ _ _ Hs E) as (Hl & Hst & Hi). done.
Qed.
Lemma known_transition id target rev key actor reason i u :
  utf8 key → utf8 actor → plainb reason = true → known i → update_texts u →
  calm (Ports.transition id target rev (mk_metadata key actor reason (Incident.trace_id i)) u)
    known.
Proof. intros ? ? ? [_ ?] ?. apply calm_transition; [by apply metadata_plain|done]. Qed.

Lemma found_known {e : exc} {o : option Incident.t} {i id} :
  (∀ i, o = Some i → known i ∧ Incident.incident_id i = id) → of_option o e = Ok i → known i.
Proof. intros H ->%of_option_Ok. by apply H. Qed.

Lemma decision_reason status :
  plainb ("Record explicit local simulation decision: " +:+ ApprovalStatus.value status) = true.
Proof. by destruct status. Qed.
Lemma verification_reason status :
  plainb ("Record local simulated verification: " +:+ VerificationStatus.value status) = true.
Proof. by destruct status. Qed.

Lemma stripped_text {name value n s} : utf8 value → require_text name value n = Ok s → utf8 s.
Proof. intros Hv (_ & _ & ->)%require_text_Ok. by apply utf8_py_strip. Qed.

Ltac reason_tac :=
  lazymatch goal with
  | |- plainb (_ +:+ ApprovalStatus.value _) = true => apply decision_reason
  | |- plainb (_ +:+ VerificationStatus.value _) = true => apply verification_reason
  | |- plainb _ = true => reflexivity
  end.

(** The transitions of a program write known texts. *)
Ltac writes_tac :=
  try match goal with
  | H : ∀ i, ?o = Some i → _, E : of_option ?o _ = Ok ?i |- _ =>
      pose proof (found_known H E)
  end;
  lazymatch goal with
  | |- calm (Ports.transition _ _ _ _ _) _ =>
      apply known_transition;
        [try first [eassumption|by apply utf8_step_key]
        |try first [eassumption|by eapply stripped_text|by apply plain_utf8]
        |reason_tac|done|done]
  | |- _ => idtac
  end.

Lemma get_incident_calm id : calm (LocalGovernanceEngine.get_incident id) known.
Proof.
  unfold LocalGovernanceEngine.get_incident. calm_tac.
  eapply found_known; eassumption.
Qed.

Lemma request_approval_calm e b :
  utf8 (Envelope.idempotency_key e) →
  calm (LocalApprovalGateway.request_approval e b) (λ _, True).
Proof.
  intros Hk. unfold LocalApprovalGateway.request_approval. calm_tac; writes_tac; done.
Qed.

Lemma gateway_decide_calm id approve hash rev actor reason key :
  utf8 actor →
  calm (LocalApprovalGateway.decide id approve hash rev actor reason key) known.
Proof.
  intros Ha. unfold LocalApprovalGateway.decide. calm_tac; writes_tac; subst; try done.
Qed.

Lemma resolve_calm e b : calm (LocalApprovalGateway.resolve_for_execution e b) (λ _, True).
Proof. unfold LocalApprovalGateway.resolve_for_execution. calm_tac; done. Qed.

#[local] Hint Resolve get_incident_calm resolve_calm request_approval_calm : calm.
#[local] Hint Extern 1 (utf8 _) => by apply utf8_step_key : calm.

Lemma action_calm e b : calm (SimulatedActionGateway.execute e b) (λ _, True).
Proof. unfold SimulatedActionGateway.execute. calm_tac; done. Qed.

Lemma verify_calm e b : calm (LocalVerificationGateway.verify e b) (λ _, True).
Proof. unfold LocalVerificationGateway.verify. calm_tac; done. Qed.

#[local] Hint Resolve action_calm verify_calm gateway_decide_calm : calm.
#[local] Hint Extern 1 (plainb _ = true) => by apply plain_stable_id : calm.
Import LocalGovernanceEngine.

Lemma fail_calm i key actor root fp :
  utf8 actor → known i → calm (fail_expired_execution i key actor root fp) (λ _, True).
Proof. intros. unfold fail_expired_execution. calm_tac; writes_tac; done. Qed.

Lemma claim_calm key actor marker i :
  utf8 actor → known i → calm (claim_step key actor marker i) (λ s, known s.1).
Proof.
  intros. unfold claim_step, step_metadata. calm_tac; writes_tac; subst; done.
Qed.
Lemma investigate_calm key actor s :
  utf8 actor → known s.1 → calm (investigate_step key actor s) (λ s, known s.1).
Proof.
  intros. unfold investigate_step, step_metadata. calm_tac; writes_tac; subst; done.
Qed.
Lemma analyze_calm key actor marker s :
  utf8 actor → known s.1 → calm (analyze_step key actor marker s) (λ s, known s.1).
Proof.
  intros. unfold analyze_step, step_metadata. calm_tac; writes_tac; subst; try done.
Qed.
Lemma request_calm key ttl marker s : calm (request_step key ttl marker s) (λ _, True).
Proof.
  unfold request_step. calm_tac; try done.
Qed.

#[local] Hint Resolve fail_calm claim_calm investigate_calm analyze_calm request_calm : calm.
#[local] Hint Extern 1 (utf8 _) => solve [eapply stripped_text; eassumption] : calm.

Lemma prepare_calm id key actor ttl :
  utf8 actor → calm (prepare id key actor ttl) (λ _, True).
Proof. intros. unfold prepare. calm_tac; try done. Qed.

Lemma decide_calm id approve hash rev actor reason key :
  utf8 actor → calm (decide id approve hash rev actor reason key) (λ _, True).
Proof. intros. unfold decide. calm_tac; done. Qed.

Lemma run_or_fail_calm e b approval failed :
  calm failed (λ _, True) → calm (run_or_fail e b approval failed) (λ _, True).
Proof. intros. unfold run_or_fail. calm_tac; done. Qed.

#[local] Hint Resolve run_or_fail_calm : calm.

Lemma simulate_calm i report action key actor root fp action_key :
  utf8 actor → known i → plainb action_key = true →
  calm (simulate i report action key actor root fp action_key)
    (λ o, match o with inl j => known j | inr _ => True end).
Proof.
  intros Ha Hi Hk%plain_utf8. unfold simulate. calm_tac; writes_tac; subst; done.
Qed.

Lemma verify_step_calm i run key actor vid fp passed :
  utf8 actor → known i → calm (verify_step i run key actor vid fp passed) (λ _, True).
Proof. intros. unfold verify_step. calm_tac; writes_tac; done. Qed.

#[local] Hint Resolve simulate_calm verify_step_calm : calm.

Lemma execute_calm id key actor passed :
  utf8 actor → calm (execute id key actor passed) (λ _, True).
Proof. intros. unfold execute. calm_tac; subst; try done. Qed.
End engine_calm.
