(* ===== verification/GovernanceRuns.v ===== *)
(** * What the governance programs do when they return

    For each program over a lawful world: the Incident it read, the checks it
    made on it, and the one transition it committed. *)

From Stdlib Require Import Ascii String.
From S2P Require Import Prelude PyStr Json Models Incident Errors StateMachine Repository.
From S2P Require Import PyEq.
From S2P Require Import Contracts Ports GovernanceBase Gateways Governance GovernanceFacts.

Section runs.
Context `{WL : WorldLaws W, L : !RuntimeLaws R}.

Lemma later_trans (w1 w2 w3 : W) : later w1 w2 → later w2 w3 → later w1 w3.
Proof. intros. by etransitivity. Qed.

(** [now] is what the clock told when it was asked between two moments. *)
Definition told (w : W) (now : Z) (w' : W) : Prop :=
  ∃ u u', later w u ∧ trusted_now u = (Ok now, u') ∧ later u' w'.

Lemma now_run w t w' : sane w → trusted_now w = (Ok t, w') → later w w'.
Proof. intros Hs H. by apply (calm_now _ _ _ Hs H). Qed.

Lemma told_at w w1 now w2 w' :
  later w w1 → trusted_now w1 = (Ok now, w2) → later w2 w' → told w now w'.
Proof. intros. by exists w1, w2. Qed.
Lemma told_now w now w' : trusted_now w = (Ok now, w') → told w now w'.
Proof. intros H. by eapply told_at; [|exact H|]. Qed.
Lemma told_within w0 w now w' w1 : later w0 w → told w now w' → later w' w1 → told w0 now w1.
Proof. intros H0 (u & u' & H1 & H & H2) H3. exists u, u'. split_and!; [by etransitivity|done|by etransitivity]. Qed.

Lemma told_later w now w' : sane w → told w now w' → later w w'.
Proof.
  intros Hs (u & u' & H1 & H & H2). apply now_run in H; [|by eapply sane_later].
  etransitivity; [done|]. by etransitivity.
Qed.

(** [found]: the Incident that [get] returned. *)
Lemma found_run id o w w' (e : exc) i :
  sane w → Ports.get id w = (Ok o, w') → of_option o e = Ok i →
  later w w' ∧ sane w' ∧ stored w' i ∧ Incident.incident_id i = id ∧ known i.
Proof.
  intros Hs H ->%of_option_Ok. destruct (get_spec _ _ _ _ Hs H) as (Hl & Hst & Hi).
  pose proof (sane_later _ _ Hl Hs). split_and!; try done.
  by eapply stored_valid.
Qed.

(** ** Executing *)

(** What the approval gateway found when it resolved the request. *)
Record authority (e : Envelope.t) (b : NetworkChangeRequest) (current : Incident.t)
    (d : ApprovalDecision.t) (now : Z) : Prop := {
  auth_incident : Incident.incident_id current = Envelope.incident_id e;
  auth_status : Incident.status current = IncidentStatus.REMEDIATING;
  auth_revision : Incident.revision current = change_based_on_revision b + 1;
  auth_report : ∃ r, latest_report current = Some r ∧ r ≐ change_report b;
  auth_action : ∃ a, a ∈ Incident.recommendations current ∧ change_action b ≐ a;
  auth_decision : validate_approval_reference (change_approval_reference b)
    (Incident.approvals current) (change_action b) (change_report b) (Aware now 0) = Ok d
}.

Lemma resolve_run e b w d w' :
  sane w → LocalApprovalGateway.resolve_for_execution e b w = (Ok d, w') →
  later w w' ∧ ∃ w1 current now, later w w1 ∧ later w1 w' ∧ stored w1 current ∧
    told w1 now w' ∧ authority e b current d now.
Proof.
  intros Hs H. unfold LocalApprovalGateway.resolve_for_execution in H. do 6 (step_in H).
  destruct (found_run _ _ _ _ _ _ Hs E E0) as (Hl & Hs1 & Hst & Hid & _).
  pose proof (told_now _ _ _ E4) as Ht. apply now_run in E4; [|done]. step_in H. rewrite throw_if_Ok in E1, E2, E3.
  apply orb_false_iff in E3 as [E3 E3'].
  rewrite negb_false_iff in E1, E2, E3, E3'. rewrite bool_decide_eq_true in E1.
  rewrite Z.eqb_eq in E2. apply py_mem_spec in E3'. unfold LocalApprovalGateway.same_report in E3.
  split; [by eapply later_trans|]. eexists _, _, _. split_and!; [exact Hl|done|exact Hst|done|].
  split; try done. destruct (latest_report _) as [r|]; [by exists r|done].
Qed.

Lemma gateway_execute_run e b w run w' :
  sane w → SimulatedActionGateway.execute e b w = (Ok run, w') →
  later w w' ∧ ∃ w1 current d now now', later w w1 ∧ later w1 w' ∧ stored w1 current ∧
    told w1 now w' ∧ told w1 now' w' ∧ authority e b current d now ∧
    SimulatedActionGateway.fixed_simulation (change_action b) = true ∧
    run = SimulatedActionGateway.simulated_run e (change_action b) now' ∧
    ActionRun.check run = Ok tt.
Proof.
  intros Hs H. unfold SimulatedActionGateway.execute in H. do 4 (step_in H). step_in H.
  apply throw_if_Ok, negb_false_iff in E.
  destruct (resolve_run _ _ _ _ _ Hs E0) as (Hl & v & current & now & H1 & H2 & H3 & Ht & H4).
  pose proof (sane_later _ _ Hl Hs) as Hs'. pose proof (told_now _ _ _ E1) as Ht'.
  apply now_run in E1; [|done].
  split; [eapply later_trans; [exact Hl|exact E1]|]. exists v, current, a0, now, a1.
  apply validated_Ok in E2. destruct a2.
  split_and!; try done.
  - eapply later_trans; [exact H2|exact E1].
  - by eapply told_within; [reflexivity|exact Ht|].
  - by eapply told_within; [exact H2|exact Ht'|].
Qed.

Import LocalGovernanceEngine.

(** The Incident failed because its approval was no longer effective. *)
Definition expired_outcome (current : Incident.t)
    (key root fp : string) (w0 : W) (g : GovernanceResult) (w : W) : Prop :=
  g_replayed g = false ∧
  committed (Incident.incident_id current) IncidentStatus.FAILED (Incident.revision current)
    (step_key key "approval-no-longer-effective" [JStr fp])
    (update_metadata (<[EXECUTION_FAILURE_MARKER_KEY := failure_binding root fp]>
                        (Incident.model_metadata current))) w0 (g_incident g) w.

(** The simulation ran under its approval, which the clock found effective before
    the request and again after the gateway had read the Incident, and the run
    was recorded. *)
Definition simulated_outcome (current : Incident.t) (report : RcaReport.t)
    (action : RemediationAction.t) (approval : ApprovalDecision.t) (action_key fp : string)
    (w0 : W) (i : Incident.t) (w : W) : Prop :=
  ∃ t0 t1 now d found v u,
    let e := change_envelope current action action_key fp t0 in
    let b := mk_network_change action report (Incident.revision current - 1)
               (execution_reference current report action approval t0) in
    told w0 t0 v ∧ ApprovalDecision.is_effective approval t0 = true ∧
    stored v found ∧ told v now u ∧ authority e b found d now ∧ told v t1 u ∧
    SimulatedActionGateway.fixed_simulation action = true ∧
    committed (Incident.incident_id current) IncidentStatus.VERIFYING
      (Incident.revision current) action_key
      (update_action_runs (Incident.action_runs current
         ++ [SimulatedActionGateway.simulated_run e action t1])) u i w.

(** The verification of a run settled the Incident. *)
Definition verified_outcome (current : Incident.t) (run : ActionRun.t)
    (key vid fp : string) (passed : bool) (w0 : W) (g : GovernanceResult) (w : W) : Prop :=
  g_replayed g = false ∧ ∃ t,
    let status := if passed then VerificationStatus.PASSED else VerificationStatus.FAILED in
    let verification :=
      LocalVerificationGateway.concluded (pending_verification current run vid fp passed)
        status t in
    committed (Incident.incident_id current)
      (if passed then IncidentStatus.RESOLVED else IncidentStatus.REOPENED)
      (Incident.revision current) (step_key key "verify" [JStr fp])
      (update_verification_runs (Incident.verification_runs current ++ [verification]))
      w0 (g_incident g) w.

Lemma committed_from id target rev key u w0 v i w :
  later w0 v → committed id target rev key u v i w → committed id target rev key u w0 i w.
Proof. intros Hl (Hr & w1 & H1 & H2). split; [done|]. exists w1. split; [by eapply later_trans|done]. Qed.

(** A transition of a program, with known texts. *)
Lemma write_run id target rev key actor reason i u w j w' :
  sane w → utf8 key → utf8 actor → plainb reason = true → known i → update_texts u →
  Ports.transition id target rev (mk_metadata key actor reason (Incident.trace_id i)) u w
    = (Ok j, w') →
  later w w' ∧ known j ∧ committed id target rev key u w j w'.
Proof.
  intros Hs Hk Ha Hr [_ Ht] Hu H.
  destruct (transition_committed _ _ _ _ _ _ _ _ Hs (metadata_plain _ _ _ _ Hk Ha Hr Ht) Hu H)
    as (Hl & Hc & Hj). by split_and!.
Qed.

Lemma fail_run current key actor root fp w g w' :
  sane w → utf8 actor → known current →
  fail_expired_execution current key actor root fp w = (Ok g, w') →
  later w w' ∧ expired_outcome current key root fp w g w'.
Proof.
  intros Hs Ha Hc H. unfold fail_expired_execution in H. do 2 (step_in H). step_in H.
  apply write_run in E0 as (Hl & _ & Hcom); try done. by apply utf8_step_key.
Qed.

Lemma run_or_fail_run e b approval (failed : Eff W GovernanceResult) w o w' :
  sane w → run_or_fail e b approval failed w = (Ok o, w') →
  match o with
  | inl run => SimulatedActionGateway.execute e b w = (Ok run, w')
  | inr g => ∃ v now, told w now v ∧ sane v ∧
      ApprovalDecision.is_effective approval now = false ∧ failed v = (Ok g, w')
  end.
Proof.
  intros Hs. unfold run_or_fail, except_authorization. intros H.
  unfold mbind at 1, Eff_bind at 1 in H.
  destruct (SimulatedActionGateway.execute e b w) as [[run|err] w1] eqn:E.
  - injection H as <- <-. done.
  - destruct (action_calm e b w _ _ Hs E) as [Hl _]. pose proof (sane_later _ _ Hl Hs) as Hs1.
    destruct err; try done. step_in H. pose proof (now_run _ _ _ Hs1 E0) as Hl2.
    pose proof (told_now _ _ _ E0) as Ht.
    destruct (ApprovalDecision.is_effective approval a) eqn:Heff; cbn [negb] in H;
      [discriminate H|].
    step_in H. step_in H. subst.
    eexists _, a. split_and!; [| |exact Heff|exact E1].
    + by eapply told_within; [exact Hl|exact Ht|].
    + by eapply sane_later.
Qed.

Lemma simulate_run current report action key actor root fp action_key w o w' :
  sane w → utf8 actor → known current → plainb action_key = true →
  simulate current report action key actor root fp action_key w = (Ok o, w') →
  later w w' ∧ ∃ approval, covering_approval current report action = Ok approval ∧
  match o with
  | inl i => known i ∧ simulated_outcome current report action approval action_key fp w i w'
  | inr g => ∃ v now, told w now v ∧ ApprovalDecision.is_effective approval now = false ∧
      expired_outcome current key root fp v g w'
  end.
Proof.
  intros Hs Ha Hc Hk H.
  split; [by apply (simulate_calm _ _ _ _ _ _ _ _ Ha Hc Hk _ _ _ Hs H)|].
  unfold simulate in H. step_in H. step_in H. exists a. split; [done|].
  pose proof (now_run _ _ _ Hs E0) as Hl. pose proof (sane_later _ _ Hl Hs) as Hs1.
  destruct (ApprovalDecision.is_effective a a0) eqn:Heff; cbn [negb] in H.
  2:{ step_in H. step_in H.
      destruct (fail_run _ _ _ _ _ _ _ _ Hs1 Ha Hc E1) as [? ?]. exists w0, a0.
      split_and!; [by apply told_now|done|done]. }
  do 3 (step_in H). pose proof E3 as Hrun. apply run_or_fail_run in Hrun; [|done].
  destruct a3 as [run|g].
  - step_in H. step_in H.
    destruct (gateway_execute_run _ _ _ _ _ Hs1 Hrun)
      as (Hl2 & v & found & d & now & t1 & H1 & H2 & H3 & Ht & Ht1 & H4 & H5 & -> & _).
    pose proof (sane_later _ _ Hl2 Hs1) as Hs2.
    apply write_run in E4 as (Hl3 & Hk' & Hcom); try done; [|by apply plain_utf8].
    split; [done|]. exists a0, t1, now, d, found, v, w1.
    split_and!; try done. by eapply told_at; [reflexivity|exact E0|].
  - step_in H. destruct Hrun as (v & now & H1 & H2 & H3 & H4).
    destruct (fail_run _ _ _ _ _ _ _ _ H2 Ha Hc H4) as [? ?].
    exists v, now. split_and!; [by eapply told_within; [exact Hl|exact H1|]|done|done].
Qed.

Lemma requested_passed current run vid fp (passed : bool) :
  LocalVerificationGateway.requested_status
    (VerificationRun.metadata (pending_verification current run vid fp passed)
       !! "requested_outcome"%string)
  = Ok (if passed then VerificationStatus.PASSED else VerificationStatus.FAILED).
Proof.
  cbn [pending_verification VerificationRun.metadata].
  rewrite lookup_insert_ne, lookup_insert_eq by done. by destruct passed.
Qed.

Lemma verify_gateway_run e b status w e' r w' :
  sane w →
  LocalVerificationGateway.requested_status
    (VerificationRun.metadata (verify_verification b) !! "requested_outcome"%string) = Ok status →
  LocalVerificationGateway.verify e b w = (Ok (e', r), w') →
  later w w' ∧ ∃ t,
    verified_verification r = LocalVerificationGateway.concluded (verify_verification b) status t.
Proof.
  intros Hs Hq H. unfold LocalVerificationGateway.verify in H. step_in H.
  rewrite Hq, bind_pure_run in H. step_in H. apply now_run in E0; [|done].
  do 4 (step_in H). simplify_eq. split; [done|]. by eexists.
Qed.

Lemma verify_run current run key actor vid fp passed w g w' :
  sane w → utf8 actor → known current →
  verify_step current run key actor vid fp passed w = (Ok g, w') →
  later w w' ∧ verified_outcome current run key vid fp passed w g w'.
Proof.
  intros Hs Ha Hc H. unfold verify_step in H. do 4 (step_in H).
  pose proof (now_run _ _ _ Hs E) as Hl. pose proof (sane_later _ _ Hl Hs) as Hs1.
  destruct a2 as [e' r].
  eapply verify_gateway_run in E2 as (Hl2 & t & Ht);
    [|exact Hs1|exact (requested_passed current run vid fp passed)].
  pose proof (sane_later _ _ Hl2 Hs1) as Hs2. cbn [verify_verification] in Ht.
  rewrite Ht in H. step_in H. step_in H.
  apply write_run in E2 as (Hl3 & _ & Hcom); try done;
    [|by apply utf8_step_key|by apply verification_reason].
  split; [eapply later_trans; [exact Hl|by eapply later_trans]|].
  split; [done|]. exists t. cbn [g_incident].
  replace (if passed then IncidentStatus.RESOLVED else IncidentStatus.REOPENED) with
    (if bool_decide (VerificationRun.status (LocalVerificationGateway.concluded
          (pending_verification current run vid fp passed)
          (if passed then VerificationStatus.PASSED else VerificationStatus.FAILED) t)
        = VerificationStatus.PASSED) then IncidentStatus.RESOLVED else IncidentStatus.REOPENED)
    by (by destruct passed).
  eapply committed_from; [|exact Hcom]. by eapply later_trans.
Qed.

(** The ways in which [execute] returns. *)
Definition execution_vid (id key : string) : string :=
  stable_id "local-verification" [JStr (digest [JStr (py_strip key)]); JStr id].
Definition execution_key (key fp : string) (action : RemediationAction.t) : string :=
  step_key (py_strip key) "simulate-action"
    [JStr fp; JStr (RemediationAction.action_hash action)].

Inductive execution (id key actor : string) (passed : bool) (current : Incident.t)
    (report : RcaReport.t) (action : RemediationAction.t) (fp : string) (w : W) :
    GovernanceResult → W → Prop :=
  (** The verification of this request was recorded before. *)
  | Verified_before verification :
      verification ∈ Incident.verification_runs current →
      VerificationRun.verification_id verification = execution_vid id key →
      VerificationRun.metadata verification !! "request_fingerprint"%string = Some (JStr fp) →
      execution id key actor passed current report action fp w (mk_governance current true) w
  (** This request failed before. *)
  | Failed_before :
      Incident.status current = IncidentStatus.FAILED →
      failed_replay current (digest [JStr (py_strip key)]) fp = Ok (mk_governance current true) →
      execution id key actor passed current report action fp w (mk_governance current true) w
  (** The approval had expired, as the clock told. *)
  | Expired_now approval now v g w' :
      Incident.status current = IncidentStatus.REMEDIATING →
      covering_approval current report action = Ok approval →
      told w now v → ApprovalDecision.is_effective approval now = false →
      expired_outcome current (py_strip key) (digest [JStr (py_strip key)]) fp v g w' →
      execution id key actor passed current report action fp w g w'
  (** The simulation ran, or had run before, and was verified. *)
  | Settled reached run v g w' :
      (Incident.status current = IncidentStatus.VERIFYING ∧ reached = current ∧ v = w ∨
       Incident.status current = IncidentStatus.REMEDIATING ∧ ∃ approval,
         covering_approval current report action = Ok approval ∧
         simulated_outcome current report action approval (execution_key key fp action) fp w
           reached v) →
      Incident.status reached = IncidentStatus.VERIFYING →
      run ∈ Incident.action_runs reached →
      ActionRun.action_run_id run
        = SimulatedActionGateway.run_id (Incident.incident_id current)
            (execution_key key fp action) (RemediationAction.action_hash action) →
      ActionRun.status run = ActionRunStatus.SUCCEEDED →
      ActionRun.action_hash run = Some (RemediationAction.action_hash action) →
      verified_outcome reached run (py_strip key) (execution_vid id key) fp passed v g w' →
      execution id key actor passed current report action fp w g w'.

Lemma find_run_Ok current id hash run :
  find_run current id hash = Ok run →
  run ∈ Incident.action_runs current ∧ ActionRun.action_run_id run = id ∧
  ActionRun.status run = ActionRunStatus.SUCCEEDED ∧ ActionRun.action_hash run = Some hash.
Proof.
  unfold find_run. intros H. run_ok. subst.
  match goal with H : next_such _ _ = Some _ |- _ => apply next_such_Some in H as [? ?] end.
  rewrite bool_decide_eq_true, ?orb_false_iff, ?differ_false in *. by destruct_and!.
Qed.

Lemma get_incident_run id w i w' :
  sane w → get_incident id w = (Ok i, w') →
  later w w' ∧ sane w' ∧ stored w' i ∧ Incident.incident_id i = py_strip id ∧ known i.
Proof.
  intros Hs H. unfold get_incident in H. step_in H. apply require_text_Ok in E as (_ & _ & ->).
  destruct (bind_ok _ _ _ _ _ H) as (o & w1 & E & H2). apply pure_ok in H2 as [H2 ->].
  by eapply found_run.
Qed.

(** The action of the execution: the only recommendation of the latest report. *)
Lemma sole_action_Some current report action :
  (latest_report current ≫= λ r, (λ a, (r, a)) <$> sole_action (Some r))
    = Some (report, action) →
  latest_report current = Some report ∧ RcaReport.recommendations report = [action].
Proof.
  destruct (latest_report current) as [r|]; cbn; [|done].
  destruct (RcaReport.recommendations r) as [|a [|]] eqn:E; cbn; [done| |done].
  by intros [= <- <-].
Qed.

Lemma execute_run id key actor passed w g w' :
  sane w → utf8 actor → execute id key actor passed w = (Ok g, w') →
  ∃ current report action v,
    let fp := execute_fingerprint current (digest [JStr (py_strip key)]) (py_strip actor) passed
                action (latest_approval current) in
    later w v ∧ stored v current ∧ Incident.incident_id current = py_strip id ∧
    latest_report current = Some report ∧ RcaReport.recommendations report = [action] ∧
    execution id key actor passed current report action fp v g w'.
Proof.
  intros Hs Ha H. unfold execute in H. do 3 (step_in H).
  pose proof (stripped_text Ha E0) as Ha'.
  apply require_text_Ok in E as (_ & _ & ->), E0 as (_ & _ & ->).
  apply get_incident_run in E1 as (Hl & Hs1 & Hst & Hid & Hk); [|done].
  step_in H. destruct a as [report action]. apply of_option_Ok, sole_action_Some in E as [Hr Ha0].
  exists a1, report, action, w0. split_and!; try done.
  destruct (next_such _ _) as [verification|] eqn:Hv.
  { apply next_such_Some in Hv as [Hin Hv%bool_decide_eq_true]. do 2 (step_in H). subst.
    apply throw_differ in E. exact (Verified_before _ _ _ _ _ _ _ _ _ verification Hin Hv E). }
  case_bool_decide as Hf.
  { apply pure_ok in H as [H ->]. assert (g = mk_governance a1 true) as ->.
    { unfold failed_replay in H. destruct (require_failure_binding a1); [|done]. by run_ok. }
    exact (Failed_before _ _ _ _ _ _ _ _ _ Hf H). }
  clear Hv.
  step_in H. destruct a as [reached|g'].
  2:{ step_in H. subst. case_bool_decide as Hrem; [|by step_in E].
      apply simulate_run in E as (_ & approval & Hcov & v & now & Ht & Heff & Hout); try done.
      - by eapply Expired_now.
      - by apply plain_stable_id. }
  step_in H. apply throw_differ in E0. step_in H.
  apply find_run_Ok in E1 as (Hin & Hrid & Hok & Hh).
  case_bool_decide as Hrem.
  - apply simulate_run in E as (Hl2 & approval & Hcov & Hk' & Hout); try done;
      [|by apply plain_stable_id].
    apply verify_run in H as (_ & Hver); [|by eapply sane_later|done|done].
    eapply Settled; try done. right. split; [done|]. by exists approval.
  - step_in E. simplify_eq.
    apply verify_run in H as (_ & Hver); [|done..].
    eapply Settled; try done. by left.
Qed.

(** ** Deciding *)

(** The decision of an explicit actor, committed. *)
Definition decided (id : string) (approve : bool) (hash : string) (rev : Z)
    (actor reason key : string) (current : Incident.t) (pending : ApprovalDecision.t) (now : Z)
    (w : W) (i : Incident.t) (w' : W) : Prop :=
  let status := LocalApprovalGateway.decision_status approve pending now in
  let event := LocalApprovalGateway.event_key (py_strip key) in
  let terminal := LocalApprovalGateway.terminal_decision pending status
    (LocalApprovalGateway.decision_id approve hash rev (py_strip actor) (py_strip reason)
       (py_strip key)) (py_strip actor) (py_strip reason) event now in
  ApprovalDecision.check terminal = Ok tt ∧
  committed id
    (if bool_decide (status = ApprovalStatus.APPROVED)
     then IncidentStatus.REMEDIATING else IncidentStatus.REJECTED)
    (Incident.revision current) event
    (update_approvals (Incident.approvals current ++ [terminal])) w i w'.

(** The decision was recorded before, for the same request. *)
Definition decided_before (approve : bool) (hash : string) (rev : Z)
    (actor reason key : string) (current : Incident.t) : Prop :=
  ∃ d, d ∈ Incident.approvals current ∧
    ApprovalDecision.idempotency_key d = LocalApprovalGateway.event_key (py_strip key) ∧
    ApprovalDecision.approval_id d
      = LocalApprovalGateway.decision_id approve hash rev (py_strip actor) (py_strip reason)
          (py_strip key).

Lemma gateway_decide_run id approve hash rev actor reason key w i w' :
  sane w → utf8 actor →
  LocalApprovalGateway.decide id approve hash rev actor reason key w = (Ok i, w') →
  later w w' ∧ ∃ v current now, told w now v ∧ stored v current ∧ Incident.incident_id current = id ∧
    (i = current ∧ w' = v ∧ decided_before approve hash rev actor reason key current ∨
     ∃ pending, LocalApprovalGateway.decidable_approval current hash rev = Ok pending ∧
       decided id approve hash rev actor reason key current pending now v i w').
Proof.
  intros Hs Ha H. split; [by apply (gateway_decide_calm _ _ _ _ _ _ _ Ha _ _ _ Hs H)|].
  unfold LocalApprovalGateway.decide in H. step_in H.
  unfold require_action_hash in E. run_ok. subst. do 6 (step_in H).
  pose proof (stripped_text Ha E1) as Ha'. pose proof (now_run _ _ _ Hs E0) as Hl.
  pose proof (sane_later _ _ Hl Hs) as Hs1.
  apply require_text_Ok in E1 as (_ & _ & ->), E2 as (_ & _ & ->), E3 as (_ & _ & ->).
  destruct (bind_ok _ _ _ _ _ H) as (current & v & E5 & H2). clear H.
  apply pure_ok in E5 as [E5 ->].
  destruct (found_run _ _ _ _ _ _ Hs1 E4 E5) as (Hl2 & Hs2 & Hst & Hid & Hk).
  exists w1, current, a1. split_and!; [by eapply told_at; [reflexivity|exact E0|]|done..|].
  destruct (next_such _ _) as [d|] eqn:Hd.
  - left. apply next_such_Some in Hd as [Hin Hd%bool_decide_eq_true]. do 2 (step_in H2). subst.
    apply throw_if_Ok, negb_false_iff, bool_decide_eq_true in E1.
    split_and!; [done..|]. by exists d.
  - right. step_in H2. step_in H2. eexists. split; [done|].
    apply validated_Ok in E2. destruct a3.
    apply write_run in H2 as (_ & _ & Hcom); [by split|done| |done| |done|done].
    + by apply utf8_step_key.
    + apply decision_reason.
Qed.
End runs.
