(* ===== verification/GovernanceTypes.v ===== *)
(** * What the governance engine builds is well formed

    The derived identifiers satisfy the field constraints, so that the policy
    attaches its action to every eligible report, and the messages the engine
    sends pass the checks of their classes. *)

From Stdlib Require Import Ascii String.
From S2P Require Import Prelude PyStr Json Models Incident Errors StateMachine Lifecycle Binding.
From S2P Require Import PyEq.
From S2P Require Import Repository Contracts ContractProps Ports GovernanceBase Gateways Governance.
From S2P Require Import GovernanceFacts GovernanceRuns.

(** ** Identifiers *)

Lemma plain_py_len s : plainb s = true → py_len s = Z.of_nat (String.length s).
Proof.
  unfold py_len, plainb. intros H. f_equal. induction s as [|c s IH]; [done|].
  cbn in H |- *. apply andb_true_iff in H as [Hc Hs]. specialize (IH Hs).
  destruct (plain_chars s Hs) as [|h t (d & -> & Hd) _]; cbn in *; [congruence|].
  unfold is_continuation.
  assert ((128 <=? byte_of d)%N = false) as -> by (apply N.leb_gt; by apply N.ltb_lt in Hd).
  cbn in *. congruence.
Qed.

Lemma substring_length n m s : (String.length (substring n m s) ≤ m)%nat.
Proof.
  revert n m. induction s as [|c s IH]; intros [|n] [|m]; cbn; try lia.
  - pose proof (IH 0%nat m). lia.
  - apply IH.
  - apply IH.
Qed.

Section identifiers.
Context `{R : Runtime, L : !RuntimeLaws R}.

Lemma stable_id_identifier prefix parts :
  plainb prefix = true → (String.length prefix ≤ 200)%nat →
  identifier (stable_id prefix parts) = true.
Proof.
  intros Hp Hl. unfold identifier. rewrite plain_py_len by (by apply plain_stable_id).
  unfold stable_id. rewrite !string_length_app.
  pose proof (substring_length 0 32 (digest (JStr prefix :: parts))). cbn.
  rewrite andb_true_iff, !Z.leb_le. lia.
Qed.

Lemma step_key_identifier key step parts :
  plainb step = true → (String.length step ≤ 100)%nat →
  identifier (step_key key step parts) = true.
Proof.
  intros Hp Hl. unfold step_key. apply stable_id_identifier.
  - by rewrite plain_app, Hp.
  - rewrite string_length_app. cbn. lia.
Qed.
End identifiers.

Ltac id_tac :=
  first [solve [apply stable_id_identifier; [reflexivity|cbn; lia]]
        |solve [apply step_key_identifier; [reflexivity|cbn; lia]]].

(** ** What a valid Incident holds is well formed *)

Section valid_parts.
Context `{R : Runtime, L : !RuntimeLaws R}.

Lemma valid_parts i :
  valid i →
  identifier (Incident.incident_id i) = true ∧ identifier (Incident.trace_id i) = true ∧
  Forall (λ r, ResourceReference.check r = Ok tt) (Incident.affected_resources i) ∧
  Forall (λ r, RcaReport.check r = Ok tt ∧ RcaReport.incident_id r = Incident.incident_id i)
    (Incident.rca_reports i) ∧
  Forall (λ r, ActionRun.check r = Ok tt) (Incident.action_runs i) ∧ 0 ≤ Incident.revision i.
Proof.
  intros (_ & Hf & Ha)%valid_iff.
  unfold Incident.check_fields in Hf. unfold Incident.validate_aggregate in Ha. run_ok.
  repeat match goal with
  | H : negb _ = false |- _ => apply negb_false_iff in H
  | H : for_each _ _ = Ok _ |- _ => apply for_each_Ok in H
  | H : (_ <? _) = false |- _ => apply Z.ltb_ge in H
  end.
  split_and!; try done.
  apply Forall_and. split; [done|].
  eapply Forall_impl; [eassumption|]. intros r Hr. cbn in Hr.
  apply throw_if_Ok, negb_false_iff in Hr. by apply bool_decide_eq_true in Hr.
Qed.

Lemma affected_distinct i :
  valid i → has_duplicates (map canonical_resource_identity (Incident.affected_resources i)) = false.
Proof.
  intros Hv%valid_uniqueness. apply has_duplicates_false. unfold Incident.check_uniqueness in Hv.
  run_ok. repeat match goal with H : Incident.ensure_unique _ _ = Ok _ |- _ =>
    apply ensure_unique_Ok in H end.
  assert (∀ l : list ResourceReference.t,
    NoDup (map (λ r, (ResourceType.value (ResourceReference.resource_type r),
                      ResourceReference.resource_id r)) l) →
    NoDup (map canonical_resource_identity l)) as Hl; [|by apply Hl].
  induction l as [|r l IH]; cbn [map]; [constructor|]. rewrite !NoDup_cons. intros [Hr Hl].
  split; [|by apply IH]. intros Hin. apply Hr.
  apply list_elem_of_fmap in Hin as (s & Hs & Hin). apply canonical_resource_identity_inj in Hs.
  apply list_elem_of_fmap. exists s. split; [|done].
  destruct Hs as (E1 & E2 & _). by rewrite E1, E2.
Qed.
End valid_parts.

(** ** The policy *)

Section policy.
Context `{R : Runtime, L : !RuntimeLaws R}.
Import LocalSimulationPolicy.

Lemma simulation_action_checks i report fp t :
  valid i → Incident.affected_resources i ≠ [] →
  RemediationAction.check (simulation_action i report fp t) = Ok tt.
Proof.
  intros Hv Hne. pose proof (valid_parts i Hv) as (_ & _ & Hr & _).
  pose proof (affected_distinct i Hv) as Hd.
  unfold RemediationAction.check, simulation_action. cbn.
  rewrite !(stable_id_identifier "local-simulation-action"), !(stable_id_identifier
    "local-simulation-action-key") by (reflexivity || (cbn; lia)). cbn.
  destruct (Incident.affected_resources i) eqn:E; [done|]. rewrite <- E in *. cbn.
  rewrite (proj2 (for_each_Ok _ _ tt) Hr). cbn. by rewrite Hd.
Qed.

Lemma with_action_checks report action :
  RcaReport.check report = Ok tt → RemediationAction.check action = Ok tt →
  RcaReport.check (with_action report action) = Ok tt.
Proof.
  intros Hr Ha. unfold RcaReport.check in *. run_ok.
  cbn [with_action RcaReport.report_id RcaReport.incident_id RcaReport.version RcaReport.confidence
       RcaReport.evidence_refs RcaReport.recommendations for_each].
  rewrite (stable_id_identifier "local-simulation-report") by (reflexivity || (cbn; lia)).
  repeat match goal with H : ?x = _ |- context [?x] => rewrite H end.
  cbn [negb throw_if mbind result_bind]. done.
Qed.

(** What the policy may attach an action to. *)
Definition eligible (i : Incident.t) (report : RcaReport.t) : Prop :=
  RcaReport.conclusion report = RcaConclusion.CONCLUSIVE ∧
  has_text (RcaReport.root_cause report) = true ∧ RcaReport.evidence_refs report ≠ [] ∧
  Incident.affected_resources i ≠ [] ∧ RcaReport.recommendations report = [].

(** For a valid Incident and a well-formed report, the policy attaches an
    action exactly to a conclusive report with a root cause and evidence, for
    an Incident with resources, that recommends nothing yet.  The attached
    report is well formed, keeps what the analysis said, and recommends one
    action: the fixed simulation, reversible, of low risk, without other
    parameters, on exactly the affected resources. *)
Theorem attach_action_exact i report fp t r :
  valid i → RcaReport.check report = Ok tt →
  (attach_action i report fp t = Ok r ↔
   eligible i report ∧ r = with_action report (simulation_action i report fp t)) ∧
  (attach_action i report fp t = Ok r →
   RcaReport.check r = Ok tt ∧
   RcaReport.incident_id r = RcaReport.incident_id report ∧
   RcaReport.version r = RcaReport.version report ∧
   RcaReport.conclusion r = RcaReport.conclusion report ∧
   RcaReport.root_cause r = RcaReport.root_cause report ∧
   RcaReport.evidence_refs r = RcaReport.evidence_refs report ∧
   ∃ action, RcaReport.recommendations r = [action] ∧
     SimulatedActionGateway.fixed_simulation action = true ∧
     RemediationAction.risk_level action = RiskLevel.LOW ∧
     RemediationAction.target_resources action = Incident.affected_resources i).
Proof.
  intros Hv Hr.
  assert (attach_action i report fp t = Ok r ↔
   eligible i report ∧ r = with_action report (simulation_action i report fp t)) as Hiff.
  { unfold attach_action, eligible. split.
    - intros H. run_ok. subst. split; [|done].
      repeat match goal with
      | H : _ || _ = false |- _ => apply orb_false_iff in H as [? ?]
      | H : negb _ = false |- _ => apply negb_false_iff in H
      | H : bool_decide _ = true |- _ => apply bool_decide_eq_true in H
      | H : empty_list _ = false |- _ => apply empty_list_false in H
      end.
      split_and!; try done. by destruct (RcaReport.recommendations report).
    - intros [(-> & -> & He & Hi & ->) ->]. cbn [throw_if mbind result_bind negb bool_decide].
      rewrite (proj2 (empty_list_false _) He), (proj2 (empty_list_false _) Hi).
      cbn [orb throw_if mbind result_bind negb empty_list].
      rewrite simulation_action_checks by done. cbn [validated mbind result_bind].
      by rewrite with_action_checks by (done || by apply simulation_action_checks). }
  split; [done|]. intros [(Hc & Ht & He & Hi & Hn) ->]%Hiff.
  split_and!; try done; [by apply with_action_checks, simulation_action_checks|].
  by exists (simulation_action i report fp t).
Qed.
End policy.

(** ** The messages of the engine *)

Section messages.
Context `{R : Runtime, L : !RuntimeLaws R}.
Import LocalGovernanceEngine.

(** An Incident whose latest report recommends one action. *)
Definition proposal (i : Incident.t) (report : RcaReport.t) (action : RemediationAction.t) :
    Prop :=
  latest_report i = Some report ∧ RcaReport.recommendations report = [action].

Lemma proposal_checks i report action :
  valid i → proposal i report action →
  RcaReport.check report = Ok tt ∧ RcaReport.incident_id report = Incident.incident_id i ∧
  RemediationAction.check action = Ok tt ∧ report_contains_action report action = true.
Proof.
  intros Hv [Hl Ha]. pose proof (valid_parts i Hv) as (_ & _ & _ & Hr & _).
  apply latest_report_spec in Hl as [Hin _].
  rewrite Forall_forall in Hr. destruct (Hr _ Hin) as [Hc Hi].
  split_and!; try done.
  - unfold RcaReport.check in Hc. run_ok.
    apply for_each_Ok in Hc. rewrite Ha in Hc. by inversion Hc.
  - apply report_contains_action_spec. exists action. rewrite Ha. split; [left|done].
Qed.

Lemma envelope_checks e :
  identifier (Envelope.message_id e) = true → identifier (Envelope.workflow_id e) = true →
  identifier (Envelope.incident_id e) = true → identifier (Envelope.trace_id e) = true →
  identifier (Envelope.idempotency_key e) = true → Envelope.check e = Ok tt.
Proof.
  unfold Envelope.check, opaque_id. by intros -> -> -> -> ->.
Qed.

(** The marker of a request names its workflow by a derived identifier. *)
Lemma marker_workflow key ttl actor :
  identifier (workflow_id (make_marker key ttl actor)) = true.
Proof. unfold make_marker. cbn [workflow_id]. id_tac. Qed.

Ltac envelope_tac :=
  apply envelope_checks; cbn;
  first [done|apply marker_workflow
        |apply stable_id_identifier; [reflexivity|cbn; lia]
        |apply step_key_identifier; [reflexivity|cbn; lia]].

Lemma rca_envelope_checks i key root ttl actor now :
  valid i → Envelope.check (rca_envelope key (make_marker root ttl actor) i now) = Ok tt.
Proof. intros (Hi & Ht & _)%valid_parts. envelope_tac. Qed.

Lemma ask_envelope_checks i key root ttl actor action now :
  valid i → Envelope.check (ask_envelope key (make_marker root ttl actor) i action now) = Ok tt.
Proof. intros (Hi & Ht & _)%valid_parts. envelope_tac. Qed.

Lemma change_envelope_checks i action key fp now :
  valid i → identifier key = true → Envelope.check (change_envelope i action key fp now) = Ok tt.
Proof.
  intros (Hi & Ht & _)%valid_parts Hk. apply envelope_checks; cbn; first [done|id_tac].
Qed.

(** The request for an analysis. *)
Lemma rca_request_checks key root ttl actor i now :
  valid i →
  check_message (mk_message (rca_envelope key (make_marker root ttl actor) i now)
    (IRcaRequest (mk_rca_request i (Incident.revision i) (next_report_version i)))) = Ok tt.
Proof.
  intros Hv. pose proof (valid_parts i Hv) as (Hi & Ht & _ & Hr & _ & Hrev).
  unfold check_message. cbn [envelope body check_body_fields check_bindings].
  unfold check_incident, check_rca_request, check_incident_envelope.
  rewrite rca_envelope_checks by done.
  cbn [mbind result_bind rca_incident rca_based_on_revision rca_requested_report_version].
  rewrite Hv. cbn [mbind result_bind]. rewrite (proj2 (Z.ltb_ge _ _) Hrev).
  cbn [throw_if mbind result_bind].
  assert (1 ≤ next_report_version i) as Hn.
  { unfold next_report_version. destruct (latest_report i) as [r|] eqn:E; cbn; [|lia].
    apply latest_report_spec in E as [Hin _]. rewrite Forall_forall in Hr.
    destruct (Hr _ Hin) as [Hc _]. unfold RcaReport.check in Hc. run_ok.
    rewrite Z.ltb_ge in *. lia. }
  rewrite (proj2 (Z.ltb_ge _ _) Hn). cbn [throw_if mbind result_bind].
  by rewrite !(proj2 (differ_false _ _)).
Qed.

Lemma action_targets_check action :
  RemediationAction.check action = Ok tt →
  RemediationAction.target_resources action ≠ [] ∧
  for_each ResourceReference.check (RemediationAction.target_resources action) = Ok tt ∧
  identifier (RemediationAction.action_id action) = true.
Proof.
  unfold RemediationAction.check. intros H. run_ok.
  repeat match goal with H : negb _ = false |- _ => apply negb_false_iff in H end.
  split_and!; try done. by destruct (RemediationAction.target_resources action).
Qed.

(** The request for an approval. *)
Lemma approval_request_checks key root ttl actor i report action now :
  valid i → proposal i report action →
  check_message (mk_message (ask_envelope key (make_marker root ttl actor) i action now)
    (IApprovalRequest (ask_body ttl (make_marker root ttl actor) i report action now))) = Ok tt.
Proof.
  intros Hv Hp. pose proof (valid_parts i Hv) as (_ & _ & _ & _ & _ & Hrev).
  destruct (proposal_checks i report action Hv Hp) as (Hr & Hi & Ha & Hc).
  destruct (action_targets_check action Ha) as (Hne & Ht & _).
  unfold check_message, ask_body. cbn [envelope body check_body_fields check_bindings
    ask_request_id ask_report ask_action ask_scope ask_based_on_revision ask_summary_zh].
  rewrite ask_envelope_checks by done. cbn [mbind result_bind].
  unfold opaque_id. rewrite stable_id_identifier by (reflexivity || (cbn; lia)).
  cbn [negb throw_if mbind result_bind]. rewrite Hr, Ha. cbn [mbind result_bind].
  rewrite Ht, (proj2 (Z.ltb_ge _ _) Hrev). cbn [throw_if mbind result_bind].
  match goal with |- context [short_text ?s] => change (short_text s) with true end.
  cbn [negb throw_if mbind result_bind].
  unfold check_approval_request, check_report_envelope.
  cbn [ask_report ask_approval_type ask_action ask_expires_at ask_scope ask_envelope
       Envelope.incident_id].
  rewrite Hi, !(proj2 (differ_false _ _)) by done.
  rewrite bool_decide_eq_true_2 by done. cbn [negb throw_if mbind result_bind of_option isNone].
  destruct (RemediationAction.target_resources action); [done|].
  rewrite (proj2 (differ_false _ _)) by done. by rewrite Hc.
Qed.

Lemma valid_approval i d :
  valid i → d ∈ Incident.approvals i → ApprovalDecision.check d = Ok tt.
Proof.
  intros (_ & Hf & _)%valid_iff Hd. unfold Incident.check_fields in Hf. run_ok.
  match goal with H : for_each _ (Incident.approvals i) = _ |- _ =>
    apply for_each_Ok in H; rewrite Forall_forall in H; exact (H d Hd) end.
Qed.

Lemma max_ltb_elem {A} ltb (xs : list A) x : max_ltb ltb xs = Some x → x ∈ xs.
Proof.
  destruct xs as [|y ys]; cbn; [done|]. intros [= <-].
  assert (∀ b, foldl (λ best y, if ltb best y then y else best) b ys = b ∨
               foldl (λ best y, if ltb best y then y else best) b ys ∈ ys) as H.
  { induction ys as [|z ys IH]; intros b; cbn; [by left|].
    destruct (IH (if ltb b z then z else b)) as [->|Hin]; [|right; by right].
    destruct (ltb b z); [right; left|by left]. }
  destruct (H y) as [->|Hin]; [left|by right].
Qed.

Lemma covering_approval_facts i report action approval :
  valid i → covering_approval i report action = Ok approval →
  identifier (ApprovalDecision.approval_id approval) = true ∧
  identifier (ApprovalDecision.request_id approval) = true ∧
  1 ≤ ApprovalDecision.sequence approval.
Proof.
  intros Hv H. unfold covering_approval in H. run_ok. subst.
  match goal with H : latest_approval i = Some _ |- _ => apply max_ltb_elem in H as Hin end.
  apply (valid_approval i _ Hv) in Hin as Hc.
  match goal with H : _ || _ = false |- _ => apply orb_false_iff in H as [Ha%negb_false_iff _] end.
  unfold ApprovalDecision.check, ApprovalDecision.check_fields, ApprovalDecision.validate_timeline
    in Hc. run_ok.
  assert (ApprovalDecision.is_status ApprovalStatus.PENDING approval = false) as Hp.
  { unfold ApprovalDecision.is_status in *. apply bool_decide_eq_true in Ha. by rewrite Ha. }
  rewrite Hp in *. cbn [negb] in *. run_ok.
  repeat match goal with
  | H : negb _ = false |- _ => apply negb_false_iff in H
  | H : (_ <? _) = false |- _ => apply Z.ltb_ge in H
  | H : (_ =? _) = false |- _ => apply Z.eqb_neq in H
  end. split_and!; [done..|lia].
Qed.

(** The request for the change. *)
Lemma change_request_checks key fp i report action approval now :
  valid i → proposal i report action → 1 ≤ Incident.revision i → identifier key = true →
  covering_approval i report action = Ok approval →
  check_message (mk_message (change_envelope i action key fp now)
    (INetworkChange (mk_network_change action report (Incident.revision i - 1)
       (execution_reference i report action approval now)))) = Ok tt.
Proof.
  intros Hv Hp Hrev Hk Hcov. pose proof (valid_parts i Hv) as (Hid & _).
  destruct (proposal_checks i report action Hv Hp) as (Hr & Hi & Ha & Hc).
  destruct (covering_approval_facts _ _ _ _ Hv Hcov) as (H1 & H2 & H3).
  destruct (action_targets_check action Ha) as (_ & _ & Haid).
  assert (identifier (RcaReport.report_id report) = true ∧ 1 ≤ RcaReport.version report)
    as [Hrid Hrv].
  { unfold RcaReport.check in Hr. run_ok. rewrite negb_false_iff, Z.ltb_ge in *. done. }
  assert (ApprovalReference.check (execution_reference i report action approval now) = Ok tt)
    as Href.
  { unfold ApprovalReference.check, execution_reference, opaque_id, sha256_digest. cbn.
    rewrite H1, H2, Hid, Hrid, Haid. unfold RemediationAction.action_hash, stable_hash.
    rewrite sha256_hex64. cbn.
    rewrite (proj2 (Z.ltb_ge _ _) H3), (proj2 (Z.ltb_ge _ _) Hrv). cbn.
    by destruct (Z.ltb_spec (Incident.revision i - 1) 0); [lia|]. }
  unfold check_message. cbn [envelope body check_body_fields check_bindings change_action
    change_report change_based_on_revision change_approval_reference].
  rewrite change_envelope_checks, Ha, Hr, Href by done. cbn [mbind result_bind].
  destruct (Z.ltb_spec (Incident.revision i - 1) 0); [lia|]. cbn [throw_if mbind result_bind].
  unfold check_network_change, check_report_envelope, execution_reference.
  cbn [ApprovalReference.incident_id ApprovalReference.report_id ApprovalReference.report_version
    ApprovalReference.subject_id ApprovalReference.action_hash ApprovalReference.based_on_revision
    change_action change_report change_based_on_revision change_approval_reference
    change_envelope Envelope.incident_id].
  rewrite !(proj2 (differ_false _ _)) by done. by rewrite Hc.
Qed.

(** The run of the simulation. *)
Lemma simulated_run_checks e action now :
  identifier (Envelope.incident_id e) = true → identifier (Envelope.idempotency_key e) = true →
  RemediationAction.check action = Ok tt →
  ActionRun.check (SimulatedActionGateway.simulated_run e action now) = Ok tt.
Proof.
  intros Hi Hk Ha. destruct (action_targets_check action Ha) as (_ & _ & Haid).
  unfold ActionRun.check, ActionRun.check_fields, ActionRun.validate_timeline. cbn.
  unfold SimulatedActionGateway.run_id. rewrite stable_id_identifier by (reflexivity || (cbn; lia)).
  unfold sha256_digest, RemediationAction.action_hash, stable_hash.
  rewrite Hi, Hk, Haid, sha256_hex64. cbn. by rewrite Z.ltb_irrefl.
Qed.

(** A verification, pending and concluded, and its request. *)
Lemma verification_checks i run vid fp passed status t :
  valid i → run ∈ Incident.action_runs i → identifier vid = true →
  plainb vid = true → (String.length vid ≤ 256)%nat →
  (status = VerificationStatus.PASSED ∨ status = VerificationStatus.FAILED) →
  let pending := pending_verification i run vid fp passed in
  VerificationRun.check pending = Ok tt ∧
  EvidenceReference.check (LocalVerificationGateway.test_evidence vid status t) = Ok tt ∧
  VerificationRun.check (LocalVerificationGateway.concluded pending status t) = Ok tt.
Proof.
  intros Hv Hrun Hvid Hplain Hlen Hst pending.
  pose proof (valid_parts i Hv) as (Hid & _ & _ & _ & Hruns & _).
  rewrite Forall_forall in Hruns. specialize (Hruns _ Hrun).
  assert (identifier (ActionRun.action_run_id run) = true) as Hr.
  { unfold ActionRun.check, ActionRun.check_fields in Hruns. run_ok.
    rewrite negb_false_iff in *. done. }
  assert (has_duplicates [ActionRun.action_run_id run] = false) as Hone
    by (apply has_duplicates_false, NoDup_singleton).
  assert (EvidenceReference.check (LocalVerificationGateway.test_evidence vid status t) = Ok tt)
    as He.
  { unfold EvidenceReference.check, LocalVerificationGateway.test_evidence. cbn.
    rewrite stable_id_identifier by (reflexivity || (cbn; lia)). cbn.
    assert (nonempty_str ("local-simulation://verification/" +:+ vid) = true) as Hu; [|
      by rewrite Hu].
    unfold nonempty_str. rewrite plain_py_len by (by rewrite plain_app, Hplain).
    rewrite string_length_app. cbn. rewrite andb_true_iff, !Z.leb_le. lia. }
  split_and!; [|done|].
  - unfold VerificationRun.check, VerificationRun.check_fields. cbn.
    rewrite Hvid, Hid, Hr. cbn. by rewrite Hone.
  - unfold VerificationRun.check, VerificationRun.check_fields. cbn.
    rewrite Hvid, Hid, Hr. cbn.
    change (VerificationRun.verification_id pending) with vid.
    rewrite He. unfold VerificationRun.validate_timeline.
    by destruct Hst as [-> | ->]; cbn; rewrite Z.ltb_irrefl; cbn; rewrite Hone.
Qed.

Lemma succeeded_incident i run :
  valid i → run ∈ Incident.action_runs i → ActionRun.status run = ActionRunStatus.SUCCEEDED →
  ActionRun.incident_id run = Some (Incident.incident_id i).
Proof.
  intros Hv Hrun Hs. pose proof (valid_parts i Hv) as (_ & _ & _ & _ & Hruns & _).
  rewrite Forall_forall in Hruns. specialize (Hruns _ Hrun).
  unfold ActionRun.check, ActionRun.validate_timeline in Hruns. rewrite Hs in Hruns. cbn in Hruns.
  run_ok. destruct (ActionRun.incident_id run) as [id|] eqn:Hid; [|done]. f_equal.
  apply valid_iff in Hv as (_ & _ & Ha). unfold Incident.validate_aggregate in Ha. run_ok.
  match goal with H : for_each _ (map ActionRun.incident_id _ ++ _) = _ |- _ =>
    apply for_each_Ok, Forall_app in H as [H _]; rewrite Forall_map, Forall_forall in H;
    specialize (H _ Hrun); cbn in H; rewrite Hid in H; cbn in H;
    apply throw_if_Ok, negb_false_iff, bool_decide_eq_true in H end.
  done.
Qed.

Lemma verification_id_length parts :
  (String.length (stable_id "local-verification" parts) ≤ 256)%nat.
Proof.
  unfold stable_id. rewrite !string_length_app. cbn.
  pose proof (substring_length 0 32 (digest (JStr "local-verification" :: parts))). lia.
Qed.

(** The request for a verification. *)
Lemma verification_request_checks key i run vparts fp passed rid hash now :
  valid i → find_run i rid hash = Ok run →
  let pending := pending_verification i run (stable_id "local-verification" vparts) fp passed in
  check_message (mk_message
    (Envelope.mk
      (stable_id "local-verification-request"
         [JStr fp; JStr (stable_id "local-verification" vparts)])
      (stable_id "local-execution-workflow" [JStr fp])
      (Incident.incident_id i) (Incident.trace_id i) (step_key key "verify" [JStr fp]) now)
    (IVerificationRequest (mk_verification_request run pending))) = Ok tt.
Proof.
  intros Hv (Hin & _ & Hst & _)%find_run_Ok pending.
  pose proof (valid_parts i Hv) as (Hid & Ht & _ & _ & Hruns & _).
  rewrite Forall_forall in Hruns.
  assert (VerificationRun.check pending = Ok tt) as Hp.
  { destruct (verification_checks i run (stable_id "local-verification" vparts) fp passed
      VerificationStatus.PASSED 0 Hv Hin) as (H & _ & _);
      [id_tac|by apply plain_stable_id|apply verification_id_length|by left|exact H]. }
  unfold check_message. cbn [envelope body check_body_fields check_bindings verify_action_run
    verify_verification].
  rewrite envelope_checks by (cbn [Envelope.message_id Envelope.workflow_id Envelope.incident_id
    Envelope.trace_id Envelope.idempotency_key]; first [assumption|id_tac]).
  cbn [mbind result_bind]. rewrite (Hruns _ Hin), Hp. cbn [mbind result_bind].
  unfold check_verification_request. cbn [verify_action_run verify_verification pending
    pending_verification VerificationRun.incident_id VerificationRun.action_run_ids
    Envelope.incident_id].
  rewrite Hst, (succeeded_incident i run Hv Hin Hst), !(proj2 (differ_false _ _)) by done.
  rewrite bool_decide_eq_true_2 by (left). done.
Qed.

(** C16. What the engine builds is well formed: for a valid Incident past its
    first revision, whose latest report recommends one action, the requests
    for an analysis and for an approval pass every check of their classes; so
    does, under a covering approval, the change request with the reference to
    it, and the run the gateway makes of it; and so do, for a successful run of
    the Incident, the verification request and the concluded verification with
    its evidence, passed or failed.  The engine never fails for malformed
    messages of its own, whatever keys, actors and times it is given. *)
Theorem engine_messages_well_formed i report action key root ttl actor now :
  valid i → 1 ≤ Incident.revision i → proposal i report action →
  let marker := make_marker root ttl actor in
  check_message (mk_message (rca_envelope key marker i now)
    (IRcaRequest (mk_rca_request i (Incident.revision i) (next_report_version i)))) = Ok tt ∧
  check_message (mk_message (ask_envelope key marker i action now)
    (IApprovalRequest (ask_body ttl marker i report action now))) = Ok tt ∧
  (∀ approval fp parts, covering_approval i report action = Ok approval →
   let e := change_envelope i action (step_key key "simulate-action" parts) fp now in
   check_message (mk_message e (INetworkChange (mk_network_change action report
     (Incident.revision i - 1) (execution_reference i report action approval now)))) = Ok tt ∧
   ∀ t, ActionRun.check (SimulatedActionGateway.simulated_run e action t) = Ok tt) ∧
  (∀ run fp vparts passed rid, find_run i rid (RemediationAction.action_hash action) = Ok run →
   let vid := stable_id "local-verification" vparts in
   let pending := pending_verification i run vid fp passed in
   check_message (mk_message
     (Envelope.mk (stable_id "local-verification-request" [JStr fp; JStr vid])
        (stable_id "local-execution-workflow" [JStr fp])
        (Incident.incident_id i) (Incident.trace_id i) (step_key key "verify" [JStr fp]) now)
     (IVerificationRequest (mk_verification_request run pending))) = Ok tt ∧
   ∀ status t, status = VerificationStatus.PASSED ∨ status = VerificationStatus.FAILED →
     EvidenceReference.check (LocalVerificationGateway.test_evidence vid status t) = Ok tt ∧
     VerificationRun.check (LocalVerificationGateway.concluded pending status t) = Ok tt).
Proof.
  intros Hv Hrev Hp marker. pose proof (valid_parts i Hv) as (Hid & _).
  pose proof (proposal_checks i report action Hv Hp) as (_ & _ & Ha & _).
  split_and!.
  - by apply rca_request_checks.
  - by apply approval_request_checks.
  - intros approval fp parts Hc e. split; [apply change_request_checks; try done; id_tac|].
    intros t. apply simulated_run_checks; [done|cbn; id_tac|done].
  - intros run fp vparts passed rid Hr vid pending. split; [by eapply verification_request_checks|].
    intros status t Hs. apply find_run_Ok in Hr as (Hin & _).
    destruct (verification_checks i run vid fp passed status t Hv Hin) as (_ & H1 & H2).
    + subst vid. id_tac.
    + by apply plain_stable_id.
    + subst vid. apply verification_id_length.
    + exact Hs.
    + split; [exact H1|exact H2].
Qed.
End messages.
