(* ===== verification/GovernanceProps.v ===== *)
(** * What the governance engine promises

    Theorems about [Gateways] and [Governance] over any lawful world: whose
    authority a simulation has, how a request ends, and what the policy
    attaches to a report. *)

From Stdlib Require Import Ascii String.
From S2P Require Import Prelude PyStr Json Models Incident Errors StateMachine Repository.
From S2P Require Import PyEq.
From S2P Require Import Contracts ContractProps Ports GovernanceBase Gateways Governance.
From S2P Require Import GovernanceFacts GovernanceRuns.

Section promises.
Context `{WL : WorldLaws W, L : !RuntimeLaws R}.

(** An APPROVED decision of the Incident that is the last word on its request
    and covers the action of the report at the instant. *)
Record authorizes (i : Incident.t) (report : RcaReport.t) (action : RemediationAction.t)
    (now : Z) (d : ApprovalDecision.t) : Prop := {
  authorizes_recorded : d ∈ Incident.approvals i;
  authorizes_latest : Incident.latest_approval_decision i (ApprovalDecision.request_id d) = Some d;
  authorizes_approved : ApprovalDecision.status d = ApprovalStatus.APPROVED;
  authorizes_effective : ApprovalDecision.is_effective d now = true;
  authorizes_covers :
    ApprovalDecision.covers_action d action (Incident.incident_id i) report = true
}.

Lemma authority_authorizes e b i d now :
  ApprovalReference.incident_id (change_approval_reference b) = Envelope.incident_id e →
  authority e b i d now → authorizes i (change_report b) (change_action b) now d.
Proof.
  intros Hr [Hid _ _ _ _ (Hc & Hl & _ & Hcov & Heff)%validate_reference_spec].
  rewrite Z.sub_0_r in Heff. rewrite Hr, <- Hid in Hcov.
  pose proof (last_is_latest _ _ _ Hc Hl) as Hd.
  pose proof (latest_approval_decision_spec _ _ _ Hd) as (Hin & Hreq & _).
  rewrite <- Hreq in Hd. split; try done.
  by apply effective_is_approved in Heff as [? _].
Qed.

(** A validated change request. *)
Definition validated_change (e : Envelope.t) (b : NetworkChangeRequest) : Prop :=
  check_message (mk_message e (INetworkChange b)) = Ok tt.

Lemma validated_change_incident e b :
  validated_change e b →
  ApprovalReference.incident_id (change_approval_reference b) = Envelope.incident_id e.
Proof.
  unfold validated_change, check_message. cbn. unfold check_network_change. intros H. run_ok.
  by match goal with H : differ (ApprovalReference.incident_id _) _ = false |- _ =>
       rewrite differ_false in H end.
Qed.

(** C2. No simulation without authority: when the action gateway returns a
    run for a validated request, then at some moment [v] of the call the
    repository held the Incident in REMEDIATING, at the revision after the
    approved one, with the report of the request as its latest and the action
    among its recommendations (as Python compares them), and an APPROVED
    decision, the last on its request, covered the content hash of the action and
    was effective at the time the clock told between that moment and the return.
    The action is the fixed simulation, and the run is bound to it, succeeded at
    a time told in the call, without side effects. *)
Theorem simulation_requires_authority e b w run w' :
  sane w → validated_change e b →
  SimulatedActionGateway.execute e b w = (Ok run, w') →
  later w w' ∧ ∃ v i d now ran,
    later w v ∧ told v now w' ∧ told v ran w' ∧ stored v i ∧ valid i ∧
    Incident.incident_id i = Envelope.incident_id e ∧
    Incident.status i = IncidentStatus.REMEDIATING ∧
    Incident.revision i = change_based_on_revision b + 1 ∧
    (∃ r, latest_report i = Some r ∧ r ≐ change_report b) ∧
    (∃ a, a ∈ Incident.recommendations i ∧ change_action b ≐ a) ∧
    authorizes i (change_report b) (change_action b) now d ∧
    SimulatedActionGateway.fixed_simulation (change_action b) = true ∧
    ActionRun.status run = ActionRunStatus.SUCCEEDED ∧
    ActionRun.incident_id run = Some (Envelope.incident_id e) ∧
    ActionRun.action_id run = RemediationAction.action_id (change_action b) ∧
    ActionRun.action_hash run = Some (RemediationAction.action_hash (change_action b)) ∧
    ActionRun.started_at run = Some ran ∧ ActionRun.finished_at run = Some ran ∧
    ActionRun.metadata run !! "side_effects"%string = Some (JBool false).
Proof.
  intros Hs Hm H.
  destruct (gateway_execute_run _ _ _ _ _ Hs H)
    as (Hl & v & i & d & now & t & H1 & H2 & H3 & Ht & Ht' & H4 & H5 & -> & _).
  split; [done|]. exists v, i, d, now, t.
  pose proof (authority_authorizes _ _ _ _ _ (validated_change_incident _ _ Hm) H4).
  destruct H4. destruct (stored_valid v i (sane_later _ _ H1 Hs) H3).
  split_and!; done.
Qed.

Import LocalGovernanceEngine.

(** C7. How an execution ends.  When [execute] returns, it read an Incident
    whose latest report recommends exactly one action, and one of these holds
    ([execution]): this request was verified before, or failed before, and
    nothing is written; or the covering approval was not effective at a time the
    clock told in the call, and the Incident is failed with the binding of the
    request; or the simulation ran under its approval (in this call, where the
    clock told a time at which it was effective before the request and another
    after the gateway had read the Incident, or in an earlier one), and its
    verification, with the requested outcome, resolved or reopened the Incident. *)
Theorem execute_outcomes id key actor passed w g w' :
  sane w → utf8 actor → execute id key actor passed w = (Ok g, w') →
  later w w' ∧ ∃ v current report action,
    let fp := execute_fingerprint current (digest [JStr (py_strip key)]) (py_strip actor) passed
                action (latest_approval current) in
    later w v ∧ stored v current ∧ Incident.incident_id current = py_strip id ∧
    latest_report current = Some report ∧ RcaReport.recommendations report = [action] ∧
    execution id key actor passed current report action fp v g w'.
Proof.
  intros Hs Ha H. split; [by apply (execute_calm _ _ _ _ Ha _ _ _ Hs H)|].
  apply execute_run in H as (current & report & action & v & H); [|done..]. eauto.
Qed.

(** ** Decisions *)

Lemma decidable_spec current hash rev pending :
  LocalApprovalGateway.decidable_approval current hash rev = Ok pending →
  ∃ report action,
    Incident.status current = IncidentStatus.AWAITING_APPROVAL ∧
    Incident.revision current = rev ∧ latest_report current = Some report ∧
    RcaReport.recommendations report = [action] ∧ RemediationAction.action_hash action = hash ∧
    latest_approval current = Some pending ∧
    ApprovalDecision.status pending = ApprovalStatus.PENDING ∧
    ApprovalDecision.covers_action pending action (Incident.incident_id current) report = true.
Proof.
  unfold LocalApprovalGateway.decidable_approval. intros H. run_ok.
  match goal with H : _ = Some ?x |- _ =>
    destruct x as [report action]; apply sole_action_Some in H as [? ?] end.
  run_ok. subst. unfold ApprovalDecision.is_status in *.
  repeat match goal with
  | H : _ || _ = false |- _ => apply orb_false_iff in H as [? ?]
  | H : negb _ = false |- _ => apply negb_false_iff in H
  | H : bool_decide _ = true |- _ => apply bool_decide_eq_true in H
  | H : (_ =? _) = true |- _ => apply Z.eqb_eq in H
  end.
  exists report, action. by split_and!.
Qed.

(** What an explicit decision leaves in the Incident. *)
Definition settled_decision (approve : bool) (pending d : ApprovalDecision.t) (now : Z)
    (target : IncidentStatus.t) : Prop :=
  if approve
  then (∃ t, ApprovalDecision.expires_at pending = Some t ∧ now < t) ∧
       ApprovalDecision.status d = ApprovalStatus.APPROVED ∧
       target = IncidentStatus.REMEDIATING ∨
       ¬ (∃ t, ApprovalDecision.expires_at pending = Some t ∧ now < t) ∧
       ApprovalDecision.status d = ApprovalStatus.EXPIRED ∧ target = IncidentStatus.REJECTED
  else ApprovalDecision.status d = ApprovalStatus.REJECTED ∧ target = IncidentStatus.REJECTED.

Lemma decision_settles approve pending now id actor reason key :
  let status := LocalApprovalGateway.decision_status approve pending now in
  settled_decision approve pending
    (LocalApprovalGateway.terminal_decision pending status id actor reason key now) now
    (if bool_decide (status = ApprovalStatus.APPROVED)
     then IncidentStatus.REMEDIATING else IncidentStatus.REJECTED).
Proof.
  unfold settled_decision, LocalApprovalGateway.decision_status. destruct approve; [|done].
  destruct (ApprovalDecision.expires_at pending) as [t|] eqn:E; cbn.
  - destruct (Z.leb_spec t now); cbn; [right|left].
    + split; [|done]. intros (? & [= ->] & ?). lia.
    + split; [by exists t|done].
  - right. split; [|done]. by intros (? & ? & ?).
Qed.

(** C8. How a decision ends.  When [decide] returns, it read the Incident of
    the identifier, and either this very request had been decided before, and
    nothing is written; or the Incident was awaiting approval at the previewed
    revision, its latest report recommends one action with the previewed hash,
    the pending request covers it, and the recorded decision names the actor
    and binds what was pending: APPROVED, entering REMEDIATING, only before
    the expiry; EXPIRED or REJECTED, rejecting the Incident, otherwise, by the
    time the clock told in the call. *)
Theorem decide_outcomes id approve hash rev actor reason key w g w' :
  sane w → utf8 actor →
  decide id approve hash rev actor reason key w = (Ok g, w') →
  later w w' ∧ ∃ v current, later w v ∧ stored v current ∧ Incident.incident_id current = id ∧
    (g_incident g = current ∧ w' = v ∧ decided_before approve hash rev actor reason key current ∨
     ∃ report action pending d now target,
       Incident.status current = IncidentStatus.AWAITING_APPROVAL ∧
       Incident.revision current = rev ∧
       latest_report current = Some report ∧ RcaReport.recommendations report = [action] ∧
       RemediationAction.action_hash action = hash ∧
       latest_approval current = Some pending ∧
       ApprovalDecision.status pending = ApprovalStatus.PENDING ∧
       ApprovalDecision.covers_action pending action (Incident.incident_id current) report = true ∧
       told w now v ∧ settled_decision approve pending d now target ∧
       ApprovalDecision.decided_by d = Some (py_strip actor) ∧
       ApprovalDecision.decided_at d = Some now ∧
       Incident.approval_binding d = Incident.approval_binding pending ∧
       committed id target rev (LocalApprovalGateway.event_key (py_strip key))
         (update_approvals (Incident.approvals current ++ [d])) v (g_incident g) w').
Proof.
  intros Hs Ha H. split; [by apply (decide_calm _ _ _ _ _ _ _ Ha _ _ _ Hs H)|].
  unfold decide in H. step_in H. apply get_incident_run in E as (Hl & Hs1 & _); [|done].
  do 3 (step_in H). subst.
  apply gateway_decide_run in E0 as (_ & v & current & now & H1 & H2 & H3 & H4); [|done..].
  pose proof (told_later _ _ _ (sane_later _ _ Hl Hs) H1) as Hl'.
  exists v, current. split_and!; [by eapply later_trans|done..|]. cbn [g_incident].
  destruct H4 as [H4|(pending & Hp & Hd)]; [by left|right].
  apply decidable_spec in Hp as (report & action & H5 & <- & H6 & H7 & H8 & H9 & H10 & H11).
  destruct Hd as [_ Hc]. exists report, action, pending.
  eexists (LocalApprovalGateway.terminal_decision pending _ _ (py_strip actor) _ _ now), now, _.
  split_and!; first [exact Hc|apply decision_settles|by eapply told_within; [exact Hl|exact H1|]|done].
Qed.

(** ** Preparing *)

Lemma require_marker_Ok i marker u :
  require_marker i marker = Ok u →
  ∃ actual, Incident.model_metadata i !! MARKER_KEY = Some actual ∧ actual ≐ marker_json marker.
Proof.
  unfold require_marker. intros H.
  destruct (Incident.model_metadata i !! MARKER_KEY) as [[]|]; try done. run_ok.
  eexists. split; [done|]. by apply negb_false_iff in H.
Qed.

(** The statuses of an Incident under governance. *)
Definition GOVERNED_STATUSES : list IncidentStatus.t :=
  [ IncidentStatus.AWAITING_APPROVAL; IncidentStatus.REMEDIATING; IncidentStatus.VERIFYING;
    IncidentStatus.RESOLVED; IncidentStatus.REOPENED; IncidentStatus.REJECTED ].

(** What [prepare] may return. *)
Definition prepared (marker : Marker) (g : GovernanceResult) : Prop :=
  let i := g_incident g in
  (** The analysis found no cause. *)
  (Incident.status i = IncidentStatus.RCA_COMPLETE ∧
   ∃ r, latest_report i = Some r ∧ RcaReport.conclusion r = RcaConclusion.INCONCLUSIVE) ∨
  (** An execution of this engine failed for an expired approval. *)
  (Incident.status i = IncidentStatus.FAILED ∧ g_replayed g = true ∧
   ∃ raw, require_failure_binding i = Ok raw) ∨
  (** The Incident is governed by exactly this request. *)
  (Incident.status i ∈ GOVERNED_STATUSES ∧
   ∃ actual, Incident.model_metadata i !! MARKER_KEY = Some actual ∧ actual ≐ marker_json marker).

Lemma finish_prepared marker state g :
  finish marker state = Ok g → g_incident g = state.1 ∧ prepared marker g.
Proof.
  destruct state as [i wrote]. unfold finish, prepared. intros H.
  case_bool_decide as Hf; [|case_bool_decide as Hg]; run_ok; subst; cbn [g_incident g_replayed];
    (split; [done|]).
  - right. left. split_and!; [done..|]. by eexists.
  - right. right. split; [done|].
    match goal with H : require_marker _ _ = Ok _ |- _ => by apply require_marker_Ok in H end.
Qed.

Lemma request_run key ttl marker state w g w' :
  sane w → known state.1 → request_step key ttl marker state w = (Ok g, w') →
  known (g_incident g) ∧ prepared marker g.
Proof.
  intros Hs Hk H. destruct state as [current wrote]. unfold request_step in H. cbn in Hk.
  case_bool_decide as Hst.
  - step_in H. apply of_option_Ok in E. case_bool_decide as Hc.
    + step_in H. subst. split; [done|]. left. split; [done|]. by exists a.
    + do 6 (step_in H). apply finish_prepared in H as [-> Hp]. split; [|done].
      pose proof (now_run _ _ _ Hs E1) as Hl1. pose proof (sane_later _ _ Hl1 Hs) as Hs1.
      assert (later w0 w1) as Hl2.
      { eapply (request_approval_calm _ _); [|exact Hs1|exact E3]. by apply utf8_step_key. }
      apply get_incident_run in E4 as (_ & _ & _ & _ & Hk'); [done|by eapply sane_later].
  - step_in H. apply finish_prepared in H as [-> Hp]. done.
Qed.

(** C13. How a preparation ends.  When [prepare] returns, the approval window
    was positive and at most a day, and the Incident it returns is valid and
    either waits with an inconclusive analysis, or failed earlier in an
    execution of this engine whose complete binding it carries, or is governed
    by this very request: its stored marker names the key, the actor and the
    approval window of this call. *)
Theorem prepare_outcomes id key actor ttl w g w' :
  sane w → utf8 actor → prepare id key actor ttl w = (Ok g, w') →
  0 < ttl ≤ DAY ∧ later w w' ∧ valid (g_incident g) ∧
  prepared (make_marker (py_strip key) ttl (py_strip actor)) g.
Proof.
  intros Hs Ha H. pose proof (prepare_calm id key actor ttl Ha _ _ _ Hs H) as [Hl _].
  unfold prepare in H. do 7 (step_in H).
  pose proof (stripped_text Ha E0) as Ha'.
  apply require_text_Ok in E as (_ & _ & ->), E0 as (_ & _ & ->).
  apply throw_if_Ok, orb_false_iff in E1 as [E1 E1'].
  rewrite Z.leb_gt, Z.ltb_ge in *.
  split; [lia|]. split; [done|].
  destruct (get_incident_calm id _ _ _ Hs E2) as [Hl1 Hk].
  pose proof (sane_later _ _ Hl1 Hs) as Hs1.
  destruct (claim_calm _ _ _ _ Ha' Hk _ _ _ Hs1 E3) as [Hl2 Hk2].
  pose proof (sane_later _ _ Hl2 Hs1) as Hs2.
  destruct (investigate_calm _ _ _ Ha' Hk2 _ _ _ Hs2 E4) as [Hl3 Hk3].
  pose proof (sane_later _ _ Hl3 Hs2) as Hs3.
  destruct (analyze_calm _ _ _ _ Ha' Hk3 _ _ _ Hs3 E5) as [Hl4 Hk4].
  pose proof (sane_later _ _ Hl4 Hs3) as Hs4.
  apply request_run in H as [[Hv _] Hp]; done.
Qed.
End promises.
