(* ===== verification/GovernanceWorld.v ===== *)
(** * The governance engine over the in-memory repository

    The engine as a process of [LocalWorld], in which other actors may be
    served between any two of its operations, and what its calls leave of the
    repository.  Then one Incident governed from detection to resolution, and
    the theorems of [GovernanceProps] and [GovernanceTypes] at that run. *)

From Stdlib Require Import Ascii String.
From S2P Require Import Prelude PyStr Json Reference Models Incident Errors StateMachine Samples.
From S2P Require Import PyEq.
From S2P Require Import Repository RepositoryInv RepositoryFacts Contracts Ports LocalWorld.
From S2P Require Import GovernanceBase Gateways Governance GovernanceFacts GovernanceRuns.
From S2P Require Import GovernanceTypes GovernanceProps.

Import LocalGovernanceEngine.

(** ** A process of governance requests *)

Inductive Call :=
| Prepare (incident_id idempotency_key actor : string) (approval_ttl : Z)
| Decide (incident_id : string) (approve : bool) (expected_action_hash : string)
    (expected_revision : Z) (actor reason idempotency_key : string)
| Execute (incident_id idempotency_key actor : string) (verification_passed : bool).

Section process.
Context `{R : Runtime, L : !RuntimeLaws R}.
Context (others : nat → list (Request * pydatetime)).
Context (repository_clock trusted_clock : nat → pydatetime).
Context (gateway : Envelope.t → RcaRequest → nat → result exc (Envelope.t * RcaResult)).

#[local] Instance the_repository : IncidentRepository World :=
  memory_repository others repository_clock.
#[local] Instance the_clock : TrustedClock World := process_clock trusted_clock.
#[local] Instance the_gateway : RcaGateway World := given_gateway gateway.

Definition perform (c : Call) : Eff World GovernanceResult :=
  match c with
  | Prepare id key actor ttl => prepare id key actor ttl
  | Decide id approve hash rev actor reason key => decide id approve hash rev actor reason key
  | Execute id key actor passed => execute id key actor passed
  end.
Definition perform_all (calls : list Call) (w : World) : World :=
  foldl (λ w c, (perform c w).2) w calls.

(** The actor of a call is a string. *)
Definition call_texts (c : Call) : Prop :=
  match c with
  | Prepare _ _ actor _ | Decide _ _ _ _ actor _ _ | Execute _ _ actor _ => utf8 actor
  end.

Section running.
Hypothesis others_texts : ∀ n, all_texts (others n).
#[local] Instance the_laws : WorldLaws World :=
  world_laws others repository_clock trusted_clock gateway others_texts.

Lemma perform_later c w r w' :
  call_texts c → Inv (store w) → perform c w = (r, w') → world_later w w'.
Proof.
  intros Hc HI H. destruct c; cbn in *.
  - exact (proj1 (prepare_calm (WL := the_laws) _ _ _ _ Hc w r w' HI H)).
  - exact (proj1 (decide_calm (WL := the_laws) _ _ _ _ _ _ _ Hc w r w' HI H)).
  - exact (proj1 (execute_calm (WL := the_laws) _ _ _ _ Hc w r w' HI H)).
Qed.

Lemma perform_all_later calls w :
  Forall call_texts calls → Inv (store w) → world_later w (perform_all calls w).
Proof.
  intros Hc. revert w. induction Hc as [|c calls Hc _ IH]; intros w HI.
  - split; [constructor|done].
  - cbn. destruct (perform c w) as [r w1] eqn:E.
    pose proof (perform_later _ _ _ _ Hc HI E) as Hl. cbn [snd].
    pose proof (IH w1 (effects_inv _ _ (proj1 Hl) HI)) as [H1 H2]. destruct Hl as [H3 H4].
    split; [by etransitivity|]. etransitivity; [exact H4|exact H2].
Qed.
End running.
End process.

(** ** One Incident governed from detection to resolution *)

(** A conclusive analysis. *)
Definition analyst (e : Envelope.t) (b : RcaRequest) (_ : nat) :
    result exc (Envelope.t * RcaResult) :=
  let i := rca_incident b in
  Ok (Envelope.mk "rca-message" (Envelope.workflow_id e) (Envelope.incident_id e)
        (Envelope.trace_id e) "rca-key" (Envelope.sent_at e),
      mk_rca_result (Envelope.message_id e)
        (RcaReport.mk "rca-1" (Incident.incident_id i) (rca_requested_report_version b)
           ReportStatus.PROPOSED None "antenna drift" [] (Some "antenna drift")
           RcaConclusion.CONCLUSIVE None [evidence] [] None ∅ 30)
        (rca_based_on_revision b) (rca_requested_report_version b) "done").

Definition quiet : nat → list (Request * pydatetime) := λ _, [].
Definition wall (n : nat) : pydatetime := Aware (100 + Z.of_nat n) 0.
#[local] Instance sample_repository : IncidentRepository World := memory_repository quiet wall.
#[local] Instance sample_clock : TrustedClock World := process_clock wall.
#[local] Instance sample_gateway : RcaGateway World := given_gateway analyst.

Definition creation : Metadata := mk_metadata "k0" "collector" "detected" "trace-1".
Definition w_created : World :=
  mk_world (serve (Create detected creation) (Aware 1 0) empty_state).2 0.
Definition calls : list Call :=
  [ Prepare "inc-1" "root-1" "operator" 1000;
    Decide "inc-1" true "3adbf33bf1a6fd95da2fe6893a99d45db7e06180c0dbb30b8129d2b78137db9d" 4
      "operator" "looks right" "decision-1";
    Execute "inc-1" "execute-1" "operator" true ].
Definition sample_perform : Call → Eff World GovernanceResult := perform quiet wall wall analyst.
Definition world_after (n : nat) : World :=
  perform_all quiet wall wall analyst (take n calls) w_created.

Definition statuses (w : World) : list IncidentStatus.t :=
  Incident.status <$> option_list (incidents (store w) !! "inc-1"%string).
Example governed_run : statuses (world_after 3) = [IncidentStatus.RESOLVED].
Proof. vm_compute. reflexivity. Qed.

Lemma quiet_texts n : all_texts (quiet n).
Proof. constructor. Qed.
Lemma calls_texts : Forall call_texts calls.
Proof. repeat constructor; by apply utf8b_utf8. Qed.

Lemma created_inv : Inv (store w_created).
Proof.
  unfold w_created. cbn [store]. apply serve_inv; [|apply inv_empty].
  split; [split_and!; [by apply utf8b_utf8..|]|split; [done|split_and!; by apply utf8b_utf8]].
  apply Forall_singleton. by apply utf8b_utf8.
Qed.

(** *** The calls of the run, one by one *)

#[local] Instance sample_laws : WorldLaws World :=
  world_laws quiet wall wall analyst quiet_texts.

Lemma returned_run (c : Call) (w : World) :
  is_ok (sample_perform c w).1 = true → ∃ g w', sample_perform c w = (Ok g, w').
Proof. destruct (sample_perform c w) as [[g|e] w']; [eauto|done]. Qed.

Lemma sane_after n : sane (world_after n).
Proof.
  assert (Forall call_texts (take n calls)) as Ht by apply Forall_take, calls_texts.
  pose proof (perform_all_later quiet wall wall analyst quiet_texts _ _ Ht created_inv) as [Hl _].
  exact (effects_inv _ _ Hl created_inv).
Qed.

Lemma prepare_outcomes_witness :
  ∃ g w', sample_perform (Prepare "inc-1" "root-1" "operator" 1000) (world_after 0) = (Ok g, w') ∧
    prepared (make_marker "root-1" 1000 "operator") g.
Proof.
  destruct (returned_run (Prepare "inc-1" "root-1" "operator" 1000) (world_after 0))
    as (g & w' & E); [vm_compute; reflexivity|].
  exists g, w'. split; [exact E|].
  apply (prepare_outcomes "inc-1" "root-1" "operator" 1000 (world_after 0) g w');
    [apply sane_after|by apply utf8b_utf8|exact E].
Defined.

Definition the_hash : string := "3adbf33bf1a6fd95da2fe6893a99d45db7e06180c0dbb30b8129d2b78137db9d".

Lemma decide_outcomes_witness :
  ∃ g w', sample_perform
      (Decide "inc-1" true the_hash 4 "operator" "looks right" "decision-1") (world_after 1)
      = (Ok g, w') ∧ world_later (world_after 1) w'.
Proof.
  destruct (returned_run (Decide "inc-1" true the_hash 4 "operator" "looks right" "decision-1")
    (world_after 1)) as (g & w' & E); [vm_compute; reflexivity|].
  exists g, w'. split; [exact E|].
  assert (utf8 "operator") as Ha by (by apply utf8b_utf8).
  exact (proj1 (decide_outcomes "inc-1" true the_hash 4 "operator" "looks right" "decision-1"
    (world_after 1) g w' (sane_after 1) Ha E)).
Defined.

Lemma execute_outcomes_witness :
  ∃ g w', sample_perform (Execute "inc-1" "execute-1" "operator" true) (world_after 2)
      = (Ok g, w') ∧ world_later (world_after 2) w'.
Proof.
  destruct (returned_run (Execute "inc-1" "execute-1" "operator" true) (world_after 2))
    as (g & w' & E); [vm_compute; reflexivity|].
  exists g, w'. split; [exact E|].
  assert (utf8 "operator") as Ha by (by apply utf8b_utf8).
  exact (proj1 (execute_outcomes "inc-1" "execute-1" "operator" true (world_after 2) g w'
    (sane_after 2) Ha E)).
Defined.

(** The Incident after the decision, and the change request for it. *)
Definition decided_incident : Incident.t :=
  default detected (incidents (store (world_after 2)) !! "inc-1"%string).
Definition decided_report : RcaReport.t := default report (latest_report decided_incident).
Definition decided_action : RemediationAction.t :=
  default action (head (RcaReport.recommendations decided_report)).
Definition sample_envelope : Envelope.t :=
  change_envelope decided_incident decided_action "key-run" "fp" 150.
Definition sample_change : NetworkChangeRequest :=
  mk_network_change decided_action decided_report (Incident.revision decided_incident - 1)
    (execution_reference decided_incident decided_report decided_action
       (default approved (latest_approval decided_incident)) 150).

Lemma simulation_requires_authority_witness :
  ∃ run w', SimulatedActionGateway.execute sample_envelope sample_change (world_after 2)
      = (Ok run, w') ∧ ∃ now d, told (world_after 2) now w' ∧
        ApprovalDecision.is_effective d now = true ∧
        ActionRun.status run = ActionRunStatus.SUCCEEDED.
Proof.
  assert (is_ok (SimulatedActionGateway.execute sample_envelope sample_change (world_after 2)).1
          = true) as Hok by (vm_compute; reflexivity).
  destruct (SimulatedActionGateway.execute sample_envelope sample_change (world_after 2))
    as [[run|e] w'] eqn:E; [|discriminate Hok].
  exists run, w'. split; [reflexivity|].
  destruct (simulation_requires_authority sample_envelope sample_change (world_after 2) run w')
    as (_ & v & i & d & now & ran & Hv & Ht & _ & _ & _ & _ & _ & _ & _ & _ & Hau & _ & H & _);
    [apply sane_after|vm_compute; reflexivity|exact E|].
  exists now, d. split; [|split; [apply Hau|exact H]].
  by eapply told_within; [exact Hv|exact Ht|].
Defined.

(** *** The policy and the messages *)

Definition analysed : RcaReport.t :=
  RcaReport.mk "rca-1" "inc-1" 1 ReportStatus.PROPOSED None "antenna drift" []
    (Some "antenna drift") RcaConclusion.CONCLUSIVE None [evidence] [] None ∅ 30.

Lemma attach_action_exact_witness :
  ∃ r, LocalSimulationPolicy.attach_action investigating analysed "fp" 30 = Ok r ∧
    RcaReport.check r = Ok tt.
Proof.
  eexists. match goal with |- ?a = Ok ?r ∧ _ =>
    assert (a = Ok r) as H end.
  - apply (attach_action_exact investigating analysed "fp" 30);
      [vm_compute; reflexivity|vm_compute; reflexivity|].
    split; [|reflexivity]. split_and!; vm_compute; done.
  - split; [exact H|].
    apply (attach_action_exact investigating analysed "fp" 30) in H;
      [by destruct_and! H|vm_compute; reflexivity|vm_compute; reflexivity].
Defined.

Lemma engine_messages_well_formed_witness :
  check_message (mk_message (ask_envelope "key" (make_marker "root" 900 "operator") remediating
      action 60)
    (IApprovalRequest (ask_body 900 (make_marker "root" 900 "operator") remediating report action
      60))) = Ok tt.
Proof.
  destruct (engine_messages_well_formed remediating report action "key" "root" 900 "operator" 60)
    as (_ & H & _); [vm_compute; reflexivity|vm_compute; discriminate|split; vm_compute; reflexivity|].
  exact H.
Defined.

(** An identifier with blanks around it is found by [prepare], and by the first
    lookup of [decide], but not by the approval gateway. *)
Lemma padded_decision_not_found :
  (sample_perform (Decide " inc-1" true the_hash 4 "operator" "looks right" "decision-1")
     (world_after 1)).1
  = Err (GovernanceNotFoundError " inc-1") ∧
  is_ok (sample_perform (Prepare " inc-1" "root-1" "operator" 1000) (world_after 1)).1 = true.
Proof. split; vm_compute; reflexivity. Qed.
