(* ===== verification/Rules.v ===== *)
(** * Detection and analysis rules (telco_local/rules.py)

    The strict rule documents, the comparison of scalar facts, the resolution
    of the rules an Incident claims, and the loading of a rule directory.  The
    directory and pydantic's [model_validate] are parameters. *)

From Stdlib Require Import Ascii String.
From stdpp Require Import pretty.
From S2P Require Import Prelude PyStr Json Privacy Models Incident Errors.
From S2P Require Import PyEq.

Definition RULE_SCHEMA_VERSION : string := "1.0".
Definition BUBBLERAN_REPLAY_DETECTOR_ALGORITHM : string :=
  "deterministic-bubbleran-replay-threshold-v1".
Definition BUBBLERAN_REPLAY_RULE_ID : string := "5g-sa.bubbleran.persistent-interference.ul-bler".
Definition MAX_RULE_FILE_BYTES : Z := 1000000.
Definition MAX_RULE_FILES : nat := 256.
Definition MAX_RULE_TOTAL_BYTES : Z := 16000000.

(** ** The regular expressions *)

(** The longest run of characters of a class, and what follows. *)
Fixpoint span (p : ascii → bool) (s : string) : string * string :=
  match s with
  | String c s' => if p c then let (u, v) := span p s' in (String c u, v) else (EmptyString, s)
  | EmptyString => (EmptyString, EmptyString)
  end.
Definition is_letter (c : ascii) : bool := is_lower c || is_upper c.
Definition one_of (cs : list ascii) (c : ascii) : bool := bool_decide (c ∈ cs).

(** [0|[1-9][0-9]*]: what follows the number; a longer match never helps. *)
Definition version_number (s : string) : option string :=
  let (n, rest) := span is_digit s in
  match n with
  | EmptyString => None
  | String "0" EmptyString => Some rest
  | String "0" _ => None
  | _ => Some rest
  end.
Definition after_dot (s : string) : option string :=
  match s with String "." s => Some s | _ => None end.
(** An optional part that starts with [mark]; what follows it. *)
Definition optional_part (mark : ascii) (s : string) : option string :=
  match s with
  | String c s' =>
      if bool_decide (c = mark) then
        match span (λ c, is_digit c || is_letter c || one_of ["."; "-"]%char c) s' with
        | (EmptyString, _) => None
        | (_, rest) => Some rest
        end
      else Some s
  | EmptyString => Some EmptyString
  end.
Definition is_semver (s : string) : bool :=
  let number (o : option string) := o ≫= version_number in
  let dot (o : option string) := o ≫= after_dot in
  let suffix (mark : ascii) (o : option string) := o ≫= optional_part mark in
  bool_decide (suffix "+"%char (suffix "-"%char
    (number (dot (number (dot (number (Some s))))))) = Some EmptyString).

(** [_RULE_ID] and [_FACT_NAME]: a first character, then at most 127 others. *)
Definition named (first others : ascii → bool) (s : string) : bool :=
  match s with
  | String c s => first c && string_forall others s && Nat.leb (String.length s) 127
  | EmptyString => false
  end.
Definition is_rule_id : string → bool :=
  named (λ c, is_lower c || is_digit c)
    (λ c, is_lower c || is_digit c || one_of ["."; "_"; "-"]%char c).
Definition is_fact_name : string → bool :=
  named is_lower (λ c, is_lower c || is_digit c || one_of ["_"; "."; "-"]%char c).

(** A text of [low] to [high] characters. *)
Definition sized (low high : Z) (s : string) : bool := (low <=? py_len s) && (py_len s <=? high).

(** ** Scalars and their comparison *)

(** [math.isfinite(float(v))], which is true or raises, and the number. *)
Definition finite_number (v : scalar) : result exc (option pyfloat) :=
  match v with
  | ScInt z =>
      throw_if (2 ^ 1024 - 2 ^ 970 <=? Z.abs z)
        (OverflowError "int too large to convert to float") ≫= λ _,
      Ok (Some (exact_int z))
  | ScFloat f => Ok (Some f)
  | ScBool _ | ScStr _ => Ok None
  end.

Definition is_number (v : scalar) : bool :=
  match v with ScInt _ | ScFloat _ => true | _ => false end.

(** [left == right] of two values of the same type. *)
Definition same_value (left right : scalar) : option bool :=
  match left, right with
  | ScBool a, ScBool b => Some (Bool.eqb a b)
  | ScInt a, ScInt b => Some (a =? b)
  | ScFloat a, ScFloat b => Some (float_eqb a b)
  | ScStr a, ScStr b => Some (bool_decide (a = b))
  | _, _ => None
  end.

(** [compare_values(left, comparator, right)]. *)
Definition compare_values (left : scalar) (comparator : KpiComparator.t) (right : scalar) :
    result exc bool :=
  let ordered (f : pyfloat → pyfloat → bool) :=
    if negb (is_number left && is_number right) then Ok false
    else
      finite_number left ≫= λ x,
      finite_number right ≫= λ y,
      match x, y with Some x, Some y => Ok (f x y) | _, _ => Ok false end in
  match comparator with
  | KpiComparator.LESS_THAN => ordered (λ x y, negb (float_leb y x))
  | KpiComparator.LESS_THAN_OR_EQUAL => ordered float_leb
  | KpiComparator.GREATER_THAN => ordered (λ x y, negb (float_leb x y))
  | KpiComparator.GREATER_THAN_OR_EQUAL => ordered (λ x y, float_leb y x)
  | KpiComparator.EQUAL => Ok (default false (same_value left right))
  | KpiComparator.NOT_EQUAL => Ok (default false (negb <$> same_value left right))
  end.

(** ** The rule documents

    [check] is what pydantic and the validators of the class require of the
    stripped fields; [eqb] is [==], which compares numbers by their value. *)

Definition within (low high : Z) (n : nat) : bool := (low <=? Z.of_nat n) && (Z.of_nat n <=? high).

Module RuleDetection.
Record t := mk {
  kpi_name : string;
  comparator : KpiComparator.t;
  threshold : pyfloat;
  unit_ : option string;
  max_gap_minutes : Z
}.
#[global] Instance eq_dec : EqDecision t.
Proof. solve_decision. Defined.
Definition check (d : t) : result string unit :=
  throw_if (negb (sized 1 256 (kpi_name d))) "kpi_name" ≫= λ _,
  throw_if (negb (opt_check (sized 0 128) (unit_ d))) "unit" ≫= λ _,
  throw_if (negb ((0 <=? max_gap_minutes d) && (max_gap_minutes d <=? 10080))) "max_gap_minutes".
Definition eqb (x y : t) : bool :=
  str_eqb (kpi_name x) (kpi_name y)
  && bool_decide (comparator x = comparator y)
  && float_eqb (threshold x) (threshold y)
  && bool_decide (unit_ x = unit_ y)
  && (max_gap_minutes x =? max_gap_minutes y).
Definition to_json (d : t) : json :=
  JObj [ ("comparator", JStr (KpiComparator.value (comparator d)));
         ("kpi_name", JStr (kpi_name d));
         ("max_gap_minutes", JInt (max_gap_minutes d));
         ("threshold", JFloat (threshold d));
         ("unit", json_opt JStr (unit_ d)) ].
End RuleDetection.

Module FactPredicate.
Record t := mk {
  fact : string;
  comparator : KpiComparator.t;
  value : scalar
}.
#[global] Instance eq_dec : EqDecision t.
Proof. solve_decision. Defined.
Definition validate_fact_name (value : string) : result string unit :=
  throw_if (negb (is_fact_name value)) "fact must be a stable lower-case identifier".
Definition validate_scalar (value : scalar) : result string unit :=
  throw_if (bool_decide (value = ScStr EmptyString))
    "predicate string values must not be empty".
Definition check (p : t) : result string unit :=
  throw_if (negb (sized 1 128 (fact p))) "fact" ≫= λ _,
  validate_fact_name (fact p) ≫= λ _,
  validate_scalar (value p).
Definition eqb (x y : t) : bool :=
  str_eqb (fact x) (fact y)
  && bool_decide (comparator x = comparator y)
  && scalar_eqb (value x) (value y).
Definition to_json (p : t) : json :=
  JObj [ ("comparator", JStr (KpiComparator.value (comparator p)));
         ("fact", JStr (fact p));
         ("value", scalar_json (value p)) ].
End FactPredicate.

Module PredicateGroup.
Inductive Operator := ALL | ANY.
#[global] Instance operator_eq_dec : EqDecision Operator.
Proof. solve_decision. Defined.
Record t := mk {
  operator : Operator;
  predicates : list FactPredicate.t
}.
#[global] Instance eq_dec : EqDecision t.
Proof. solve_decision. Defined.
Definition check (g : t) : result string unit :=
  throw_if (negb (within 1 32 (length (predicates g)))) "predicates" ≫= λ _,
  for_each FactPredicate.check (predicates g).
Definition eqb (x y : t) : bool :=
  bool_decide (operator x = operator y)
  && same_list FactPredicate.eqb (predicates x) (predicates y).
Definition to_json (g : t) : json :=
  JObj [ ("operator", JStr (match operator g with ALL => "ALL" | ANY => "ANY" end));
         ("predicates", json_list FactPredicate.to_json (predicates g)) ].
End PredicateGroup.

Module RuleAnalysis.
Record t := mk {
  evidence_types : list EvidenceType.t;
  when : PredicateGroup.t;
  hypothesis_zh : string;
  root_cause_zh : string
}.
#[global] Instance eq_dec : EqDecision t.
Proof. solve_decision. Defined.
Definition supported (e : EvidenceType.t) : bool :=
  match e with EvidenceType.METRIC | EvidenceType.TRACE => true | _ => false end.
Definition validate_evidence_types (a : t) : result string unit :=
  throw_if (negb (bool_decide (NoDup (evidence_types a))))
    "analysis evidence_types must not contain duplicates" ≫= λ _,
  throw_if (existsb (negb ∘ supported) (evidence_types a))
    "analysis evidence_types must be METRIC or TRACE".
Definition check (a : t) : result string unit :=
  throw_if (negb (within 1 8 (length (evidence_types a)))) "evidence_types" ≫= λ _,
  PredicateGroup.check (when a) ≫= λ _,
  throw_if (negb (sized 1 2048 (hypothesis_zh a))) "hypothesis_zh" ≫= λ _,
  throw_if (negb (sized 1 4096 (root_cause_zh a))) "root_cause_zh" ≫= λ _,
  validate_evidence_types a.
Definition eqb (x y : t) : bool :=
  bool_decide (evidence_types x = evidence_types y)
  && PredicateGroup.eqb (when x) (when y)
  && str_eqb (hypothesis_zh x) (hypothesis_zh y)
  && str_eqb (root_cause_zh x) (root_cause_zh y).
Definition to_json (a : t) : json :=
  JObj [ ("evidence_types", json_list (JStr ∘ EvidenceType.value) (evidence_types a));
         ("hypothesis_zh", JStr (hypothesis_zh a));
         ("root_cause_zh", JStr (root_cause_zh a));
         ("when", PredicateGroup.to_json (when a)) ].
End RuleAnalysis.

(** [validate_severity] and [validate_default]. *)
Definition validate_severity (value : IncidentSeverity.t) (msg : string) : result string unit :=
  throw_if (bool_decide (value = IncidentSeverity.UNKNOWN)) msg.

Module SeverityCase.
Record t := mk {
  when : PredicateGroup.t;
  severity : IncidentSeverity.t
}.
#[global] Instance eq_dec : EqDecision t.
Proof. solve_decision. Defined.
Definition check (c : t) : result string unit :=
  PredicateGroup.check (when c) ≫= λ _,
  validate_severity (severity c) "severity cases must be determinate".
Definition eqb (x y : t) : bool :=
  PredicateGroup.eqb (when x) (when y) && bool_decide (severity x = severity y).
Definition to_json (c : t) : json :=
  JObj [ ("severity", JStr (IncidentSeverity.value (severity c)));
         ("when", PredicateGroup.to_json (when c)) ].
End SeverityCase.

Module RuleSeverity.
Record t := mk {
  cases : list SeverityCase.t;
  default : IncidentSeverity.t
}.
#[global] Instance eq_dec : EqDecision t.
Proof. solve_decision. Defined.
Definition check (s : t) : result string unit :=
  throw_if (negb (within 0 32 (length (cases s)))) "cases" ≫= λ _,
  for_each SeverityCase.check (cases s) ≫= λ _,
  validate_severity (default s) "severity default must be determinate".
Definition eqb (x y : t) : bool :=
  same_list SeverityCase.eqb (cases x) (cases y) && bool_decide (default x = default y).
Definition to_json (s : t) : json :=
  JObj [ ("cases", json_list SeverityCase.to_json (cases s));
         ("default", JStr (IncidentSeverity.value (default s))) ].
End RuleSeverity.

Module RcaRule.
Record t := mk {
  rule_id : string;
  version : string;
  technology : string;
  is_current : bool;
  description_zh : string;
  detection : RuleDetection.t;
  analysis : RuleAnalysis.t;
  severity : RuleSeverity.t
}.
#[global] Instance eq_dec : EqDecision t.
Proof. solve_decision. Defined.
Definition validate_rule_id (value : string) : result string unit :=
  throw_if (negb (is_rule_id value)) "rule_id must be a stable lower-case identifier".
Definition validate_version (value : string) : result string unit :=
  throw_if (negb (is_semver value)) "version must use semantic versioning".
Definition check (r : t) : result string unit :=
  throw_if (negb (sized 1 128 (rule_id r))) "rule_id" ≫= λ _,
  validate_rule_id (rule_id r) ≫= λ _,
  throw_if (negb (sized 1 64 (version r))) "version" ≫= λ _,
  validate_version (version r) ≫= λ _,
  throw_if (negb (bool_decide (technology r ∈ ["LTE"; "5G_SA"]))) "technology" ≫= λ _,
  throw_if (negb (sized 1 4096 (description_zh r))) "description_zh" ≫= λ _,
  RuleDetection.check (detection r) ≫= λ _,
  RuleAnalysis.check (analysis r) ≫= λ _,
  RuleSeverity.check (severity r).
Definition eqb (x y : t) : bool :=
  str_eqb (rule_id x) (rule_id y)
  && str_eqb (version x) (version y)
  && str_eqb (technology x) (technology y)
  && Bool.eqb (is_current x) (is_current y)
  && str_eqb (description_zh x) (description_zh y)
  && RuleDetection.eqb (detection x) (detection y)
  && RuleAnalysis.eqb (analysis x) (analysis y)
  && RuleSeverity.eqb (severity x) (severity y).
Definition to_json (r : t) : json :=
  JObj [ ("analysis", RuleAnalysis.to_json (analysis r));
         ("description_zh", JStr (description_zh r));
         ("detection", RuleDetection.to_json (detection r));
         ("is_current", JBool (is_current r));
         ("rule_id", JStr (rule_id r));
         ("schema_version", JStr RULE_SCHEMA_VERSION);
         ("severity", RuleSeverity.to_json (severity r));
         ("technology", JStr (technology r));
         ("version", JStr (version r)) ].
(** [(rule.rule_id, rule.version)]. *)
Definition identity (r : t) : string * string := (rule_id r, version r).
End RcaRule.

(** [rule_content_sha256(rule)]. *)
Definition rule_content_sha256 `{Runtime} (rule : RcaRule.t) : string :=
  sha256_hex (dumps (JArr [JStr "rca-rule-content-v1"; RcaRule.to_json rule])).

(** [detection_matches(rule, violation)]. *)
Definition detection_matches (rule : RcaRule.t) (violation : KpiViolation.t) : result exc bool :=
  let d := RcaRule.detection rule in
  if negb (bool_decide (KpiViolation.rule_id violation = Some (RcaRule.rule_id rule))) then Ok false
  else if negb (bool_decide (KpiViolation.rule_version violation = Some (RcaRule.version rule)))
  then Ok false
  else if negb (str_eqb (KpiViolation.kpi_name violation) (RuleDetection.kpi_name d)) then Ok false
  else if negb (bool_decide (KpiViolation.unit_ violation = RuleDetection.unit_ d)) then Ok false
  else if negb (float_eqb (KpiViolation.threshold_value violation) (RuleDetection.threshold d))
  then Ok false
  else if negb (bool_decide (KpiViolation.comparator violation = RuleDetection.comparator d))
  then Ok false
  else compare_values (ScFloat (KpiViolation.observed_value violation))
         (RuleDetection.comparator d) (ScFloat (RuleDetection.threshold d)).
