(* ===== verification/RuleResolution.v ===== *)
(** * Resolving the rules an Incident claims (telco_local/rules.py)

    [resolve_rules_for_incident]: the rules indexed by identity, the verdict on
    each violation in the order of the code's tests, the issues and the status. *)

From Stdlib Require Import Ascii String.
From stdpp Require Import pretty.
From S2P Require Import Prelude PyStr Json Models Incident Errors Rules.
From S2P Require Import PyEq.

Module RuleResolutionStatus.
Inductive t := EXACT | PARTIAL | LEGACY_UNVERSIONED | CONFLICT | NOT_APPLICABLE | NO_VIOLATIONS.
#[global] Instance eq_dec : EqDecision t.
Proof. solve_decision. Defined.
Definition value (x : t) : string :=
  match x with
  | EXACT => "EXACT"
  | PARTIAL => "PARTIAL"
  | LEGACY_UNVERSIONED => "LEGACY_UNVERSIONED"
  | CONFLICT => "CONFLICT"
  | NOT_APPLICABLE => "NOT_APPLICABLE"
  | NO_VIOLATIONS => "NO_VIOLATIONS"
  end.
End RuleResolutionStatus.

Module RuleResolutionIssueCode.
Inductive t :=
| LEGACY_UNVERSIONED
| PARTIAL_PROVENANCE
| INCIDENT_VERSION_MISSING
| INCIDENT_VERSION_CONFLICT
| RULE_VERSION_NOT_FOUND
| DUPLICATE_RULE_VERSION
| DETECTOR_ALGORITHM_MISMATCH
| KPI_MISMATCH
| UNIT_MISMATCH
| THRESHOLD_MISMATCH
| COMPARATOR_MISMATCH
| RULE_CONTENT_HASH_MISSING
| RULE_CONTENT_HASH_INVALID
| RULE_CONTENT_HASH_AMBIGUOUS
| RULE_CONTENT_MISMATCH
| UNREFERENCED_RULE_CONTENT_HASH
| OBSERVATION_NOT_VIOLATION
| UNREFERENCED_INCIDENT_RULE.
#[global] Instance eq_dec : EqDecision t.
Proof. solve_decision. Defined.
Definition value (x : t) : string :=
  match x with
  | LEGACY_UNVERSIONED => "LEGACY_UNVERSIONED"
  | PARTIAL_PROVENANCE => "PARTIAL_PROVENANCE"
  | INCIDENT_VERSION_MISSING => "INCIDENT_VERSION_MISSING"
  | INCIDENT_VERSION_CONFLICT => "INCIDENT_VERSION_CONFLICT"
  | RULE_VERSION_NOT_FOUND => "RULE_VERSION_NOT_FOUND"
  | DUPLICATE_RULE_VERSION => "DUPLICATE_RULE_VERSION"
  | DETECTOR_ALGORITHM_MISMATCH => "DETECTOR_ALGORITHM_MISMATCH"
  | KPI_MISMATCH => "KPI_MISMATCH"
  | UNIT_MISMATCH => "UNIT_MISMATCH"
  | THRESHOLD_MISMATCH => "THRESHOLD_MISMATCH"
  | COMPARATOR_MISMATCH => "COMPARATOR_MISMATCH"
  | RULE_CONTENT_HASH_MISSING => "RULE_CONTENT_HASH_MISSING"
  | RULE_CONTENT_HASH_INVALID => "RULE_CONTENT_HASH_INVALID"
  | RULE_CONTENT_HASH_AMBIGUOUS => "RULE_CONTENT_HASH_AMBIGUOUS"
  | RULE_CONTENT_MISMATCH => "RULE_CONTENT_MISMATCH"
  | UNREFERENCED_RULE_CONTENT_HASH => "UNREFERENCED_RULE_CONTENT_HASH"
  | OBSERVATION_NOT_VIOLATION => "OBSERVATION_NOT_VIOLATION"
  | UNREFERENCED_INCIDENT_RULE => "UNREFERENCED_INCIDENT_RULE"
  end.
End RuleResolutionIssueCode.

Module RuleResolutionIssue.
Record t := mk {
  violation_key : string;
  code : RuleResolutionIssueCode.t;
  rule_id : option string;
  rule_version : option string
}.
#[global] Instance eq_dec : EqDecision t.
Proof. solve_decision. Defined.
Definition check (i : t) : result string unit :=
  throw_if (negb (sized 1 256 (violation_key i))) "violation_key" ≫= λ _,
  throw_if (negb (opt_check (sized 0 128) (rule_id i))) "rule_id" ≫= λ _,
  throw_if (negb (opt_check (sized 0 64) (rule_version i))) "rule_version".
(** The constructor: pydantic strips the texts, then checks them. *)
Definition make `{Runtime} (key : string) (code : RuleResolutionIssueCode.t)
    (rule_id rule_version : option string) : result exc t :=
  let i := mk (strip key) code (strip <$> rule_id) (strip <$> rule_version) in
  validated (check i) ≫= λ _, Ok i.
(** [(violation_key, code.value, rule_id or "", rule_version or "")]. *)
Definition sort_key (i : t) : list string :=
  [ violation_key i; RuleResolutionIssueCode.value (code i);
    default EmptyString (rule_id i); default EmptyString (rule_version i) ].
End RuleResolutionIssue.
Import RuleResolutionIssueCode.

Module RuleResolution.
Record t := mk {
  status : RuleResolutionStatus.t;
  rules : list RcaRule.t;
  issues : list RuleResolutionIssue.t
}.
#[global] Instance eq_dec : EqDecision t.
Proof. solve_decision. Defined.
End RuleResolution.

(** [<=] on tuples of texts of one length. *)
Fixpoint texts_leb (x y : list string) : bool :=
  match x, y with
  | a :: x, b :: y => if str_eqb a b then texts_leb x y else String.leb a b
  | [], _ => true
  | _ :: _, [] => false
  end.
Definition identity_leb (x y : string * string) : bool :=
  if str_eqb x.1 y.1 then String.leb x.2 y.2 else String.leb x.1 y.1.

(** [d.get(k)] of a JSON dictionary: [None] also when the value is [None]. *)
Definition not_null (o : option json) : option json :=
  match o with Some JNull => None | o => o end.
Fixpoint items_get {A} (k : string) (items : list (string * A)) : option A :=
  match items with
  | [] => None
  | (k', v) :: items => if str_eqb k k' then Some v else items_get k items
  end.

Definition isSome_str (o : option json) (s : string) : bool := bool_decide (o = Some (JStr s)).

Section resolution.
Context `{Runtime}.

(** ** The rules by identity *)

Definition Index : Type := gmap (string * string) RcaRule.t * gset (string * string).
(** The body of the loop over the rules. *)
Definition index_rule (ix : Index) (rule : RcaRule.t) : Index :=
  let identity := RcaRule.identity rule in
  match ix.1 !! identity with
  | Some previous =>
      if RcaRule.eqb previous rule then (<[identity := rule]> ix.1, ix.2)
      else (ix.1, {[identity]} ∪ ix.2)
  | None => (<[identity := rule]> ix.1, ix.2)
  end.
Definition applicable (incident : Incident.t) (rule : RcaRule.t) : bool :=
  str_eqb (RcaRule.technology rule) (Technology.value (Incident.technology incident)).
Definition index_rules (incident : Incident.t) (available : list RcaRule.t) : Index :=
  foldl index_rule (∅, ∅) (filter (λ r, applicable incident r) available).

(** ** What the Incident records *)

Definition metadata (incident : Incident.t) (key : string) : option json :=
  not_null (Incident.model_metadata incident !! key).

(** [claimed_rule_ids]: of the violations that name a rule and its version. *)
Definition claimed_rule_ids (incident : Incident.t) : gset string :=
  list_to_set (omap (λ v, match KpiViolation.rule_version v with
                          | Some _ => KpiViolation.rule_id v
                          | None => None end) (Incident.violated_kpis incident)).

(** The recorded content hashes by rule, and why they are not trusted. *)
Definition content_hashes (incident : Incident.t) :
    list (string * json) * option RuleResolutionIssueCode.t :=
  let legacy := metadata incident "rule_content_sha256" in
  match metadata incident "rule_content_hashes" with
  | Some raw =>
      match legacy, raw with
      | None, JObj items => (items, None)
      | _, _ => ([], Some RULE_CONTENT_HASH_INVALID)
      end
  | None =>
      match legacy with
      | None => ([], None)
      | Some digest =>
          match elements (claimed_rule_ids incident) with
          | [rule_id] => ([(rule_id, digest)], None)
          | _ => ([], Some RULE_CONTENT_HASH_AMBIGUOUS)
          end
      end
  end.

(** [content_issue]: what is wrong with the recorded content hash of a rule. *)
Definition content_issue (incident : Incident.t) (rule_id : string) (rule : RcaRule.t) :
    option RuleResolutionIssueCode.t :=
  let replay := str_eqb rule_id BUBBLERAN_REPLAY_RULE_ID in
  let (hashes, hashes_issue) := content_hashes incident in
  if replay && isSome (metadata incident "rule_content_sha256")
  then Some RULE_CONTENT_HASH_INVALID
  else match hashes_issue with
  | Some code => Some code
  | None =>
      match not_null (items_get rule_id hashes) with
      | None =>
          if isSome_str (metadata incident "detector_algorithm")
               "deterministic-threshold-episodes-v3"
             || replay || isSome (metadata incident "rule_content_hashes")
          then Some RULE_CONTENT_HASH_MISSING else None
      | Some (JStr digest) =>
          if negb (is_hex64 (lower digest)) then Some RULE_CONTENT_HASH_INVALID
          else if negb (str_eqb (rule_content_sha256 rule) (lower digest))
          then Some RULE_CONTENT_MISMATCH
          else None
      | Some _ => Some RULE_CONTENT_HASH_INVALID
      end
  end.

(** ** The verdict on one violation *)

Inductive verdict :=
| Trusted (rule : RcaRule.t)
| Untrusted (code : RuleResolutionIssueCode.t).

(** The tests that compare the violation with the rule it names. *)
Definition compare_detection (rule : RcaRule.t) (v : KpiViolation.t) :
    option RuleResolutionIssueCode.t :=
  let d := RcaRule.detection rule in
  if negb (str_eqb (KpiViolation.kpi_name v) (RuleDetection.kpi_name d)) then Some KPI_MISMATCH
  else if negb (bool_decide (KpiViolation.unit_ v = RuleDetection.unit_ d))
  then Some UNIT_MISMATCH
  else if negb (float_eqb (KpiViolation.threshold_value v) (RuleDetection.threshold d))
  then Some THRESHOLD_MISMATCH
  else if negb (bool_decide (KpiViolation.comparator v = RuleDetection.comparator d))
  then Some COMPARATOR_MISMATCH
  else None.

(** A violation that names [rule_id] and [rule_version]. *)
Definition judge_named (incident : Incident.t) (ix : Index) (v : KpiViolation.t)
    (rule_id rule_version : string) : result exc verdict :=
  match Incident.rule_versions incident !! rule_id with
  | None => Ok (Untrusted INCIDENT_VERSION_MISSING)
  | Some incident_version =>
      if negb (str_eqb incident_version rule_version)
      then Ok (Untrusted INCIDENT_VERSION_CONFLICT)
      else if str_eqb rule_id BUBBLERAN_REPLAY_RULE_ID
              && negb (isSome_str (metadata incident "detector_algorithm")
                         BUBBLERAN_REPLAY_DETECTOR_ALGORITHM)
      then Ok (Untrusted DETECTOR_ALGORITHM_MISMATCH)
      else if bool_decide ((rule_id, rule_version) ∈ ix.2)
      then Ok (Untrusted DUPLICATE_RULE_VERSION)
      else match ix.1 !! (rule_id, rule_version) with
      | None => Ok (Untrusted RULE_VERSION_NOT_FOUND)
      | Some rule =>
          match compare_detection rule v with
          | Some code => Ok (Untrusted code)
          | None =>
              match content_issue incident rule_id rule with
              | Some code => Ok (Untrusted code)
              | None =>
                  detection_matches rule v ≫= λ matches : bool,
                  Ok (if matches then Trusted rule else Untrusted OBSERVATION_NOT_VIOLATION)
              end
          end
      end
  end.
Definition judge (incident : Incident.t) (ix : Index) (v : KpiViolation.t) : result exc verdict :=
  match KpiViolation.rule_id v, KpiViolation.rule_version v with
  | None, None => Ok (Untrusted LEGACY_UNVERSIONED)
  | Some rule_id, Some rule_version => judge_named incident ix v rule_id rule_version
  | _, _ => Ok (Untrusted PARTIAL_PROVENANCE)
  end.

(** ** The loops: the issues in order and the resolved rules *)

Abbreviation Resolved := (gmap (string * string) RcaRule.t) (only parsing).

(** [add_issue]. *)
Definition make_issue (index : nat) (code : RuleResolutionIssueCode.t)
    (rule_id rule_version : option string) : result exc RuleResolutionIssue.t :=
  RuleResolutionIssue.make ("violation-index-" +:+ pretty index) code rule_id rule_version.

Fixpoint judge_all (incident : Incident.t) (ix : Index) (index : nat) (vs : list KpiViolation.t)
    (issues : list RuleResolutionIssue.t) (resolved : Resolved) :
    result exc (list RuleResolutionIssue.t * Resolved) :=
  match vs with
  | [] => Ok (issues, resolved)
  | v :: vs =>
      judge incident ix v ≫= λ judged : verdict,
      match judged with
      | Trusted rule =>
          judge_all incident ix (S index) vs issues (<[RcaRule.identity rule := rule]> resolved)
      | Untrusted code =>
          make_issue index code (KpiViolation.rule_id v) (KpiViolation.rule_version v) ≫= λ issue,
          judge_all incident ix (S index) vs (issues ++ [issue]) resolved
      end
  end.

(** [add_issue] over a list of references, numbered from [index]. *)
Fixpoint issues_for (code : RuleResolutionIssueCode.t) (index : nat)
    (named : list (bool * string * option string)) : result exc (list RuleResolutionIssue.t) :=
  match named with
  | [] => Ok []
  | (false, _, _) :: named => issues_for code (S index) named
  | (true, rule_id, rule_version) :: named =>
      make_issue index code (Some rule_id) rule_version ≫= λ issue,
      issues_for code (S index) named ≫= λ issues,
      Ok (issue :: issues)
  end.

Definition referenced_rule_ids (incident : Incident.t) : gset string :=
  list_to_set (omap KpiViolation.rule_id (Incident.violated_kpis incident)).

(** [sorted(incident.rule_versions.items())] that no violation names. *)
Definition unreferenced_rules (incident : Incident.t) : result exc (list RuleResolutionIssue.t) :=
  issues_for UNREFERENCED_INCIDENT_RULE (length (Incident.violated_kpis incident))
    (map (λ kv, (bool_decide (kv.1 ∉ referenced_rule_ids incident), kv.1, Some kv.2))
       (py_sorted key_leb (map_to_list (Incident.rule_versions incident)))).

Definition unreferenced_hashes (incident : Incident.t) : result exc (list RuleResolutionIssue.t) :=
  match metadata incident "rule_content_hashes" with
  | Some (JObj items) =>
      issues_for UNREFERENCED_RULE_CONTENT_HASH
        (length (Incident.violated_kpis incident) + size (Incident.rule_versions incident))
        (map (λ k, (true, k, Incident.rule_versions incident !! k))
           (py_sorted String.leb
              (elements (list_to_set (C := gset string) (map fst items)
                         ∖ claimed_rule_ids incident))))
  | _ => Ok []
  end.

Definition resolution_status (incident : Incident.t) (rules : list RcaRule.t)
    (issues : list RuleResolutionIssue.t) : RuleResolutionStatus.t :=
  match issues with
  | _ :: _ =>
      match rules with
      | _ :: _ => RuleResolutionStatus.PARTIAL
      | [] =>
          if forallb (λ i, bool_decide (RuleResolutionIssue.code i = LEGACY_UNVERSIONED)) issues
          then RuleResolutionStatus.LEGACY_UNVERSIONED
          else RuleResolutionStatus.CONFLICT
      end
  | [] =>
      match Incident.violated_kpis incident with
      | _ :: _ => RuleResolutionStatus.EXACT
      | [] => RuleResolutionStatus.NO_VIOLATIONS
      end
  end.

(** [resolved[identity] for identity in sorted(resolved)]. *)
Definition resolved_rules (resolved : Resolved) : list RcaRule.t :=
  map snd (py_sorted (λ x y, identity_leb x.1 y.1) (map_to_list resolved)).
Definition issue_leb (x y : RuleResolutionIssue.t) : bool :=
  texts_leb (RuleResolutionIssue.sort_key x) (RuleResolutionIssue.sort_key y).

Definition resolve_rules_for_incident (incident : Incident.t) (available : list RcaRule.t) :
    result exc RuleResolution.t :=
  if negb (bool_decide (Incident.technology incident ∈ [Technology.LTE; Technology.FIVE_G_SA]))
  then Ok (RuleResolution.mk RuleResolutionStatus.NOT_APPLICABLE [] [])
  else
    let ix := index_rules incident available in
    judge_all incident ix 0 (Incident.violated_kpis incident) [] ∅ ≫= λ '(issues, resolved),
    unreferenced_rules incident ≫= λ more,
    unreferenced_hashes incident ≫= λ rest,
    let rules := resolved_rules resolved in
    let stable := py_sorted issue_leb (issues ++ more ++ rest) in
    Ok (RuleResolution.mk (resolution_status incident rules stable) rules stable).
End resolution.
