(* ===== verification/RuleStore.v ===== *)
(** * The rule directory (telco_local/rules.py, class JsonRuleRepository)

    Loading and validating the rule documents of a directory, the current rules
    and one exact version, and the resolution of an Incident against them.  The
    directory is given by what its files report; pydantic's coercion of a JSON
    object to the fields of [RcaRule] is the parameter [RuleDecoder]. *)

From Stdlib Require Import Ascii String.
From stdpp Require Import pretty.
From S2P Require Import Prelude PyStr Json Privacy Models Incident Errors Rules RuleResolution.
From S2P Require Import PyEq.

(** One path of [root.glob("*.json")].  [None] stands for an [OSError], and in
    [rf_text] also for an undecodable text or document; [rf_text] is the parsed
    document with the pairs of its objects in the order of the text. *)
Record rule_file := mk_rule_file {
  rf_name : string;
  rf_outside : option bool;
  rf_size : option N;
  rf_text : option json
}.
(** [None] when the root is not a directory. *)
Definition Directory : Type := option (list rule_file).

Class RuleDecoder := { coerce_rule : list (string * json) → option RcaRule.t }.

(** ** Strict JSON *)

(** [_strict_json_object(pairs)]: [None] is [_DuplicateJsonKeyError]. *)
Definition strict_json_object (pairs : list (string * json)) : option (list (string * json)) :=
  foldl (λ acc kv,
           acc ≫= λ d, if bool_decide (kv.1 ∈ map fst d) then None else Some (dict_set kv.1 kv.2 d))
        (Some []) pairs.

(** [json.loads(text, object_pairs_hook=_strict_json_object)]. *)
Fixpoint strict_json (raw : json) : option json :=
  match raw with
  | JArr items => JArr <$> mapM strict_json items
  | JObj pairs =>
      mapM (λ kv, (λ v, (kv.1, v)) <$> strict_json kv.2) pairs ≫= λ pairs,
      JObj <$> strict_json_object pairs
  | _ => Some raw
  end.

Section store.
Context `{Runtime, RuleDecoder}.

(** [RcaRule.model_validate(raw)]; [None] is [ValidationError]. *)
Definition rule_model_validate (raw : list (string * json)) : option RcaRule.t :=
  match coerce_rule raw with
  | Some rule => if is_ok (RcaRule.check rule) then Some rule else None
  | None => None
  end.

(** ** [load_all_versions] *)

Definition invalid_file (index : nat) : exc :=
  RuleLoadError ("rule file #" +:+ pretty (S index) +:+ " is invalid").

(** The body of the loop over the files. *)
Definition load_file (index : nat) (total_bytes : Z) (path : rule_file) :
    result exc (Z * RcaRule.t) :=
  of_option (rf_outside path) (invalid_file index) ≫= λ outside : bool,
  throw_if outside (RuleLoadError "rule files must remain inside the rule directory") ≫= λ _,
  of_option (rf_size path) (invalid_file index) ≫= λ size : N,
  let file_bytes := Z.of_N size in
  throw_if (MAX_RULE_FILE_BYTES <? file_bytes)
    (RuleLoadError "rule file exceeds the size limit") ≫= λ _,
  let total_bytes := total_bytes + file_bytes in
  throw_if (MAX_RULE_TOTAL_BYTES <? total_bytes)
    (RuleLoadError "rule total byte count exceeds the limit") ≫= λ _,
  of_option (rf_text path ≫= strict_json) (invalid_file index) ≫= λ raw : json,
  match raw with
  | JObj items =>
      of_option (rule_model_validate items) (invalid_file index) ≫= λ rule : RcaRule.t,
      throw_if (negb (model_safe (RcaRule.to_json rule))) (invalid_file index) ≫= λ _,
      Ok (total_bytes, rule)
  | _ => fail (RuleLoadError "each rule file must contain one JSON object")
  end.

Fixpoint load_files (index : nat) (total_bytes : Z) (paths : list rule_file) :
    result exc (list RcaRule.t) :=
  match paths with
  | [] => Ok []
  | path :: paths =>
      load_file index total_bytes path ≫= λ '(total_bytes, rule),
      load_files (S index) total_bytes paths ≫= λ loaded,
      Ok (rule :: loaded)
  end.

(** [repr] of a text with nothing to escape, as identifiers and versions are. *)
Definition plain_repr (s : string) : string := "'" +:+ s +:+ "'".

(** The loop over the loaded rules: their identities, and the rules that have a
    current version. *)
Fixpoint check_identities (identities : gset (string * string)) (current_versions : gset string)
    (loaded : list RcaRule.t) : result exc unit :=
  match loaded with
  | [] => Ok tt
  | rule :: loaded =>
      let identity := RcaRule.identity rule in
      throw_if (bool_decide (identity ∈ identities))
        (RuleLoadError ("duplicate rule identity " +:+ plain_repr (RcaRule.rule_id rule)
           +:+ " version " +:+ plain_repr (RcaRule.version rule))) ≫= λ _,
      let identities := {[identity]} ∪ identities in
      if negb (RcaRule.is_current rule)
      then check_identities identities current_versions loaded
      else
        throw_if (bool_decide (RcaRule.rule_id rule ∈ current_versions))
          (RuleLoadError ("multiple current versions for rule "
             +:+ plain_repr (RcaRule.rule_id rule))) ≫= λ _,
        check_identities identities ({[RcaRule.rule_id rule]} ∪ current_versions) loaded
  end.

Definition name_leb (x y : rule_file) : bool := String.leb (rf_name x) (rf_name y).
Definition rule_leb (x y : RcaRule.t) : bool :=
  identity_leb (RcaRule.identity x) (RcaRule.identity y).

Definition load_all_versions (root : Directory) : result exc (list RcaRule.t) :=
  match root with
  | None => fail (RuleLoadError "rule directory does not exist")
  | Some paths =>
      throw_if (Nat.ltb MAX_RULE_FILES (length paths))
        (RuleLoadError "rule file count exceeds the limit") ≫= λ _,
      load_files 0 0 (py_sorted name_leb paths) ≫= λ loaded,
      check_identities ∅ ∅ loaded ≫= λ _,
      Ok (py_sorted rule_leb loaded)
  end.

(** [load_all]. *)
Definition load_all (root : Directory) : result exc (list RcaRule.t) :=
  load_all_versions root ≫= λ rules, Ok (List.filter RcaRule.is_current rules).

(** [get_version(rule_id, version)]. *)
Definition get_version (root : Directory) (rule_id version : string) :
    result exc (option RcaRule.t) :=
  load_all_versions root ≫= λ rules,
  Ok (next_such (λ r, str_eqb (RcaRule.rule_id r) rule_id && str_eqb (RcaRule.version r) version)
        rules).

(** ** The P1 [RuleRepository] *)

Definition resolve_typed (root : Directory) (incident : Incident.t) :
    result exc RuleResolution.t :=
  load_all_versions root ≫= λ rules, resolve_rules_for_incident incident rules.
Definition match_typed (root : Directory) (incident : Incident.t) :
    result exc (list RcaRule.t) :=
  resolve_typed root incident ≫= λ resolution, Ok (RuleResolution.rules resolution).
Definition match_json (root : Directory) (incident : Incident.t) : result exc (list json) :=
  match_typed root incident ≫= λ rules, Ok (map RcaRule.to_json rules).
End store.
