(* ===== verification/RuleFacts.v ===== *)
(** * Facts about rules

    Comparison of numbers by their value, equality of rules, the index of the
    rules by identity, and sorting by a key. *)

From Stdlib Require Import Ascii String.
From S2P Require Import Prelude PyStr Json Models Incident Errors Rules RuleResolution RuleStore.
From S2P Require Import PyEq.

(** ** Sorting by a key *)

Section by_key.
Context {A K : Type} (leb : K → K → bool) (key : A → K).
Let key_le (x y : A) : bool := leb (key x) (key y).

Lemma map_py_sorted l : map key (py_sorted key_le l) = py_sorted leb (map key l).
Proof.
  assert (∀ x l, map key (insert_sorted key_le x l) = insert_sorted leb (key x) (map key l)) as Hi.
  { intros x m. induction m as [|y m IH]; cbn; [done|].
    unfold key_le at 1. destruct (leb (key x) (key y)); cbn; [done|]. by rewrite IH. }
  induction l as [|x l IH]; cbn; [done|]. by rewrite Hi, IH.
Qed.

Lemma map_key_inj l1 l2 :
  (∀ x y, x ∈ l1 → y ∈ l2 → key x = key y → x = y) → map key l1 = map key l2 → l1 = l2.
Proof.
  revert l2. induction l1 as [|x l1 IH]; intros [|y l2] Hinj; [done..|].
  cbn. intros [= Hk Hm]. f_equal.
  - apply Hinj; [left..|done].
  - apply IH; [|done]. intros; apply Hinj; [by right..|done].
Qed.

Lemma NoDup_key l x y : NoDup (map key l) → x ∈ l → y ∈ l → key x = key y → x = y.
Proof.
  intros Hnd [i Hi]%list_elem_of_lookup [j Hj]%list_elem_of_lookup Hk.
  assert (map key l !! i = Some (key x)) as Hi' by (by rewrite list_lookup_fmap, Hi).
  assert (map key l !! j = Some (key y)) as Hj' by (by rewrite list_lookup_fmap, Hj).
  rewrite <- Hk in Hj'. assert (i = j) as -> by (by eapply NoDup_lookup). congruence.
Qed.

Hypothesis leb_total : ∀ x y, leb x y = true ∨ leb y x = true.
Hypothesis leb_trans : ∀ x y z, leb x y = true → leb y z = true → leb x z = true.
Hypothesis leb_antisym : ∀ x y, leb x y = true → leb y x = true → x = y.

(** Sorting by a key that tells the items apart forgets the order of the input. *)
Lemma py_sorted_key_perm l1 l2 :
  NoDup (map key l1) → l1 ≡ₚ l2 → py_sorted key_le l1 = py_sorted key_le l2.
Proof.
  intros Hnd Hp. apply map_key_inj.
  - intros x y. rewrite !elem_of_py_sorted, <- Hp. by apply NoDup_key.
  - rewrite !map_py_sorted. apply py_sorted_perm_eq; [done..|]. by rewrite Hp.
Qed.

(** The sorted keys determine the items. *)
Lemma py_sorted_key_unique l1 l2 :
  (∀ x y, x ∈ l1 → y ∈ l2 → key x = key y → x = y) →
  map key l1 ≡ₚ map key l2 → py_sorted key_le l1 = py_sorted key_le l2.
Proof.
  intros Hinj Hp. apply map_key_inj.
  - intros x y. rewrite !elem_of_py_sorted. apply Hinj.
  - rewrite !map_py_sorted. by apply py_sorted_perm_eq.
Qed.
End by_key.

Lemma str_eqb_true x y : str_eqb x y = true ↔ x = y.
Proof. apply bool_decide_eq_true. Qed.
Lemma str_eqb_false x y : str_eqb x y = false ↔ x ≠ y.
Proof. apply bool_decide_eq_false. Qed.

Lemma identity_leb_total x y : identity_leb x y = true ∨ identity_leb y x = true.
Proof.
  destruct x as [a b], y as [c d]. unfold identity_leb, str_eqb. cbn.
  rewrite (bool_decide_ext (c = a) (a = c)) by done.
  case_bool_decide; apply StringLeb_total.
Qed.
Lemma identity_leb_antisym x y : identity_leb x y = true → identity_leb y x = true → x = y.
Proof.
  destruct x as [a b], y as [c d]. unfold identity_leb, str_eqb. cbn.
  rewrite (bool_decide_ext (c = a) (a = c)) by done.
  case_bool_decide; intros H1 H2.
  - subst. f_equal. by apply StringLeb_antisym.
  - by destruct (StringLeb_antisym a c H1 H2).
Qed.
Lemma identity_leb_trans x y z :
  identity_leb x y = true → identity_leb y z = true → identity_leb x z = true.
Proof.
  destruct x as [a b], y as [c d], z as [e f]. unfold identity_leb, str_eqb. cbn.
  repeat case_bool_decide; subst; try done; intros Hab Hbc; try by eapply StringLeb_trans.
  by destruct (StringLeb_antisym _ _ Hab Hbc).
Qed.

(** ** Equality of rules is an equivalence *)

#[export] Instance detection_equiv : Equiv_eqb RuleDetection.eqb.
Proof. unfold RuleDetection.eqb. conj_equiv. Qed.
#[export] Instance predicate_equiv : Equiv_eqb FactPredicate.eqb.
Proof. unfold FactPredicate.eqb. conj_equiv. Qed.
#[export] Instance group_equiv : Equiv_eqb PredicateGroup.eqb.
Proof. unfold PredicateGroup.eqb. conj_equiv. Qed.
#[export] Instance analysis_equiv : Equiv_eqb RuleAnalysis.eqb.
Proof. unfold RuleAnalysis.eqb. conj_equiv. Qed.
#[export] Instance case_equiv : Equiv_eqb SeverityCase.eqb.
Proof. unfold SeverityCase.eqb. conj_equiv. Qed.
#[export] Instance severity_equiv : Equiv_eqb RuleSeverity.eqb.
Proof. unfold RuleSeverity.eqb. conj_equiv. Qed.
#[export] Instance rule_equiv : Equiv_eqb RcaRule.eqb.
Proof. unfold RcaRule.eqb. conj_equiv. Qed.
