(* ===== verification/RuleProps.v ===== *)
(** * What resolution promises

    The declarative meaning of a trusted violation, the theorem that
    [resolve_rules_for_incident] returns exactly the trusted rules, when it
    returns at all, and what a recorded content hash pins. *)

From Stdlib Require Import Ascii String.
From stdpp Require Import pretty.
From S2P Require Import Prelude PyStr Json Reference Models Incident Errors.
From S2P Require Import PyEq.
From S2P Require Import Rules.
From S2P Require Import RuleResolution.
From S2P Require Import RuleStore.
From S2P Require Import RuleFacts.
From S2P Require Import Binding.
Import RuleResolutionIssueCode.

(** [observed <comparator> threshold]. *)
Definition breaches (observed : pyfloat) (c : KpiComparator.t) (threshold : pyfloat) : Prop :=
  match c with
  | KpiComparator.LESS_THAN => float_leb threshold observed = false
  | KpiComparator.LESS_THAN_OR_EQUAL => float_leb observed threshold = true
  | KpiComparator.GREATER_THAN => float_leb observed threshold = false
  | KpiComparator.GREATER_THAN_OR_EQUAL => float_leb threshold observed = true
  | KpiComparator.EQUAL => float_eqb observed threshold = true
  | KpiComparator.NOT_EQUAL => float_eqb observed threshold = false
  end.

Lemma compare_floats x c y :
  ∃ b, compare_values (ScFloat x) c (ScFloat y) = Ok b ∧ (b = true ↔ breaches x c y).
Proof.
  destruct c; cbn; eexists; (split; [reflexivity|]); rewrite ?negb_true_iff; done.
Qed.

Section resolution.
Context `{R : Runtime, L : !RuntimeLaws R}.
Implicit Types (i : Incident.t) (v : KpiViolation.t) (rule : RcaRule.t).

(** ** The rules of one identity *)

Definition versions i (available : list RcaRule.t) (identity : string * string) : list RcaRule.t :=
  filter (λ r, RcaRule.identity r = identity) (filter (λ r, applicable i r) available).
Definition unanimous (rules : list RcaRule.t) : Prop :=
  ∀ r s, r ∈ rules → s ∈ rules → RcaRule.eqb r s = true.

Lemma versions_snoc i available r identity :
  versions i (available ++ [r]) identity =
  versions i available identity ++
    (if decide (Is_true (applicable i r) ∧ RcaRule.identity r = identity) then [r] else []).
Proof.
  unfold versions. rewrite !filter_app. f_equal.
  rewrite (filter_cons _ r). destruct (decide (Is_true (applicable i r))) as [Ha|Ha].
  - rewrite filter_cons, !filter_nil. repeat case_decide; naive_solver.
  - repeat case_decide; naive_solver.
Qed.

Lemma index_rules_snoc i available r :
  index_rules i (available ++ [r]) =
  if decide (Is_true (applicable i r)) then index_rule (index_rules i available) r
  else index_rules i available.
Proof.
  unfold index_rules. rewrite filter_app, foldl_app, (filter_cons _ r), filter_nil.
  by case_decide.
Qed.

Lemma unanimous_snoc rules prev r :
  unanimous rules → last rules = Some prev → RcaRule.eqb prev r = true →
  unanimous (rules ++ [r]).
Proof.
  intros Hu Hl Hr x y. apply last_Some_elem_of in Hl.
  rewrite !elem_of_app, !list_elem_of_singleton.
  assert (∀ z, z ∈ rules → RcaRule.eqb z r = true) as Hz.
  { intros z Hz. apply (eqb_trans z prev r); [by apply Hu|done]. }
  intros [Hx| ->] [Hy| ->]; [by apply Hu|by apply Hz| |apply eqb_refl].
  by apply eqb_sym, Hz.
Qed.

(** The index holds the last of the equal rules of an identity, and knows the
    identities whose rules differ. *)
Lemma index_rules_spec i available identity :
  let rules := versions i available identity in
  (identity ∉ (index_rules i available).2 →
     unanimous rules ∧ (index_rules i available).1 !! identity = last rules) ∧
  (identity ∈ (index_rules i available).2 → ¬ unanimous rules).
Proof.
  induction available as [|r available IH] using rev_ind; cbn zeta.
  { unfold versions, index_rules. rewrite !filter_nil. cbn. split; [|set_solver].
    intros _. split; [by intros ?? ?%not_elem_of_nil|done]. }
  rewrite versions_snoc, index_rules_snoc. cbn zeta in IH. destruct IH as [IH1 IH2].
  destruct (decide (Is_true (applicable i r))) as [Ha|Ha];
    [|rewrite decide_False by (by intros []); by rewrite app_nil_r].
  set (ix := index_rules i available) in *. unfold index_rule.
  destruct (decide (RcaRule.identity r = identity)) as [E|E].
  2: { rewrite decide_False by (by intros []). rewrite app_nil_r.
       destruct (ix.1 !! RcaRule.identity r) as [p|]; [destruct (RcaRule.eqb p r)|]; cbn;
         rewrite ?lookup_insert_ne by done; try done.
       rewrite not_elem_of_union, elem_of_union, elem_of_singleton. naive_solver. }
  rewrite decide_True by done. rewrite E.
  destruct (decide (identity ∈ ix.2)) as [Hd|Hd].
  - assert (¬ unanimous (versions i available identity ++ [r])) as Hn.
    { intros Hu. apply (IH2 Hd). intros x y Hx Hy. apply Hu; set_solver. }
    destruct (ix.1 !! identity) as [p|]; [destruct (RcaRule.eqb p r)|]; cbn;
      split; try done; set_solver.
  - destruct (IH1 Hd) as [Hu Hl]. rewrite Hl.
    destruct (last (versions i available identity)) as [p|] eqn:Ep.
    + destruct (RcaRule.eqb p r) eqn:Er; cbn.
      * split; [|done]. intros _. rewrite lookup_insert_eq, last_snoc.
        split; [by eapply unanimous_snoc|done].
      * split; [set_solver|]. intros _ Hu'. apply last_Some_elem_of in Ep.
        rewrite Hu' in Er; [done|set_solver..].
    + apply last_None in Ep as ->. cbn. split; [|done]. intros _.
      rewrite lookup_insert_eq. split; [|done].
      intros x y ->%list_elem_of_singleton ->%list_elem_of_singleton. apply eqb_refl.
Qed.

(** ** Trust *)

(** The digest [d] is recorded for the rule [id]: in [rule_content_hashes], or
    as the one legacy digest of an Incident that claims a single rule. *)
Definition hash_recorded i (id d : string) : Prop :=
  (metadata i "rule_content_sha256" = None ∧
   ∃ items, metadata i "rule_content_hashes" = Some (JObj items) ∧
     items_get id items = Some (JStr d)) ∨
  (metadata i "rule_content_hashes" = None ∧
   metadata i "rule_content_sha256" = Some (JStr d) ∧
   claimed_rule_ids i = {[id]} ∧ id ≠ BUBBLERAN_REPLAY_RULE_ID).

(** The recorded digest is the rule's, or none had to be recorded. *)
Definition content_trusted i (id : string) rule : Prop :=
  (∃ d, hash_recorded i id d ∧ lower d = rule_content_sha256 rule) ∨
  (metadata i "rule_content_sha256" = None ∧ metadata i "rule_content_hashes" = None ∧
   metadata i "detector_algorithm" ≠ Some (JStr "deterministic-threshold-episodes-v3") ∧
   id ≠ BUBBLERAN_REPLAY_RULE_ID).

(** The violation names one of the available rules, the Incident records the
    same version, the available rules of that identity agree, the violation
    has the rule's KPI, unit, threshold and comparator and breaches it. *)
Definition trusted i (available : list RcaRule.t) v rule : Prop :=
  let id := RcaRule.rule_id rule in
  let d := RcaRule.detection rule in
  KpiViolation.rule_id v = Some id ∧
  KpiViolation.rule_version v = Some (RcaRule.version rule) ∧
  Incident.rule_versions i !! id = Some (RcaRule.version rule) ∧
  (id = BUBBLERAN_REPLAY_RULE_ID →
   metadata i "detector_algorithm" = Some (JStr BUBBLERAN_REPLAY_DETECTOR_ALGORITHM)) ∧
  unanimous (versions i available (RcaRule.identity rule)) ∧
  last (versions i available (RcaRule.identity rule)) = Some rule ∧
  KpiViolation.kpi_name v = RuleDetection.kpi_name d ∧
  KpiViolation.unit_ v = RuleDetection.unit_ d ∧
  float_eqb (KpiViolation.threshold_value v) (RuleDetection.threshold d) = true ∧
  KpiViolation.comparator v = RuleDetection.comparator d ∧
  content_trusted i id rule ∧
  breaches (KpiViolation.observed_value v) (RuleDetection.comparator d)
    (RuleDetection.threshold d).

Lemma not_null_Some o x : not_null o = Some x → x ≠ JNull.
Proof. destruct o as [[]|]; cbn; intros [=]; by subst. Qed.

Lemma rule_sha256_hex64 rule : is_hex64 (rule_content_sha256 rule) = true.
Proof. apply sha256_hex64. Qed.

Lemma digest_issue_spec d rule :
  (if negb (is_hex64 (lower d)) then Some RULE_CONTENT_HASH_INVALID
   else if negb (str_eqb (rule_content_sha256 rule) (lower d)) then Some RULE_CONTENT_MISMATCH
   else None) = None ↔ lower d = rule_content_sha256 rule.
Proof.
  pose proof (rule_sha256_hex64 rule) as Hhex. split.
  - destruct (is_hex64 (lower d)); [cbn|done].
    destruct (str_eqb _ _) eqn:E; [|done]. by apply str_eqb_true in E.
  - intros ->. rewrite Hhex. cbn. by rewrite eqb_refl.
Qed.

(** The two ways a digest is recorded, and the cases without one. *)
Lemma content_issue_hashes i id rule items :
  metadata i "rule_content_sha256" = None →
  metadata i "rule_content_hashes" = Some (JObj items) →
  content_issue i id rule = None ↔
  ∃ d, items_get id items = Some (JStr d) ∧ lower d = rule_content_sha256 rule.
Proof.
  intros El Er. unfold content_issue, content_hashes. rewrite El, Er. cbn.
  rewrite andb_false_r, orb_true_r.
  destruct (items_get id items) as [[| | | |d| |]|]; cbn; rewrite ?digest_issue_spec;
    split; naive_solver.
Qed.

Lemma content_issue_legacy i id rule legacy :
  id ∈ claimed_rule_ids i →
  metadata i "rule_content_hashes" = None →
  metadata i "rule_content_sha256" = Some legacy →
  content_issue i id rule = None ↔
  ∃ d, legacy = JStr d ∧ claimed_rule_ids i = {[id]} ∧ id ≠ BUBBLERAN_REPLAY_RULE_ID ∧
    lower d = rule_content_sha256 rule.
Proof.
  intros Hid Er El. unfold content_issue, content_hashes. rewrite El, Er. cbn.
  rewrite andb_true_r.
  destruct (str_eqb id BUBBLERAN_REPLAY_RULE_ID) eqn:Eb; cbn.
  { rewrite str_eqb_true in Eb. split; [by repeat case_match|naive_solver]. }
  rewrite str_eqb_false in Eb.
  destruct (elements (claimed_rule_ids i)) as [|rid [|]] eqn:Ee.
  - apply elements_empty_inv in Ee. set_solver.
  - assert (claimed_rule_ids i = {[rid]}) as Hc.
    { apply set_eq. intros x. rewrite <- elem_of_elements, Ee. set_solver. }
    assert (rid = id) as -> by set_solver. cbn. rewrite eqb_refl.
    assert (legacy ≠ JNull) as Hn by (by eapply not_null_Some).
    destruct legacy as [| | | |d| |]; cbn; rewrite ?digest_issue_spec; split; naive_solver.
  - split; [done|]. intros (d & _ & Hc & _). by rewrite Hc, elements_singleton in Ee.
Qed.

Lemma content_issue_none i id rule :
  metadata i "rule_content_hashes" = None → metadata i "rule_content_sha256" = None →
  content_issue i id rule = None ↔
  metadata i "detector_algorithm" ≠ Some (JStr "deterministic-threshold-episodes-v3") ∧
  id ≠ BUBBLERAN_REPLAY_RULE_ID.
Proof.
  intros Er El. unfold content_issue, content_hashes, isSome_str, str_eqb. rewrite El, Er. cbn.
  rewrite orb_false_r, andb_false_r. repeat case_bool_decide; cbn; naive_solver.
Qed.

Lemma content_issue_spec i id rule :
  id ∈ claimed_rule_ids i → content_issue i id rule = None ↔ content_trusted i id rule.
Proof.
  intros Hid. unfold content_trusted, hash_recorded.
  destruct (metadata i "rule_content_hashes") as [raw|] eqn:Er;
    destruct (metadata i "rule_content_sha256") as [legacy|] eqn:El.
  - unfold content_issue, content_hashes. rewrite El, Er.
    destruct (str_eqb id _); cbn; split; naive_solver.
  - destruct raw as [| | | | | |items].
    7: { rewrite (content_issue_hashes i id rule items) by done. naive_solver. }
    all: unfold content_issue, content_hashes; rewrite El, Er; rewrite andb_false_r;
      split; naive_solver.
  - rewrite (content_issue_legacy i id rule legacy) by done. naive_solver.
  - rewrite content_issue_none by done. naive_solver.
Qed.

(** ** Verdicts *)

Lemma compare_detection_spec rule v :
  compare_detection rule v = None ↔
  KpiViolation.kpi_name v = RuleDetection.kpi_name (RcaRule.detection rule) ∧
  KpiViolation.unit_ v = RuleDetection.unit_ (RcaRule.detection rule) ∧
  float_eqb (KpiViolation.threshold_value v) (RuleDetection.threshold (RcaRule.detection rule))
    = true ∧
  KpiViolation.comparator v = RuleDetection.comparator (RcaRule.detection rule).
Proof.
  unfold compare_detection, str_eqb. repeat case_bool_decide; cbn;
    destruct (float_eqb _ _); cbn; naive_solver.
Qed.

(** [detection_matches] after the other tests only looks at the observation. *)
Lemma detection_matches_spec rule v :
  KpiViolation.rule_id v = Some (RcaRule.rule_id rule) →
  KpiViolation.rule_version v = Some (RcaRule.version rule) →
  compare_detection rule v = None →
  ∃ b, detection_matches rule v = Ok b ∧
    (b = true ↔ breaches (KpiViolation.observed_value v)
       (RuleDetection.comparator (RcaRule.detection rule))
       (RuleDetection.threshold (RcaRule.detection rule))).
Proof.
  intros Hi Hv (Hk & Hu & Ht & Hc)%compare_detection_spec. unfold detection_matches.
  rewrite Hi, Hv, Hk, Hu, Ht, Hc, eqb_refl, !bool_decide_eq_true_2 by done. cbn.
  apply compare_floats.
Qed.

Lemma claimed_elem i v id ver :
  v ∈ Incident.violated_kpis i → KpiViolation.rule_id v = Some id →
  KpiViolation.rule_version v = Some ver → id ∈ claimed_rule_ids i.
Proof.
  intros Hv Hi Hr. unfold claimed_rule_ids. apply elem_of_list_to_set, list_elem_of_omap.
  exists v. by rewrite Hr.
Qed.

Lemma versions_elem i available identity r :
  r ∈ versions i available identity ↔
  RcaRule.identity r = identity ∧ applicable i r = true ∧ r ∈ available.
Proof. unfold versions. rewrite !list_elem_of_filter, Is_true_true. done. Qed.

Lemma judge_spec i available v :
  v ∈ Incident.violated_kpis i →
  ∃ judged, judge i (index_rules i available) v = Ok judged ∧
    ∀ rule, judged = Trusted rule ↔ trusted i available v rule.
Proof.
  intros Hv. unfold judge, trusted. set (ix := index_rules i available).
  destruct (KpiViolation.rule_id v) as [id|] eqn:Hid;
    [|destruct (KpiViolation.rule_version v); eexists; split; naive_solver].
  destruct (KpiViolation.rule_version v) as [ver|] eqn:Hver;
    [|eexists; split; naive_solver].
  unfold judge_named.
  destruct (Incident.rule_versions i !! id) as [iver|] eqn:Hiver;
    [|eexists; split; [done|]; naive_solver congruence].
  destruct (str_eqb iver ver) eqn:Ev; rewrite ?str_eqb_true, ?str_eqb_false in Ev;
    [subst iver|eexists; split; [done|]; naive_solver congruence].
  cbn [negb]. destruct (_ && _) eqn:Ereplay.
  { apply andb_true_iff in Ereplay as [E1 E2]. rewrite str_eqb_true in E1.
    apply negb_true_iff, bool_decide_eq_false in E2. eexists. split; [done|].
    intros rule. split; [done|]. naive_solver. }
  assert (id = BUBBLERAN_REPLAY_RULE_ID →
    metadata i "detector_algorithm" = Some (JStr BUBBLERAN_REPLAY_DETECTOR_ALGORITHM)) as Hreplay.
  { intros ->. rewrite eqb_refl in Ereplay. cbn in Ereplay.
    by apply negb_false_iff, bool_decide_eq_true in Ereplay. }
  clear Ereplay.
  destruct (index_rules_spec i available (id, ver)) as [Hok Hdup]. fold ix in Hok, Hdup.
  case_bool_decide as Hd.
  { eexists. split; [done|]. intros rule. split; [done|].
    intros ([= E1] & [= E2] & _ & _ & Hu & _). unfold RcaRule.identity in Hu.
    rewrite <- E1, <- E2 in Hu. by destruct (Hdup Hd). }
  destruct (Hok Hd) as [Hu Hl]. rewrite Hl.
  destruct (last (versions i available (id, ver))) as [rule|] eqn:El.
  2: { eexists. split; [done|]. intros rule. split; [done|].
       intros ([= E1] & [= E2] & _ & _ & _ & Hl' & _). unfold RcaRule.identity in Hl'.
       rewrite <- E1, <- E2 in Hl'. congruence. }
  assert (RcaRule.identity rule = (id, ver)) as [= Er1 Er2].
  { apply last_Some_elem_of, versions_elem in El. naive_solver. }
  assert (∀ rule', Some id = Some (RcaRule.rule_id rule') →
    Some ver = Some (RcaRule.version rule') →
    last (versions i available (RcaRule.identity rule')) = Some rule' → rule' = rule) as Huniq.
  { intros rule' [= E1] [= E2]. unfold RcaRule.identity. rewrite <- E1, <- E2. congruence. }
  assert (id ∈ claimed_rule_ids i) as Hclaim by (by eapply claimed_elem).
  destruct (compare_detection rule v) as [code|] eqn:Ec.
  { eexists. split; [done|]. intros rule'. split; [done|].
    intros (E1 & E2 & _ & _ & _ & E3 & H1 & H2 & H3 & H4 & _).
    rewrite (Huniq rule' E1 E2 E3) in *.
    assert (compare_detection rule v = None) by (by apply compare_detection_spec). congruence. }
  pose proof (content_issue_spec i id rule Hclaim) as Hci.
  destruct (content_issue i id rule) as [code|].
  { eexists. split; [done|]. intros rule'. split; [done|].
    intros (E1 & E2 & _ & _ & _ & E3 & _ & _ & _ & _ & Hc & _).
    rewrite (Huniq rule' E1 E2 E3), Er1 in Hc. by apply Hci in Hc. }
  destruct (detection_matches_spec rule v) as (b & Hb & Hspec); [by subst..|done|].
  rewrite Hb. cbn. eexists. split; [done|]. intros rule'. split.
  - destruct b; [|done]. intros [= <-].
    apply compare_detection_spec in Ec as (?&?&?&?). destruct Hci as [Hci _].
    unfold RcaRule.identity. rewrite Er1, Er2. split_and!; try done; [by auto|by apply Hspec].
  - intros (E1 & E2 & _ & _ & _ & E3 & _ & _ & _ & _ & _ & Hbr).
    rewrite (Huniq rule' E1 E2 E3) in *. apply Hspec in Hbr. by rewrite Hbr.
Qed.

(** ** The loop over the violations *)

Lemma resolved_insert i (available : list RcaRule.t) (resolved : gmap (string * string) RcaRule.t) rule :
  (∀ (id : string * string) r, resolved !! id = Some r → last (versions i available id) = Some r) →
  last (versions i available (RcaRule.identity rule)) = Some rule →
  ∀ (id : string * string) r, <[RcaRule.identity rule := rule]> resolved !! id = Some r →
    last (versions i available id) = Some r.
Proof. intros Hres Hl id r. rewrite lookup_insert_Some. intros [[<- <-]|[_ Hr]]; auto. Qed.

Lemma judge_all_rules i (available : list RcaRule.t) (n : nat) (vs : list KpiViolation.t) (issues issues' : list RuleResolutionIssue.t)
    (resolved resolved' : gmap (string * string) RcaRule.t) :
  (∀ v, v ∈ vs → v ∈ Incident.violated_kpis i) →
  (∀ (id : string * string) r, resolved !! id = Some r → last (versions i available id) = Some r) →
  judge_all i (index_rules i available) n vs issues resolved = Ok (issues', resolved') →
  ∀ id r, resolved' !! id = Some r ↔
    resolved !! id = Some r ∨
    ∃ v, v ∈ vs ∧ trusted i available v r ∧ RcaRule.identity r = id.
Proof.
  revert n issues resolved. induction vs as [|v vs IH]; intros n issues resolved Hvs Hres Hj id r.
  { cbn in Hj. injection Hj as <- <-. set_solver. }
  destruct (judge_spec i available v) as (judged & Hv & Htr); [by apply Hvs; left|].
  assert (∀ v, v ∈ vs → v ∈ Incident.violated_kpis i) as Hvs' by (intros; apply Hvs; by right).
  cbn [judge_all] in Hj. rewrite Hv in Hj. cbn in Hj. destruct judged as [rule|code].
  - assert (trusted i available v rule) as Ht by (by apply Htr).
    assert (last (versions i available (RcaRule.identity rule)) = Some rule) as Hl
      by apply Ht.
    rewrite (IH _ _ _ Hvs' (resolved_insert _ _ _ _ Hres Hl) Hj id r), lookup_insert_Some. split.
    + intros [[[<- <-]|[Hne Hr]]|(v' & ? & ? & ?)]; [right; exists v; set_solver|by left|].
      right. exists v'. set_solver.
    + intros [Hr|(v' & [->|Hin]%elem_of_cons & Ht' & <-)]; [|left; left|right; eauto].
      * destruct (decide (RcaRule.identity rule = id)) as [<-|?]; [|by left; right].
        left. left. split; [done|]. apply Hres in Hr. congruence.
      * by apply Htr in Ht' as [= ->].
  - apply bind_Ok in Hj as (issue & _ & Hj). rewrite (IH _ _ _ Hvs' Hres Hj id r). split.
    + intros [?|(v' & ? & ? & ?)]; [by left|]. right. exists v'. set_solver.
    + intros [?|(v' & [->|Hin]%elem_of_cons & Ht & <-)]; [by left| |right; eauto].
      by apply Htr in Ht.
Qed.

(** The issues of the loop: one for each violation that is not trusted, under
    its index. *)
Definition reports (issues : list RuleResolutionIssue.t) (index : nat) : Prop :=
  ∃ issue, issue ∈ issues ∧
    RuleResolutionIssue.violation_key issue = "violation-index-" +:+ pretty index.

Lemma violation_key_visible (n : nat) :
  string_forall visible_char ("violation-index-" +:+ pretty n) = true.
Proof.
  rewrite string_forall_app. apply andb_true_iff. split; [reflexivity|].
  apply (string_forall_impl is_digit); [|apply pretty_N_digit].
  intros c. unfold is_digit, visible_char. rewrite !andb_true_iff, !N.leb_le. lia.
Qed.

Lemma make_issue_key n code id ver issue :
  make_issue n code id ver = Ok issue →
  RuleResolutionIssue.violation_key issue = "violation-index-" +:+ pretty n.
Proof.
  unfold make_issue, RuleResolutionIssue.make. intros (_ & _ & [= <-])%bind_Ok.
  apply strip_visible, violation_key_visible.
Qed.

Lemma judge_all_issues i (available : list RcaRule.t) (n : nat) (vs : list KpiViolation.t) (issues issues' : list RuleResolutionIssue.t)
    (resolved resolved' : gmap (string * string) RcaRule.t) :
  (∀ v, v ∈ vs → v ∈ Incident.violated_kpis i) →
  judge_all i (index_rules i available) n vs issues resolved = Ok (issues', resolved') →
  ∃ new, issues' = issues ++ new ∧
  (∀ k v, vs !! k = Some v → (∃ r, trusted i available v r) ∨ reports new (n + k)) ∧
  (new = [] ↔ ∀ v, v ∈ vs → ∃ r, trusted i available v r).
Proof.
  revert n issues resolved. induction vs as [|v vs IH]; intros n issues resolved Hvs Hj.
  { cbn in Hj. injection Hj as <- <-. exists []. rewrite app_nil_r. set_solver. }
  destruct (judge_spec i available v) as (judged & Hv & Htr); [by apply Hvs; left|].
  cbn [judge_all] in Hj. rewrite Hv in Hj. cbn in Hj. destruct judged as [rule|code].
  - assert (trusted i available v rule) as Ht by (by apply Htr).
    apply IH in Hj as (new & -> & H2 & H3); [|by intros; apply Hvs; right].
    exists new. split_and!; [done| |].
    + intros [|k] w Hw; cbn in Hw; [left; naive_solver|].
      rewrite Nat.add_succ_r. by apply H2.
    + rewrite H3. set_solver.
  - apply bind_Ok in Hj as (issue & Hi & Hj).
    apply IH in Hj as (new & -> & H2 & H3); [|by intros; apply Hvs; right].
    exists (issue :: new). rewrite <- app_assoc. split_and!; [done| |].
    + intros [|k] w Hw; cbn in Hw.
      * right. exists issue. split; [left|]. rewrite Nat.add_0_r. by eapply make_issue_key.
      * rewrite Nat.add_succ_r. destruct (H2 k w Hw) as [Ht|(x & Hx & Hk)]; [by left|].
        right. exists x. split; [by right|done].
    + split; [done|]. intros Hall. destruct (Hall v) as [r Hr]; [left|]. by apply Htr in Hr.
Qed.

(** ** The references no violation makes *)

Lemma issues_for_nil code n named :
  issues_for code n named = Ok [] ↔ ∀ x, x ∈ named → x.1.1 = false.
Proof.
  revert n. induction named as [|[[[] id] ver] named IH]; intros n; cbn [issues_for].
  - split; [by intros _ ? ?%not_elem_of_nil|done].
  - split.
    + intros (? & _ & (? & _ & ?)%bind_Ok)%bind_Ok. done.
    + intros H. specialize (H (true, id, ver) ltac:(left)). done.
  - rewrite IH. split; [|set_solver]. intros H x [->|Hx]%elem_of_cons; [done|by apply H].
Qed.

Lemma unreferenced_rules_nil i :
  unreferenced_rules i = Ok [] ↔
  ∀ id ver, Incident.rule_versions i !! id = Some ver →
    ∃ v, v ∈ Incident.violated_kpis i ∧ KpiViolation.rule_id v = Some id.
Proof.
  unfold unreferenced_rules. rewrite issues_for_nil. split.
  - intros H id ver Hl.
    specialize (H (bool_decide (id ∉ referenced_rule_ids i), id, Some ver)).
    cbn in H. rewrite bool_decide_eq_false in H.
    assert (¬ (id ∉ referenced_rule_ids i)) as Hin.
    { apply H, list_elem_of_fmap. exists (id, ver). split; [done|].
      apply elem_of_py_sorted. by apply elem_of_map_to_list. }
    apply dec_stable in Hin. unfold referenced_rule_ids in Hin.
    apply elem_of_list_to_set, list_elem_of_omap in Hin as (v & ? & ?). by exists v.
  - intros H x ([id ver] & -> & Hx)%list_elem_of_fmap. cbn.
    rewrite elem_of_py_sorted, elem_of_map_to_list in Hx.
    apply bool_decide_eq_false. intros Hn. apply Hn.
    unfold referenced_rule_ids. apply elem_of_list_to_set, list_elem_of_omap.
    destruct (H id ver Hx) as (v & ? & ?). by exists v.
Qed.

(** Every rule with a recorded hash is named, with its version, by a violation. *)
Definition hashes_claimed i : Prop :=
  ∀ items id, metadata i "rule_content_hashes" = Some (JObj items) → id ∈ map fst items →
    id ∈ claimed_rule_ids i.

Lemma unreferenced_hashes_nil i : unreferenced_hashes i = Ok [] ↔ hashes_claimed i.
Proof.
  unfold unreferenced_hashes, hashes_claimed.
  destruct (metadata i "rule_content_hashes") as [[| | | | | |items]|]; try naive_solver.
  rewrite issues_for_nil. split.
  - intros H items' id [= <-] Hid. apply dec_stable. intros Hn.
    specialize (H (true, id, Incident.rule_versions i !! id)). cbn in H. discriminate H.
    apply list_elem_of_fmap. exists id. split; [done|].
    rewrite elem_of_py_sorted, elem_of_elements, elem_of_difference, elem_of_list_to_set. done.
  - intros H x (id & -> & Hx)%list_elem_of_fmap.
    rewrite elem_of_py_sorted, elem_of_elements, elem_of_difference, elem_of_list_to_set in Hx.
    destruct Hx as [Hx Hn]. destruct Hn. by apply (H items).
Qed.
(** ** The resolution *)

Lemma resolve_inv i available r :
  Incident.technology i ∈ [Technology.LTE; Technology.FIVE_G_SA] →
  resolve_rules_for_incident i available = Ok r →
  ∃ issues resolved more rest,
    judge_all i (index_rules i available) 0 (Incident.violated_kpis i) [] ∅ = Ok (issues, resolved) ∧
    unreferenced_rules i = Ok more ∧ unreferenced_hashes i = Ok rest ∧
    RuleResolution.rules r = resolved_rules resolved ∧
    RuleResolution.issues r = py_sorted issue_leb (issues ++ more ++ rest) ∧
    RuleResolution.status r =
      resolution_status i (RuleResolution.rules r) (RuleResolution.issues r).
Proof.
  intros Ht. unfold resolve_rules_for_incident. rewrite bool_decide_eq_true_2 by done.
  cbn [negb]. intros ([issues resolved] & Hj & (more & Hm & (rest & Hr & [= <-])%bind_Ok)%bind_Ok)%bind_Ok.
  exists issues, resolved, more, rest. by split_and!.
Qed.

Lemma resolved_spec i available issues resolved :
  judge_all i (index_rules i available) 0 (Incident.violated_kpis i) [] ∅ = Ok (issues, resolved) →
  ∀ id r, resolved !! id = Some r ↔
    ∃ v, v ∈ Incident.violated_kpis i ∧ trusted i available v r ∧ RcaRule.identity r = id.
Proof.
  intros Hj id r.
  rewrite (judge_all_rules i available 0 (Incident.violated_kpis i) [] issues ∅ resolved);
    [|done|by intros ?? ?%lookup_empty_Some|done].
  rewrite lookup_empty. naive_solver.
Qed.

Lemma map_snd_keyed (l : list ((string * string) * RcaRule.t)) :
  (∀ kv, kv ∈ l → RcaRule.identity kv.2 = kv.1) → map RcaRule.identity (map snd l) = map fst l.
Proof.
  intros Hl. rewrite map_map. induction l as [|kv l IH]; [done|]. cbn. f_equal.
  - apply Hl. left.
  - apply IH. intros kv' Hkv. apply Hl. by right.
Qed.

Lemma resolved_rules_spec (resolved : gmap (string * string) RcaRule.t) :
  (∀ id r, resolved !! id = Some r → RcaRule.identity r = id) →
  (∀ r, r ∈ resolved_rules resolved ↔ resolved !! RcaRule.identity r = Some r) ∧
  Sorted identity_leb (map RcaRule.identity (resolved_rules resolved)) ∧
  NoDup (map RcaRule.identity (resolved_rules resolved)).
Proof.
  intros Hid. unfold resolved_rules.
  rewrite map_snd_keyed.
  2: { intros [id r]. rewrite elem_of_py_sorted, elem_of_map_to_list. cbn. apply Hid. }
  split_and!.
  - intros r. rewrite list_elem_of_fmap. split.
    + intros ([id r'] & -> & Hr). rewrite elem_of_py_sorted, elem_of_map_to_list in Hr.
      cbn. by rewrite (Hid id).
    + intros Hr. exists (RcaRule.identity r, r). split; [done|].
      by rewrite elem_of_py_sorted, elem_of_map_to_list.
  - rewrite (map_py_sorted identity_leb fst). apply py_sorted_Sorted, identity_leb_total.
  - rewrite (map_py_sorted identity_leb fst), py_sorted_perm. apply NoDup_fst_map_to_list.
Qed.

Lemma exact_status i rules issues :
  resolution_status i rules issues = RuleResolutionStatus.EXACT ↔
  issues = [] ∧ Incident.violated_kpis i ≠ [].
Proof.
  unfold resolution_status. destruct issues; [|by repeat case_match; naive_solver].
  destruct (Incident.violated_kpis i); naive_solver.
Qed.

Lemma py_sorted_nil {A} (leb : A → A → bool) l : py_sorted leb l = [] ↔ l = [].
Proof.
  split; [|by intros ->]. intros H. apply Permutation_nil. by rewrite <- H, py_sorted_perm.
Qed.

Lemma trusted_identity i available v r id ver :
  trusted i available v r → KpiViolation.rule_id v = Some id →
  KpiViolation.rule_version v = Some ver → RcaRule.identity r = (id, ver).
Proof. unfold RcaRule.identity. intros (H1 & H2 & _). congruence. Qed.

Lemma resolution_facts i available r :
  Incident.technology i ∈ [Technology.LTE; Technology.FIVE_G_SA] →
  resolve_rules_for_incident i available = Ok r →
  (∀ rule, rule ∈ RuleResolution.rules r ↔
     ∃ v, v ∈ Incident.violated_kpis i ∧ trusted i available v rule) ∧
  Sorted identity_leb (map RcaRule.identity (RuleResolution.rules r)) ∧
  NoDup (map RcaRule.identity (RuleResolution.rules r)) ∧
  (∀ k v, Incident.violated_kpis i !! k = Some v →
     (∃ rule, trusted i available v rule) ∨ reports (RuleResolution.issues r) k) ∧
  (RuleResolution.status r = RuleResolutionStatus.EXACT ↔
     Incident.violated_kpis i ≠ [] ∧
     (∀ v, v ∈ Incident.violated_kpis i → ∃ rule, trusted i available v rule) ∧
     (∀ id ver, Incident.rule_versions i !! id = Some ver →
        ∃ v, v ∈ Incident.violated_kpis i ∧ KpiViolation.rule_id v = Some id) ∧
     hashes_claimed i).
Proof.
  intros Ht Hr. destruct (resolve_inv i available r Ht Hr)
    as (issues & resolved & more & rest & Hj & Hm & Hh & Hrules & Hissues & Hstatus).
  pose proof (resolved_spec i available issues resolved Hj) as Hres.
  destruct (resolved_rules_spec resolved) as (Hin & Hsorted & Hnd).
  { intros id rule (v & _ & _ & ?)%Hres. done. }
  destruct (judge_all_issues i available 0 _ [] _ _ _ (λ v H, H) Hj) as (new & -> & Hrep & Hnew).
  rewrite Hrules. split_and!; [|done|done| |].
  - intros rule. rewrite Hin, Hres. naive_solver.
  - intros k v Hk. destruct (Hrep k v Hk) as [?|(issue & Hi & Hkey)]; [by left|right].
    exists issue. split; [|done]. rewrite Hissues, elem_of_py_sorted. set_solver.
  - rewrite Hstatus, exact_status, Hissues, py_sorted_nil, app_nil_l.
    rewrite <- Hnew, <- unreferenced_rules_nil, <- unreferenced_hashes_nil, Hm, Hh.
    split.
    + intros [Hn ?]. apply app_eq_nil in Hn as [-> Hn]. apply app_eq_nil in Hn as [-> ->]. done.
    + intros (? & -> & [= ->] & [= ->]). done.
Qed.

(** C23. For an Incident of LTE or 5G SA, the rules a resolution returns are
    exactly the rules some violation of it is trusted with, in the order of their identities and without
    duplicates; a violation that is not trusted is reported under its index;
    and the status is [EXACT] if and only if there are violations, each is
    trusted, and every rule version and content hash the Incident records is
    claimed by one of them. *)
Theorem resolution_exact i available r :
  Incident.technology i ∈ [Technology.LTE; Technology.FIVE_G_SA] →
  resolve_rules_for_incident i available = Ok r →
  (∀ rule, rule ∈ RuleResolution.rules r ↔
     ∃ v, v ∈ Incident.violated_kpis i ∧ trusted i available v rule) ∧
  Sorted identity_leb (map RcaRule.identity (RuleResolution.rules r)) ∧
  NoDup (map RcaRule.identity (RuleResolution.rules r)) ∧
  (∀ k v, Incident.violated_kpis i !! k = Some v →
     (∃ rule, trusted i available v rule) ∨ reports (RuleResolution.issues r) k) ∧
  (RuleResolution.status r = RuleResolutionStatus.EXACT ↔
     Incident.violated_kpis i ≠ [] ∧
     (∀ v, v ∈ Incident.violated_kpis i → ∃ rule, trusted i available v rule) ∧
     (∀ id ver, Incident.rule_versions i !! id = Some ver →
        ∃ v, v ∈ Incident.violated_kpis i ∧ KpiViolation.rule_id v = Some id) ∧
     hashes_claimed i).
Proof. apply resolution_facts. Qed.

(** ** When resolution returns *)

Lemma chars_length s : (length (chars s) ≤ String.length s)%nat.
Proof.
  induction s as [|c s IH]; cbn; [done|].
  destruct (chars s) as [|h t]; cbn in *; [lia|]. destruct (starts_continuation h); cbn; lia.
Qed.

Lemma chars_cons c s : chars (String c s) ≠ [].
Proof. cbn. destruct (chars s) as [|h t]; [done|]. by destruct (starts_continuation h). Qed.

(** The number of references of an Incident is far below 10^18. *)
Definition few (n : nat) : Prop := (N.of_nat n < 10 ^ N.of_nat 18)%N.

Lemma violation_key_sized n : few n → sized 1 256 ("violation-index-" +:+ pretty n) = true.
Proof.
  intros Hn. unfold sized, py_len. set (key := "violation-index-" +:+ pretty n).
  assert (String.length key ≤ 16 + 18)%nat as Hlen.
  { unfold key. rewrite string_length_app. cbn [String.length]. apply le_n_S.
    repeat apply le_n_S. unfold pretty, pretty_nat, pretty, pretty_N.
    case_decide; [cbn; lia|]. etransitivity; [by apply (pretty_N_go_length 18)|cbn; lia]. }
  pose proof (chars_length key).
  assert (length (chars key) ≠ 0)%nat as H0.
  { intros ?%length_zero_iff_nil. by eapply chars_cons. }
  rewrite andb_true_iff, !Z.leb_le. lia.
Qed.

Definition short (limit : Z) (o : option string) : Prop :=
  opt_check (sized 0 limit) (strip <$> o) = true.

Lemma make_issue_total n code id ver :
  few n → short 128 id → short 64 ver → ∃ issue, make_issue n code id ver = Ok issue.
Proof.
  intros Hn Hi Hv. unfold make_issue, RuleResolutionIssue.make, RuleResolutionIssue.check.
  cbn [RuleResolutionIssue.violation_key RuleResolutionIssue.rule_id RuleResolutionIssue.rule_version].
  rewrite strip_visible by apply violation_key_visible.
  rewrite violation_key_sized, Hi, Hv by done. cbn. eauto.
Qed.

Lemma issues_for_total code n (named : list (bool * string * option string)) :
  few (n + length named) →
  (∀ x, x ∈ named → short 128 (Some x.1.2) ∧ short 64 x.2) →
  ∃ issues, issues_for code n named = Ok issues.
Proof.
  revert n. induction named as [|[[b id] ver] named IH]; intros n Hn Hs; [by eexists|].
  cbn [length] in Hn. rewrite Nat.add_succ_r in Hn.
  destruct (IH (S n)) as [issues Hi]; [done|intros; apply Hs; by right|].
  cbn [issues_for]. destruct b; [|by eexists].
  destruct (Hs (true, id, ver)) as [H1 H2]; [left|].
  destruct (make_issue_total n code (Some id) ver) as [issue Hm]; [|done..|].
  { unfold few in *. lia. }
  rewrite Hm. cbn. rewrite Hi. by eexists.
Qed.

Lemma judge_all_total i available n vs issues resolved :
  (∀ v, v ∈ vs → v ∈ Incident.violated_kpis i) →
  few (n + length vs) →
  (∀ v, v ∈ vs → short 128 (KpiViolation.rule_id v) ∧ short 64 (KpiViolation.rule_version v)) →
  ∃ res, judge_all i (index_rules i available) n vs issues resolved = Ok res.
Proof.
  revert n issues resolved. induction vs as [|v vs IH]; intros n issues resolved Hvs Hn Hs;
    [by eexists|].
  cbn [length] in Hn. rewrite Nat.add_succ_r in Hn.
  destruct (judge_spec i available v) as (judged & Hv & _); [apply Hvs; left|].
  cbn [judge_all]. rewrite Hv. cbn.
  destruct judged as [rule|code]; [|destruct (Hs v) as [H1 H2]; [left|];
    destruct (make_issue_total n code _ _ ltac:(unfold few in *; lia) H1 H2) as [issue Hm];
    rewrite Hm; cbn];
  (apply IH; [intros; apply Hvs; by right|done|intros; apply Hs; by right]).
Qed.

(** The names that end up in an issue fit its fields. *)
Definition names_fit i : Prop :=
  (∀ v, v ∈ Incident.violated_kpis i →
     short 128 (KpiViolation.rule_id v) ∧ short 64 (KpiViolation.rule_version v)) ∧
  (∀ id ver, Incident.rule_versions i !! id = Some ver →
     short 128 (Some id) ∧ short 64 (Some ver)) ∧
  (∀ items id, metadata i "rule_content_hashes" = Some (JObj items) → id ∈ map fst items →
     short 128 (Some id)).
Definition references i : nat :=
  length (Incident.violated_kpis i) + size (Incident.rule_versions i) +
  match metadata i "rule_content_hashes" with Some (JObj items) => length items | _ => 0%nat end.

Lemma unreferenced_rules_total i :
  names_fit i → few (references i) → ∃ issues, unreferenced_rules i = Ok issues.
Proof.
  intros (_ & Hr & _) Hn. apply issues_for_total.
  - unfold few, references in *. rewrite length_map, length_py_sorted, length_map_to_list. lia.
  - intros x ([id ver] & -> & Hx)%list_elem_of_fmap.
    rewrite elem_of_py_sorted, elem_of_map_to_list in Hx. by apply (Hr id ver).
Qed.

Lemma size_list_to_set_difference (l : list string) (X : gset string) :
  (size (list_to_set (C := gset string) l ∖ X) ≤ length l)%nat.
Proof.
  etransitivity; [apply subseteq_size, subseteq_difference_l; done|].
  apply size_list_to_set_le.
Qed.

Lemma unreferenced_hashes_total i :
  names_fit i → few (references i) → ∃ issues, unreferenced_hashes i = Ok issues.
Proof.
  intros (_ & Hr & Hh) Hn. unfold unreferenced_hashes, references in *.
  destruct (metadata i "rule_content_hashes") as [[| | | | | |items]|]; try by eexists.
  apply issues_for_total.
  - unfold few in *. rewrite length_map, length_py_sorted.
    pose proof (size_list_to_set_difference (map fst items) (claimed_rule_ids i)) as Hs.
    rewrite length_map in Hs. unfold size, set_size in Hs. cbn in Hs. lia.
  - intros x (id & -> & Hx)%list_elem_of_fmap. cbn.
    rewrite elem_of_py_sorted, elem_of_elements, elem_of_difference, elem_of_list_to_set in Hx.
    destruct Hx as [Hx _]. split; [by apply (Hh items)|].
    destruct (Incident.rule_versions i !! id) eqn:E; [|done]. by apply (Hr id).
Qed.

Definition is_validation (e : exc) : Prop := ∃ field, e = ValidationError field.

Lemma make_issue_raises n code id ver : raises is_validation (make_issue n code id ver).
Proof.
  unfold make_issue, RuleResolutionIssue.make. apply raises_bind; [|intros; apply raises_Ok].
  intros e. destruct (RuleResolutionIssue.check _); [done|]. intros [= <-]. by eexists.
Qed.

Lemma issues_for_raises code n named : raises is_validation (issues_for code n named).
Proof.
  revert n. induction named as [|[[[] id] ver] named IH]; intros n; [apply raises_Ok| |apply IH].
  cbn [issues_for]. apply raises_bind; [apply make_issue_raises|intros issue _].
  apply raises_bind; [apply IH|intros; apply raises_Ok].
Qed.

Lemma judge_all_raises i available n vs issues resolved :
  (∀ v, v ∈ vs → v ∈ Incident.violated_kpis i) →
  raises is_validation (judge_all i (index_rules i available) n vs issues resolved).
Proof.
  revert n issues resolved. induction vs as [|v vs IH]; intros n issues resolved Hvs;
    [apply raises_Ok|].
  assert (∀ v, v ∈ vs → v ∈ Incident.violated_kpis i) as Hvs' by (intros; apply Hvs; by right).
  destruct (judge_spec i available v) as (judged & Hv & _); [apply Hvs; left|].
  cbn [judge_all]. rewrite Hv. cbn. destruct judged; [by apply IH|].
  apply raises_bind; [apply make_issue_raises|intros; by apply IH].
Qed.

(** Resolution returns for every Incident whose rule identifiers and versions
    fit the fields of an issue (128 and 64 characters); and it raises nothing
    but pydantic's [ValidationError], and only when one of them does not fit. *)
Theorem resolution_total i available :
  few (references i) →
  (names_fit i → ∃ r, resolve_rules_for_incident i available = Ok r) ∧
  raises (λ e, ¬ names_fit i ∧ ∃ field, e = ValidationError field)
    (resolve_rules_for_incident i available).
Proof.
  intros Hn. unfold resolve_rules_for_incident. case_bool_decide; cbn [negb].
  2: { split; [by eexists|apply raises_Ok]. }
  assert (names_fit i → ∃ r, (judge_all i (index_rules i available) 0
      (Incident.violated_kpis i) [] ∅ ≫= λ '(issues, resolved),
    unreferenced_rules i ≫= λ more, unreferenced_hashes i ≫= λ rest,
    Ok (RuleResolution.mk
      (resolution_status i (resolved_rules resolved) (py_sorted issue_leb (issues ++ more ++ rest)))
      (resolved_rules resolved) (py_sorted issue_leb (issues ++ more ++ rest)))) = Ok r) as Hok.
  { intros Hf. destruct (judge_all_total i available 0 (Incident.violated_kpis i) [] ∅)
      as [[issues resolved] Hj]; [done|unfold few, references in *; lia|apply Hf|].
    destruct (unreferenced_rules_total i Hf Hn) as [more Hm].
    destruct (unreferenced_hashes_total i Hf Hn) as [rest Hr].
    rewrite Hj. cbn. rewrite Hm. cbn. rewrite Hr. by eexists. }
  split; [exact Hok|]. intros e He. split.
  - intros Hf. destruct (Hok Hf) as [r Hr]. cbn zeta in He. congruence.
  - eapply (raises_bind is_validation); [| |exact He].
    + by apply judge_all_raises.
    + intros [issues resolved] _. apply raises_bind; [apply issues_for_raises|]. intros more _.
      apply raises_bind; [|intros; apply raises_Ok]. unfold unreferenced_hashes.
      destruct (metadata i _) as [[]|]; try apply raises_Ok. apply issues_for_raises.
Qed.

(** ** What a content hash pins *)

Lemma json_list_inj {A} (f : A → json) l k :
  Inj (=) (=) f → json_list f l = json_list f k → l = k.
Proof. intros Hf [= H]. by apply (inj (fmap f)) in H. Qed.

#[local] Instance scalar_json_inj : Inj (=) (=) scalar_json.
Proof. intros [] [] [=]; by subst. Qed.
#[local] Instance comparator_inj : Inj (=) (=) KpiComparator.value.
Proof. intros [] []; by intros [=]. Qed.
#[local] Instance evidence_type_inj : Inj (=) (=) (JStr ∘ EvidenceType.value).
Proof. intros [] []; by intros [=]. Qed.
#[local] Instance incident_severity_inj : Inj (=) (=) IncidentSeverity.value.
Proof. intros [] []; by intros [=]. Qed.

#[local] Instance detection_json_inj : Inj (=) (=) RuleDetection.to_json.
Proof.
  intros [] [] H. unfold RuleDetection.to_json in H. cbn in H.
  injection H as H1 H2 H3 H4 H5. apply (inj KpiComparator.value) in H1.
  apply json_opt_inj in H5; [by subst|apply JStr_inj|done].
Qed.
#[local] Instance predicate_json_inj : Inj (=) (=) FactPredicate.to_json.
Proof.
  intros [] [] H. unfold FactPredicate.to_json in H. cbn in H.
  injection H as H1 H2 H3. apply (inj KpiComparator.value) in H1.
  apply (inj scalar_json) in H3. by subst.
Qed.
#[local] Instance group_json_inj : Inj (=) (=) PredicateGroup.to_json.
Proof.
  intros [o p] [o' p'] H. unfold PredicateGroup.to_json in H. cbn in H.
  injection H as H1 H2. apply (inj (fmap FactPredicate.to_json)) in H2. subst.
  by destruct o, o'.
Qed.
#[local] Instance analysis_json_inj : Inj (=) (=) RuleAnalysis.to_json.
Proof.
  intros [e w h r] [e' w' h' r'] H. unfold RuleAnalysis.to_json in H.
  cbn [RuleAnalysis.evidence_types RuleAnalysis.when RuleAnalysis.hypothesis_zh
       RuleAnalysis.root_cause_zh] in H.
  assert (json_list (JStr ∘ EvidenceType.value) e = json_list (JStr ∘ EvidenceType.value) e')
    as He by congruence.
  assert (PredicateGroup.to_json w = PredicateGroup.to_json w') as Hw by congruence.
  apply json_list_inj in He; [|apply _]. apply (inj PredicateGroup.to_json) in Hw.
  f_equal; congruence.
Qed.
#[local] Instance case_json_inj : Inj (=) (=) SeverityCase.to_json.
Proof.
  intros [w s] [w' s'] H. unfold SeverityCase.to_json in H.
  cbn [SeverityCase.when SeverityCase.severity] in H.
  assert (PredicateGroup.to_json w = PredicateGroup.to_json w') as Hw by congruence.
  assert (IncidentSeverity.value s = IncidentSeverity.value s') as Hs by congruence.
  f_equal; [by apply (inj PredicateGroup.to_json)|by apply (inj IncidentSeverity.value)].
Qed.
#[local] Instance severity_json_inj : Inj (=) (=) RuleSeverity.to_json.
Proof.
  intros [c d] [c' d'] H. unfold RuleSeverity.to_json in H.
  cbn [RuleSeverity.cases RuleSeverity.default] in H.
  assert (json_list SeverityCase.to_json c = json_list SeverityCase.to_json c') as Hc by congruence.
  assert (IncidentSeverity.value d = IncidentSeverity.value d') as Hd by congruence.
  f_equal; [apply json_list_inj in Hc; [done|apply _]|by apply (inj IncidentSeverity.value)].
Qed.
#[local] Instance rule_json_inj : Inj (=) (=) RcaRule.to_json.
Proof.
  intros [] [] H. unfold RcaRule.to_json in H.
  cbn [RcaRule.rule_id RcaRule.version RcaRule.technology RcaRule.is_current
       RcaRule.description_zh RcaRule.detection RcaRule.analysis RcaRule.severity] in H.
  f_equal; first
    [ congruence | apply (inj RuleDetection.to_json); congruence
    | apply (inj RuleAnalysis.to_json); congruence
    | apply (inj RuleSeverity.to_json); congruence ].
Qed.

(** The JSON of a rule has its floats in normal form. *)
Definition normal_rule rule : Prop := dict_ordered (RcaRule.to_json rule) = true.

(** The text that [rule_content_sha256] digests. *)
Definition rule_text rule : json := JArr [JStr "rca-rule-content-v1"; RcaRule.to_json rule].

Lemma rule_content_inj a b :
  normal_rule a → normal_rule b → no_collision (rule_text a) (rule_text b) →
  rule_content_sha256 a = rule_content_sha256 b → a = b.
Proof.
  intros Ha Hb Hc H. apply Hc, canonical_json_inj in H; cbn [rule_text dict_ordered forallb].
  - unfold rule_text in H. apply (inj RcaRule.to_json). congruence.
  - by rewrite Ha.
  - by rewrite Hb.
Qed.

(** A version 3 detector snapshot records one digest per rule. *)
Definition v3_snapshot i : Prop :=
  metadata i "detector_algorithm" = Some (JStr "deterministic-threshold-episodes-v3").

Lemma hash_recorded_unique i id d d' :
  hash_recorded i id d → hash_recorded i id d' → d = d'.
Proof.
  intros [(H1 & items & H2 & H3)|(H1 & H2 & _)] [(H4 & items' & H5 & H6)|(H4 & H5 & _)];
    congruence.
Qed.

Lemma trusted_digest i available v rule :
  v3_snapshot i → trusted i available v rule →
  ∃ d, hash_recorded i (RcaRule.rule_id rule) d ∧ lower d = rule_content_sha256 rule.
Proof.
  intros Hv (_ & _ & _ & _ & _ & _ & _ & _ & _ & _ & [Hc|(_ & _ & Hn & _)] & _); [done|].
  by destruct Hn.
Qed.

(** Digests of the rules of two stores do not collide. *)
Definition no_rule_collision (available available' : list RcaRule.t) : Prop :=
  ∀ a b, a ∈ available → b ∈ available' → no_collision (rule_text a) (rule_text b).

Lemma trusted_available i available v rule : trusted i available v rule → rule ∈ available.
Proof.
  intros (_ & _ & _ & _ & _ & Hl & _). by apply last_Some_elem_of, versions_elem in Hl as (_ & _ & ?).
Qed.

Lemma trusted_pinned i available available' v v' a b :
  v3_snapshot i → Forall normal_rule available → Forall normal_rule available' →
  no_rule_collision available available' →
  trusted i available v a → trusted i available' v' b →
  RcaRule.rule_id a = RcaRule.rule_id b → a = b.
Proof.
  intros Hi Hn Hn' Hc Ha Hb Hab.
  pose proof (trusted_available _ _ _ _ Ha) as Hina.
  pose proof (trusted_available _ _ _ _ Hb) as Hinb.
  destruct (trusted_digest i available v a Hi Ha) as (d & Hd & Ea).
  destruct (trusted_digest i available' v' b Hi Hb) as (d' & Hd' & Eb).
  rewrite <- Hab in Hd'. rewrite (hash_recorded_unique _ _ _ _ Hd' Hd) in Eb.
  rewrite Forall_forall in Hn, Hn'.
  apply rule_content_inj; [by apply Hn|by apply Hn'|by apply Hc|congruence].
Qed.

Lemma sorted_identities (l k : list (string * string)) :
  Sorted identity_leb l → Sorted identity_leb k → NoDup l → NoDup k →
  (∀ x, x ∈ l ↔ x ∈ k) → l = k.
Proof.
  intros Hl Hk Nl Nk H. rewrite <- (py_sorted_id identity_leb l), <- (py_sorted_id identity_leb k) by done.
  apply py_sorted_perm_eq; [apply identity_leb_total|apply identity_leb_trans|
    apply identity_leb_antisym|by apply NoDup_Permutation].
Qed.

Lemma exact_identities i available r id :
  Incident.technology i ∈ [Technology.LTE; Technology.FIVE_G_SA] →
  resolve_rules_for_incident i available = Ok r →
  RuleResolution.status r = RuleResolutionStatus.EXACT →
  id ∈ map RcaRule.identity (RuleResolution.rules r) ↔
  ∃ v, v ∈ Incident.violated_kpis i ∧
    KpiViolation.rule_id v = Some id.1 ∧ KpiViolation.rule_version v = Some id.2.
Proof.
  intros Ht Hr Hs. destruct (resolution_facts i available r Ht Hr) as (Hin & _ & _ & _ & Hx).
  apply Hx in Hs as (_ & Hall & _). rewrite list_elem_of_fmap. split.
  - intros (rule & -> & (v & Hv & H1 & H2 & _)%Hin). by exists v.
  - intros (v & Hv & H1 & H2). destruct (Hall v Hv) as [rule Hrule]. exists rule. split.
    + destruct id. symmetry. by eapply trusted_identity.
    + apply Hin. by exists v.
Qed.

(** C27. A content hash pins the rule: whatever two sets of rules are available
    now, if a version 3 snapshot resolves exactly against both, it resolves to
    the same rules, unless the digest of two different rules collides. *)
Theorem snapshot_pins_rules i available available' r r' :
  Incident.technology i ∈ [Technology.LTE; Technology.FIVE_G_SA] →
  v3_snapshot i → Forall normal_rule available → Forall normal_rule available' →
  no_rule_collision available available' →
  resolve_rules_for_incident i available = Ok r →
  resolve_rules_for_incident i available' = Ok r' →
  RuleResolution.status r = RuleResolutionStatus.EXACT →
  RuleResolution.status r' = RuleResolutionStatus.EXACT →
  RuleResolution.rules r = RuleResolution.rules r'.
Proof.
  intros Ht Hi Hn Hn' Hc Hr Hr' Hs Hs'.
  destruct (resolution_facts i available r Ht Hr) as (Hin & Hsort & Hnd & _ & _).
  destruct (resolution_facts i available' r' Ht Hr') as (Hin' & Hsort' & Hnd' & _ & _).
  apply (map_key_inj RcaRule.identity).
  - intros a b (v & Hv & Ha)%Hin (v' & Hv' & Hb)%Hin' [= Hab _].
    by eapply (trusted_pinned i available available' v v').
  - apply sorted_identities; [done..|]. intros id.
    rewrite (exact_identities i available r), (exact_identities i available' r') by done. done.
Qed.
End resolution.
