(* ===== verification/RuleStoreProps.v ===== *)
(** * What the rule directory promises

    Exactly which directories load, that the order of the listing is
    irrelevant, and that the rules matched to an Incident are the stored,
    validated ones. *)

From Stdlib Require Import Ascii String.
From S2P Require Import Prelude PyStr Json Privacy Models Incident Errors.
From S2P Require Import PyEq.
From S2P Require Import Rules.
From S2P Require Import RuleResolution.
From S2P Require Import RuleStore.
From S2P Require Import RuleFacts.
From S2P Require Import RuleProps.

Section store.
Context `{R : Runtime, D : RuleDecoder}.

(** A file that holds one valid, safe rule document within the size limit. *)
Definition admitted (path : rule_file) (rule : RcaRule.t) : Prop :=
  rf_outside path = Some false ∧
  (∃ size, rf_size path = Some size ∧ Z.of_N size ≤ MAX_RULE_FILE_BYTES) ∧
  (∃ items, (rf_text path ≫= strict_json) = Some (JObj items) ∧
     rule_model_validate items = Some rule) ∧
  model_safe (RcaRule.to_json rule) = true.

Definition total_size (paths : list rule_file) : Z :=
  foldr (λ path n, Z.of_N (default 0%N (rf_size path)) + n) 0 paths.

Lemma total_size_nonneg paths : 0 ≤ total_size paths.
Proof. induction paths as [|path paths IH]; cbn [total_size foldr]; [done|]. fold (total_size paths). lia. Qed.

Lemma load_file_spec n total path total' rule :
  load_file n total path = Ok (total', rule) ↔
  admitted path rule ∧ total' = total + Z.of_N (default 0%N (rf_size path)) ∧
  total' ≤ MAX_RULE_TOTAL_BYTES.
Proof.
  unfold load_file, admitted. split.
  - intros (outside & Ho%of_option_Ok & H)%bind_Ok. apply bind_Ok in H as (_ & ->%throw_if_Ok & H).
    apply bind_Ok in H as (size & Hs%of_option_Ok & H).
    apply bind_Ok in H as (_ & H1%throw_if_Ok & H). apply bind_Ok in H as (_ & H2%throw_if_Ok & H).
    apply bind_Ok in H as (raw & Ht%of_option_Ok & H).
    destruct raw as [| | | | | |items]; try discriminate H.
    apply bind_Ok in H as (rule' & Hv%of_option_Ok & H).
    apply bind_Ok in H as (_ & Hm%throw_if_Ok & [= <- <-]).
    rewrite negb_false_iff in Hm. rewrite Z.ltb_ge in H1, H2. rewrite Hs. cbn. split_and!; eauto.
  - intros ((Ho & (size & Hs & Hle) & (items & Ht & Hv) & Hm) & -> & Htot).
    rewrite Hs in *. cbn in Htot. rewrite Ho. cbn.
    rewrite !(proj2 (Z.ltb_ge _ _)) by done. cbn. rewrite Ht. cbn. rewrite Hv. cbn. by rewrite Hm.
Qed.

Lemma load_files_spec n total paths loaded :
  total ≤ MAX_RULE_TOTAL_BYTES →
  load_files n total paths = Ok loaded ↔
  Forall2 admitted paths loaded ∧ total + total_size paths ≤ MAX_RULE_TOTAL_BYTES.
Proof.
  revert n total loaded. induction paths as [|path paths IH]; intros n total loaded Ht; cbn [load_files].
  - split.
    + intros [= <-]. split; [constructor|cbn; lia].
    + intros [->%Forall2_nil_inv_l _]. done.
  - cbn [total_size foldr]. fold (total_size paths).
    pose proof (total_size_nonneg paths). split.
    + intros ([total' rule] & (Ha & -> & Hle)%load_file_spec & (l & Hl & [= <-])%bind_Ok)%bind_Ok.
      apply IH in Hl as [Hf Hs]; [|done]. split; [by constructor|lia].
    + intros [(rule & l & Ha & Hf & ->)%Forall2_cons_inv_l Hs].
      apply bind_Ok. exists (total + Z.of_N (default 0%N (rf_size path)), rule). split.
      * apply load_file_spec. split_and!; [done|done|lia].
      * cbn. apply bind_Ok. exists l. split; [|done]. apply IH; [lia|]. split; [done|lia].
Qed.

(** ** Identities *)

Definition current (rules : list RcaRule.t) : list RcaRule.t := List.filter RcaRule.is_current rules.

Lemma fresh_union {K} `{Countable K} (key : RcaRule.t → K) (k : K) (seen : gset K) rules :
  (∀ r, r ∈ rules → (key r ∉ {[k]} ∪ seen)) ↔
  (k ∉ map key rules) ∧ (∀ r, r ∈ rules → (key r ∉ seen)).
Proof. rewrite list_elem_of_fmap. set_solver. Qed.

Lemma fresh_cons {K} `{Countable K} (key : RcaRule.t → K) (seen : gset K) rule rules :
  (∀ r, r ∈ rule :: rules → (key r ∉ seen)) ↔
  (key rule ∉ seen) ∧ (∀ r, r ∈ rules → (key r ∉ seen)).
Proof. set_solver. Qed.

Lemma check_identities_spec ids cur loaded u :
  check_identities ids cur loaded = Ok u ↔
  NoDup (map RcaRule.identity loaded) ∧
  (∀ r, r ∈ loaded → (RcaRule.identity r ∉ ids)) ∧
  NoDup (map RcaRule.rule_id (current loaded)) ∧
  (∀ r, r ∈ current loaded → (RcaRule.rule_id r ∉ cur)).
Proof.
  destruct u. revert ids cur. induction loaded as [|rule loaded IH]; intros ids cur.
  { cbn. split; [|done]. intros _. split_and!; try apply NoDup_nil_2; by intros ? ?%not_elem_of_nil. }
  cbn [check_identities current List.filter map]. fold (current loaded).
  rewrite bind_Ok, fresh_cons, NoDup_cons.
  setoid_rewrite throw_if_Ok. setoid_rewrite bool_decide_eq_false.
  destruct (RcaRule.is_current rule); cbn [negb map].
  - setoid_rewrite bind_Ok. setoid_rewrite throw_if_Ok. setoid_rewrite bool_decide_eq_false.
    setoid_rewrite IH. rewrite fresh_cons, NoDup_cons.
    setoid_rewrite fresh_union. split; [naive_solver|]. intros. exists tt. split; [naive_solver|].
    exists tt. naive_solver.
  - setoid_rewrite IH. setoid_rewrite fresh_union. split; [naive_solver|].
    intros. exists tt. naive_solver.
Qed.

(** ** Loading *)

Lemma total_size_perm paths paths' : paths ≡ₚ paths' → total_size paths = total_size paths'.
Proof.
  unfold total_size. induction 1 as [|x l k _ IH|x y l|l k m _ IH1 _ IH2]; cbn [foldr];
    [done|by rewrite IH|lia|by rewrite IH1].
Qed.
Lemma total_size_sorted paths : total_size (py_sorted name_leb paths) = total_size paths.
Proof. apply total_size_perm, py_sorted_perm. Qed.

Lemma load_all_versions_spec root rules :
  load_all_versions root = Ok rules ↔
  ∃ paths loaded, root = Some paths ∧ (length paths ≤ MAX_RULE_FILES)%nat ∧
    Forall2 admitted (py_sorted name_leb paths) loaded ∧
    total_size paths ≤ MAX_RULE_TOTAL_BYTES ∧
    NoDup (map RcaRule.identity loaded) ∧ NoDup (map RcaRule.rule_id (current loaded)) ∧
    rules = py_sorted rule_leb loaded.
Proof.
  unfold load_all_versions. destruct root as [paths|]; [|split; [done|naive_solver]].
  split.
  - intros (_ & Hlen%throw_if_Ok & H)%bind_Ok. rewrite Nat.ltb_ge in Hlen.
    apply bind_Ok in H as (loaded & [Hf Ht]%load_files_spec & H); [|done].
    apply bind_Ok in H as (u & (Hi & _ & Hc & _)%check_identities_spec & [= <-]).
    exists paths, loaded. rewrite total_size_sorted in Ht. by split_and!.
  - intros (paths' & loaded & [= <-] & Hlen & Hf & Ht & Hi & Hc & ->).
    rewrite (proj2 (throw_if_Ok _ _ tt)) by (by apply Nat.ltb_ge). cbn.
    rewrite (proj2 (load_files_spec 0 0 (py_sorted name_leb paths) loaded ltac:(done)))
      by (by rewrite total_size_sorted). cbn.
    rewrite (proj2 (check_identities_spec ∅ ∅ loaded tt)) by (split_and!; set_solver). done.
Qed.

(** Every failure to load is a [RuleLoadError]. *)
Lemma load_all_versions_raises root :
  raises (λ e, ∃ msg, e = RuleLoadError msg) (load_all_versions root).
Proof.
  assert (∀ msg, ∃ m, RuleLoadError msg = RuleLoadError m) as Hr by eauto.
  assert (∀ n path total, raises (λ e, ∃ msg, e = RuleLoadError msg) (load_file n total path)) as Hfile.
  { intros n path total. unfold load_file, invalid_file. raises_tac; apply Hr. }
  assert (∀ paths n total, raises (λ e, ∃ msg, e = RuleLoadError msg) (load_files n total paths))
    as Hfiles.
  { induction paths as [|path paths IH]; intros n total; cbn [load_files]; [apply raises_Ok|].
    apply raises_bind; [apply Hfile|intros [total' rule] _].
    apply raises_bind; [apply IH|intros; apply raises_Ok]. }
  assert (∀ loaded ids cur, raises (λ e, ∃ msg, e = RuleLoadError msg)
    (check_identities ids cur loaded)) as Hids.
  { induction loaded as [|rule loaded IH]; intros ids cur; cbn [check_identities];
      [apply raises_Ok|]. raises_tac; auto. }
  unfold load_all_versions. raises_tac; auto.
Qed.

(** A rule directory loads if and only if it is a directory with at most 256
    rule files, each inside it, within a megabyte, strict JSON of one valid
    and safe rule, together within 16 megabytes, no two with one identity and
    at most one version of each rule current; the result is then those rules
    in the order of their identities.  Otherwise [RuleLoadError] is raised. *)
Theorem load_exact root :
  (∀ rules, load_all_versions root = Ok rules ↔
     ∃ paths loaded, root = Some paths ∧ (length paths ≤ MAX_RULE_FILES)%nat ∧
       Forall2 admitted (py_sorted name_leb paths) loaded ∧
       total_size paths ≤ MAX_RULE_TOTAL_BYTES ∧
       NoDup (map RcaRule.identity loaded) ∧ NoDup (map RcaRule.rule_id (current loaded)) ∧
       rules = py_sorted rule_leb loaded) ∧
  raises (λ e, ∃ msg, e = RuleLoadError msg) (load_all_versions root).
Proof. split; [apply load_all_versions_spec|apply load_all_versions_raises]. Qed.

(** ** The stored rules *)

Lemma filter_perm {A} (p : A → bool) l k : l ≡ₚ k → List.filter p l ≡ₚ List.filter p k.
Proof.
  induction 1 as [|x l k _ IH|x y l|l k m _ IH1 _ IH2]; cbn; [done|..].
  - destruct (p x); by rewrite IH.
  - destruct (p x), (p y); try done. constructor.
  - by rewrite IH1.
Qed.

Lemma loaded_rules root rules :
  load_all_versions root = Ok rules →
  NoDup (map RcaRule.identity rules) ∧ Sorted rule_leb rules ∧
  NoDup (map RcaRule.rule_id (current rules)) ∧
  ∀ r, r ∈ rules → RcaRule.check r = Ok tt ∧ model_safe (RcaRule.to_json r) = true.
Proof.
  intros (paths & loaded & -> & _ & Hf & _ & Hi & Hc & ->)%load_all_versions_spec.
  split_and!.
  - by rewrite py_sorted_perm.
  - apply py_sorted_Sorted. intros x y. apply identity_leb_total.
  - unfold current in *.
    assert (List.filter RcaRule.is_current (py_sorted rule_leb loaded)
            ≡ₚ List.filter RcaRule.is_current loaded) as ->; [|done].
    apply filter_perm, py_sorted_perm.
  - intros r. rewrite elem_of_py_sorted. intros Hr.
    apply list_elem_of_lookup in Hr as [k Hk].
    destruct (Forall2_lookup_r _ _ _ _ _ Hf Hk) as (path & _ & (_ & _ & (items & _ & Hv) & Hm)).
    split; [|done]. unfold rule_model_validate in Hv.
    destruct (coerce_rule items) as [r'|]; [|done].
    destruct (RcaRule.check r') as [[]|] eqn:Ec; [|done]. cbn in Hv. congruence.
Qed.

Lemma get_version_spec root rules id ver :
  load_all_versions root = Ok rules →
  ∀ r, get_version root id ver = Ok (Some r) ↔ r ∈ rules ∧ RcaRule.identity r = (id, ver).
Proof.
  intros Hl r. unfold get_version. rewrite Hl. cbn.
  destruct (loaded_rules root rules Hl) as (Hnd & _). split.
  - intros [= H]. apply next_such_Some in H as [Hr H].
    rewrite andb_true_iff, !str_eqb_true in H. unfold RcaRule.identity. naive_solver.
  - intros [Hr Hi]. do 2 f_equal. destruct (next_such _ rules) as [r'|] eqn:E.
    + apply next_such_Some in E as [Hr' H]. rewrite andb_true_iff, !str_eqb_true in H.
      f_equal. apply (NoDup_key RcaRule.identity rules); [done..|].
      rewrite Hi. unfold RcaRule.identity. destruct H. congruence.
    + apply (proj1 (next_such_None _ _)) with (x := r) in E; [|done].
      injection Hi as H1 H2. rewrite H1, H2, !eqb_refl in E. done.
Qed.

(** Stored versions do not disagree: an identity has at most one rule. *)
Lemma stored_unanimous root rules i identity :
  load_all_versions root = Ok rules → unanimous (versions i rules identity).
Proof.
  intros Hl r s (Hr & _ & Hin)%versions_elem (Hs & _ & Hin')%versions_elem.
  destruct (loaded_rules root rules Hl) as (Hnd & _).
  rewrite (NoDup_key RcaRule.identity rules r s) by (done || congruence). apply eqb_refl.
Qed.

Context `{L : !RuntimeLaws R}.

(** The rules matched to an Incident are stored rules: each is found by
    [get_version] under its identity, is valid and safe for a model; and a
    violation whose named rule is stored is never refused because the stored
    versions of a rule disagree. *)
Theorem matched_rules_are_stored root i rules :
  match_typed root i = Ok rules →
  (∀ r, r ∈ rules → get_version root (RcaRule.rule_id r) (RcaRule.version r) = Ok (Some r) ∧
     RcaRule.check r = Ok tt ∧ model_safe (RcaRule.to_json r) = true) ∧
  (∃ stored, load_all_versions root = Ok stored ∧
     ∀ identity, unanimous (versions i stored identity)).
Proof.
  unfold match_typed, resolve_typed.
  intros (resolution & (stored & Hl & Hr)%bind_Ok & [= <-])%bind_Ok.
  split; [|exists stored; split; [done|intros; by eapply stored_unanimous]].
  intros r Hin. assert (r ∈ stored) as Hs.
  { destruct (decide (Incident.technology i ∈ [Technology.LTE; Technology.FIVE_G_SA])) as [Ht|Ht].
    - destruct (resolution_facts i stored resolution Ht Hr) as (Hx & _).
      apply Hx in Hin as (v & _ & Ht'). by eapply trusted_available.
    - unfold resolve_rules_for_incident in Hr. rewrite bool_decide_eq_false_2 in Hr by done.
      injection Hr as <-. by apply not_elem_of_nil in Hin. }
  destruct (loaded_rules root stored Hl) as (_ & _ & _ & Hok).
  split; [|by apply Hok]. by apply (get_version_spec root stored).
Qed.

(** The order in which the directory lists its files does not matter. *)
Theorem listing_order_irrelevant paths paths' :
  NoDup (map rf_name paths) → paths ≡ₚ paths' →
  load_all_versions (Some paths) = load_all_versions (Some paths').
Proof.
  intros Hnd Hp. unfold load_all_versions. rewrite <- Hp at 1. cbn.
  assert (py_sorted name_leb paths = py_sorted name_leb paths') as ->; [|by rewrite Hp].
  apply (py_sorted_key_perm String.leb rf_name);
    eauto using StringLeb_total, StringLeb_trans, StringLeb_antisym.
Qed.
End store.
