(* ===== verification/RuleSamples.v ===== *)
(** * Rules at work

    A rule of data/rca-rules/lte (its texts shortened), two of its versions in
    a directory, and an Incident that claims it: the inputs at which the
    witnesses evaluate the theorems about rules. *)

From Stdlib Require Import Ascii String.
From S2P Require Import Prelude PyStr Json Reference Privacy Models Incident Errors StateMachine.
From S2P Require Import PyEq.
From S2P Require Import Samples.
From S2P Require Import Binding.
From S2P Require Import Rules.
From S2P Require Import RuleResolution.
From S2P Require Import RuleStore.
From S2P Require Import RuleFacts.
From S2P Require Import RuleProps.
From S2P Require Import RuleStoreProps.

Definition float_of (z : Z) : pyfloat := PyFloat (z <? 0) (Z.to_N (Z.abs z)) 0.
Definition half : pyfloat := PyFloat false 1 (-1).

Definition at_least (fact : string) (value : scalar) : FactPredicate.t :=
  FactPredicate.mk fact KpiComparator.GREATER_THAN_OR_EQUAL value.

Definition erab_rule (version : string) (is_current : bool) (threshold : Z) : RcaRule.t :=
  RcaRule.mk "lte.erab.security-setup" version "LTE" is_current "ERAB setup below threshold"
    (RuleDetection.mk "erab_success_rate" KpiComparator.LESS_THAN (float_of threshold)
       (Some "%") 30)
    (RuleAnalysis.mk [EvidenceType.TRACE]
       (PredicateGroup.mk PredicateGroup.ALL
          [ at_least "failed_security_setup_ratio" (ScFloat half);
            at_least "failure_count" (ScInt 1) ])
       "S1 security setup fails" "failures of the S1 security setup")
    (RuleSeverity.mk
       [ SeverityCase.mk
           (PredicateGroup.mk PredicateGroup.ALL
              [FactPredicate.mk "kpi_value" KpiComparator.LESS_THAN (ScFloat (float_of 95))])
           IncidentSeverity.HIGH ]
       IncidentSeverity.LOW).
Definition rule_1 : RcaRule.t := erab_rule "1.0.0" false 97.
Definition rule_2 : RcaRule.t := erab_rule "2.0.0" true 99.

Example rules_valid : RcaRule.check rule_1 = Ok tt ∧ RcaRule.check rule_2 = Ok tt.
Proof. split; vm_compute; reflexivity. Qed.
Example versions_semver :
  map is_semver ["0.0.1"; "1.0.0-rc.1+build"; "01.0.0"; "1.0"; "1.0.0-"] =
  [true; true; false; false; false].
Proof. vm_compute. reflexivity. Qed.

(** A violation of version 1, and the Incident the detector made of it. *)
Definition low_erab : KpiViolation.t :=
  KpiViolation.mk (Some "violation-1") "erab_success_rate" (float_of 93) (float_of 97)
    KpiComparator.LESS_THAN (Some "%") (Some 0) (Some 30) (Some "lte.erab.security-setup")
    (Some "1.0.0") ["cell-17"] ∅.
Definition incident_with (vs : list KpiViolation.t) (metadata : gmap string json)
    (versions : gmap string string) : Incident.t :=
  Incident.mk "inc-1" (Some "corr-1") ["src-1"] Technology.LTE None IncidentStatus.DETECTED
    IncidentSeverity.UNKNOWN "ERAB KPI" "ERAB setup below threshold" [cell] 30 (Some 0) (Some 30)
    vs [] [] None [] [] [] [] [] metadata versions "trace-1" None 30 30 0.
Definition snapshot : Incident.t :=
  incident_with [low_erab]
    {[ "detector_algorithm" := JStr "deterministic-threshold-episodes-v3";
       "rule_content_hashes" :=
         JObj [("lte.erab.security-setup", JStr (rule_content_sha256 rule_1))] ]}
    {[ "lte.erab.security-setup" := "1.0.0" ]}.

Definition resolution : RuleResolution.t :=
  RuleResolution.mk RuleResolutionStatus.EXACT [rule_1] [].

Lemma snapshot_resolves available :
  bool_decide (available = [rule_2; rule_1]) || bool_decide (available = [rule_1]) = true →
  resolve_rules_for_incident snapshot available = Ok resolution.
Proof.
  rewrite orb_true_iff, !bool_decide_eq_true. intros [-> | ->]; vm_compute; reflexivity.
Qed.

Lemma snapshot_lte : Incident.technology snapshot ∈ [Technology.LTE; Technology.FIVE_G_SA].
Proof. left. Qed.

Lemma resolution_exact_witness :
  trusted snapshot [rule_2; rule_1] low_erab rule_1.
Proof.
  destruct (resolution_exact snapshot [rule_2; rule_1] resolution snapshot_lte)
    as (Hin & _); [by apply snapshot_resolves|].
  destruct (proj1 (Hin rule_1) ltac:(left)) as (v & Hv & Ht).
  apply list_elem_of_singleton in Hv. rewrite <- Hv. exact Ht.
Defined.

Lemma snapshot_names : names_fit snapshot.
Proof.
  split_and!.
  - intros v ->%list_elem_of_singleton. split; vm_compute; reflexivity.
  - intros id ver. cbn. intros [<- <-]%lookup_singleton_Some. split; vm_compute; reflexivity.
  - intros items id [= <-]. cbn. intros ->%list_elem_of_singleton. vm_compute. reflexivity.
Qed.

Lemma resolution_total_witness :
  few (references snapshot) ∧
  ∃ r, resolve_rules_for_incident snapshot [rule_2] = Ok r.
Proof.
  assert (few (references snapshot)) as Hf by (vm_compute; reflexivity).
  split; [exact Hf|].
  apply (proj1 (resolution_total snapshot [rule_2] Hf)). exact snapshot_names.
Defined.

Lemma rules_normal : Forall normal_rule [rule_2; rule_1].
Proof. repeat constructor; vm_compute; reflexivity. Qed.

Lemma no_collision_here : no_rule_collision [rule_2; rule_1] [rule_1].
Proof.
  intros a b Ha ->%list_elem_of_singleton.
  apply elem_of_cons in Ha as [Ha|Ha%list_elem_of_singleton]; rewrite Ha; [|intros _; reflexivity].
  intros H. exfalso. revert H. vm_compute. discriminate.
Qed.

Lemma snapshot_pins_rules_witness :
  match resolve_rules_for_incident snapshot [rule_2; rule_1],
        resolve_rules_for_incident snapshot [rule_1] with
  | Ok r, Ok r' => RuleResolution.rules r = RuleResolution.rules r'
  | _, _ => False
  end.
Proof.
  rewrite !snapshot_resolves by reflexivity.
  apply (snapshot_pins_rules snapshot [rule_2; rule_1] [rule_1] resolution resolution).
  - exact snapshot_lte.
  - vm_compute. reflexivity.
  - exact rules_normal.
  - constructor; [vm_compute; reflexivity|constructor].
  - exact no_collision_here.
  - by apply snapshot_resolves.
  - by apply snapshot_resolves.
  - reflexivity.
  - reflexivity.
Defined.

(** ** A directory *)

(** A decoder of the documents of these two rules. *)
#[local] Instance sample_decoder : RuleDecoder :=
  {| coerce_rule := λ items,
       next_such (λ r, bool_decide (RcaRule.to_json r = JObj items)) [rule_1; rule_2] |}.
Definition file_of (name : string) (r : RcaRule.t) : rule_file :=
  mk_rule_file name (Some false) (Some 900%N) (Some (RcaRule.to_json r)).
Definition listing : list rule_file := [file_of "b.json" rule_1; file_of "a.json" rule_2].

Example directory_loads : load_all_versions (Some listing) = Ok [rule_1; rule_2].
Proof. vm_compute. reflexivity. Qed.

Lemma matched_rules_are_stored_witness :
  get_version (Some listing) "lte.erab.security-setup" "1.0.0" = Ok (Some rule_1).
Proof.
  destruct (matched_rules_are_stored (Some listing) snapshot [rule_1]) as (H & _).
  - vm_compute. reflexivity.
  - apply (H rule_1). left.
Defined.

Lemma listing_order_irrelevant_witness :
  load_all_versions (Some [file_of "a.json" rule_2; file_of "b.json" rule_1]) =
  Ok [rule_1; rule_2].
Proof.
  rewrite <- (listing_order_irrelevant listing).
  - exact directory_loads.
  - apply (bool_decide_unpack _). vm_compute. exact I.
  - apply perm_swap.
Defined.

(** ** An identifier that does not fit *)

(** An Incident admits rule identifiers of 256 characters, an issue only 128:
    instead of reporting the unknown rule, resolution raises. *)
Definition long_id : string := string_of_list_ascii (repeat "r"%char 200).
Definition long_incident : Incident.t :=
  incident_with
    [KpiViolation.mk None "erab_success_rate" (float_of 93) (float_of 97)
       KpiComparator.LESS_THAN (Some "%") None None (Some long_id) (Some "1.0.0") [] ∅]
    ∅ {[ long_id := "1.0.0" ]}.

Lemma long_rule_id_raises :
  is_ok (Incident.model_validate long_incident) = true ∧
  resolve_rules_for_incident long_incident [rule_1] = Err (ValidationError "rule_id").
Proof. split; vm_compute; reflexivity. Qed.
