(* ===== verification/LteIdentifiers.v ===== *)
(** * LTE resource identifiers (telco_local/lte_identifiers.py)

    Canonical identifiers of eNodeBs and cells: decimal components of at most
    28 bits. *)

From Stdlib Require Import Ascii String.
From stdpp Require Import pretty.
From S2P Require Import Prelude PyStr Json Reference Models Errors.
From S2P Require Import PyEq.

Definition LTE_IDENTIFIER_MAX : N := 268435455.

(** [[0-9]{1,9}]. *)
Definition decimal_component (s : string) : bool :=
  string_forall is_digit s && Nat.leb 1 (String.length s) && Nat.leb (String.length s) 9.

(** [int(raw, 10)] of a text of digits. *)
Fixpoint decimal_value (s : string) (n : N) : N :=
  match s with
  | String c s => decimal_value s (10 * n + (byte_of c - 48))%N
  | EmptyString => n
  end.

(** [normalize_lte_identifier(value, component=...)], of a text. *)
Definition normalize_lte_identifier (value component : string) : result exc string :=
  let raw := py_strip value in
  let invalid := ValueError ("invalid LTE " +:+ component +:+ " identifier") in
  throw_if (negb (decimal_component raw)) invalid ≫= λ _,
  let parsed := decimal_value raw 0 in
  throw_if (LTE_IDENTIFIER_MAX <? parsed)%N invalid ≫= λ _,
  Ok (pretty parsed).

(** [canonical_lte_resource_id(enodeb_id, cell_id)]. *)
Definition canonical_lte_resource_id (enodeb_id : string) (cell_id : option string) :
    result exc string :=
  normalize_lte_identifier enodeb_id "eNodeB" ≫= λ enodeb,
  match cell_id with
  | None => Ok ("lte:enodeb:" +:+ enodeb)
  | Some cell_id =>
      normalize_lte_identifier cell_id "Cell" ≫= λ cell,
      Ok ("lte:enodeb:" +:+ enodeb +:+ ":cell:" +:+ cell)
  end.

(** [s.split(":")]. *)
Fixpoint split_colon (s : string) : list string :=
  match s with
  | EmptyString => [EmptyString]
  | String c s =>
      if bool_decide (c = ":"%char) then EmptyString :: split_colon s
      else match split_colon s with
           | h :: t => String c h :: t
           | [] => [String c EmptyString]
           end
  end.

(** [parse_lte_resource_id(value)], of a text. *)
Definition parse_lte_resource_id (value : string) : result exc (string * option string) :=
  match split_colon (py_strip value) with
  | [lte; enodeb; id] =>
      if bool_decide ([lte; enodeb] = ["lte"; "enodeb"]) then
        normalize_lte_identifier id "eNodeB" ≫= λ id, Ok (id, None)
      else fail (ValueError "invalid canonical LTE resource identifier")
  | [lte; enodeb; id; cell; cell_id] =>
      if bool_decide ([lte; enodeb] = ["lte"; "enodeb"]) && bool_decide (cell = "cell"%string) then
        normalize_lte_identifier id "eNodeB" ≫= λ id,
        normalize_lte_identifier cell_id "Cell" ≫= λ cell_id,
        Ok (id, Some cell_id)
      else fail (ValueError "invalid canonical LTE resource identifier")
  | _ => fail (ValueError "invalid canonical LTE resource identifier")
  end.

Example parse_padded :
  parse_lte_resource_id " lte:enodeb:0017:cell: 3" = Ok ("17", Some "3")%string.
Proof. vm_compute. reflexivity. Qed.
Example parse_too_large : is_ok (parse_lte_resource_id "lte:enodeb:268435456") = false.
Proof. vm_compute. reflexivity. Qed.

(** ** Normal forms *)

Lemma decimal_value_app s t n : decimal_value (s +:+ t) n = decimal_value t (decimal_value s n).
Proof. revert n. induction s as [|c s IH]; intros n; [done|]. rewrite app_cons. cbn. apply IH. Qed.

Lemma pretty_N_char_value x : (x < 10)%N → (byte_of (pretty_N_char x) - 48 = x)%N.
Proof.
  intros Hx. assert (x ∈ [0;1;2;3;4;5;6;7;8;9]%N) as H.
  { rewrite !elem_of_cons. lia. }
  rewrite !elem_of_cons, elem_of_nil in H. by destruct_or! H; subst.
Qed.

Lemma decimal_value_go x s :
  decimal_value (pretty_N_go x s) 0 = decimal_value s x.
Proof.
  revert s. induction (N.lt_wf_0 x) as [x _ IH]; intros s.
  destruct (decide (x = 0%N)) as [->|Hx]; [by rewrite pretty_N_go_0|].
  rewrite pretty_N_go_step, IH by (try apply N.div_lt; lia). cbn [decimal_value].
  rewrite pretty_N_char_value by (apply N.mod_lt; lia). f_equal.
  pose proof (N.div_mod x 10 ltac:(lia)). lia.
Qed.

Lemma decimal_value_pretty (x : N) : decimal_value (pretty x) 0 = x.
Proof.
  unfold pretty, pretty_N. case_decide as Hx; [by subst|]. by rewrite decimal_value_go.
Qed.

Lemma pretty_component (x : N) :
  (x ≤ LTE_IDENTIFIER_MAX)%N → decimal_component (pretty x) = true.
Proof.
  intros Hx. unfold decimal_component, LTE_IDENTIFIER_MAX in *.
  rewrite pretty_N_digit. cbn [andb]. apply andb_true_iff. rewrite !Nat.leb_le.
  unfold pretty, pretty_N. case_decide as H0; [cbn; lia|]. split.
  - destruct (pretty_N_go x EmptyString) as [|c s] eqn:E; [|cbn; lia].
    pose proof (decimal_value_go x EmptyString) as Hv. rewrite E in Hv. cbn in Hv. lia.
  - etransitivity; [apply (pretty_N_go_length 9); cbn; lia|]. cbn. lia.
Qed.

Lemma digits_visible s : string_forall is_digit s = true → string_forall visible_char s = true.
Proof.
  apply string_forall_impl. intros c. unfold is_digit, visible_char.
  rewrite !andb_true_iff, !N.leb_le. lia.
Qed.

Lemma normalize_pretty (x : N) component :
  (x ≤ LTE_IDENTIFIER_MAX)%N → normalize_lte_identifier (pretty x) component = Ok (pretty x).
Proof.
  intros Hx. unfold normalize_lte_identifier.
  rewrite py_strip_visible by apply digits_visible, pretty_N_digit.
  rewrite pretty_component, decimal_value_pretty by done. cbn [negb throw_if].
  by rewrite (proj2 (N.ltb_ge _ _)).
Qed.

Lemma normalize_spec value component r :
  normalize_lte_identifier value component = Ok r →
  ∃ x, (x ≤ LTE_IDENTIFIER_MAX)%N ∧ r = pretty x.
Proof.
  unfold normalize_lte_identifier.
  intros (_ & _ & (_ & H%throw_if_Ok & [= <-])%bind_Ok)%bind_Ok.
  rewrite N.ltb_ge in H. by eexists.
Qed.

Definition no_colon (s : string) : bool := string_forall (λ c, negb (bool_decide (c = ":"%char))) s.

Lemma split_colon_piece s t : no_colon s = true → split_colon (s +:+ String ":" t) = s :: split_colon t.
Proof.
  induction s as [|c s IH]; [done|]. unfold no_colon in *. cbn [string_forall].
  intros [Hc Hs]%andb_true_iff. rewrite app_cons. cbn [split_colon].
  destruct (bool_decide (c = ":"%char)); [done|]. by rewrite IH.
Qed.
Lemma split_colon_last s : no_colon s = true → split_colon s = [s].
Proof.
  induction s as [|c s IH]; [done|]. unfold no_colon in *. cbn [string_forall split_colon].
  intros [Hc Hs]%andb_true_iff. destruct (bool_decide (c = ":"%char)); [done|]. by rewrite IH.
Qed.
Lemma digits_no_colon s : string_forall is_digit s = true → no_colon s = true.
Proof.
  apply string_forall_impl. intros c Hc. apply negb_true_iff, bool_decide_eq_false. by intros ->.
Qed.

(** The identifiers of a resource, as texts and as numbers. *)
Definition canonical_text (enodeb : N) (cell : option N) : string :=
  "lte:enodeb:" +:+ match cell with
                    | None => pretty enodeb
                    | Some cell => pretty enodeb +:+ ":cell:" +:+ pretty cell
                    end.
Definition in_range (enodeb : N) (cell : option N) : Prop :=
  (enodeb ≤ LTE_IDENTIFIER_MAX)%N ∧
  match cell with Some cell => (cell ≤ LTE_IDENTIFIER_MAX)%N | None => True end.

Lemma canonical_numbers enodeb cell :
  in_range enodeb cell →
  canonical_lte_resource_id (pretty enodeb) (pretty <$> cell) = Ok (canonical_text enodeb cell).
Proof.
  intros [He Hc]. unfold canonical_lte_resource_id, canonical_text.
  rewrite normalize_pretty by done. destruct cell as [cell|]; cbn; [|done].
  by rewrite normalize_pretty.
Qed.

Lemma canonical_visible enodeb cell : string_forall visible_char (canonical_text enodeb cell) = true.
Proof.
  unfold canonical_text. rewrite string_forall_app. apply andb_true_iff. split; [reflexivity|].
  destruct cell as [cell|]; [|apply digits_visible, pretty_N_digit].
  by rewrite !string_forall_app, !(digits_visible (pretty _)) by apply pretty_N_digit.
Qed.

Lemma parse_canonical enodeb cell :
  in_range enodeb cell →
  parse_lte_resource_id (canonical_text enodeb cell) = Ok (pretty enodeb, pretty <$> cell).
Proof.
  intros [He Hc]. unfold parse_lte_resource_id.
  rewrite py_strip_visible by apply canonical_visible. unfold canonical_text.
  change ("lte:enodeb:" +:+ ?s) with ("lte" +:+ String ":" ("enodeb" +:+ String ":" s)).
  rewrite !split_colon_piece by done.
  pose proof (digits_no_colon _ (pretty_N_digit enodeb)) as Hd.
  destruct cell as [cell|].
  - change (":cell:" +:+ pretty cell) with (String ":" ("cell" +:+ String ":" (pretty cell))).
    rewrite !split_colon_piece, split_colon_last by
      (done || apply digits_no_colon, pretty_N_digit).
    rewrite !bool_decide_eq_true_2 by done. cbn [andb].
    by rewrite !normalize_pretty.
  - rewrite split_colon_last by done. rewrite bool_decide_eq_true_2 by done.
    by rewrite normalize_pretty.
Qed.

Lemma canonical_text_inj e c e' c' :
  in_range e c → in_range e' c' → canonical_text e c = canonical_text e' c' → e = e' ∧ c = c'.
Proof.
  intros H%parse_canonical H'%parse_canonical E. rewrite E, H' in H. injection H as He Hc.
  split; [by apply (inj (pretty (A := N)))|]. by apply (inj (fmap (M := option) (pretty (A := N)))).
Qed.

(** C39. What [parse_lte_resource_id] accepts names components in range, which
    print to a canonical text; that text parses back to the same components, and
    the text of no other components in range is the same. *)
Theorem lte_roundtrip value enodeb cell :
  parse_lte_resource_id value = Ok (enodeb, cell) →
  ∃ e c, in_range e c ∧ enodeb = pretty e ∧ cell = pretty <$> c ∧
    canonical_lte_resource_id enodeb cell = Ok (canonical_text e c) ∧
    parse_lte_resource_id (canonical_text e c) = Ok (enodeb, cell) ∧
    ∀ e' c', in_range e' c' → canonical_text e' c' = canonical_text e c → e' = e ∧ c' = c.
Proof.
  intros H.
  assert (∃ e c, in_range e c ∧ enodeb = pretty e ∧ cell = pretty <$> c) as (e & c & Hr & -> & ->).
  { unfold parse_lte_resource_id in H. revert H. repeat case_match; try done.
    - intros (id & (x & Hx & ->)%normalize_spec & [= <- <-])%bind_Ok. by exists x, None.
    - intros (id & (x & Hx & ->)%normalize_spec & H')%bind_Ok.
      apply bind_Ok in H' as (cid & (y & Hy & ->)%normalize_spec & [= <- <-]). by exists x, (Some y). }
  exists e, c. split_and!; [done..| | |].
  - by apply canonical_numbers.
  - by apply parse_canonical.
  - intros e' c' Hr'. by apply canonical_text_inj.
Qed.
