(* ===== verification/Detector.v ===== *)
(** * The deterministic detector (telco_local/detector.py)

    Scanning LTE observations for episodes that breach a current rule, building
    one candidate Incident per episode, and confirming a candidate by scanning
    again.  The telemetry store, the random identifiers, the clock, the rule
    directory and the Incident repository are ports of the world [W]. *)

From Stdlib Require Import Ascii String.
From stdpp Require Import pretty.
From S2P Require Import Prelude PyStr Json Privacy Models Incident Errors StateMachine Repository.
From S2P Require Import PyEq.
From S2P Require Import Contracts Ports.
From S2P Require GovernanceBase.
From S2P Require Import Rules.
From S2P Require Import RuleResolution.
From S2P Require Import RuleStore.
From S2P Require Import LteIdentifiers.

Definition MAX_CURRENT_RULES : nat := 32.
Definition MAX_EPISODE_SAMPLES : nat := 1000.
Definition MAX_SCAN_CANDIDATES : nat := 100.
Definition MAX_SCAN_RESOURCE_IDS : nat := 100.
(** 31 days, in microseconds. *)
Definition MAX_SCAN_WINDOW : Z := 31 * 86400 * 1000000.
(** telco_local/telemetry.py. *)
Definition MAX_QUERY_OBSERVATIONS : Z := 50000.

(** ** Arithmetic on doubles *)

(** The double nearest to [n / d * 2^e], for [0 <= n] and [0 < d]. *)
Definition quotient (neg : bool) (n d e : Z) : pyfloat :=
  let k := Z.log2 n - Z.log2 d in
  let below := if 0 <=? k then n <? d * 2 ^ k else n * 2 ^ (- k) <? d in
  let q := Z.max ((if below then k - 1 else k) - 52) (-1074 - e) in
  let m := if 0 <=? q then GovernanceBase.round_half_even n (d * 2 ^ q)
           else GovernanceBase.round_half_even (n * 2 ^ (- q)) d in
  GovernanceBase.float_of neg m (q + e).

(** [x / n] of a double and a positive integer. *)
Definition float_div (x : pyfloat) (n : Z) : pyfloat :=
  quotient (f_neg x) (Z.of_N (f_mant x)) n (f_expo x).

Definition too_large (x : pyfloat) : bool :=
  (0 <? Z.of_N (f_mant x)) && (1024 <=? Z.log2 (Z.of_N (f_mant x)) + f_expo x).

(** [math.fsum(values)]: the correctly rounded exact sum. *)
Definition fsum (values : list pyfloat) : result exc pyfloat :=
  let e := foldr (λ v e, Z.min (f_expo v) e) 0 values in
  let total := foldr (λ v n, f_signed v e + n) 0 values in
  let s := quotient (total <? 0) (Z.abs total) 1 e in
  throw_if (too_large s) (OverflowError "intermediate overflow in fsum") ≫= λ _, Ok s.

(** [(b - a).total_seconds() / 60], for [a <= b] in microseconds. *)
Definition gap_minutes (microseconds : Z) : pyfloat :=
  float_div (quotient false microseconds 1000000 0) 60.

(** ** The ports of the detector *)

Class DetectorTelemetryRepository (W : Type) := {
  query_kpis : list string → Technology.t → option Z → option Z → list string →
    Eff W (list KpiObservation.t);
  collect_evidence : Incident.t → Eff W (list EvidenceReference.t)
}.
(** [str(uuid.uuid4())]. *)
Class Uuids (W : Type) := { uuid4 : Eff W string }.
(** The directory of the injected [JsonRuleRepository], as it is now. *)
Class RulesDirectory (W : Type) := { read_rules : Eff W Directory }.

(** ** Arguments *)

Section arguments.
Context `{R : Runtime}.

(** [_stable_digest]. *)
Definition stable_digest (parts : list json) : string := sha256_hex (dumps (JArr parts)).

(** [_assert_privacy_safe(value, boundary=...)]. *)
Definition assert_privacy_safe (value : json) (boundary : string) : result exc unit :=
  throw_if (negb (model_safe value))
    (SensitiveDataError (boundary +:+ " rejected by privacy policy")).

(** [_require_text] and, with 256, [_require_identifier]. *)
Definition require_text (name value : string) (max_length : Z) : result exc string :=
  let normalized := py_strip value in
  throw_if (str_eqb normalized EmptyString) (ValueError (name +:+ " is required")) ≫= λ _,
  throw_if (max_length <? py_len normalized)
    (ValueError (name +:+ " exceeds " +:+ pretty max_length +:+ " characters")) ≫= λ _,
  assert_privacy_safe (JStr normalized) name ≫= λ _,
  Ok normalized.
Definition require_identifier (name value : string) : result exc string :=
  require_text name value 256.

(** One bound of a scan window. *)
Definition window_bound (value : pydatetime) : result exc Z :=
  match value with
  | Naive _ => fail (ValueError "scan windows must be timezone-aware UTC")
  | Aware local offset =>
      throw_if (negb (offset =? 0)) (ValueError "scan windows must use UTC") ≫= λ _, Ok local
  end.

Definition scan_window (window_start window_end : option pydatetime) :
    result exc (option Z * option Z) :=
  throw_if (negb (Bool.eqb (isNone window_start) (isNone window_end)))
    (ValueError "window_start and window_end must be provided together") ≫= λ _,
  match window_start, window_end with
  | Some s, Some e =>
      window_bound s ≫= λ start, window_bound e ≫= λ end_,
      throw_if (end_ <? start)
        (ValueError "window_end must not be earlier than window_start") ≫= λ _,
      throw_if (MAX_SCAN_WINDOW <? end_ - start)
        (ValueError "scan window must not exceed 31 days") ≫= λ _,
      Ok (Some start, Some end_)
  | _, _ => Ok (None, None)
  end.

(** The loop over the resource identifiers. *)
Fixpoint canonical_ids (supplied : list string) : result exc (list string) :=
  match supplied with
  | [] => Ok []
  | raw :: supplied =>
      parse_lte_resource_id raw ≫= λ '(enodeb_id, cell_id),
      canonical_lte_resource_id enodeb_id cell_id ≫= λ id,
      canonical_ids supplied ≫= λ ids, Ok (id :: ids)
  end.

(** [sorted(set(...))] of texts. *)
Definition sorted_set (xs : list string) : list string :=
  py_sorted String.leb (elements (list_to_set (C := gset string) xs)).

(** [_validated_scan_scope]. *)
Definition validated_scan_scope (window_start window_end : option pydatetime)
    (resource_ids : list string) : result exc (option Z * option Z * list string) :=
  scan_window window_start window_end ≫= λ '(start, end_),
  throw_if (Nat.ltb MAX_SCAN_RESOURCE_IDS (length resource_ids))
    (ValueError "resource_ids must contain at most 100 items") ≫= λ _,
  assert_privacy_safe (JArr (map JStr resource_ids)) "resource_ids" ≫= λ _,
  canonical_ids resource_ids ≫= λ normalized,
  Ok (start, end_, sorted_set normalized).
End arguments.

(** ** Resources and episodes *)

(** [(resource_type.value, resource_id)]. *)
Definition resource_key (r : ResourceReference.t) : string * string :=
  (ResourceType.value (ResourceReference.resource_type r), ResourceReference.resource_id r).
(** [_resource_identity], [_deduplicate_resources]. *)
Definition resource_identity (resources : list ResourceReference.t) : list (string * string) :=
  map resource_key resources.
Fixpoint deduplicate (seen : gset (string * string)) (resources : list ResourceReference.t) :
    list ResourceReference.t :=
  match resources with
  | [] => []
  | r :: resources =>
      if bool_decide (resource_key r ∈ seen) then deduplicate seen resources
      else r :: deduplicate ({[resource_key r]} ∪ seen) resources
  end.
Definition deduplicate_resources : list ResourceReference.t → list ResourceReference.t :=
  deduplicate ∅.

(** [key=lambda item: (item.observed_at, item.observation_id)]. *)
Definition observation_leb (x y : KpiObservation.t) : bool :=
  if KpiObservation.observed_at x =? KpiObservation.observed_at y
  then String.leb (KpiObservation.observation_id x) (KpiObservation.observation_id y)
  else KpiObservation.observed_at x <? KpiObservation.observed_at y.

(** [gap_minutes > max_gap_minutes] between two observations in order. *)
Definition gap_exceeds (max_gap_minutes : Z) (a b : KpiObservation.t) : bool :=
  negb (float_leb (gap_minutes (KpiObservation.observed_at b - KpiObservation.observed_at a))
          (exact_int max_gap_minutes)).

(** The loop of [_episodes]: [previous] is [current[-1]], [current] the episode
    in hand without it, in reverse. *)
Fixpoint split_episodes (max_gap_minutes : Z) (current : list KpiObservation.t)
    (previous : KpiObservation.t) (rest : list KpiObservation.t) :
    list (list KpiObservation.t) :=
  match rest with
  | [] => [rev (previous :: current)]
  | observation :: rest =>
      if gap_exceeds max_gap_minutes previous observation
      then rev (previous :: current) :: split_episodes max_gap_minutes [] observation rest
      else split_episodes max_gap_minutes (previous :: current) observation rest
  end.
(** [_episodes]. *)
Definition episodes (observations : list KpiObservation.t) (max_gap_minutes : Z) :
    list (list KpiObservation.t) :=
  match py_sorted observation_leb observations with
  | [] => []
  | first :: rest => split_episodes max_gap_minutes [] first rest
  end.

(** [_validate_rule_observation]. *)
Definition validate_rule_observation (rule : RcaRule.t) (o : KpiObservation.t) :
    result exc bool :=
  let d := RcaRule.detection rule in
  if negb (str_eqb (KpiObservation.kpi_name o) (RuleDetection.kpi_name d)) then Ok false
  else
    throw_if (negb (bool_decide (KpiObservation.unit_ o = RuleDetection.unit_ d)))
      (ValueError ("KPI unit mismatch for rule " +:+ plain_repr (RcaRule.rule_id rule))) ≫= λ _,
    if existsb (λ flag, negb (str_eqb flag "SOURCE_TIMEZONE_ASSUMED_UTC"))
         (KpiObservation.quality_flags o)
    then Ok false
    else compare_values (ScFloat (KpiObservation.observed_value o))
           (RuleDetection.comparator d) (ScFloat (RuleDetection.threshold d)).

(** The observations a rule matches, in order. *)
Fixpoint matched (rule : RcaRule.t) (observations : list KpiObservation.t) :
    result exc (list KpiObservation.t) :=
  match observations with
  | [] => Ok []
  | o :: observations =>
      validate_rule_observation rule o ≫= λ keep : bool,
      matched rule observations ≫= λ kept,
      Ok (if keep then o :: kept else kept)
  end.

Definition Spec : Type := RcaRule.t * list KpiObservation.t.
Definition flat_identity (identity : list (string * string)) : list string :=
  flat_map (λ x, [x.1; x.2]) identity.
Definition identities_leb (x y : list (string * string)) : bool :=
  texts_leb (flat_identity x) (flat_identity y).

(** The groups of the matched observations, by resource identity, in order. *)
Definition groups (observations : list KpiObservation.t) : list (list KpiObservation.t) :=
  map snd (py_sorted (λ x y, identities_leb x.1 y.1)
             (grouped_by (λ o, resource_identity (KpiObservation.resources o)) observations)).

(** The innermost loop: the episodes of one group, with the two capacities. *)
Fixpoint add_episodes (rule : RcaRule.t) (found : list (list KpiObservation.t))
    (specs : list Spec) : result exc (list Spec) :=
  match found with
  | [] => Ok specs
  | episode :: found =>
      throw_if (Nat.ltb MAX_EPISODE_SAMPLES (length episode))
        (DetectorCapacityError ("detector episode capacity exceeded 1000 samples; "
           +:+ "narrow the telemetry time window")) ≫= λ _,
      let specs := specs ++ [(rule, episode)] in
      throw_if (Nat.ltb MAX_SCAN_CANDIDATES (length specs))
        (DetectorCapacityError ("detector candidate capacity exceeded 100; "
           +:+ "narrow the telemetry time window")) ≫= λ _,
      add_episodes rule found specs
  end.
Fixpoint add_groups (rule : RcaRule.t) (grouped : list (list KpiObservation.t))
    (specs : list Spec) : result exc (list Spec) :=
  match grouped with
  | [] => Ok specs
  | group :: grouped =>
      add_episodes rule
        (episodes group (RuleDetection.max_gap_minutes (RcaRule.detection rule))) specs
        ≫= λ specs, add_groups rule grouped specs
  end.
Fixpoint episode_specs (rules : list RcaRule.t) (observations : list KpiObservation.t)
    (specs : list Spec) : result exc (list Spec) :=
  match rules with
  | [] => Ok specs
  | rule :: rules =>
      matched rule observations ≫= λ kept,
      add_groups rule (groups kept) specs ≫= λ specs,
      episode_specs rules observations specs
  end.

(** ** One candidate *)

(** [key=lambda item: (evidence_type.value, evidence_id, uri)]. *)
Definition evidence_leb (x y : EvidenceReference.t) : bool :=
  let key e := [EvidenceType.value (EvidenceReference.evidence_type e);
                EvidenceReference.evidence_id e; EvidenceReference.uri e] in
  texts_leb (key x) (key y).

(** [",".join(texts)]. *)
Fixpoint comma_joined (texts : list string) : string :=
  match texts with
  | [] => EmptyString
  | [t] => t
  | t :: texts => t +:+ "," +:+ comma_joined texts
  end.

Section candidate.
Context `{R : Runtime}.
Context (rule : RcaRule.t) (first : KpiObservation.t) (others : list KpiObservation.t).

(** The episode is [first :: others]. *)
Definition episode_of : list KpiObservation.t := first :: others.
Definition episode_resources : list ResourceReference.t :=
  deduplicate_resources (KpiObservation.resources first).
Definition episode_start : Z := KpiObservation.observed_at first.
Definition episode_end : Z := KpiObservation.observed_at (List.last others first).
Definition source_ids : list string := map KpiObservation.observation_id episode_of.
Definition all_quality_flags : list string :=
  sorted_set (flat_map KpiObservation.quality_flags episode_of).

Definition correlation_key_of : string :=
  "correlation-" +:+
  stable_digest [ JStr "detector-episode-v1"; JStr (RcaRule.rule_id rule);
    JStr (RcaRule.version rule);
    JArr (map (λ x, JArr [JStr x.1; JStr x.2]) (resource_identity episode_resources));
    JStr (isoformat episode_start) ].

(** [math.fsum(values) / len(values)]. *)
Definition mean_value : result exc pyfloat :=
  fsum (map KpiObservation.observed_value episode_of) ≫= λ total,
  Ok (float_div total (Z.of_nat (length episode_of))).

Definition detection_snapshot : json :=
  let d := RcaRule.detection rule in
  JObj [ ("observations", JArr (map (λ o, JObj
            [ ("observation_id", JStr (KpiObservation.observation_id o));
              ("observed_at", JStr (isoformat (KpiObservation.observed_at o)));
              ("observed_value", JFloat (KpiObservation.observed_value o));
              ("quality_flags", JArr (map JStr (KpiObservation.quality_flags o))) ]) episode_of));
         ("resources", JArr (map ResourceReference.stable_identity episode_resources));
         ("rule", JObj
            [ ("comparator", JStr (KpiComparator.value (RuleDetection.comparator d)));
              ("content_sha256", JStr (rule_content_sha256 rule));
              ("kpi_name", JStr (RuleDetection.kpi_name d));
              ("max_gap_minutes", JInt (RuleDetection.max_gap_minutes d));
              ("rule_id", JStr (RcaRule.rule_id rule));
              ("threshold", JFloat (RuleDetection.threshold d));
              ("unit", json_opt JStr (RuleDetection.unit_ d));
              ("version", JStr (RcaRule.version rule)) ]);
         ("source_event_ids", JArr (map JStr source_ids));
         ("window_end", JStr (isoformat episode_end));
         ("window_start", JStr (isoformat episode_start)) ].

Definition violation_digest (observed_value : pyfloat) : string :=
  let d := RcaRule.detection rule in
  stable_digest [ JStr "kpi-violation-v2"; JObj
    [ ("aggregation", JStr "arithmetic_mean_of_violating_samples");
      ("comparator", JStr (KpiComparator.value (RuleDetection.comparator d)));
      ("kpi_name", JStr (RuleDetection.kpi_name d));
      ("max_gap_minutes", JInt (RuleDetection.max_gap_minutes d));
      ("observed_value", JFloat observed_value);
      ("quality_flags", JArr (map JStr all_quality_flags));
      ("resource_ids", JArr (map (JStr ∘ ResourceReference.resource_id) episode_resources));
      ("rule_id", JStr (RcaRule.rule_id rule));
      ("rule_version", JStr (RcaRule.version rule));
      ("sample_count", JInt (Z.of_nat (length episode_of)));
      ("source_event_ids", JArr (map JStr source_ids));
      ("threshold", JFloat (RuleDetection.threshold d));
      ("unit", json_opt JStr (RuleDetection.unit_ d));
      ("window_end", JStr (isoformat episode_end));
      ("window_start", JStr (isoformat episode_start)) ] ].

(** [KpiViolation(...)]. *)
Definition episode_violation (observed_value : pyfloat) : KpiViolation.t :=
  let d := RcaRule.detection rule in
  KpiViolation.mk (Some ("violation-" +:+ violation_digest observed_value))
    (RuleDetection.kpi_name d) observed_value (RuleDetection.threshold d)
    (RuleDetection.comparator d) (RuleDetection.unit_ d) (Some episode_start) (Some episode_end)
    (Some (RcaRule.rule_id rule)) (Some (RcaRule.version rule))
    (map ResourceReference.resource_id episode_resources)
    {[ "aggregation" := "arithmetic_mean_of_violating_samples";
       "max_gap_minutes" := pretty (RuleDetection.max_gap_minutes d);
       "quality_flags" := comma_joined all_quality_flags;
       "sample_count" := pretty (length episode_of) ]}.

Definition DETECTOR_ALGORITHM : string := "deterministic-threshold-episodes-v3".

(** [Incident(...)], with its identifier and its evidence. *)
Definition candidate_incident (trace_id incident_id : string) (violation : KpiViolation.t)
    (evidence : list EvidenceReference.t) : Incident.t :=
  Incident.mk incident_id (Some correlation_key_of) source_ids Technology.LTE None
    IncidentStatus.DETECTED IncidentSeverity.UNKNOWN
    (RuleDetection.kpi_name (RcaRule.detection rule) +:+ " KPI 异常")
    (RcaRule.description_zh rule) episode_resources episode_end (Some episode_start)
    (Some episode_end) [violation] evidence [] None [] [] [] [] []
    {[ "detector_algorithm" := JStr DETECTOR_ALGORITHM;
       "rule_content_hashes" :=
         JObj [(RcaRule.rule_id rule, JStr (rule_content_sha256 rule))] ]}
    {[ RcaRule.rule_id rule := RcaRule.version rule ]}
    trace_id None episode_end episode_end 0.

Definition preview_id : string :=
  "preview-" +:+ stable_digest [JStr "detector-evidence-scope-v3"; detection_snapshot].
Definition candidate_id (evidence : list EvidenceReference.t) : string :=
  "incident-" +:+
  stable_digest [ JStr "detector-candidate-v3"; detection_snapshot;
    JObj [("evidence_refs", JArr (map EvidenceReference.to_json evidence))] ].

Definition summary_of : string :=
  "发现 " +:+ RuleDetection.kpi_name (RcaRule.detection rule) +:+ " 异常：" +:+
  isoformat episode_start +:+ " 至 " +:+ isoformat episode_end +:+ "，共 " +:+
  pretty (length episode_of) +:+ " 个违规采样。".

Context `{DetectorTelemetryRepository W, Uuids W, TrustedClock W}.

(** [_now]. *)
Definition detector_now : Eff W Z :=
  clock ≫= λ value,
  pure match value with
       | Naive _ => Err (ValueError "detector clock must return a timezone-aware datetime")
       | Aware local offset => Ok (local - offset)
       end.

(** [_trigger_for_episode]. *)
Definition trigger_for_episode (trace_id workflow_id : string) :
    Eff W (Envelope.t * IncidentTrigger) :=
  pure mean_value ≫= λ observed_value : pyfloat,
  let violation := episode_violation observed_value in
  pure (validated (KpiViolation.check violation)) ≫= λ _ : unit,
  pure (validated (Incident.model_validate
    (candidate_incident trace_id preview_id violation []))) ≫= λ preview : Incident.t,
  collect_evidence preview ≫= λ collected : list EvidenceReference.t,
  let evidence := py_sorted evidence_leb collected in
  let incident_id := candidate_id evidence in
  pure (validated (Incident.model_validate
    (candidate_incident trace_id incident_id violation evidence))) ≫= λ incident : Incident.t,
  uuid4 ≫= λ message_id : string,
  uuid4 ≫= λ envelope_idempotency_key : string,
  detector_now ≫= λ sent_at : Z,
  let envelope := Envelope.mk message_id workflow_id incident_id trace_id
                    envelope_idempotency_key sent_at in
  let trigger := mk_trigger incident summary_of in
  pure (validated (check_message (mk_message envelope (ITrigger trigger)))) ≫= λ _ : unit,
  pure (Ok (envelope, trigger)).
End candidate.

(** ** [scan] and [confirm] *)

Section detector.
Context `{R : Runtime, D : RuleDecoder}.
Context `{DetectorTelemetryRepository W, Uuids W, TrustedClock W, RulesDirectory W}.

Definition Candidate : Type := Envelope.t * IncidentTrigger.
Definition candidate_incident_of (c : Candidate) : Incident.t := trigger_incident c.2.

(** The list comprehension over the episodes. *)
Fixpoint triggers_for (trace_id workflow_id : string) (specs : list Spec) :
    Eff W (list Candidate) :=
  match specs with
  | [] => pure (Ok [])
  | (_, []) :: specs => triggers_for trace_id workflow_id specs
  | (rule, first :: others) :: specs =>
      trigger_for_episode rule first others trace_id workflow_id ≫= λ candidate : Candidate,
      triggers_for trace_id workflow_id specs ≫= λ candidates : list Candidate,
      pure (Ok (candidate :: candidates))
  end.

(** [key=lambda item: (window_start, window_end, incident_id)]. *)
Definition candidate_leb (x y : Candidate) : bool :=
  let bound (o : option Z) := default 0 o in
  let i := candidate_incident_of x in
  let j := candidate_incident_of y in
  if bound (Incident.window_start i) =? bound (Incident.window_start j) then
    if bound (Incident.window_end i) =? bound (Incident.window_end j)
    then String.leb (Envelope.incident_id x.1) (Envelope.incident_id y.1)
    else bound (Incident.window_end i) <? bound (Incident.window_end j)
  else bound (Incident.window_start i) <? bound (Incident.window_start j).

Definition candidates_json (candidates : list Candidate) : json :=
  JArr (map (λ c, message_json (mk_message c.1 (ITrigger c.2))) candidates).

(** The part of [scan] after its arguments have been checked. *)
Definition scan_scope (trace_id workflow_id : string)
    (scope : option Z * option Z * list string) : Eff W (list Candidate) :=
  read_rules ≫= λ root : Directory,
  pure (load_all root) ≫= λ loaded : list RcaRule.t,
  let rules := List.filter (λ r, str_eqb (RcaRule.technology r) (Technology.value Technology.LTE))
                 loaded in
  pure (throw_if (Nat.ltb MAX_CURRENT_RULES (length rules))
    (DetectorCapacityError "detector rule capacity exceeded 32")) ≫= λ _ : unit,
  match rules with
  | [] => pure (Ok [])
  | _ =>
      let kpi_names := sorted_set (map (λ r, RuleDetection.kpi_name (RcaRule.detection r)) rules) in
      query_kpis kpi_names Technology.LTE scope.1.1 scope.1.2 scope.2
        ≫= λ observations : list KpiObservation.t,
      pure (throw_if (Z.of_nat (length observations) =? MAX_QUERY_OBSERVATIONS)
        (DetectorCapacityError ("detector observation capacity reached 50000; the scan may be "
           +:+ "incomplete, so use a bounded time window or paginated scan"))) ≫= λ _ : unit,
      pure (episode_specs rules observations []) ≫= λ specs : list Spec,
      triggers_for trace_id workflow_id specs ≫= λ triggers : list Candidate,
      let result := py_sorted candidate_leb triggers in
      pure (assert_privacy_safe (candidates_json result) "detector result") ≫= λ _ : unit,
      pure (Ok result)
  end.

Definition scan (trace_id : string) (workflow_id : option string)
    (window_start window_end : option pydatetime) (resource_ids : list string) :
    Eff W (list Candidate) :=
  pure (require_identifier "trace_id" trace_id) ≫= λ normalized_trace_id : string,
  match workflow_id with
  | Some w => pure (require_identifier "workflow_id" w)
  | None => uuid4
  end ≫= λ normalized_workflow_id : string,
  pure (throw_if (str_eqb normalized_workflow_id normalized_trace_id)
    (ValueError "workflow_id and trace_id must be independent")) ≫= λ _ : unit,
  pure (validated_scan_scope window_start window_end resource_ids)
    ≫= λ scope : option Z * option Z * list string,
  scan_scope normalized_trace_id normalized_workflow_id scope.

(** The candidate [confirm] looks for. *)
Definition select (candidate_id : string) (candidates : list Candidate) : option Incident.t :=
  candidate_incident_of <$>
    next_such (λ c, str_eqb (Envelope.incident_id c.1) candidate_id) candidates.

(** The original request of a replayed creation. *)
Definition replay_snapshot (replay : Incident.t) : result exc Incident.t :=
  throw_if (negb (bool_decide (Incident.status replay = IncidentStatus.DETECTED))
            || negb (Incident.revision replay =? 0)
            || isNone (Incident.window_end replay)
            || negb (bool_decide (Some (Incident.detected_at replay) = Incident.window_end replay)))
    (ValueError "candidate replay cannot reconstruct the original snapshot") ≫= λ _,
  validated (Incident.model_validate
    (with_times replay (Incident.detected_at replay) (Incident.detected_at replay))).

Context `{IncidentRepository W}.

Definition confirm (candidate_id trace_id idempotency_key actor reason : string)
    (window_start window_end : option pydatetime) (resource_ids : list string) :
    Eff W Incident.t :=
  pure (require_identifier "candidate_id" candidate_id) ≫= λ normalized_candidate_id : string,
  pure (require_identifier "trace_id" trace_id) ≫= λ normalized_trace_id : string,
  pure (require_identifier "idempotency_key" idempotency_key)
    ≫= λ normalized_idempotency_key : string,
  pure (require_identifier "actor" actor) ≫= λ normalized_actor : string,
  pure (require_text "reason" reason 4096) ≫= λ normalized_reason : string,
  pure (validated_scan_scope window_start window_end resource_ids)
    ≫= λ '(start, end_, ids),
  let rescan :=
    scan normalized_trace_id None ((λ t, Aware t 0) <$> start) ((λ t, Aware t 0) <$> end_) ids
      ≫= λ candidates : list Candidate,
    pure (Ok (select normalized_candidate_id candidates)) in
  Ports.find_by_idempotency_key normalized_candidate_id normalized_idempotency_key
    "create_or_correlate" ≫= λ replay : option Incident.t,
  match replay with
  | Some replay =>
      if str_eqb (Incident.incident_id replay) normalized_candidate_id
      then pure (replay_snapshot replay ≫= λ i, Ok (Some i))
      else rescan
  | None => rescan
  end ≫= λ selected : option Incident.t,
  pure (of_option selected
    (ValueError "candidate is unavailable after deterministic rescan"))
    ≫= λ selected_incident : Incident.t,
  Ports.create_or_correlate selected_incident
    (mk_metadata normalized_idempotency_key normalized_actor normalized_reason
       normalized_trace_id) ≫= λ result : Incident.t,
  pure (assert_privacy_safe (Incident.to_json result) "confirmed incident") ≫= λ _ : unit,
  pure (Ok result).
End detector.
