(* ===== verification/DetectorEpisodes.v ===== *)
(** * Episodes

    [_episodes] cuts the observations, in order, at exactly the gaps that are
    too long. *)

From Stdlib Require Import Ascii String.
From S2P Require Import Prelude PyStr Json Models Errors.
From S2P Require Import PyEq.
From S2P Require GovernanceBase.
From S2P Require Import Rules.
From S2P Require Import RuleResolution.
From S2P Require Import RuleFacts.
From S2P Require Import Detector.

Implicit Types (o : KpiObservation.t) (l : list KpiObservation.t).

(** ** Cutting a list at its gaps *)

Section runs.
Context (g : Z).

Definition near (a b : KpiObservation.t) : Prop := gap_exceeds g a b = false.
Definition apart (x y : list KpiObservation.t) : Prop :=
  ∃ a b, last x = Some a ∧ head y = Some b ∧ gap_exceeds g a b = true.

(** [runs] cuts [l] into nonempty pieces: no gap within a piece, a gap between
    one piece and the next. *)
Definition cut_at_gaps l (runs : list (list KpiObservation.t)) : Prop :=
  List.concat runs = l ∧ Forall (λ run, run ≠ []) runs ∧ Forall (Sorted near) runs ∧
  Sorted apart runs.

Lemma Sorted_snoc {A} (P : A → A → Prop) (xs : list A) a b :
  Sorted P (xs ++ [a]) → P a b → Sorted P (xs ++ [a; b]).
Proof.
  induction xs as [|x xs IH]; cbn; intros Hs Hab.
  - constructor; [by repeat constructor|by constructor].
  - inversion_clear Hs as [|? ? Hs' Hh]. constructor; [by apply IH|].
    destruct xs as [|y xs]; cbn in *; inversion_clear Hh; by constructor.
Qed.

Lemma split_episodes_head current previous rest :
  ∃ tl more, split_episodes g current previous rest = (rev current ++ previous :: tl) :: more.
Proof.
  revert current previous. induction rest as [|o rest IH]; intros current previous;
    cbn [split_episodes].
  - exists [], []. done.
  - destruct (gap_exceeds g previous o); [by eexists [], _|].
    destruct (IH (previous :: current) o) as (tl & more & ->).
    exists (o :: tl), more. cbn. by rewrite <- app_assoc.
Qed.

Lemma split_episodes_cut current previous rest :
  Sorted near (rev (previous :: current)) →
  cut_at_gaps (rev (previous :: current) ++ rest) (split_episodes g current previous rest).
Proof.
  revert current previous. induction rest as [|o rest IH]; intros current previous Hs;
    cbn [split_episodes].
  - split_and!; [cbn; by rewrite !app_nil_r| | |].
    + constructor; [|constructor]. cbn. intros H. by apply app_eq_nil in H as [_ H].
    + by repeat constructor.
    + by repeat constructor.
  - destruct (gap_exceeds g previous o) eqn:E.
    + destruct (IH [] o) as (Hc & Hn & Hr & Ha); [by repeat constructor|].
      split_and!; [cbn [List.concat]; by rewrite Hc| | |].
      * constructor; [|done]. cbn. intros H. by apply app_eq_nil in H as [_ H].
      * by constructor.
      * constructor; [done|].
        destruct (split_episodes_head [] o rest) as (tl & more & ->). constructor.
        exists previous, o. cbn. by rewrite last_snoc.
    + destruct (IH (previous :: current) o) as (Hc & Hn & Hr & Ha).
      { cbn in *. rewrite <- app_assoc. by apply Sorted_snoc. }
      split_and!; [|done..]. rewrite Hc. cbn. by rewrite <- !app_assoc.
Qed.

(** A piece cannot be extended over a gap. *)
Lemma cut_head_stable (r1 r2 : list KpiObservation.t) rs1 rest x t :
  r1 ≠ [] → Forall (λ run, run ≠ []) rs1 → Sorted apart (r1 :: rs1) →
  List.concat rs1 = x :: rest → r2 = r1 ++ x :: t → ¬ Sorted near r2.
Proof.
  intros Hn Hne Ha Hc -> Hs. destruct rs1 as [|r rs1]; [done|].
  apply Forall_cons in Hne as [Hr _]. inversion_clear Ha as [|? ? _ Hh].
  inversion_clear Hh as [|? ? (a & b & Hla & Hhb & Hg)].
  destruct r as [|b' r]; [done|]. cbn in Hc, Hhb. injection Hc as -> _. injection Hhb as ->.
  destruct r1 as [|y r1] using rev_ind; [done|]. rewrite last_snoc in Hla. injection Hla as ->.
  rewrite <- app_assoc in Hs. clear -Hs Hg. induction r1 as [|z r1 IH]; cbn in Hs.
  - inversion_clear Hs as [|? ? _ Hh]. inversion_clear Hh as [|? ? Hab]. unfold near in Hab. congruence.
  - inversion_clear Hs. by apply IH.
Qed.

Lemma cut_at_gaps_unique l runs1 runs2 :
  cut_at_gaps l runs1 → cut_at_gaps l runs2 → runs1 = runs2.
Proof.
  revert l runs2. induction runs1 as [|r1 rs1 IH]; intros l runs2 (Hc1 & Hn1 & Hr1 & Ha1)
    (Hc2 & Hn2 & Hr2 & Ha2).
  - rewrite <- Hc1 in Hc2. destruct runs2 as [|r2 rs2]; [done|]. cbn in Hc2.
    apply app_eq_nil in Hc2 as [-> _]. by apply Forall_cons in Hn2 as [? _].
  - destruct runs2 as [|r2 rs2].
    { rewrite <- Hc2 in Hc1. cbn in Hc1. apply app_eq_nil in Hc1 as [-> _].
      by apply Forall_cons in Hn1 as [? _]. }
    cbn [List.concat] in Hc1, Hc2.
    pose proof Hn1 as [Hr1n Hn1']%Forall_cons. pose proof Hn2 as [Hr2n Hn2']%Forall_cons.
    apply Forall_cons in Hr1 as [Hs1 Hr1], Hr2 as [Hs2 Hr2].
    assert (r1 = r2) as ->.
    { rewrite <- Hc2 in Hc1. destruct (List.app_eq_app _ _ _ _ Hc1) as ([|x t] & [[E1 E2]|[E1 E2]]);
        rewrite ?app_nil_r in E1; try done; exfalso.
      - by eapply (cut_head_stable r2 r1 rs2).
      - by eapply (cut_head_stable r1 r2 rs1). }
    f_equal. apply (IH (List.concat rs1)); [split_and!; try done; by inversion Ha1|].
    rewrite <- Hc2 in Hc1. apply app_inv_head in Hc1. split_and!; try done; by inversion Ha2.
Qed.
End runs.

Lemma episodes_cut l g : cut_at_gaps g (py_sorted observation_leb l) (episodes l g).
Proof.
  unfold episodes. destruct (py_sorted observation_leb l) as [|o rest].
  - split_and!; constructor.
  - apply (split_episodes_cut g [] o rest). by repeat constructor.
Qed.

(** C25. [_episodes] cuts the observations, in the order of their times, at exactly
    the gaps that exceed the limit: its result is the only list of nonempty
    pieces of the sorted observations with no such gap inside a piece and one
    between any two neighbours. *)
Theorem episodes_exact l g runs :
  runs = episodes l g ↔ cut_at_gaps g (py_sorted observation_leb l) runs.
Proof.
  split; [intros ->; apply episodes_cut|]. intros Hr.
  by apply (cut_at_gaps_unique g (py_sorted observation_leb l)), episodes_cut.
Qed.
