(* ===== verification/DetectorFloats.v ===== *)
(** * The floating-point comparison of gaps is exact

    [quotient] rounds to the nearest double: bounds on its result, in units of
    the smallest exponent of a double, and their consequence for the test
    [gap_minutes > max_gap_minutes]. *)

From Stdlib Require Import Ascii String.
From S2P Require Import Prelude PyStr Json Models Errors.
From S2P Require Import PyEq.
From S2P Require GovernanceBase.
From S2P Require Import Rules.
From S2P Require Import RuleFacts.
From S2P Require Import Detector.

(** ** Rounding to an integer *)

Section rounding.
Context (n d : Z) (Hd : 0 < d).
Let r := GovernanceBase.round_half_even n d.

Lemma round_le t : n ≤ t * d → r ≤ t.
Proof.
  intros Ht. unfold r, GovernanceBase.round_half_even.
  pose proof (Z.div_mod n d ltac:(lia)) as Hn. pose proof (Z.mod_pos_bound n d Hd).
  set (q := n / d) in *. set (m := n mod d) in *.
  destruct (Z.ltb_spec (2 * m) d), (Z.ltb_spec d (2 * m)), (Z.even q); nia.
Qed.

Lemma round_gt : n < (r + 1) * d.
Proof.
  unfold r, GovernanceBase.round_half_even.
  pose proof (Z.div_mod n d ltac:(lia)) as Hn. pose proof (Z.mod_pos_bound n d Hd).
  set (q := n / d) in *. set (m := n mod d) in *.
  destruct (Z.ltb_spec (2 * m) d), (Z.ltb_spec d (2 * m)), (Z.even q); nia.
Qed.

Lemma round_nonneg : 0 ≤ n → 0 ≤ r.
Proof.
  intros Hn. unfold r, GovernanceBase.round_half_even.
  pose proof (Z.div_pos n d Hn Hd).
  destruct (2 * (n mod d) <? d), (d <? 2 * (n mod d)), (Z.even (n / d)); lia.
Qed.
End rounding.

(** ** The value of a double, in units of [2^-1074] *)

Definition units (x : pyfloat) : Z := f_signed x (-1074).

Lemma float_leb_units x y :
  -1074 ≤ f_expo x → -1074 ≤ f_expo y → float_leb x y = (units x <=? units y).
Proof. apply float_leb_at. Qed.

Lemma odd_part_spec p e :
  let (q, e') := GovernanceBase.odd_part p e in e ≤ e' ∧ Z.pos p = Z.pos q * 2 ^ (e' - e).
Proof.
  revert e. induction p as [p IH|p IH|]; intros e; cbn [GovernanceBase.odd_part].
  - split; [lia|]. rewrite Z.sub_diag. lia.
  - specialize (IH (e + 1)). destruct (GovernanceBase.odd_part p (e + 1)) as [q e'].
    destruct IH as [Hle IH]. split; [lia|].
    replace (e' - e) with (1 + (e' - (e + 1))) by lia.
    rewrite Z.pow_add_r by lia. lia.
  - split; [lia|]. rewrite Z.sub_diag. lia.
Qed.

Lemma units_float_of m E :
  0 ≤ m → -1074 ≤ E →
  units (GovernanceBase.float_of false m E) = m * 2 ^ (E + 1074) ∧
  -1074 ≤ f_expo (GovernanceBase.float_of false m E) ∧
  f_neg (GovernanceBase.float_of false m E) = false.
Proof.
  intros Hm HE. unfold units, GovernanceBase.float_of. destruct m as [|p|p]; [done| |lia].
  pose proof (odd_part_spec p E) as H. destruct (GovernanceBase.odd_part p E) as [q e'].
  destruct H as [Hle Hp]. unfold f_signed. cbn [f_neg f_mant f_expo]. split_and!; [|lia|done].
  rewrite Hp. replace (e' - -1074) with ((e' - E) + (E + 1074)) by lia.
  rewrite Z.pow_add_r by lia. cbn. lia.
Qed.

(** ** The exponent of a quotient *)

Definition quotient_log (n d : Z) : Z :=
  let k := Z.log2 n - Z.log2 d in
  let below := if 0 <=? k then n <? d * 2 ^ k else n * 2 ^ (- k) <? d in
  if below then k - 1 else k.

(** [2^L <= n / d < 2^(L+1)], at the scale [2^s]. *)
Lemma quotient_log_spec n d s :
  0 < n → 0 < d → 0 ≤ s → 0 ≤ s + quotient_log n d →
  d * 2 ^ (quotient_log n d + s) ≤ n * 2 ^ s < d * 2 ^ (quotient_log n d + 1 + s).
Proof.
  intros Hn Hd Hs HL.
  pose proof (Z.log2_spec n Hn) as [Hn1 Hn2]. pose proof (Z.log2_spec d Hd) as [Hd1 Hd2].
  pose proof (Z.log2_nonneg n). pose proof (Z.log2_nonneg d).
  unfold quotient_log in *. set (ln := Z.log2 n) in *. set (ld := Z.log2 d) in *.
  rewrite Z.pow_succ_r in Hn2, Hd2 by done.
  assert (0 < 2 ^ s) as Hps by (apply Z.pow_pos_nonneg; lia).
  assert (0 ≤ ln - ld + s) as Hk0.
  { destruct (if 0 <=? ln - ld then _ else _); lia. }
  assert (2 ^ (ln - ld + s) * 2 ^ ld = 2 ^ ln * 2 ^ s) as Hpk.
  { rewrite <- !Z.pow_add_r by lia. f_equal. lia. }
  assert (0 < 2 ^ (ln - ld + s)) by (apply Z.pow_pos_nonneg; lia).
  assert ((if 0 <=? ln - ld then n <? d * 2 ^ (ln - ld) else n * 2 ^ (- (ln - ld)) <? d)
          = (n * 2 ^ s <? d * 2 ^ (ln - ld + s))) as Hb.
  { destruct (Z.leb_spec 0 (ln - ld)).
    - rewrite (Z.add_comm (ln - ld) s), Z.pow_add_r by lia. apply eq_true_iff_eq.
      rewrite !Z.ltb_lt. nia.
    - replace s with (- (ln - ld) + (ln - ld + s)) at 1 by lia.
      rewrite (Z.pow_add_r 2 (- (ln - ld))) by lia. apply eq_true_iff_eq. rewrite !Z.ltb_lt. nia. }
  rewrite Hb in *. destruct (Z.ltb_spec (n * 2 ^ s) (d * 2 ^ (ln - ld + s))) as [Hlt|Hge].
  - replace (ln - ld - 1 + 1 + s) with (ln - ld + s) by lia. split; [|done].
    assert (2 * 2 ^ (ln - ld - 1 + s) = 2 ^ (ln - ld + s)) as H2.
    { rewrite <- Z.pow_succ_r by lia. f_equal. lia. }
    nia.
  - split; [done|]. replace (ln - ld + 1 + s) with (Z.succ (ln - ld + s)) by lia.
    rewrite Z.pow_succ_r by lia. nia.
Qed.

(** What a quotient is worth: [G] is its last place. *)
Lemma quotient_spec n d e :
  0 < n → 0 < d → -1074 ≤ e →
  let q := Z.max (quotient_log n d - 52) (-1074 - e) in
  let G := 2 ^ (q + e + 1074) in
  let U := n * 2 ^ (e + 1074) in
  let V := units (quotient false n d e) in
  U < V * d + G * d ∧ (∀ T, U ≤ T * G * d → V ≤ T * G) ∧ 0 ≤ V ∧
  -1074 ≤ f_expo (quotient false n d e) ∧ f_neg (quotient false n d e) = false.
Proof.
  intros Hn Hd He q G U V.
  assert (-1074 - e ≤ q) as Hq by (unfold q; lia).
  set (m := if 0 <=? q then GovernanceBase.round_half_even n (d * 2 ^ q)
            else GovernanceBase.round_half_even (n * 2 ^ (- q)) d).
  assert (quotient false n d e = GovernanceBase.float_of false m (q + e)) as Hx by done.
  assert (0 < 2 ^ (e + 1074)) by (apply Z.pow_pos_nonneg; lia).
  assert (0 < G) as HG by (apply Z.pow_pos_nonneg; lia).
  assert (U < m * G * d + G * d ∧ (∀ T, U ≤ T * G * d → m ≤ T) ∧ 0 ≤ m) as (H1 & H2 & H3).
  { unfold m, U. destruct (Z.leb_spec 0 q).
    - assert (G = 2 ^ q * 2 ^ (e + 1074)) as ->.
      { unfold G. rewrite <- Z.pow_add_r by lia. f_equal. lia. }
      assert (0 < 2 ^ q) by (apply Z.pow_pos_nonneg; lia).
      assert (0 < d * 2 ^ q) as Hdq by lia.
      pose proof (round_gt n (d * 2 ^ q) Hdq). split_and!; [nia| |by apply round_nonneg; lia].
      intros T HT. apply round_le; [done|]. nia.
    - assert (2 ^ (e + 1074) = 2 ^ (- q) * G) as ->.
      { unfold G. rewrite <- Z.pow_add_r by lia. f_equal. lia. }
      assert (0 < 2 ^ (- q)) by (apply Z.pow_pos_nonneg; lia).
      pose proof (round_gt (n * 2 ^ (- q)) d Hd). split_and!; [nia| |by apply round_nonneg; lia].
      intros T HT. apply round_le; [done|]. nia. }
  destruct (units_float_of m (q + e)) as (HV & Hexp & Hneg); [done|lia|].
  unfold V. rewrite Hx, HV. fold G. split_and!; [lia| |nia|done|done].
  intros T HT. specialize (H2 T HT). nia.
Qed.

(** In the normal range the error is at most one part in [2^52]. *)
Lemma quotient_error n d e :
  0 < n → 0 < d → -1074 ≤ e → -1022 ≤ quotient_log n d + e →
  let U := n * 2 ^ (e + 1074) in
  let V := units (quotient false n d e) in
  U * (2 ^ 52 - 1) < V * d * 2 ^ 52.
Proof.
  intros Hn Hd He HL U V.
  destruct (quotient_spec n d e Hn Hd He) as (H1 & _). fold U V in H1.
  rewrite Z.max_l in H1 by lia.
  pose proof (quotient_log_spec n d (e + 1074) Hn Hd ltac:(lia) ltac:(lia)) as [H2 _].
  fold U in H2.
  replace (quotient_log n d + (e + 1074)) with (52 + (quotient_log n d - 52 + e + 1074)) in H2 by lia.
  rewrite Z.pow_add_r in H2 by lia. nia.
Qed.

(** A multiple of the last place bounds the rounded quotient. *)
Lemma quotient_upper n d e t :
  0 < n → 0 < d → -1074 ≤ e → quotient_log n d + e ≤ 52 →
  n * 2 ^ (e + 1074) ≤ t * 2 ^ 1074 * d →
  units (quotient false n d e) ≤ t * 2 ^ 1074.
Proof.
  intros Hn Hd He HL Ht.
  destruct (quotient_spec n d e Hn Hd He) as (_ & H & _).
  set (q := Z.max (quotient_log n d - 52) (-1074 - e)) in *.
  assert (-1074 ≤ q + e ≤ 0) as Hq by lia.
  assert (2 ^ 1074 = 2 ^ (- (q + e)) * 2 ^ (q + e + 1074)) as Hp.
  { rewrite <- Z.pow_add_r by lia. f_equal. lia. }
  rewrite Hp, Z.mul_assoc. apply H. rewrite Hp in Ht. lia.
Qed.

Lemma quotient_log_bounds n d : 0 < n → 0 < d →
  Z.log2 n - Z.log2 d - 1 ≤ quotient_log n d ≤ Z.log2 n - Z.log2 d.
Proof. intros _ _. unfold quotient_log. destruct (if 0 <=? _ then _ else _); lia. Qed.

(** ** Gaps *)

Lemma units_exact g : 0 ≤ g → units (exact_int g) = g * 2 ^ 1074.
Proof.
  intros Hg. unfold units, f_signed, exact_int. cbn [f_neg f_mant f_expo].
  rewrite (proj2 (Z.ltb_ge _ _)) by done.
  rewrite Z2N.id by lia. rewrite Z.abs_eq by done.
  change (0 - -1074) with 1074. rewrite Z.mul_1_l. done.
Qed.

Lemma units_nonneg_value x :
  f_neg x = false → units x = Z.of_N (f_mant x) * 2 ^ (f_expo x + 1074).
Proof.
  intros Hx. unfold units, f_signed. rewrite Hx.
  replace (f_expo x - -1074) with (f_expo x + 1074) by lia. lia.
Qed.

(** The seconds of a gap, and how they are written as a double. *)
Lemma seconds_bounds us :
  0 < us < 2 ^ 62 →
  let S := quotient false us 1000000 0 in
  us * 2 ^ 1074 * (2 ^ 52 - 1) < units S * 1000000 * 2 ^ 52 ∧
  (∀ t, us ≤ t * 1000000 → units S ≤ t * 2 ^ 1074) ∧
  2 ^ 1053 ≤ units S ≤ 2 ^ 43 * 2 ^ 1074 ∧
  -1074 ≤ f_expo S ∧ f_neg S = false.
Proof.
  intros [H0 H62] S.
  destruct (quotient_spec us 1000000 0) as (_ & _ & _ & Hexp & Hneg); [lia..|].
  assert (Z.log2 us < 62) as Hlog by (apply Z.log2_lt_pow2; lia).
  pose proof (Z.log2_nonneg us).
  pose proof (quotient_log_bounds us 1000000 H0 ltac:(lia)) as HL.
  change (Z.log2 1000000) with 19 in HL.
  assert (∀ t, us ≤ t * 1000000 → units S ≤ t * 2 ^ 1074) as Hup.
  { intros t Ht. apply quotient_upper; lia. }
  pose proof (quotient_error us 1000000 0 H0 ltac:(lia) ltac:(lia) ltac:(lia)) as Herr.
  cbn zeta in Herr. change (0 + 1074) with 1074 in Herr. fold S in Herr.
  split_and!; [exact Herr|exact Hup| |apply Hup; lia|done|done].
  assert (2 ^ 1074 = 2 ^ 21 * 2 ^ 1053) as Hp by (rewrite <- Z.pow_add_r by lia; done).
  rewrite Hp in Herr. assert (0 < 2 ^ 1053) as HP by (apply Z.pow_pos_nonneg; lia).
  revert Herr HP. generalize (2 ^ 1053) as P, (units S) as V. intros P V Herr HP.
  assert (P ≤ us * P) by nia. nia.
Qed.

(** The minutes of a gap: above a whole number of minutes exactly when the gap is. *)
Lemma minutes_bounds us :
  0 < us < 2 ^ 62 →
  let G := gap_minutes us in
  us * 2 ^ 1074 * (2 ^ 52 - 1) * (2 ^ 52 - 1) < units G * 60000000 * 2 ^ 104 ∧
  (∀ t, us ≤ t * 60000000 → units G ≤ t * 2 ^ 1074) ∧ -1074 ≤ f_expo G.
Proof.
  intros Hus G. destruct (seconds_bounds us Hus) as (Hlow & Hup & [HV1 HV2] & Hexp & Hneg).
  unfold G, gap_minutes, float_div.
  set (S := quotient false us 1000000 0) in *. rewrite Hneg.
  assert (units S = Z.of_N (f_mant S) * 2 ^ (f_expo S + 1074)) as HV by (by apply units_nonneg_value).
  set (m := Z.of_N (f_mant S)) in *. set (e := f_expo S) in *.
  assert (0 < m) as Hm.
  { assert (0 < 2 ^ 1053) by (apply Z.pow_pos_nonneg; lia).
    assert (0 ≤ m) by (unfold m; lia). destruct (decide (m = 0)) as [E|]; [|lia].
    rewrite E in HV. lia. }
  assert (Z.log2 (units S) = Z.log2 m + (e + 1074)) as Hlog.
  { rewrite HV. rewrite Z.log2_mul_pow2 by lia. lia. }
  assert (1053 ≤ Z.log2 (units S)) as Hl1.
  { rewrite <- (Z.log2_pow2 1053) by lia. by apply Z.log2_le_mono. }
  assert (Z.log2 (units S) ≤ 1117) as Hl2.
  { rewrite <- (Z.log2_pow2 1117) by lia. apply Z.log2_le_mono. etransitivity; [exact HV2|].
    rewrite <- Z.pow_add_r by lia. done. }
  pose proof (quotient_log_bounds m 60 Hm ltac:(lia)) as HL. change (Z.log2 60) with 5 in HL.
  destruct (quotient_spec m 60 e Hm) as (_ & _ & _ & Hexp' & _); [lia|done|].
  pose proof (quotient_error m 60 e Hm ltac:(lia) Hexp ltac:(lia)) as Herr.
  cbn zeta in Herr. rewrite <- HV in Herr.
  split_and!; [|intros t Ht|done].
  - change (2 ^ 104) with (2 ^ 52 * 2 ^ 52).
    revert Hlow Herr. generalize (2 ^ 1074) as P, (units S) as V. intros. nia.
  - apply quotient_upper; [lia..|]. rewrite <- HV. specialize (Hup (t * 60)). lia.
Qed.

(** C26. The float comparison [gap_minutes > max_gap_minutes] never misjudges a
    gap: for every gap between two datetimes and every limit a rule admits, it
    holds exactly when the gap in microseconds exceeds the limit. *)
Theorem gap_comparison_exact g (a b : KpiObservation.t) :
  0 ≤ KpiObservation.observed_at b - KpiObservation.observed_at a < 2 ^ 62 →
  0 ≤ g ≤ 10080 →
  gap_exceeds g a b = true ↔
  g * 60000000 < KpiObservation.observed_at b - KpiObservation.observed_at a.
Proof.
  unfold gap_exceeds. set (us := KpiObservation.observed_at b - KpiObservation.observed_at a).
  intros Hus Hg. rewrite negb_true_iff.
  destruct (decide (us = 0)) as [->|Hn].
  - change (gap_minutes 0) with (PyFloat false 0 0).
    rewrite (float_leb_at _ _ 0) by done. unfold f_signed, exact_int. cbn [f_neg f_mant f_expo].
    rewrite (proj2 (Z.ltb_ge g 0)) by lia. rewrite Z.leb_gt. lia.
  - destruct (minutes_bounds us) as (Hlow & Hup & Hexp); [lia|].
    rewrite float_leb_units by (exact Hexp || easy). rewrite units_exact by lia.
    rewrite Z.leb_gt. split.
    + intros Hgt. apply Z.nle_gt. intros Hle. specialize (Hup g Hle). lia.
    + intros Hlt. assert (0 < 2 ^ 1074) as HP by (apply Z.pow_pos_nonneg; lia).
      assert (2 ^ 104 * 60000000 * g < us * (2 ^ 52 - 1) * (2 ^ 52 - 1)) as Hk by lia.
      revert Hlow HP. generalize (2 ^ 1074) as P, (units (gap_minutes us)) as V.
      intros P V Hlow HP. nia.
Qed.
