(* ===== verification/DetectorProps.v ===== *)
(** * What a scan finds

    Which samples a rule matches, how they are divided among episodes, and the
    budgets of a scan. *)

From Stdlib Require Import Ascii String.
From S2P Require Import Prelude PyStr Json Privacy Models Incident Errors StateMachine Repository.
From S2P Require Import PyEq.
From S2P Require Import Contracts Ports GovernanceFacts.
From S2P Require Import Rules.
From S2P Require Import RuleResolution.
From S2P Require Import RuleStore.
From S2P Require Import RuleFacts.
From S2P Require Import RuleProps.
From S2P Require Import RuleStoreProps.
From S2P Require Import Detector.
From S2P Require Import DetectorEpisodes.

(** ** The samples of a rule *)

(** A trustworthy observation of the rule's KPI that breaches its threshold. *)
Definition sample_of (rule : RcaRule.t) (o : KpiObservation.t) : Prop :=
  let d := RcaRule.detection rule in
  KpiObservation.kpi_name o = RuleDetection.kpi_name d ∧
  Forall (λ flag, flag = "SOURCE_TIMEZONE_ASSUMED_UTC"%string) (KpiObservation.quality_flags o) ∧
  breaches (KpiObservation.observed_value o) (RuleDetection.comparator d) (RuleDetection.threshold d).
(** The unit is the rule's, when the KPI is. *)
Definition unit_agrees (rule : RcaRule.t) (o : KpiObservation.t) : Prop :=
  KpiObservation.kpi_name o = RuleDetection.kpi_name (RcaRule.detection rule) →
  KpiObservation.unit_ o = RuleDetection.unit_ (RcaRule.detection rule).

Lemma flags_ok flags :
  existsb (λ flag, negb (str_eqb flag "SOURCE_TIMEZONE_ASSUMED_UTC")) flags = false ↔
  Forall (λ flag, flag = "SOURCE_TIMEZONE_ASSUMED_UTC"%string) flags.
Proof.
  rewrite existsb_false_iff, Forall_forall.
  setoid_rewrite negb_false_iff. by setoid_rewrite str_eqb_true.
Qed.

Lemma validate_rule_observation_spec rule o :
  (unit_agrees rule o ∧ ∃ b, validate_rule_observation rule o = Ok b ∧ (b = true ↔ sample_of rule o)) ∨
  (¬ unit_agrees rule o ∧ ∃ msg, validate_rule_observation rule o = Err (ValueError msg)).
Proof.
  unfold validate_rule_observation, unit_agrees, sample_of.
  destruct (str_eqb _ _) eqn:Ek; rewrite ?str_eqb_true, ?str_eqb_false in Ek; cbn [negb].
  2: { left. split; [done|]. exists false. split; [done|]. split; [done|]. by intros [? _]. }
  case_bool_decide as Eu; cbn [negb throw_if].
  2: { right. split; [naive_solver|]. by eexists. }
  left. split; [done|]. cbn.
  destruct (existsb _ _) eqn:Ef.
  - exists false. split; [done|]. split; [done|]. intros (_ & Hf%flags_ok & _).
    rewrite Hf in Ef. done.
  - rewrite flags_ok in Ef.
    destruct (compare_floats (KpiObservation.observed_value o)
      (RuleDetection.comparator (RcaRule.detection rule))
      (RuleDetection.threshold (RcaRule.detection rule))) as (b & Hb & Hspec).
    exists b. split; [exact Hb|]. rewrite Hspec. naive_solver.
Qed.

Lemma matched_spec rule obs kept :
  matched rule obs = Ok kept →
  Forall (unit_agrees rule) obs ∧ kept `sublist_of` obs ∧
  ∀ o, o ∈ kept ↔ o ∈ obs ∧ sample_of rule o.
Proof.
  revert kept. induction obs as [|o obs IH]; intros kept; cbn [matched].
  - intros [= <-]. split_and!; [constructor|constructor|set_solver].
  - intros (b & Hb & (l & Hl & [= <-])%bind_Ok)%bind_Ok.
    destruct (IH l Hl) as (Hu & Hs & Hin).
    destruct (validate_rule_observation_spec rule o) as [[Ho (b' & Hb' & Hspec)]|[_ (msg & Hm)]];
      [|congruence].
    assert (b' = b) as -> by congruence. split_and!; [by constructor| |].
    + destruct b; by constructor.
    + intros o'. rewrite elem_of_cons. destruct b.
      * rewrite elem_of_cons, Hin. naive_solver.
      * rewrite Hin. split; [naive_solver|]. intros [[->|?] Hs']; [|done].
        by apply Hspec in Hs'.
Qed.

Lemma matched_raises rule obs :
  raises (λ e, ∃ msg, e = ValueError msg) (matched rule obs).
Proof.
  induction obs as [|o obs IH]; cbn [matched]; [apply raises_Ok|].
  apply raises_bind.
  - intros e He. destruct (validate_rule_observation_spec rule o) as
      [[_ (b & Hb & _)]|[_ (msg & Hm)]]; [congruence|]. exists msg. congruence.
  - intros b _. apply raises_bind; [done|intros; apply raises_Ok].
Qed.

(** ** Episodes of a rule *)

Lemma concat_map_perm {A B} (f g : A → list B) (l : list A) :
  (∀ x, x ∈ l → f x ≡ₚ g x) → List.concat (map f l) ≡ₚ List.concat (map g l).
Proof.
  induction l as [|x l IH]; cbn; intros H; [done|].
  rewrite (H x), IH by (left || (intros; apply H; by right)). done.
Qed.

Lemma filter_split {A K} `{EqDecision K} (key : A → K) k (xs : list A) :
  filter (λ x, key x = k) xs ++ filter (λ x, key x ≠ k) xs ≡ₚ xs.
Proof.
  induction xs as [|x xs IH]; [done|]. rewrite !filter_cons.
  destruct (decide (key x = k)); destruct (decide (key x ≠ k)); try done; cbn.
  - by rewrite IH.
  - by rewrite <- Permutation_middle, IH.
Qed.

Lemma grouped_by_perm {A K} `{EqDecision K} (key : A → K) (xs : list A) :
  List.concat (map snd (grouped_by key xs)) ≡ₚ xs.
Proof.
  unfold grouped_by. rewrite map_map. cbn.
  assert (∀ (ks : list K) (ys : list A), NoDup ks → (∀ y, y ∈ ys → key y ∈ ks) →
    List.concat (map (λ k, filter (λ x, key x = k) ys) ks) ≡ₚ ys) as H.
  { induction ks as [|k ks IH]; intros ys Hnd Hin; cbn.
    - destruct ys as [|y ys]; [done|]. specialize (Hin y ltac:(left)). by apply not_elem_of_nil in Hin.
    - apply NoDup_cons in Hnd as [Hk Hnd]. etransitivity; [|apply (filter_split key k ys)].
      f_equiv. rewrite <- (IH (filter (λ x, key x ≠ k) ys)); [|done|].
      + apply concat_map_perm. intros k' Hk'. rewrite list_filter_filter.
        assert (filter (λ x, key x = k') ys = filter (λ x, key x = k' ∧ key x ≠ k) ys) as <-; [|done].
        apply list_filter_iff. intros y. split; [|naive_solver]. intros Ey. split; [done|].
        intros Ek. apply Hk. by rewrite <- Ek, Ey.
      + intros y [Hy Hys]%list_elem_of_filter. specialize (Hin y Hys). set_solver. }
  apply H.
  - clear H. generalize (map key xs) as ks. intros ks. induction ks as [|k ks IH]; cbn; [constructor|].
    apply NoDup_cons. split; [rewrite list_elem_of_filter; naive_solver|by apply NoDup_filter].
  - intros y Hy. apply elem_of_distinct, list_elem_of_fmap. by exists y.
Qed.

(** The episodes of a rule among the observations it keeps. *)
Definition rule_episodes (rule : RcaRule.t) (kept : list KpiObservation.t) :
    list (list KpiObservation.t) :=
  flat_map (λ group, episodes group (RuleDetection.max_gap_minutes (RcaRule.detection rule)))
    (groups kept).

Lemma episodes_perm l g : List.concat (episodes l g) ≡ₚ l.
Proof.
  destruct (episodes_cut l g) as (-> & _). apply py_sorted_perm.
Qed.

Lemma rule_episodes_perm rule kept : List.concat (rule_episodes rule kept) ≡ₚ kept.
Proof.
  unfold rule_episodes. rewrite flat_map_concat_map.
  assert (∀ gs : list (list KpiObservation.t), List.concat (List.concat (map (λ group, episodes group
    (RuleDetection.max_gap_minutes (RcaRule.detection rule))) gs)) ≡ₚ List.concat gs) as ->.
  { induction gs as [|group gs IH]; cbn; [done|]. by rewrite List.concat_app, episodes_perm, IH. }
  etransitivity; [|apply (grouped_by_perm (λ o, resource_identity (KpiObservation.resources o)))].
  unfold groups. rewrite <- !flat_map_concat_map. by rewrite py_sorted_perm.
Qed.

(** ** The specifications of a scan *)

Definition within_budget (specs : list Spec) : Prop :=
  (length specs ≤ MAX_SCAN_CANDIDATES)%nat ∧
  Forall (λ spec : Spec, (length spec.2 ≤ MAX_EPISODE_SAMPLES)%nat) specs.

(** What a scan may raise before it asks for evidence. *)
Definition scan_error (e : exc) : Prop :=
  (∃ msg, e = ValueError msg) ∨ (∃ msg, e = DetectorCapacityError msg).

Lemma within_budget_app s t :
  within_budget (s ++ t) → within_budget s.
Proof. unfold within_budget. rewrite length_app, Forall_app. intros [? [? _]]. split; [lia|done]. Qed.

Lemma add_episodes_spec rule found specs out :
  within_budget specs →
  add_episodes rule found specs = Ok out ↔
  out = specs ++ map (pair rule) found ∧ within_budget out.
Proof.
  revert specs. induction found as [|e found IH]; intros specs Hb; cbn [add_episodes map].
  - rewrite app_nil_r. naive_solver.
  - replace (specs ++ (rule, e) :: map (pair rule) found)
      with ((specs ++ [(rule, e)]) ++ map (pair rule) found) by (by rewrite <- app_assoc). split.
    + intros (_ & H1%throw_if_Ok & (_ & H2%throw_if_Ok & H)%bind_Ok)%bind_Ok.
      rewrite Nat.ltb_ge in H1, H2. refine (proj1 (IH _ _) H). destruct Hb as [_ Hb].
      split; [done|]. apply Forall_app. split; [done|]. by apply Forall_singleton.
    + intros [-> Hout]. pose proof (within_budget_app _ _ Hout) as Hb'.
      destruct Hb' as [H1 H2]. apply Forall_app in H2 as [_ H2]. apply Forall_cons in H2 as [H2 _].
      rewrite !(proj2 (Nat.ltb_ge _ _)) by done. cbn. apply IH; [|done].
      by apply within_budget_app in Hout.
Qed.

Lemma add_groups_spec rule gs specs out :
  within_budget specs →
  add_groups rule gs specs = Ok out ↔
  out = specs ++ map (pair rule) (flat_map (λ group, episodes group
    (RuleDetection.max_gap_minutes (RcaRule.detection rule))) gs) ∧ within_budget out.
Proof.
  revert specs. induction gs as [|group gs IH]; intros specs Hb; cbn [add_groups flat_map].
  - cbn. rewrite app_nil_r. naive_solver.
  - rewrite map_app, app_assoc, bind_Ok. split.
    + intros (mid & [-> Hm]%add_episodes_spec & H); [|done]. by apply IH in H.
    + intros [-> Hout]. pose proof (within_budget_app _ _ Hout) as Hm. eexists. split.
      * by apply add_episodes_spec.
      * by apply IH.
Qed.

(** The episodes of every rule, in the order of the rules. *)
Definition specs_of (found : list (RcaRule.t * list KpiObservation.t)) : list Spec :=
  flat_map (λ x, map (pair x.1) (rule_episodes x.1 x.2)) found.

Lemma specs_of_cons rule k rules kept :
  specs_of (zip (rule :: rules) (k :: kept)) =
  map (pair rule) (rule_episodes rule k) ++ specs_of (zip rules kept).
Proof. done. Qed.

Lemma episode_specs_spec rules obs specs out :
  within_budget specs →
  episode_specs rules obs specs = Ok out ↔
  ∃ kept, Forall2 (λ rule k, matched rule obs = Ok k) rules kept ∧
    out = specs ++ specs_of (zip rules kept) ∧ within_budget out.
Proof.
  revert specs out. induction rules as [|rule rules IH]; intros specs out Hb; cbn [episode_specs].
  - split.
    + intros [= <-]. exists []. cbn. rewrite app_nil_r. split_and!; [constructor|done|done].
    + intros (kept & ->%Forall2_nil_inv_l & -> & _). cbn. by rewrite app_nil_r.
  - rewrite bind_Ok. split.
    + intros (k & Hk & (mid & [-> Hm]%add_groups_spec & H)%bind_Ok); [|done].
      apply IH in H as (kept & Hf & -> & Hout); [|done]. exists (k :: kept).
      rewrite specs_of_cons, app_assoc. split_and!; [by constructor|done|done].
    + intros (kept' & (k & kept & Hk & Hf & ->)%Forall2_cons_inv_l & -> & Hout).
      rewrite specs_of_cons, app_assoc in Hout |- *. pose proof (within_budget_app _ _ Hout).
      exists k. split; [done|]. apply bind_Ok. eexists.
      split; [by apply add_groups_spec|]. apply IH; [done|]. by exists kept.
Qed.

Lemma add_episodes_raises rule found specs : raises scan_error (add_episodes rule found specs).
Proof.
  revert specs. induction found as [|e found IH]; intros specs; cbn [add_episodes];
    raises_tac; try apply IH; right; eauto.
Qed.
Lemma add_groups_raises rule gs specs : raises scan_error (add_groups rule gs specs).
Proof.
  revert specs. induction gs as [|group gs IH]; intros specs; cbn [add_groups]; [apply raises_Ok|].
  apply raises_bind; [apply add_episodes_raises|intros; apply IH].
Qed.
Lemma episode_specs_raises rules obs specs : raises scan_error (episode_specs rules obs specs).
Proof.
  revert specs. induction rules as [|rule rules IH]; intros specs; cbn [episode_specs];
    [apply raises_Ok|].
  apply raises_bind; [intros e He; left; by eapply matched_raises|intros kept _].
  apply raises_bind; [apply add_groups_raises|intros; apply IH].
Qed.

(** The budgets of a scan: it goes on to collect evidence exactly when every
    observation of a rule's KPI has the rule's unit, there are at most 100
    episodes and none has more than 1000 samples; the episodes are then all
    of those of every rule, in order, and every sample of a rule is in exactly
    one of its episodes.  Otherwise it raises, for the unit or the capacity. *)
Theorem scan_budget rules obs :
  (∀ specs, episode_specs rules obs [] = Ok specs ↔
     ∃ kept, Forall2 (λ rule k, matched rule obs = Ok k) rules kept ∧
       specs = specs_of (zip rules kept) ∧ within_budget specs) ∧
  (∀ rule kept, matched rule obs = Ok kept →
     Forall (unit_agrees rule) obs ∧
     (∀ o, o ∈ kept ↔ o ∈ obs ∧ sample_of rule o) ∧
     List.concat (rule_episodes rule kept) ≡ₚ kept) ∧
  raises scan_error (episode_specs rules obs []).
Proof.
  split_and!.
  - intros specs. apply (episode_specs_spec rules obs []). split; [cbn; lia|constructor].
  - intros rule kept Hk. destruct (matched_spec rule obs kept Hk) as (Hu & _ & Hin).
    split_and!; [done|done|apply rule_episodes_perm].
  - apply episode_specs_raises.
Qed.
