(* ===== verification/DetectorScan.v ===== *)
(** * The candidates of a scan

    What a scan that returns has read and found, that each candidate is a
    valid, unconfirmed Incident for one episode of one stored rule, and how the
    stored rules judge it when they are resolved for it. *)

From Stdlib Require Import Ascii String.
From S2P Require Import Prelude PyStr Json Privacy Models Incident Errors StateMachine Repository.
From S2P Require Import PyEq.
From S2P Require Import Contracts Ports GovernanceFacts.
From S2P Require Import Rules.
From S2P Require Import RuleResolution.
From S2P Require Import RuleStore.
From S2P Require Import RuleFacts.
From S2P Require Import RuleProps.
From S2P Require Import RuleStoreProps.
From S2P Require Import Detector.
From S2P Require Import DetectorEpisodes.
From S2P Require Import DetectorProps.

Section scans.
Context `{R : Runtime, D : RuleDecoder}.
Context `{DetectorTelemetryRepository W, Uuids W, TrustedClock W, RulesDirectory W}.
Implicit Types (rule : RcaRule.t) (spec : Spec) (c : Candidate).

(** ** Candidates *)

(** [c] is made of the episode: its Incident is the validated one that claims
    the rule for it, with the evidence that was collected for its preview, in
    order; and its envelope carries it. *)
Definition candidate_of (trace_id workflow_id : string) spec c : Prop :=
  ∃ first others mean preview collected w w',
    spec.2 = first :: others ∧ mean_value first others = Ok mean ∧
    let claim := λ id evidence, candidate_incident spec.1 first others trace_id id
                   (episode_violation spec.1 first others mean) evidence in
    Incident.model_validate (claim (preview_id spec.1 first others) []) = Ok preview ∧
    collect_evidence preview w = (Ok collected, w') ∧
    let evidence := py_sorted evidence_leb collected in
    let id := candidate_id spec.1 first others evidence in
    Incident.model_validate (claim id evidence) = Ok (candidate_incident_of c) ∧
    Envelope.incident_id c.1 = id ∧ Envelope.workflow_id c.1 = workflow_id ∧
    Envelope.trace_id c.1 = trace_id ∧
    check_message (mk_message c.1 (ITrigger c.2)) = Ok tt.

Lemma trigger_for_episode_inv rule first others trace_id workflow_id w c w' :
  trigger_for_episode rule first others trace_id workflow_id w = (Ok c, w') →
  candidate_of trace_id workflow_id (rule, first :: others) c.
Proof.
  unfold trigger_for_episode. intros Hr. do 9 step_in Hr.
  injection Hr as <-. apply validated_Ok in E1, E3, E7.
  exists first, others, a, a1, a2, w, w0. cbn [fst snd]. destruct a7. split_and!; done.
Qed.

Lemma triggers_for_inv trace_id workflow_id specs w cs w' :
  Forall (λ spec, spec.2 ≠ []) specs →
  triggers_for trace_id workflow_id specs w = (Ok cs, w') →
  Forall2 (candidate_of trace_id workflow_id) specs cs.
Proof.
  intros Hn. revert w cs. induction Hn as [|[rule episode] specs He _ IH]; intros w cs Hr;
    cbn [triggers_for] in Hr.
  - step_in Hr. injection Hr as <-. constructor.
  - destruct episode as [|first others]; [done|]. do 2 step_in Hr. step_in Hr.
    injection Hr as <-. constructor; [by eapply trigger_for_episode_inv|by eapply IH].
Qed.

(** ** What a scan has read *)

Lemma specs_of_nonempty found : Forall (λ spec, spec.2 ≠ []) (specs_of found).
Proof.
  apply Forall_forall. unfold specs_of. intros spec Hs.
  apply list_elem_of_In, in_flat_map in Hs as ([rule kept] & _ & Hs).
  apply in_map_iff in Hs as (episode & <- & He). cbn in *.
  apply in_flat_map in He as (group & _ & He%list_elem_of_In).
  destruct (episodes_cut group (RuleDetection.max_gap_minutes (RcaRule.detection rule)))
    as (_ & Hn & _).
  rewrite Forall_forall in Hn. by apply Hn.
Qed.

Definition is_lte (rule : RcaRule.t) : bool :=
  str_eqb (RcaRule.technology rule) (Technology.value Technology.LTE).

(** The current LTE rules of the directory, and the observations of their KPIs
    in the scope: what a scan reads. *)
Definition scan_reads (scope : option Z * option Z * list string)
    (rules : list RcaRule.t) (obs : list KpiObservation.t) : Prop :=
  ∃ root loaded w1 w2, read_rules w1 = (Ok root, w2) ∧ load_all root = Ok loaded ∧
    rules = List.filter is_lte loaded ∧ (length rules ≤ MAX_CURRENT_RULES)%nat ∧
    ((rules = [] ∧ obs = []) ∨
     ∃ w3, query_kpis (sorted_set (map (λ r, RuleDetection.kpi_name (RcaRule.detection r)) rules))
             Technology.LTE scope.1.1 scope.1.2 scope.2 w2 = (Ok obs, w3) ∧
       Z.of_nat (length obs) ≠ MAX_QUERY_OBSERVATIONS).

Lemma scan_scope_inv trace_id workflow_id scope w cs w' :
  scan_scope trace_id workflow_id scope w = (Ok cs, w') →
  ∃ rules obs kept found, scan_reads scope rules obs ∧
    Forall2 (λ rule k, matched rule obs = Ok k) rules kept ∧
    within_budget (specs_of (zip rules kept)) ∧
    Forall2 (candidate_of trace_id workflow_id) (specs_of (zip rules kept)) found ∧
    cs = py_sorted candidate_leb found ∧ model_safe (candidates_json cs) = true.
Proof.
  unfold scan_scope. intros Hr. do 3 step_in Hr. fold is_lte in Hr.
  apply throw_if_Ok in E1. rewrite Nat.ltb_ge in E1. fold is_lte in E1.
  set (rules := List.filter is_lte a0) in *.
  destruct rules as [|rule rules'] eqn:Erules.
  - injection Hr as <- <-. exists [], [], [], []. split_and!; try constructor; try done; cbn; try lia.
    exists a, a0, w, w0. fold rules. rewrite Erules. split_and!; try done. by left.
  - rewrite <- Erules in *. do 6 step_in Hr. injection Hr as <-.
    apply throw_if_Ok in E3, E6. rewrite Z.eqb_neq in E3. rewrite negb_false_iff in E6.
    apply (episode_specs_spec rules a2 []) in E4 as (kept & Hk & -> & Hb);
      [|split; [cbn; lia|constructor]].
    exists rules, a2, kept, a5. split_and!; try done.
    + exists a, a0, w, w0. split_and!; try done. right. by exists w1.
    + by eapply triggers_for_inv; [apply specs_of_nonempty|].
Qed.

(** An episode of a rule among the observations. *)
Definition episode_found rule (obs episode : list KpiObservation.t) : Prop :=
  (length episode ≤ MAX_EPISODE_SAMPLES)%nat ∧
  (∀ o, o ∈ episode → o ∈ obs ∧ sample_of rule o) ∧
  Sorted (near (RuleDetection.max_gap_minutes (RcaRule.detection rule))) episode.

Lemma rule_episodes_near rule kept episode :
  episode ∈ rule_episodes rule kept →
  Sorted (near (RuleDetection.max_gap_minutes (RcaRule.detection rule))) episode.
Proof.
  unfold rule_episodes. intros (group & _ & He%list_elem_of_In)%list_elem_of_In%in_flat_map.
  destruct (episodes_cut group (RuleDetection.max_gap_minutes (RcaRule.detection rule)))
    as (_ & _ & Hs & _).
  rewrite Forall_forall in Hs. by apply Hs.
Qed.

Lemma in_rule_episodes rule kept o :
  o ∈ kept ↔ ∃ episode, episode ∈ rule_episodes rule kept ∧ o ∈ episode.
Proof.
  rewrite <- (rule_episodes_perm rule kept), list_elem_of_In, in_concat.
  by setoid_rewrite list_elem_of_In.
Qed.

Lemma elem_of_specs rule episode rules kept :
  (rule, episode) ∈ specs_of (zip rules kept) ↔
  ∃ k, (rule, k) ∈ zip rules kept ∧ episode ∈ rule_episodes rule k.
Proof.
  unfold specs_of. rewrite list_elem_of_In, in_flat_map. split.
  - intros ([r k] & Hz & (e & [= -> ->] & He)%in_map_iff). exists k.
    by rewrite <- !list_elem_of_In in *.
  - intros (k & Hz%list_elem_of_In & He%list_elem_of_In). exists (rule, k). split; [done|].
    by apply in_map.
Qed.

Lemma Forall2_zip {A B} (P : A → B → Prop) (l : list A) (k : list B) x y :
  Forall2 P l k → (x, y) ∈ zip l k → P x y.
Proof.
  induction 1 as [|a b l k Hab _ IH]; cbn; [by intros ?%not_elem_of_nil|].
  intros [[= -> ->]|?]%elem_of_cons; auto.
Qed.

Lemma specs_found rules obs kept rule episode :
  Forall2 (λ rule k, matched rule obs = Ok k) rules kept →
  within_budget (specs_of (zip rules kept)) →
  (rule, episode) ∈ specs_of (zip rules kept) →
  rule ∈ rules ∧ episode_found rule obs episode.
Proof.
  intros Hk [_ Hb] Hs. rewrite Forall_forall in Hb. specialize (Hb _ Hs).
  apply elem_of_specs in Hs as (k & Hz & He). split; [by eapply elem_of_zip_l|].
  pose proof (Forall2_zip _ _ _ _ _ Hk Hz) as Hmk. cbn in Hmk.
  destruct (matched_spec rule obs k Hmk) as (_ & _ & Hin).
  split_and!; [done| |by eapply rule_episodes_near].
  intros o Ho. apply Hin. apply (in_rule_episodes rule). by exists episode.
Qed.

(** C17. A scan that returns has found, in the current LTE rules and the
    observations it read, exactly the breaches: each candidate is made of an
    episode of one of the rules, of at most 1000 trustworthy breaching samples
    without a gap longer than the rule's limit; and every such sample is in an
    episode that has a candidate.  There are at most 100 candidates, and what
    the scan returns is safe for a model. *)
Theorem scan_exact trace_id workflow_id window_start window_end resource_ids w cs w' :
  scan trace_id workflow_id window_start window_end resource_ids w = (Ok cs, w') →
  ∃ workflow scope rules obs,
    validated_scan_scope window_start window_end resource_ids = Ok scope ∧
    scan_reads scope rules obs ∧ workflow ≠ py_strip trace_id ∧
    (length cs ≤ MAX_SCAN_CANDIDATES)%nat ∧ model_safe (candidates_json cs) = true ∧
    (∀ c, c ∈ cs → ∃ rule episode, rule ∈ rules ∧ episode_found rule obs episode ∧
       candidate_of (py_strip trace_id) workflow (rule, episode) c) ∧
    (∀ rule o, rule ∈ rules → o ∈ obs → sample_of rule o →
       ∃ episode c, o ∈ episode ∧ episode_found rule obs episode ∧ c ∈ cs ∧
         candidate_of (py_strip trace_id) workflow (rule, episode) c).
Proof.
  unfold scan. intros Hr. do 4 step_in Hr.
  assert (a = py_strip trace_id) as ->.
  { unfold require_identifier, require_text in E. by run_ok. }
  apply throw_if_Ok in E1. rewrite str_eqb_false in E1.
  apply scan_scope_inv in Hr as (rules & obs & kept & found & Hreads & Hk & Hb & Hf & -> & Hm).
  exists a0, a2, rules, obs. split_and!; try done.
  - rewrite length_py_sorted. rewrite <- (Forall2_length _ _ _ Hf). apply Hb.
  - intros c Hc. rewrite elem_of_py_sorted in Hc. apply list_elem_of_lookup in Hc as [k Hc].
    destruct (Forall2_lookup_r _ _ _ _ _ Hf Hc) as ([rule episode] & Hs & Hcand).
    apply list_elem_of_lookup_2 in Hs.
    destruct (specs_found _ _ _ _ _ Hk Hb Hs). by exists rule, episode.
  - intros rule o Hrule Ho Hsample. apply list_elem_of_lookup in Hrule as [n Hrule].
    destruct (Forall2_lookup_l _ _ _ _ _ Hk Hrule) as (k & Hn & Hmk).
    destruct (matched_spec rule obs k Hmk) as (_ & _ & Hin).
    destruct (proj1 (in_rule_episodes rule k o)) as (episode & He & Hoe); [by apply Hin|].
    assert ((rule, episode) ∈ specs_of (zip rules kept)) as Hs.
    { apply elem_of_specs. exists k. split; [|done]. apply list_elem_of_lookup. exists n.
      apply lookup_zip_with_Some. by exists rule, k. }
    destruct (specs_found _ _ _ _ _ Hk Hb Hs) as [_ Hfound].
    apply list_elem_of_lookup in Hs as [m Hs].
    destruct (Forall2_lookup_l _ _ _ _ _ Hf Hs) as (c & Hc & Hcand).
    exists episode, c. split_and!; try done. rewrite elem_of_py_sorted.
    by eapply list_elem_of_lookup_2.
Qed.
End scans.
