(* ===== verification/DetectorTrust.v ===== *)
(** * Detection and resolution agree

    The resolver of telco_local/rules.py, run on a candidate of the detector
    with the directory its rule comes from: it trusts the rule exactly when the
    mean that the candidate claims breaches the threshold. *)

From Stdlib Require Import Ascii String.
From S2P Require Import Prelude PyStr Json Reference Privacy Models Incident Errors StateMachine Repository.
From S2P Require Import PyEq.
From S2P Require Import Contracts Ports.
From S2P Require Import Rules.
From S2P Require Import RuleResolution.
From S2P Require Import RuleStore.
From S2P Require Import RuleFacts.
From S2P Require Import RuleProps.
From S2P Require Import RuleStoreProps.
From S2P Require Import Detector.
From S2P Require Import DetectorScan.

(** ** Identifiers and versions are visible texts *)

Definition visible (s : string) : bool := string_forall visible_char s.

Lemma visible_app s t : visible (s +:+ t) = visible s && visible t.
Proof. apply string_forall_app. Qed.

Lemma span_split (p : ascii → bool) s u v :
  span p s = (u, v) → s = u +:+ v ∧ string_forall p u = true.
Proof.
  revert u v. induction s as [|c s IH]; intros u v; cbn [span]; [by intros [= <- <-]|].
  destruct (p c) eqn:Ec; [|by intros [= <- <-]].
  destruct (span p s) as [u' v'] eqn:E. intros [= <- <-].
  destruct (IH u' v' eq_refl) as [-> Hu]. rewrite app_cons. split; [done|]. cbn. by rewrite Ec.
Qed.

(** [f] takes a visible part off the text. *)
Definition takes_visible (f : string → option string) : Prop :=
  ∀ s rest, f s = Some rest → visible rest = true → visible s = true.

Lemma version_char_visible c :
  is_digit c || is_letter c || one_of ["."; "-"; "_"; "+"]%char c = true → visible_char c = true.
Proof.
  unfold is_letter, is_digit, is_lower, is_upper, one_of, visible_char.
  rewrite !orb_true_iff, !andb_true_iff, !N.leb_le, bool_decide_eq_true, !elem_of_cons, elem_of_nil.
  intros [[?|[?|?]]|H]; [lia..|]. destruct_or! H; subst; by vm_compute.
Qed.

Lemma span_visible p s u v :
  (∀ c, p c = true → is_digit c || is_letter c || one_of ["."; "-"; "_"; "+"]%char c = true) →
  span p s = (u, v) → visible v = true → visible s = true.
Proof.
  intros Hp [-> Hu]%span_split Hv. rewrite visible_app, Hv, andb_true_r.
  eapply string_forall_impl; [|exact Hu]. intros c Hc. by apply version_char_visible, Hp.
Qed.

Lemma version_number_visible : takes_visible version_number.
Proof.
  intros s rest. unfold version_number. destruct (span is_digit s) as [n r] eqn:E.
  intros H. assert (r = rest) as -> by (by repeat (case_match; simplify_eq)).
  eapply span_visible; [|exact E]. by intros c ->.
Qed.
Lemma after_dot_visible : takes_visible after_dot.
Proof.
  intros [|c s] rest; [done|]. cbn [after_dot]. intros H Hr.
  assert (c = "."%char ∧ s = rest) as [-> ->] by (by repeat (case_match; simplify_eq)).
  done.
Qed.
Lemma optional_part_visible mark :
  visible_char mark = true → takes_visible (optional_part mark).
Proof.
  intros Hm [|c s] rest; cbn [optional_part]; [by intros [= <-]|].
  case_bool_decide as Hc; [subst c|by intros [= <-]].
  destruct (span _ s) as [n r] eqn:E. intros H Hr.
  assert (r = rest) as -> by (by repeat (case_match; simplify_eq)).
  unfold visible. cbn [string_forall]. rewrite Hm. cbn [andb].
  eapply span_visible; [|exact E|done]. intros c. rewrite !orb_true_iff.
  unfold one_of. rewrite !bool_decide_eq_true. set_solver.
Qed.

Lemma semver_visible s : is_semver s = true → visible s = true.
Proof.
  unfold is_semver. intros H%bool_decide_eq_true.
  apply bind_Some in H as (s7 & H & H7). apply bind_Some in H as (s6 & H & H6).
  apply bind_Some in H as (s5 & H & H5). apply bind_Some in H as (s4 & H & H4).
  apply bind_Some in H as (s3 & H & H3). apply bind_Some in H as (s2 & H & H2).
  apply bind_Some in H as (s1 & [= <-] & H1).
  eapply version_number_visible; [exact H1|]. eapply after_dot_visible; [exact H2|].
  eapply version_number_visible; [exact H3|]. eapply after_dot_visible; [exact H4|].
  eapply version_number_visible; [exact H5|].
  eapply (optional_part_visible "-"%char); [done|exact H6|].
  by eapply (optional_part_visible "+"%char); [|exact H7|].
Qed.

Lemma rule_id_visible s : is_rule_id s = true → visible s = true.
Proof.
  destruct s as [|c s]; [done|]. unfold is_rule_id, named, visible. cbn [string_forall].
  intros [[Hc Hs]%andb_true_iff _]%andb_true_iff. apply andb_true_iff. split.
  - apply version_char_visible. unfold is_letter. destruct (is_digit c); [done|].
    rewrite orb_false_r in Hc. by rewrite Hc.
  - eapply string_forall_impl; [|exact Hs]. intros d Hd. apply version_char_visible.
    revert Hd. unfold is_letter, one_of. rewrite !orb_true_iff, !bool_decide_eq_true. set_solver.
Qed.

(** ** The claim of a candidate *)

Section trust.
Context `{R : Runtime, D : RuleDecoder}.
Context `{DetectorTelemetryRepository W}.
Implicit Types (rule : RcaRule.t) (c : Candidate).

(** What matters to resolution in the Incident of a candidate. *)
Definition claims rule (mean : pyfloat) (i : Incident.t) : Prop :=
  Incident.technology i = Technology.LTE ∧
  (∃ first others, Incident.violated_kpis i = [episode_violation rule first others mean]) ∧
  Incident.rule_versions i = {[ RcaRule.rule_id rule := RcaRule.version rule ]} ∧
  metadata i "detector_algorithm" = Some (JStr DETECTOR_ALGORITHM) ∧
  metadata i "rule_content_sha256" = None ∧
  metadata i "rule_content_hashes" =
    Some (JObj [(RcaRule.rule_id rule, JStr (rule_content_sha256 rule))]).

Lemma candidate_claims trace_id workflow_id rule episode c :
  candidate_of trace_id workflow_id (rule, episode) c →
  ∃ first others mean, episode = first :: others ∧ mean_value first others = Ok mean ∧
    claims rule mean (candidate_incident_of c).
Proof.
  intros (first & others & mean & preview & collected & w & w' & He & Hm & _ & _ & Hc & _).
  cbn [fst snd] in *. exists first, others, mean. split_and!; [done..|].
  apply model_validate_Ok in Hc as (-> & _). unfold claims, metadata. cbn.
  split_and!; [done|by exists first, others|done|..];
    by simplify_map_eq.
Qed.

Lemma rule_check_texts rule :
  RcaRule.check rule = Ok tt →
  sized 1 128 (RcaRule.rule_id rule) = true ∧ visible (RcaRule.rule_id rule) = true ∧
  sized 1 64 (RcaRule.version rule) = true ∧ visible (RcaRule.version rule) = true.
Proof.
  unfold RcaRule.check, RcaRule.validate_rule_id, RcaRule.validate_version. intros Hr. run_ok.
  rewrite !negb_false_iff in *. split_and!; try done; [by apply rule_id_visible|by apply semver_visible].
Qed.

Context `{L : !RuntimeLaws R}.

Lemma sized_short low high s :
  0 ≤ low → sized low high s = true → visible s = true → short high (Some s).
Proof.
  intros Hl Hs Hv. unfold short, sized in *. cbn. rewrite strip_visible by done.
  rewrite andb_true_iff, !Z.leb_le in *. lia.
Qed.

Lemma lower_digest rule : lower (rule_content_sha256 rule) = rule_content_sha256 rule.
Proof.
  apply lower_plain. pose proof (rule_sha256_hex64 rule) as Hh.
  unfold is_hex64 in Hh. apply andb_true_iff in Hh as [_ Hh].
  eapply string_forall_impl; [|exact Hh]. intros ch. unfold is_lower_hex, plain_char, is_lower, is_digit.
  rewrite !orb_true_iff, !andb_true_iff, !N.leb_le. lia.
Qed.

Lemma claims_claimed rule mean i :
  claims rule mean i → RcaRule.rule_id rule ∈ claimed_rule_ids i.
Proof.
  intros (_ & (first & others & Hv) & _).
  eapply (claimed_elem i (episode_violation rule first others mean)); [rewrite Hv; by left|done..].
Qed.

(** The recorded content hash is the rule's. *)
Lemma claim_content rule mean i :
  claims rule mean i → content_issue i (RcaRule.rule_id rule) rule = None.
Proof.
  intros Hc. apply content_issue_spec; [by eapply claims_claimed|].
  destruct Hc as (_ & _ & _ & _ & Hl & Hh).
  left. exists (rule_content_sha256 rule). split; [|apply lower_digest]. left. split; [done|].
  eexists. split; [exact Hh|]. cbn. by rewrite eqb_refl.
Qed.

(** Nothing the Incident records is unreferenced. *)
Lemma claims_referenced rule mean i :
  claims rule mean i → unreferenced_rules i = Ok [] ∧ unreferenced_hashes i = Ok [].
Proof.
  intros Hc. pose proof (claims_claimed rule mean i Hc) as Hid.
  destruct Hc as (_ & (first & others & Hv) & Hver & _ & _ & Hh). split.
  - apply unreferenced_rules_nil. rewrite Hver.
    intros id ver [<- _]%lookup_singleton_Some. eexists. rewrite Hv. split; [by left|done].
  - apply unreferenced_hashes_nil. intros items id Hi. rewrite Hh in Hi.
    injection Hi as <-. cbn. by intros ->%list_elem_of_singleton.
Qed.

Lemma claim_issue rule code :
  RcaRule.check rule = Ok tt →
  ∃ issue, make_issue 0 code (Some (RcaRule.rule_id rule)) (Some (RcaRule.version rule)) = Ok issue ∧
    RuleResolutionIssue.code issue = code.
Proof.
  intros (H1 & H2 & H3 & H4)%rule_check_texts.
  destruct (make_issue_total 0 code (Some (RcaRule.rule_id rule)) (Some (RcaRule.version rule)))
    as [issue Hi]; [done|by eapply (sized_short 1)..|].
  exists issue. split; [done|]. unfold make_issue, RuleResolutionIssue.make in Hi.
  by apply bind_Ok in Hi as (_ & _ & [= <-]).
Qed.

(** The verdict of the resolver on the violation that a candidate claims. *)
Lemma judge_claim rule mean i root stored v :
  claims rule mean i → load_all_versions root = Ok stored → rule ∈ stored →
  RcaRule.technology rule = Technology.value Technology.LTE →
  RcaRule.rule_id rule ≠ BUBBLERAN_REPLAY_RULE_ID →
  Incident.violated_kpis i = [v] →
  let d := RcaRule.detection rule in
  ∃ b : bool, (b = true ↔ breaches mean (RuleDetection.comparator d) (RuleDetection.threshold d)) ∧
    judge i (index_rules i stored) v =
      Ok (if b then Trusted rule else Untrusted RuleResolutionIssueCode.OBSERVATION_NOT_VIOLATION).
Proof.
  intros (Ht & (first & others & Hv) & Hver & Hd & Hl & Hh) Hst Hin Hlte Hbub Hv' d.
  rewrite Hv in Hv'. injection Hv' as <-.
  assert (trusted_version : last (versions i stored (RcaRule.identity rule)) = Some rule).
  { destruct (last (versions i stored (RcaRule.identity rule))) as [r|] eqn:El.
    - apply last_Some_elem_of, versions_elem in El as (Er & _ & Hr).
      destruct (loaded_rules root stored Hst) as (Hnd & _).
      f_equal. by apply (NoDup_key RcaRule.identity stored).
    - apply last_None in El. assert (rule ∈ versions i stored (RcaRule.identity rule)) as Hn.
      { apply versions_elem. split_and!; [done| |done]. unfold applicable.
        rewrite Hlte, Ht. apply eqb_refl. }
      rewrite El in Hn. by apply not_elem_of_nil in Hn. }
  destruct (index_rules_spec i stored (RcaRule.identity rule)) as [Hok Hdup].
  assert (RcaRule.identity rule ∉ (index_rules i stored).2) as Hnd.
  { intros Hn. apply (Hdup Hn). by eapply stored_unanimous. }
  destruct (Hok Hnd) as [_ Hix]. rewrite trusted_version in Hix.
  set (v := episode_violation rule first others mean) in *.
  assert (compare_detection rule v = None) as Hc.
  { apply compare_detection_spec. split_and!; try done. apply float_eqb_refl. }
  destruct (detection_matches_spec rule v) as (b & Hb & Hspec); [done..|].
  exists b. split; [exact Hspec|].
  unfold judge, judge_named. cbn [KpiViolation.rule_id KpiViolation.rule_version v episode_violation].
  rewrite Hver, lookup_singleton_eq, eqb_refl. cbn [negb].
  rewrite (proj2 (str_eqb_false _ BUBBLERAN_REPLAY_RULE_ID)) by done. cbn [andb].
  unfold RcaRule.identity in Hnd, Hix. rewrite bool_decide_eq_false_2 by done.
  rewrite Hix. fold v. rewrite Hc.
  by rewrite (claim_content rule mean i), Hb by (split_and!; eauto).
Qed.

Lemma candidate_facts trace_id workflow_id rule episode c root stored :
  candidate_of trace_id workflow_id (rule, episode) c →
  load_all_versions root = Ok stored → rule ∈ stored →
  RcaRule.technology rule = Technology.value Technology.LTE →
  RcaRule.rule_id rule ≠ BUBBLERAN_REPLAY_RULE_ID →
  let d := RcaRule.detection rule in
  ∃ first others mean resolution,
    episode = first :: others ∧ mean_value first others = Ok mean ∧
    resolve_rules_for_incident (candidate_incident_of c) stored = Ok resolution ∧
    (breaches mean (RuleDetection.comparator d) (RuleDetection.threshold d) →
       resolution = RuleResolution.mk RuleResolutionStatus.EXACT [rule] []) ∧
    (¬ breaches mean (RuleDetection.comparator d) (RuleDetection.threshold d) →
       RuleResolution.status resolution = RuleResolutionStatus.CONFLICT ∧
       RuleResolution.rules resolution = [] ∧
       map RuleResolutionIssue.code (RuleResolution.issues resolution) =
         [RuleResolutionIssueCode.OBSERVATION_NOT_VIOLATION]).
Proof.
  intros Hc Hst Hin Hlte Hbub d.
  destruct (candidate_claims _ _ _ _ _ Hc) as (first & others & mean & He & Hm & Hclaims).
  set (i := candidate_incident_of c) in *.
  destruct (loaded_rules root stored Hst) as (_ & _ & _ & Hok).
  destruct (Hok rule Hin) as [Hcheck _].
  pose proof Hclaims as (Ht & (f & o & Hv) & _).
  destruct (judge_claim rule mean i root stored _ Hclaims Hst Hin Hlte Hbub Hv)
    as (b & Hb & Hjudge).
  destruct (claim_issue rule RuleResolutionIssueCode.OBSERVATION_NOT_VIOLATION Hcheck)
    as (issue & Hissue & Hcode).
  destruct (claims_referenced rule mean i Hclaims) as [Hrules Hhashes].
  unfold resolve_rules_for_incident. rewrite Ht, bool_decide_eq_true_2 by (by left).
  rewrite Hrules, Hhashes, Hv. cbn [negb judge_all]. rewrite Hjudge.
  exists first, others, mean. destruct b.
  - eexists. split_and!; [done..| |intros Hn; destruct Hn; by apply Hb].
    intros _. unfold resolution_status, resolved_rules. rewrite Hv.
    cbn -[map_to_list]. by rewrite insert_empty, map_to_list_singleton.
  - cbn -[make_issue resolution_status resolved_rules]. rewrite Hissue. eexists.
    split_and!; [done..|intros Hbr; by apply Hb in Hbr|]. intros _.
    unfold resolution_status, resolved_rules. rewrite map_to_list_empty. cbn. by rewrite Hcode.
Qed.

(** C24. Detection and resolution agree on a candidate: resolving the rules that a
    candidate of an LTE rule claims, against the directory that its rule comes
    from, always returns, unless the rule has the reserved identifier of replays; it is [EXACT] with that one rule when the mean the candidate claims
    breaches the rule's threshold, and otherwise a [CONFLICT] that trusts no
    rule, for the observation alone. *)
Theorem candidate_resolution trace_id workflow_id rule episode c root stored :
  candidate_of trace_id workflow_id (rule, episode) c →
  load_all_versions root = Ok stored → rule ∈ stored →
  RcaRule.technology rule = Technology.value Technology.LTE →
  RcaRule.rule_id rule ≠ BUBBLERAN_REPLAY_RULE_ID →
  let d := RcaRule.detection rule in
  ∃ first others mean resolution,
    episode = first :: others ∧ mean_value first others = Ok mean ∧
    resolve_rules_for_incident (candidate_incident_of c) stored = Ok resolution ∧
    (breaches mean (RuleDetection.comparator d) (RuleDetection.threshold d) →
       resolution = RuleResolution.mk RuleResolutionStatus.EXACT [rule] []) ∧
    (¬ breaches mean (RuleDetection.comparator d) (RuleDetection.threshold d) →
       RuleResolution.status resolution = RuleResolutionStatus.CONFLICT ∧
       RuleResolution.rules resolution = [] ∧
       map RuleResolutionIssue.code (RuleResolution.issues resolution) =
         [RuleResolutionIssueCode.OBSERVATION_NOT_VIOLATION]).
Proof. apply candidate_facts. Qed.
End trust.
