(* ===== verification/DetectorConfirm.v ===== *)
(** * Confirming a candidate

    What a confirmation may write: at most one create-or-correlate, of the
    candidate that a scan of this very call found under the given identifier,
    or of the reconstructed request of an earlier confirmation. *)

From Stdlib Require Import Ascii String.
From S2P Require Import Prelude PyStr Json Privacy Models Incident Errors StateMachine Repository.
From S2P Require Import PyEq.
From S2P Require Import Contracts Ports GovernanceFacts.
From S2P Require Import Rules.
From S2P Require Import RuleStore.
From S2P Require Import RuleFacts.
From S2P Require Import Detector.

(** ** What the ports of a detector change *)

(** [unwritten w w']: nothing was written to the Incident repository between
    the two worlds; the ports that only read write nothing. *)
Class ReadOnlyPorts (W : Type) `{DetectorTelemetryRepository W, Uuids W, TrustedClock W,
    RulesDirectory W, IncidentRepository W} := {
  unwritten : W → W → Prop;
  unwritten_preorder :: PreOrder unwritten;
  query_unwritten : ∀ names technology start end_ ids w r w',
    query_kpis names technology start end_ ids w = (r, w') → unwritten w w';
  collect_unwritten : ∀ i w r w', collect_evidence i w = (r, w') → unwritten w w';
  uuid_unwritten : ∀ w r w', uuid4 w = (r, w') → unwritten w w';
  clock_unwritten : ∀ w r w', clock w = (r, w') → unwritten w w';
  rules_unwritten : ∀ w r w', read_rules w = (r, w') → unwritten w w';
  find_unwritten : ∀ id key operation w r w',
    Ports.find_by_idempotency_key id key operation w = (r, w') → unwritten w w'
}.

Section confirming.
Context `{R : Runtime, D : RuleDecoder}.
Context `{P : ReadOnlyPorts W}.

(** A program that writes nothing, and [Q] holds of what it returns. *)
Definition reads {A} (m : Eff W A) : Prop := ∀ w r w', m w = (r, w') → unwritten w w'.

Lemma reads_pure {A} (r : result exc A) : reads (pure r).
Proof. by intros w r' w' [= _ <-]. Qed.
Lemma reads_bind {A B} (m : Eff W A) (f : A → Eff W B) :
  reads m → (∀ a, reads (f a)) → reads (m ≫= f).
Proof.
  intros Hm Hf w r w'. unfold mbind, Eff_bind. destruct (m w) as [[a|e] w1] eqn:E.
  - intros Hr. etransitivity; [by eapply Hm|by eapply Hf].
  - intros [= <- <-]. by eapply Hm.
Qed.

Create HintDb reads_db.
#[local] Hint Resolve reads_pure query_unwritten collect_unwritten uuid_unwritten clock_unwritten
  rules_unwritten find_unwritten : reads_db.

(** [reads_tac] goes through a program whose operations only read. *)
Ltac reads_tac :=
  repeat first
    [ apply reads_pure
    | lazymatch goal with |- reads (_ ≫= _) =>
        let a := fresh in apply reads_bind; [|intros a; cbn beta] end
    | solve [unfold reads; eauto with reads_db] ].

Lemma trigger_for_episode_reads rule first others trace_id workflow_id :
  reads (trigger_for_episode rule first others trace_id workflow_id).
Proof. unfold trigger_for_episode, detector_now. reads_tac. Qed.

Lemma triggers_for_reads trace_id workflow_id specs :
  reads (triggers_for trace_id workflow_id specs).
Proof.
  induction specs as [|[rule [|first others]] specs IH]; cbn [triggers_for]; [|done|].
  - apply reads_pure.
  - reads_tac. apply trigger_for_episode_reads.
Qed.

Lemma scan_scope_reads trace_id workflow_id scope : reads (scan_scope trace_id workflow_id scope).
Proof.
  unfold scan_scope. reads_tac. case_match; reads_tac. apply triggers_for_reads.
Qed.

Lemma scan_reads_only trace_id workflow_id window_start window_end resource_ids :
  reads (scan trace_id workflow_id window_start window_end resource_ids).
Proof.
  unfold scan. reads_tac; [case_match; reads_tac|apply scan_scope_reads].
Qed.

(** ** Selection *)

Lemma detector_text_Ok name value n s :
  require_text name value n = Ok s → s = py_strip value.
Proof. unfold require_text. intros Hr. by run_ok. Qed.
Lemma require_identifier_Ok name value s : require_identifier name value = Ok s → s = py_strip value.
Proof. apply detector_text_Ok. Qed.

Lemma select_Some id candidates i :
  select id candidates = Some i →
  ∃ c, c ∈ candidates ∧ Envelope.incident_id c.1 = id ∧ i = candidate_incident_of c.
Proof.
  unfold select. intros (c & Hc & ->)%fmap_Some.
  apply next_such_Some in Hc as [Hc Hid]. rewrite str_eqb_true in Hid. by exists c.
Qed.

(** The confirmed Incident: what a scan of this call found under the identifier, or
    the request of the confirmation that the key belongs to. *)
Definition selected_by (id key trace_id : string) (scope : option Z * option Z * list string)
    (w : W) (i : Incident.t) : Prop :=
  (∃ w1 w2 candidates c,
     unwritten w w1 ∧
     scan trace_id None ((λ t, Aware t 0) <$> scope.1.1) ((λ t, Aware t 0) <$> scope.1.2) scope.2
       w1 = (Ok candidates, w2) ∧
     c ∈ candidates ∧ Envelope.incident_id c.1 = id ∧ i = candidate_incident_of c) ∨
  (∃ replay w1 w2,
     unwritten w w1 ∧
     Ports.find_by_idempotency_key id key "create_or_correlate" w1 = (Ok (Some replay), w2) ∧
     Incident.incident_id replay = id ∧
     Incident.status replay = IncidentStatus.DETECTED ∧ Incident.revision replay = 0 ∧
     Incident.window_end replay = Some (Incident.detected_at replay) ∧
     Incident.model_validate
       (with_times replay (Incident.detected_at replay) (Incident.detected_at replay)) = Ok i).

Lemma replay_snapshot_Ok replay i :
  replay_snapshot replay = Ok i →
  Incident.status replay = IncidentStatus.DETECTED ∧ Incident.revision replay = 0 ∧
  Incident.window_end replay = Some (Incident.detected_at replay) ∧
  Incident.model_validate
    (with_times replay (Incident.detected_at replay) (Incident.detected_at replay)) = Ok i.
Proof.
  unfold replay_snapshot. intros (_ & Hg%throw_if_Ok & Hv%validated_Ok)%bind_Ok.
  rewrite !orb_false_iff, !negb_false_iff, !bool_decide_eq_true, Z.eqb_eq in Hg.
  destruct Hg as [[[Hs Hr] _] Hw]. by split_and!.
Qed.

Lemma detector_step_run {A B} (m : Eff W A) (f : A → Eff W B) w r w' :
  (m ≫= f) w = (r, w') →
  (∃ a w1, m w = (Ok a, w1) ∧ f a w1 = (r, w')) ∨ (∃ e, m w = (Err e, w') ∧ r = Err e).
Proof.
  unfold mbind, Eff_bind. destruct (m w) as [[a|e] w1]; [by left; eauto|].
  intros [= <- <-]. right. eauto.
Qed.

(** [raise_in Hr] takes a computation off the run [Hr]: when it raised, nothing
    was written. *)
Ltac raise_in Hr :=
  rewrite bind_pure_run in Hr;
  let E := fresh "E" in
  match type of Hr with
  | match ?m with Ok _ => _ | Err _ => _ end = _ =>
      destruct m eqn:E; [|left; injection Hr as <- <-; split; [reflexivity|by eexists]]
  end.

(** The selection of [confirm], after the look-up of the key. *)
Lemma selection_run id key trace_id scope replay w w1 r w' :
  unwritten w w1 →
  Ports.find_by_idempotency_key id key "create_or_correlate" w = (Ok replay, w1) →
  let rescan :=
    scan trace_id None ((λ t, Aware t 0) <$> scope.1.1) ((λ t, Aware t 0) <$> scope.1.2) scope.2
      ≫= λ candidates : list Candidate, pure (Ok (select id candidates)) in
  match replay with
  | Some replay =>
      if str_eqb (Incident.incident_id replay) id
      then pure (replay_snapshot replay ≫= λ i, Ok (Some i))
      else rescan
  | None => rescan
  end w1 = (r, w') →
  unwritten w w' ∧ ∀ i, r = Ok (Some i) → selected_by id key trace_id scope w i.
Proof.
  intros Hw Hf rescan.
  assert (rescan w1 = (r, w') →
    unwritten w w' ∧ ∀ i, r = Ok (Some i) → selected_by id key trace_id scope w i) as Hrescan.
  { intros Hr. split.
    - etransitivity; [exact Hw|]. eapply (reads_bind _ _); [apply scan_reads_only| |exact Hr].
      intros. apply reads_pure.
    - intros i ->. unfold rescan in Hr. step_in Hr. injection Hr as Hs <-.
      apply select_Some in Hs as (c & Hc & Hid & ->). left.
      by exists w1, w0, a, c. }
  destruct replay as [replay|]; [|exact Hrescan].
  destruct (str_eqb _ _) eqn:Eid; [|exact Hrescan]. clear Hrescan. rewrite str_eqb_true in Eid.
  intros [= <- <-]. split; [done|]. intros i (i' & Hs & [= ->])%bind_Ok. right.
  exists replay, w, w1. by destruct (replay_snapshot_Ok replay i Hs) as (? & ? & ? & ?).
Qed.

(** C22. The only write a confirmation can make is one create-or-correlate, under
    the given key, actor, reason and trace, of the Incident it selected: the
    candidate that a scan of this call, over its scope and before any write, found under the given
    identifier, or the original request of an unchanged replay under that
    identifier.  A confirmation that selects nothing raises and writes nothing,
    and what it returns is what was committed, safe for a model. *)
Theorem confirm_commits_selected candidate_id trace_id idempotency_key actor reason
    window_start window_end resource_ids w r w' :
  confirm candidate_id trace_id idempotency_key actor reason window_start window_end
    resource_ids w = (r, w') →
  (unwritten w w' ∧ ∃ e, r = Err e) ∨
  ∃ scope selected w1 committed,
    validated_scan_scope window_start window_end resource_ids = Ok scope ∧ unwritten w w1 ∧
    selected_by (py_strip candidate_id) (py_strip idempotency_key) (py_strip trace_id) scope w
      selected ∧
    Ports.create_or_correlate selected
      (mk_metadata (py_strip idempotency_key) (py_strip actor) (py_strip reason)
         (py_strip trace_id)) w1 = (committed, w') ∧
    ∀ i, r = Ok i → committed = Ok i ∧ model_safe (Incident.to_json i) = true.
Proof.
  unfold confirm. intros Hr. do 6 raise_in Hr.
  destruct a4 as [[start end_] ids].
  repeat match goal with
  | H : require_identifier _ _ = Ok _ |- _ => apply require_identifier_Ok in H as ->
  | H : require_text _ _ _ = Ok _ |- _ => apply detector_text_Ok in H as ->
  end.
  apply detector_step_run in Hr as [(replay & w1 & Ef & Hr)|(e & Ef & ->)];
    [|left; split; [by eapply find_unwritten|by eexists]].
  pose proof (find_unwritten _ _ _ _ _ _ Ef) as Hw1.
  apply detector_step_run in Hr as [(chosen & w2 & Ec & Hr)|(e & Ec & ->)];
    destruct (selection_run _ _ _ (start, end_, ids) _ _ _ _ _ Hw1 Ef Ec) as [Hw2 Hsel];
    [|left; split; [done|by eexists]].
  destruct chosen as [selected|]; [|left; injection Hr as <- <-; split; [done|by eexists]].
  rewrite bind_pure_run in Hr. cbn [of_option] in Hr. right.
  apply detector_step_run in Hr as [(i & w3 & Ecommit & Hr)|(e & Ecommit & ->)].
  - exists (start, end_, ids), selected, w2, (Ok i). rewrite bind_pure_run in Hr.
    assert (w' = w3) as -> by (destruct (assert_privacy_safe _ _); by injection Hr).
    split_and!; [done..|by apply Hsel|done|].
    intros i' ->. destruct (assert_privacy_safe _ _) as [u|] eqn:Es; [|done].
    injection Hr as ->. apply throw_if_Ok in Es. by rewrite negb_false_iff in Es.
  - exists (start, end_, ids), selected, w2, (Err e).
    split_and!; [done..|by apply Hsel|done|done].
Qed.
End confirming.
