(* ===== verification/DetectorSamples.v ===== *)
(** * A detector at work

    The rule of [RuleSamples] over a few observations of one cell, a scan, the
    confirmation of its candidate in an in-memory repository, and a candidate
    whose mean does not breach the rule that every sample breaches. *)

From Stdlib Require Import Ascii String.
From stdpp Require Import pretty.
From S2P Require Import Prelude PyStr Json Reference Privacy Models Incident Errors StateMachine.
From S2P Require Import PyEq.
From S2P Require Import Samples Repository Registration RepositoryFacts Contracts Ports LocalWorld GovernanceFacts.
From S2P Require Import Rules.
From S2P Require Import RuleResolution.
From S2P Require Import RuleStore.
From S2P Require Import RuleFacts.
From S2P Require Import RuleProps.
From S2P Require Import RuleStoreProps.
From S2P Require Import RuleSamples.
From S2P Require Import LteIdentifiers.
From S2P Require Import Detector.
From S2P Require Import DetectorEpisodes.
From S2P Require Import DetectorFloats.
From S2P Require Import DetectorProps.
From S2P Require Import DetectorScan.
From S2P Require Import DetectorTrust.
From S2P Require Import DetectorConfirm.

(** ** The world *)

Definition minute : Z := 60000000.
Definition sample (id : string) (value : pyfloat) (minutes : Z) : KpiObservation.t :=
  KpiObservation.mk id "erab_success_rate" value (minutes * minute) [cell] (Some "%")
    "kpi://cell-17/erab" ["SOURCE_TIMEZONE_ASSUMED_UTC"] ∅.
Definition observations : list KpiObservation.t :=
  [ sample "obs-3" (float_of 90) 120; sample "obs-1" (float_of 93) 0;
    sample "obs-2" (float_of 95) 10; sample "obs-4" (float_of 100) 130 ].

(** A rule of which an observation of exactly 0.1 is a breach. *)
Definition tenth : pyfloat := PyFloat false 3602879701896397 (-55).
Definition at_most_tenth : RcaRule.t :=
  RcaRule.mk "lte.erab.low-rate" "1.0.0" "LTE" true "rate at most a tenth"
    (RuleDetection.mk "erab_success_rate" KpiComparator.LESS_THAN_OR_EQUAL tenth (Some "%") 30)
    (RcaRule.analysis rule_2) (RcaRule.severity rule_2).

#[local] Instance every_rule : RuleDecoder :=
  {| coerce_rule := λ items, next_such (λ r, bool_decide (RcaRule.to_json r = JObj items))
                               [rule_1; rule_2; at_most_tenth] |}.

Definition quiet : nat → list (Request * pydatetime) := λ _, [].
Definition wall (n : nat) : pydatetime := Aware (200 * minute + Z.of_nat n) 0.

Section world.
Context (rules : list RcaRule.t) (obs : list KpiObservation.t).

Definition directory : Directory :=
  Some (map (λ r, file_of (RcaRule.rule_id r +:+ RcaRule.version r) r) rules).

#[local] Instance sample_telemetry : DetectorTelemetryRepository World := {
  query_kpis names technology start end_ ids w :=
    (Ok (List.filter (λ o, existsb (str_eqb (KpiObservation.kpi_name o)) names) obs), w);
  collect_evidence i w := (Ok [evidence], w)
}.
#[local] Instance sample_uuids : Uuids World := {
  uuid4 w := (Ok ("uuid-" +:+ pretty (tick w)), mk_world (store w) (S (tick w)))
}.
#[local] Instance sample_rules : RulesDirectory World := { read_rules w := (Ok directory, w) }.
#[local] Instance sample_repository : IncidentRepository World := memory_repository quiet wall.
#[local] Instance sample_clock : TrustedClock World := process_clock wall.

#[local] Instance sample_ports : ReadOnlyPorts World.
Proof.
  refine {| unwritten := λ w w', store w = store w' |}.
  - split; [done|by intros ??? -> ->].
  - by intros * [= _ <-].
  - by intros * [= _ <-].
  - by intros * [= _ <-].
  - by intros * [= _ <-].
  - by intros * [= _ <-].
  - intros id key operation w r w' Hr.
    apply (locked_run quiet wall (λ _, Repository.find_by_idempotency_key id key operation))
      in Hr as (Hr & _ & _).
    unfold Repository.find_by_idempotency_key, store_at in Hr. cbn in Hr.
    by destruct (make_scope _ _ _); injection Hr as _ ->.
Defined.

Definition sample_scan : Eff World (list Candidate) :=
  scan "trace-1" (Some "workflow-1") None None [].
Definition sample_confirm (id : string) : Eff World Incident.t :=
  confirm id "trace-1" "confirm-1" "operator" "looks right" None None [].
End world.

Definition start : World := mk_world empty_state 0.
Definition scanned : list Candidate :=
  match (sample_scan [rule_1; rule_2] observations start).1 with Ok cs => cs | Err _ => [] end.

Example two_candidates :
  map (λ c, Incident.source_event_ids (candidate_incident_of c)) scanned =
  [["obs-1"; "obs-2"]; ["obs-3"]].
Proof. vm_compute. reflexivity. Qed.

(** ** The theorems at this world *)

Lemma scan_returns :
  ∃ cs w, sample_scan [rule_1; rule_2] observations start = (Ok cs, w) ∧ length cs = 2%nat.
Proof.
  destruct (sample_scan [rule_1; rule_2] observations start) as [r w] eqn:E.
  assert (match r with Ok cs => length cs | Err _ => 0%nat end = 2%nat) as Hr.
  { change r with (r, w).1. rewrite <- E. vm_compute. reflexivity. }
  destruct r as [cs|e]; [|discriminate Hr]. exists cs, w. split; [reflexivity|exact Hr].
Qed.

Lemma sample_query obs names technology from to ids w r w' :
  @query_kpis World (sample_telemetry obs) names technology from to ids w = (Ok r, w') →
  ∀ o, o ∈ r → o ∈ obs.
Proof.
  intros [= <- _] o. rewrite !list_elem_of_In, filter_In. by intros [Ho _].
Qed.

Lemma scan_exact_witness :
  ∃ (cs : list Candidate) rule episode, length cs = 2%nat ∧
    episode_found rule observations episode.
Proof.
  destruct scan_returns as (cs & w & Hr & Hl).
  destruct (@scan_exact quick every_rule World (sample_telemetry observations) sample_uuids
    sample_clock (sample_rules [rule_1; rule_2]) "trace-1" (Some "workflow-1") None None []
    start cs w Hr) as (workflow & scope & rules & obs & _ & Hreads & _ & _ & _ & Hin & _).
  destruct cs as [|c cs]; [discriminate Hl|].
  destruct (Hin c ltac:(left)) as (rule & episode & _ & He & _).
  exists (c :: cs), rule, episode. split; [exact Hl|]. destruct He as (H1 & H2 & H3).
  split_and!; [exact H1| |exact H3]. intros o Ho. destruct (H2 o Ho) as [Hobs Hs].
  split; [|exact Hs].
  destruct Hreads as (root & loaded & w1 & w2 & _ & _ & _ & _ & [[-> ->]|(w3 & Hq & _)]).
  - exact (False_ind _ (not_elem_of_nil o Hobs)).
  - exact (sample_query _ _ _ _ _ _ _ _ _ Hq o Hobs).
Defined.

Lemma episode_samples : matched rule_2 observations = Ok (take 3 observations).
Proof. vm_compute. reflexivity. Qed.

Lemma scan_budget_witness :
  List.concat (rule_episodes rule_2 (take 3 observations)) ≡ₚ take 3 observations.
Proof.
  destruct (scan_budget [rule_2] observations) as (_ & H & _).
  destruct (H rule_2 _ episode_samples) as (_ & _ & Hp). exact Hp.
Defined.

Lemma gap_comparison_exact_witness :
  gap_exceeds 30 (sample "obs-2" half 10) (sample "obs-3" half 120) = true.
Proof.
  apply (gap_comparison_exact 30 (sample "obs-2" half 10) (sample "obs-3" half 120)).
  - vm_compute. split; [discriminate|reflexivity].
  - lia.
  - vm_compute. reflexivity.
Defined.

Lemma lte_roundtrip_witness :
  ∃ e c, in_range e c ∧
    parse_lte_resource_id (canonical_text e c) = Ok ("17", Some "3")%string.
Proof.
  destruct (lte_roundtrip " lte:enodeb:0017:cell: 3" "17" (Some "3"%string))
    as (e & c & Hr & _ & _ & _ & Hp & _).
  - vm_compute. reflexivity.
  - exists e, c. split; [exact Hr|exact Hp].
Defined.

(** ** Resolving a candidate *)

(** The candidate of an episode. *)
Definition trigger (rule : RcaRule.t) (first : KpiObservation.t) (others : list KpiObservation.t) :=
  @trigger_for_episode quick rule first others World (sample_telemetry []) sample_uuids
    sample_clock "trace-1" "workflow-1" start.

Lemma triggered rule first others :
  is_ok (trigger rule first others).1 = true →
  ∃ c, @candidate_of quick World (sample_telemetry []) "trace-1" "workflow-1"
         (rule, first :: others) c.
Proof.
  destruct (trigger rule first others) as [[c|e] w] eqn:E; [|done]. intros _. exists c.
  eapply trigger_for_episode_inv. exact E.
Qed.

Lemma sample_directory :
  load_all_versions (directory [at_most_tenth; rule_1; rule_2]) =
  Ok [at_most_tenth; rule_1; rule_2].
Proof. vm_compute. reflexivity. Qed.

Lemma candidate_resolution_witness :
  ∃ c, resolve_rules_for_incident (candidate_incident_of c) [at_most_tenth; rule_1; rule_2] =
    Ok (RuleResolution.mk RuleResolutionStatus.EXACT [rule_2] []).
Proof.
  destruct (triggered rule_2 (sample "obs-1" (float_of 93) 0) [sample "obs-2" (float_of 95) 10])
    as [c Hc]; [vm_compute; reflexivity|].
  exists c.
  destruct (candidate_resolution _ _ _ _ c _ _ Hc sample_directory)
    as (first & others & mean & resolution & He & Hm & Hr & Hok & _).
  - right. right. left.
  - reflexivity.
  - vm_compute. discriminate.
  - injection He as <- <-. rewrite Hr. f_equal. apply Hok.
    assert (mean_value (sample "obs-1" (float_of 93) 0) [sample "obs-2" (float_of 95) 10]
            = Ok (PyFloat false 47 1)) as Hmean by (vm_compute; reflexivity).
    rewrite Hmean in Hm. injection Hm as <-. vm_compute. reflexivity.
Defined.

(** Three samples of 0.1 each breach a limit of 0.1, but their mean in floating
    point is 0.10000000000000002: the Incident that the detector makes of them
    claims a rule that the resolver then refuses to trust. *)
Definition tenths : list KpiObservation.t :=
  [sample "obs-1" tenth 0; sample "obs-2" tenth 10; sample "obs-3" tenth 20].

Lemma mean_of_breaches_refused :
  Forall (sample_of at_most_tenth) tenths ∧
  ∃ c resolution,
    @candidate_of quick World (sample_telemetry []) "trace-1" "workflow-1"
      (at_most_tenth, tenths) c ∧
    resolve_rules_for_incident (candidate_incident_of c) [at_most_tenth; rule_1; rule_2] =
      Ok resolution ∧
    RuleResolution.status resolution = RuleResolutionStatus.CONFLICT ∧
    RuleResolution.rules resolution = [].
Proof.
  split.
  { repeat constructor; vm_compute; reflexivity. }
  destruct (triggered at_most_tenth (sample "obs-1" tenth 0)
    [sample "obs-2" tenth 10; sample "obs-3" tenth 20]) as [c Hc]; [vm_compute; reflexivity|].
  destruct (candidate_facts _ _ _ _ c _ _ Hc sample_directory)
    as (first & others & mean & resolution & He & Hm & Hr & _ & Hno).
  - left.
  - reflexivity.
  - vm_compute. discriminate.
  - exists c, resolution. split; [exact Hc|]. split; [exact Hr|].
    injection He as <- <-.
    assert (mean_value (sample "obs-1" tenth 0) [sample "obs-2" tenth 10; sample "obs-3" tenth 20]
            = Ok (PyFloat false 7205759403792795 (-56))) as Hmean by (vm_compute; reflexivity).
    rewrite Hmean in Hm. injection Hm as <-.
    destruct Hno as (H1 & H2 & _); [|split; [exact H1|exact H2]].
    vm_compute. discriminate.
Qed.

(** ** Confirming a candidate *)

Definition first_candidate : string :=
  match scanned with c :: _ => Envelope.incident_id c.1 | [] => EmptyString end.

Definition confirmed (w : World) : list (string * Z * IncidentStatus.t) :=
  map (λ x, (x.1, Incident.revision x.2, Incident.status x.2)) (map_to_list (incidents (store w))).

(** Confirming twice under one key commits one Incident. *)
Example confirmed_once :
  let once := sample_confirm [rule_1; rule_2] observations first_candidate start in
  let twice := sample_confirm [rule_1; rule_2] observations first_candidate once.2 in
  is_ok once.1 = true ∧ is_ok twice.1 = true ∧
  confirmed twice.2 = [(first_candidate, 0, IncidentStatus.DETECTED)].
Proof. vm_compute. repeat split. Qed.

Example unknown_candidate :
  let run := sample_confirm [rule_1; rule_2] observations "incident-0" start in
  is_ok run.1 = false ∧ confirmed run.2 = [].
Proof. vm_compute. repeat split. Qed.

Lemma confirm_commits_selected_witness :
  ∃ i w, sample_confirm [rule_1; rule_2] observations first_candidate start = (Ok i, w) ∧
    model_safe (Incident.to_json i) = true.
Proof.
  destruct (sample_confirm [rule_1; rule_2] observations first_candidate start) as [r w] eqn:E.
  assert (is_ok r = true) as Hr.
  { change r with (r, w).1. rewrite <- E. exact (proj1 confirmed_once). }
  destruct (@confirm_commits_selected quick every_rule World (sample_telemetry observations)
    sample_uuids sample_clock (sample_rules [rule_1; rule_2]) sample_repository
    (sample_ports [rule_1; rule_2] observations) first_candidate "trace-1" "confirm-1" "operator"
    "looks right" None None [] start r w E) as [[_ (e & He)]|H].
  - rewrite He in Hr. discriminate Hr.
  - destruct H as (scope & selected & w1 & committed & _ & _ & _ & _ & H).
    destruct r as [i|e]; [|discriminate Hr]. exists i, w. split; [reflexivity|].
    exact (proj2 (H i eq_refl)).
Defined.
