(* ===== verification/PyFormat.v ===== *)
(** * Text and number formatting of the standard library

    What the analysis uses of [str], [urllib.parse.quote], [math.sqrt],
    [round] and the format specifications [g] and [.4f]. *)

From Stdlib Require Import Ascii String.
From stdpp Require Import pretty.
From S2P Require Import Prelude PyStr Json Models Errors.
From S2P Require Import PyEq.
From S2P Require GovernanceBase.
From S2P Require Import Rules.
From S2P Require Import Detector.

(** ** Texts *)

(** [sep.join(texts)]. *)
Fixpoint join (sep : string) (texts : list string) : string :=
  match texts with
  | [] => EmptyString
  | [t] => t
  | t :: texts => t +:+ sep +:+ join sep texts
  end.

(** The maximal runs of characters of a class. *)
Fixpoint char_runs (p : string → bool) (current : list string) (l : list string) :
    list (list string) :=
  let close := match current with [] => [] | _ => [rev current] end in
  match l with
  | [] => close
  | ch :: l => if p ch then char_runs p (ch :: current) l else close ++ char_runs p [] l
  end.
(** [s.split()]. *)
Definition words (s : string) : list string :=
  map concat (char_runs (λ ch, negb (is_space ch)) [] (chars s)).

(** [s[:n]] and [s.rstrip()]. *)
Definition py_take (n : Z) (s : string) : string := concat (take (Z.to_nat n) (chars s)).
Definition rstrip (s : string) : string :=
  concat (reverse (drop_spaces (reverse (chars s)))).

(** [urllib.parse.quote(s, safe="")]. *)
Definition hex_upper (n : N) : ascii := ascii_of_N (if (n <? 10)%N then 48 + n else 55 + n).
Definition unreserved (c : ascii) : bool :=
  is_digit c || is_lower c || is_upper c || bool_decide (c ∈ ["_"; "."; "-"; "~"]%char).
Fixpoint url_quote (s : string) : string :=
  match s with
  | EmptyString => EmptyString
  | String c s =>
      if unreserved c then String c (url_quote s)
      else String "%" (String (hex_upper (byte_of c / 16))
             (String (hex_upper (byte_of c mod 16)) (url_quote s)))
  end.

(** [s.replace("Z", "+00:00")]. *)
Fixpoint replace_Z (s : string) : string :=
  match s with
  | EmptyString => EmptyString
  | String c s => if bool_decide (c = "Z"%char) then "+00:00" +:+ replace_Z s else String c (replace_Z s)
  end.

(** ** Doubles *)

(** [n / d] of two nonnegative integers. *)
Definition int_div (n d : Z) : pyfloat := quotient false n d 0.
(** [x * y] and [x / y] of two nonnegative doubles. *)
Definition float_mul (x y : pyfloat) : pyfloat :=
  quotient false (Z.of_N (f_mant x) * Z.of_N (f_mant y)) 1 (f_expo x + f_expo y).
Definition float_quotient (x y : pyfloat) : pyfloat :=
  quotient false (Z.of_N (f_mant x)) (Z.of_N (f_mant y)) (f_expo x - f_expo y).
(** [math.sqrt(n)] of an integer below 2^53: the root to 60 binary places, and
    whether it is exact. *)
Definition int_sqrt (n : Z) : pyfloat :=
  let s := Z.sqrt (n * 4 ^ 60) in
  quotient false (2 * s + (if s * s =? n * 4 ^ 60 then 0 else 1)) 1 (-61).

(** The nearest integer to [|x| * 10^k], ties to even. *)
Definition scaled (x : pyfloat) (k : Z) : Z :=
  let m := Z.of_N (f_mant x) in
  let n := m * 10 ^ Z.max 0 k * 2 ^ Z.max 0 (f_expo x) in
  let d := 10 ^ Z.max 0 (- k) * 2 ^ Z.max 0 (- f_expo x) in
  GovernanceBase.round_half_even n d.

(** [round(x, 6)]. *)
Definition round6 (x : pyfloat) : pyfloat := quotient (f_neg x) (scaled x 6) 1000000 0.

(** An integer in at least [width] digits. *)
Definition zero_padded (width : nat) (n : Z) : string :=
  let digits := pretty n in
  string_of_list_ascii (repeat "0"%char (width - String.length digits)) +:+ digits.

(** [f"{x:.4f}"] of a nonnegative double. *)
Definition format_4f (x : pyfloat) : string :=
  let n := scaled x 4 in pretty (n / 10000) +:+ "." +:+ zero_padded 4 (n mod 10000).

(** [10^k <= |x|]. *)
Definition at_least_power (x : pyfloat) (k : Z) : bool :=
  let m := Z.of_N (f_mant x) in
  10 ^ Z.max 0 k * 2 ^ Z.max 0 (- f_expo x) <=?
  m * 2 ^ Z.max 0 (f_expo x) * 10 ^ Z.max 0 (- k).
(** The decimal exponent of [|x|], not zero: 30103/100000 is log10(2). *)
Definition decimal_exponent (x : pyfloat) : Z :=
  let k := (Z.log2 (Z.of_N (f_mant x)) + f_expo x) * 30103 / 100000 in
  if negb (at_least_power x k) then k - 1 else if at_least_power x (k + 1) then k + 1 else k.

(** A decimal fraction without its trailing zeros, nor a point at the end. *)
Fixpoint drop_zeros (l : list ascii) : list ascii :=
  match l with
  | c :: l' => if bool_decide (c = "0"%char) then drop_zeros l' else l
  | [] => []
  end.
Definition fraction (digits : string) : string :=
  match rev (drop_zeros (rev (list_ascii_of_string digits))) with
  | [] => EmptyString
  | l => String "." (string_of_list_ascii l)
  end.

(** [f"{x:g}"]: six significant digits. *)
Definition format_g (x : pyfloat) : string :=
  let sign := if f_neg x then "-"%string else EmptyString in
  sign +:+
  if (f_mant x =? 0)%N then "0" else
  let k := decimal_exponent x in
  let n := scaled x (5 - k) in
  (* rounding can reach the next power of ten *)
  let carry := n =? 1000000 in
  let e := if carry then k + 1 else k in
  let digits := if carry then 100000 else n in
  if (-4 <=? e) && (e <? 6) then
    if 0 <=? e then
      let unit := 10 ^ (5 - e) in
      pretty (digits / unit) +:+ fraction (if e =? 5 then EmptyString
                                           else zero_padded (Z.to_nat (5 - e)) (digits mod unit))
    else "0" +:+ fraction (zero_padded (Z.to_nat (5 - e)) digits)
  else
    pretty (digits / 100000) +:+ fraction (zero_padded 5 (digits mod 100000)) +:+ "e" +:+
    (if e <? 0 then "-" else "+") +:+ zero_padded 2 (Z.abs e).

Example format_g_ex :
  map format_g [ PyFloat false 93 0; PyFloat false 3602879701896397 (-55); PyFloat true 5 (-1);
                 PyFloat false 1234567 0; PyFloat false 9999995 (-1); PyFloat false 0 0;
                 quotient false 1 30000 0; quotient false 123 10000000 0; PyFloat false 1 1000;
                 quotient false 999999500 1000 0; quotient false 9949995 100000 0 ] =
  ["93"; "0.1"; "-2.5"; "1.23457e+06"; "5e+06"; "0"; "3.33333e-05"; "1.23e-05"; "1.07151e+301";
   "1e+06"; "99.4999"].
Proof. vm_compute. reflexivity. Qed.
Example format_4f_ex :
  map format_4f [PyFloat false 1 0; PyFloat false 3602879701896397 (-55); int_div 2 3] =
  ["1.0000"; "0.1000"; "0.6667"].
Proof. vm_compute. reflexivity. Qed.
Example sqrt_ex :
  int_sqrt 2 = PyFloat false 6369051672525773 (-52) ∧ int_sqrt 49 = PyFloat false 7 0.
Proof. vm_compute. done. Qed.
Example round6_ex : round6 (int_div 2 3) = quotient false 666667 1000000 0.
Proof. vm_compute. reflexivity. Qed.
Example words_ex : words ("  a b" +:+ bytes [194;160;9]%N +:+ "c ") = ["a"; "b"; "c"].
Proof. vm_compute. reflexivity. Qed.
Example quote_ex : url_quote "a/b c~1" = "a%2Fb%20c~1".
Proof. vm_compute. reflexivity. Qed.
