(* ===== verification/Similarity.v ===== *)
(** * Lexical similarity of Incidents (telco_local/similarity.py)

    Tokens, the cosine of two bags of tokens in double precision, and the
    ranking of analysed Incidents by it. *)

From Stdlib Require Import Ascii String.
From S2P Require Import Prelude PyStr Json Privacy Models Incident Errors.
From S2P Require Import PyEq.
From S2P Require Import Rules.
From S2P Require Import Detector.
From S2P Require Import PyFormat.

Module SimilarIncident.
Record t := mk {
  incident_id : string;
  similarity : pyfloat;
  summary : string;
  root_cause : option string
}.
#[global] Instance eq_dec : EqDecision t.
Proof. solve_decision. Defined.
Definition check (s : t) : result string unit :=
  throw_if (negb (sized 1 256 (incident_id s))) "incident_id" ≫= λ _,
  throw_if (negb (float_leb (PyFloat false 0 0) (similarity s)
                  && float_leb (similarity s) (PyFloat false 1 0))) "similarity" ≫= λ _,
  throw_if (1024 <? py_len (summary s)) "summary" ≫= λ _,
  throw_if (match root_cause s with Some r => 1024 <? py_len r | None => false end) "root_cause".
(** The constructor: pydantic strips the texts, then checks them. *)
Definition make `{Runtime} (s : t) : result exc t :=
  let s := mk (strip (incident_id s)) (similarity s) (strip (summary s)) (strip <$> root_cause s) in
  validated (check s) ≫= λ _, Ok s.
Definition to_json (s : t) : json :=
  JObj [ ("incident_id", JStr (incident_id s));
         ("root_cause", json_opt JStr (root_cause s));
         ("similarity", JFloat (similarity s));
         ("summary", JStr (summary s)) ].
End SimilarIncident.

(** ** Tokens *)

(** [[a-z0-9_]] and [[\u4e00-\u9fff]]. *)
Definition latin_char (ch : string) : bool :=
  match ch with
  | String c EmptyString => is_lower c || is_digit c || bool_decide (c = "_"%char)
  | _ => false
  end.
Definition chinese_char (ch : string) : bool :=
  String.leb (bytes [228; 184; 128]%N) ch && String.leb ch (bytes [233; 191; 191]%N).

(** The bigrams of a run, or the one character of it. *)
Fixpoint bigrams (run : list string) : list string :=
  match run with
  | a :: (b :: _) as rest => (a +:+ b) :: bigrams rest
  | _ => []
  end.
Definition run_tokens (run : list string) : list string :=
  match run with [ch] => [ch] | _ => bigrams run end.

Section similarity.
Context `{R : Runtime}.

Definition tokenize (text : string) : list string :=
  let normalized := chars (lower text) in
  map concat (char_runs latin_char [] normalized) ++
  flat_map run_tokens (char_runs chinese_char [] normalized).

(** ** Cosine *)

(** [Counter(tokens)[token]]. *)
Definition count (tokens : list string) (token : string) : Z :=
  Z.of_nat (length (filter (λ t, t = token) tokens)).
Definition sum_over (tokens : list string) (f : string → Z) : Z :=
  foldr (λ token n, f token + n) 0 (distinct tokens).

Definition cosine_similarity (left right : string) : pyfloat :=
  let l := tokenize left in
  let r := tokenize right in
  match l, r with
  | [], _ | _, [] => PyFloat false 0 0
  | _, _ =>
      let dot := sum_over l (λ token, count l token * count r token) in
      let left_norm := int_sqrt (sum_over l (λ token, count l token * count l token)) in
      let right_norm := int_sqrt (sum_over r (λ token, count r token * count r token)) in
      let cosine := float_quotient (exact_int dot) (float_mul left_norm right_norm) in
      if float_leb cosine (PyFloat false 1 0) then cosine else PyFloat false 1 0
  end.

(** ** Ranking *)

Definition text_or (o : option string) : string := default EmptyString o.
Definition latest_report (i : Incident.t) : option RcaReport.t :=
  max_by RcaReport.version (Incident.rca_reports i).

(** [_incident_text]. *)
Definition incident_text (i : Incident.t) : string :=
  let parts :=
    [ Incident.title i; Incident.description i; text_or (Incident.root_cause i);
      join " " (Incident.hypotheses i);
      join " " (map KpiViolation.kpi_name (Incident.violated_kpis i)) ] ++
    match latest_report i with
    | Some r => [ text_or (RcaReport.title r); RcaReport.summary r; text_or (RcaReport.root_cause r);
                  join " " (RcaReport.hypotheses r) ]
    | None => []
    end in
  join (String "010"%char EmptyString) (List.filter (λ part, negb (str_eqb part EmptyString)) parts).

Definition join_paths (paths : list string) : string := join ", " paths.
(** [assert_model_safe(value)], with the paths in the order of the keys. *)
Definition assert_model_safe (value : json) : result exc unit :=
  match find_sensitive_paths value "$" with
  | [] => Ok tt
  | paths =>
      fail (SensitiveDataError
        ("Raw subscriber identifiers are not allowed at: " +:+ join_paths paths))
  end.

(** [text or None]. *)
Definition nonempty_or_none (s : string) : option string :=
  if str_eqb s EmptyString then None else Some s.
(** [a or b] of optional texts. *)
Definition text_else (a b : option string) : option string :=
  match a with Some s => if str_eqb s EmptyString then b else a | None => b end.

(** The match a candidate gives, from its text and score. *)
Definition scored_match (candidate : Incident.t) (score : pyfloat) : SimilarIncident.t :=
  SimilarIncident.mk (Incident.incident_id candidate) (round6 score)
    (py_take 1024 (if str_eqb (Incident.description candidate) EmptyString
                   then Incident.title candidate else Incident.description candidate))
    (nonempty_or_none (py_take 1024 (text_or
       (text_else (Incident.root_cause candidate)
          (latest_report candidate ≫= RcaReport.root_cause))))).

(** The tests that skip a candidate before it is compared. *)
Definition comparable (i candidate : Incident.t) : bool :=
  negb (str_eqb (Incident.incident_id candidate) (Incident.incident_id i))
  && bool_decide (Incident.technology candidate = Incident.technology i)
  && (negb (str_eqb (text_or (Incident.root_cause candidate)) EmptyString)
      || match Incident.rca_reports candidate with [] => false | _ => true end).

Fixpoint score_all (i : Incident.t) (query : string) (min_score : pyfloat)
    (candidates : list Incident.t) : result exc (list SimilarIncident.t) :=
  match candidates with
  | [] => Ok []
  | candidate :: candidates =>
      if negb (comparable i candidate) then score_all i query min_score candidates
      else
        assert_model_safe (Incident.to_json candidate) ≫= λ _,
        let score := cosine_similarity query (incident_text candidate) in
        if negb (float_leb min_score score) then score_all i query min_score candidates
        else
          SimilarIncident.make (scored_match candidate score) ≫= λ found,
          score_all i query min_score candidates ≫= λ rest,
          Ok (found :: rest)
  end.

(** [key=lambda item: (-item.similarity, item.incident_id)]. *)
Definition similar_leb (x y : SimilarIncident.t) : bool :=
  if float_eqb (SimilarIncident.similarity x) (SimilarIncident.similarity y)
  then String.leb (SimilarIncident.incident_id x) (SimilarIncident.incident_id y)
  else float_leb (SimilarIncident.similarity y) (SimilarIncident.similarity x).

Definition rank_similar_incidents (i : Incident.t) (candidates : list Incident.t) (limit : Z)
    (min_score : pyfloat) : result exc (list SimilarIncident.t) :=
  throw_if (negb ((1 <=? limit) && (limit <=? 100)))
    (ValueError "limit must be between 1 and 100") ≫= λ _,
  throw_if (negb (float_leb (PyFloat false 0 0) min_score && float_leb min_score (PyFloat false 1 0)))
    (ValueError "min_score must be between 0 and 1") ≫= λ _,
  assert_model_safe (Incident.to_json i) ≫= λ _,
  score_all i (incident_text i) min_score candidates ≫= λ scored,
  let result := take (Z.to_nat limit) (py_sorted similar_leb scored) in
  assert_model_safe (JArr (map SimilarIncident.to_json result)) ≫= λ _,
  Ok result.
End similarity.
