(* ===== verification/SimilarityProps.v ===== *)
(** * What similarity ranks (telco_local/similarity.py)

    The cosine does not depend on which Incident is the query, and the ranking
    returns the best of the comparable Incidents above the score. *)

From Stdlib Require Import Ascii String.
From S2P Require Import Prelude PyStr Json Privacy Models Incident Errors.
From S2P Require Import PyEq.
From S2P Require Import Rules.
From S2P Require Import RuleFacts.
From S2P Require Import Detector.
From S2P Require Import PyFormat.
From S2P Require Import Similarity.

(** ** Sums over tokens *)

Definition total (f : string → Z) (l : list string) : Z := foldr (λ x n, f x + n) 0 l.

Lemma total_perm f l k : l ≡ₚ k → total f l = total f k.
Proof. induction 1; unfold total in *; cbn; lia. Qed.

(** Only the items where [f] is not zero count. *)
Lemma total_support f (p : string → Prop) `{∀ x, Decision (p x)} l :
  (∀ x, x ∈ l → ¬ p x → f x = 0) → total f l = total f (filter p l).
Proof.
  unfold total. induction l as [|x l IH]; intros Hf; [done|]. cbn [foldr].
  rewrite IH by (intros; apply Hf; [by right|done]). destruct (decide (p x)) as [Hp|Hp].
  - by rewrite filter_cons_True.
  - rewrite filter_cons_False by done. rewrite (Hf x); [lia|left|done].
Qed.

Lemma count_zero tokens token : token ∉ tokens → count tokens token = 0.
Proof.
  intros Ht. unfold count. induction tokens as [|x tokens IH]; [done|].
  rewrite filter_cons_False by (intros ->; apply Ht; left). apply IH. set_solver.
Qed.

(** The inner product of two bags of tokens. *)
Lemma dot_symmetric l r :
  sum_over l (λ token, count l token * count r token) =
  sum_over r (λ token, count r token * count l token).
Proof.
  unfold sum_over. fold (total (λ token, count l token * count r token) (distinct l)).
  fold (total (λ token, count r token * count l token) (distinct r)).
  rewrite (total_support _ (λ t, t ∈ r) (distinct l)) by (intros ? _ ?%count_zero; lia).
  rewrite (total_support _ (λ t, t ∈ l) (distinct r)) by (intros ? _ ?%count_zero; lia).
  etransitivity; [apply (total_perm _ _ (filter (λ t, t ∈ l) (distinct r)))|].
  - apply NoDup_Permutation; [apply NoDup_filter, NoDup_distinct..|].
    intros x. rewrite !list_elem_of_filter, !elem_of_distinct. tauto.
  - unfold total. induction (filter _ _) as [|x k IH]; cbn; lia.
Qed.

Lemma float_mul_comm x y : float_mul x y = float_mul y x.
Proof. unfold float_mul. f_equal; lia. Qed.

Section similarity.
Context `{R : Runtime}.

Lemma cosine_symmetric left right : cosine_similarity left right = cosine_similarity right left.
Proof.
  unfold cosine_similarity. destruct (tokenize left) as [|a l], (tokenize right) as [|b r]; try done.
  rewrite dot_symmetric, (float_mul_comm (int_sqrt _)). done.
Qed.

(** ** The ranking *)

Lemma float_leb_trans x y z :
  float_leb x y = true → float_leb y z = true → float_leb x z = true.
Proof.
  set (e := Z.min (f_expo x) (Z.min (f_expo y) (f_expo z))).
  rewrite !(float_leb_at _ _ e) by lia. rewrite !Z.leb_le. lia.
Qed.
Lemma float_leb_total x y : float_leb x y = true ∨ float_leb y x = true.
Proof.
  set (e := Z.min (f_expo x) (f_expo y)).
  rewrite !(float_leb_at _ _ e) by lia. rewrite !Z.leb_le. lia.
Qed.

(** The best score first, equal scores by another order. *)
Section best_first.
Context {A : Type} (score : A → pyfloat) (tie : A → A → bool).
Hypothesis tie_total : ∀ x y, tie x y = true ∨ tie y x = true.
Hypothesis tie_trans : ∀ x y z, tie x y = true → tie y z = true → tie x z = true.
Definition best_first (x y : A) : bool :=
  if float_eqb (score x) (score y) then tie x y else float_leb (score y) (score x).

Lemma best_first_total x y : best_first x y = true ∨ best_first y x = true.
Proof.
  unfold best_first. set (u := score x). set (v := score y).
  assert (float_eqb v u = float_eqb u v) as -> by (unfold float_eqb; apply andb_comm).
  destruct (float_eqb u v); [apply tie_total|apply float_leb_total].
Qed.

Lemma best_first_trans x y z :
  best_first x y = true → best_first y z = true → best_first x z = true.
Proof.
  unfold best_first. set (u := score x). set (v := score y). set (w := score z).
  destruct (float_eqb u v) eqn:Euv, (float_eqb v w) eqn:Evw.
  - rewrite (float_eqb_trans _ _ _ Euv Evw). apply tie_trans.
  - intros _ Hwv. destruct (float_eqb u w) eqn:Euw.
    { apply float_eqb_sym in Euv. rewrite (float_eqb_trans _ _ _ Euv Euw) in Evw. done. }
    apply andb_true_iff in Euv as [_ Hvu]. by apply (float_leb_trans w v u).
  - intros Hvu _. destruct (float_eqb u w) eqn:Euw.
    { apply float_eqb_sym in Evw. rewrite (float_eqb_trans _ _ _ Euw Evw) in Euv. done. }
    apply andb_true_iff in Evw as [_ Hwv]. by apply (float_leb_trans w v u).
  - intros Hvu Hwv. destruct (float_eqb u w) eqn:Euw; [|by apply (float_leb_trans w v u)].
    apply andb_true_iff in Euw as [Huw _]. exfalso.
    assert (float_leb u v = true) as Huv by (by apply (float_leb_trans u w v)).
    unfold float_eqb in Euv. by rewrite Huv, Hvu in Euv.
Qed.
End best_first.

Definition by_incident (x y : SimilarIncident.t) : bool :=
  String.leb (SimilarIncident.incident_id x) (SimilarIncident.incident_id y).
Lemma similar_leb_total x y : similar_leb x y = true ∨ similar_leb y x = true.
Proof.
  apply (best_first_total SimilarIncident.similarity by_incident). intros. apply StringLeb_total.
Qed.
Lemma similar_leb_trans x y z :
  similar_leb x y = true → similar_leb y z = true → similar_leb x z = true.
Proof.
  apply (best_first_trans SimilarIncident.similarity by_incident). intros ? ? ?. apply StringLeb_trans.
Qed.

(** The Incidents that are scored: comparable, and similar enough. *)
Definition similar_enough (i : Incident.t) (min_score : pyfloat) (c : Incident.t) : bool :=
  comparable i c && float_leb min_score (cosine_similarity (incident_text i) (incident_text c)).

Lemma score_all_spec i min_score candidates scored :
  score_all i (incident_text i) min_score candidates = Ok scored →
  Forall2 (λ c s, SimilarIncident.make (scored_match c
             (cosine_similarity (incident_text i) (incident_text c))) = Ok s ∧
             assert_model_safe (Incident.to_json c) = Ok tt)
    (List.filter (similar_enough i min_score) candidates) scored.
Proof.
  revert scored. induction candidates as [|c cs IH]; intros scored; cbn [score_all List.filter].
  { intros [= <-]. constructor. }
  unfold similar_enough at 1. destruct (comparable i c); cbn [negb andb]; [|apply IH].
  intros (u & Hs & H)%bind_Ok. destruct u. destruct (float_leb min_score _); cbn [negb] in H; [|by apply IH].
  apply bind_Ok in H as (s & Hm & (rest & Hr & [= <-])%bind_Ok). constructor; [done|by apply IH].
Qed.

Lemma assert_model_safe_Ok v : assert_model_safe v = Ok tt ↔ find_sensitive_paths v "$" = [].
Proof. unfold assert_model_safe. by destruct (find_sensitive_paths v "$"). Qed.

(** C40. The similar Incidents that a ranking returns are the best of all that
    qualify: the other Incidents of the technology that have been analysed and
    whose cosine with the query is at least the score; as many of them as there
    are, up to exactly [limit], in order of decreasing similarity, and none that
    is left out ranks before one that is returned.  Which Incident is the query
    does not matter to the cosine. *)
Theorem rank_exact i candidates limit min_score found
    (H : rank_similar_incidents i candidates limit min_score = Ok found) :
  1 ≤ limit ∧ Sorted similar_leb found ∧
  ∃ scored rest,
    Z.of_nat (length found) = Z.min limit (Z.of_nat (length scored)) ∧
    Forall2 (λ c s, SimilarIncident.make (scored_match c
               (cosine_similarity (incident_text c) (incident_text i))) = Ok s ∧
               find_sensitive_paths (Incident.to_json c) "$" = [])
      (List.filter (similar_enough i min_score) candidates) scored ∧
    scored ≡ₚ found ++ rest ∧
    (∀ s t, s ∈ found → t ∈ rest → similar_leb s t = true).
Proof.
  unfold rank_similar_incidents in H.
  apply bind_Ok in H as (? & Hl & (? & _ & (? & _ & (scored & Hs & (? & _ & [= <-])%bind_Ok)
    %bind_Ok)%bind_Ok)%bind_Ok).
  apply throw_if_Ok, negb_false_iff, andb_true_iff in Hl as [Hl _]. apply Z.leb_le in Hl.
  pose proof (py_sorted_perm similar_leb scored) as Hperm.
  apply score_all_spec in Hs.
  pose proof (py_sorted_Sorted similar_leb similar_leb_total scored) as Hsort.
  set (sorted := py_sorted similar_leb scored) in *. set (n := Z.to_nat limit).
  assert (StronglySorted similar_leb sorted) as Hstrong.
  { apply Sorted_StronglySorted; [|done]. intros ???. rewrite !Is_true_true.
    apply similar_leb_trans. }
  rewrite <- (take_drop n sorted) in Hstrong.
  apply StronglySorted_app in Hstrong as (Hcross & Hfound & _). split; [|split].
  - done.
  - by apply StronglySorted_Sorted.
  - exists scored, (drop n sorted). split_and!.
    + apply Permutation_length in Hperm. fold sorted in Hperm. rewrite length_take. lia.
    + eapply Forall2_impl; [exact Hs|]. intros c s [Hm Hsafe%assert_model_safe_Ok].
      by rewrite cosine_symmetric.
    + by rewrite take_drop.
    + intros s t Hin Hout. apply Is_true_true. by apply Hcross.
Qed.
End similarity.
