(* ===== verification/RcaEvidence.v ===== *)
(** * Evidence of an analysis (telco_local/rca.py)

    The identity of evidence, the scope telemetry must have, the facts it
    states, and the evidence the analysis makes of an Incident and its rules. *)

From Stdlib Require Import Ascii String.
From stdpp Require Import pretty.
From S2P Require Import Prelude PyStr Json Privacy Models Incident Errors.
From S2P Require Import PyEq.
From S2P Require GovernanceBase.
From S2P Require Import Rules.
From S2P Require Import RuleResolution.
From S2P Require Import Detector.
From S2P Require Import PyFormat.

(** [datetime.fromisoformat]; [None] is [ValueError]. *)
Class IsoParser := { fromisoformat : string → option pydatetime }.

(** [min(xs, key=...)] and [max(xs, key=...)] of a nonempty list: the first
    smallest and the first greatest. *)
Fixpoint first_min {A} (leb : A → A → bool) (x : A) (xs : list A) : A :=
  match xs with
  | [] => x
  | y :: xs => first_min leb (if leb x y then x else y) xs
  end.
Definition first_max {A} (leb : A → A → bool) : A → list A → A := first_min (λ x y, leb y x).

Section evidence.
Context `{R : Runtime}.

(** [_digest], [_stable_id]. *)
Definition rca_digest (value : json) : string := sha256_hex (dumps value).
Definition rca_stable_id (prefix : string) (value : json) : string :=
  prefix +:+ "-" +:+ substring 0 32 (rca_digest value).

(** [EvidenceReference(...)]: pydantic strips the texts, then checks them. *)
Definition make_evidence (e : EvidenceReference.t) : result exc EvidenceReference.t :=
  let e := EvidenceReference.mk (strip (EvidenceReference.evidence_id e))
             (EvidenceReference.evidence_type e) (strip (EvidenceReference.uri e))
             (strip <$> EvidenceReference.source e) (strip <$> EvidenceReference.summary e)
             (EvidenceReference.collected_at e) (strip <$> EvidenceReference.content_type e)
             (strip <$> EvidenceReference.checksum_sha256 e) (EvidenceReference.attributes e) in
  validated (EvidenceReference.check e) ≫= λ _, Ok e.

(** [model_dump(mode="json", exclude={"collected_at"})]. *)
Definition timeless_json (e : EvidenceReference.t) : json :=
  match EvidenceReference.to_json e with
  | JObj items => JObj (List.filter (λ kv, negb (str_eqb kv.1 "collected_at")) items)
  | v => v
  end.
Definition content_sha256 (e : EvidenceReference.t) : string := rca_digest (timeless_json e).
(** [_evidence_content_identity]. *)
Definition evidence_content_identity (e : EvidenceReference.t) : json :=
  JObj [ ("content_sha256", JStr (content_sha256 e));
         ("evidence_id", JStr (EvidenceReference.evidence_id e)) ].

(** ** The scope of telemetry *)

Definition resource_id_leb (x y : ResourceReference.t) : bool :=
  String.leb (ResourceReference.resource_id x) (ResourceReference.resource_id y).
(** The identities of the affected resources, by [resource_id]. *)
Definition resource_scope (i : Incident.t) : list json :=
  map ResourceReference.stable_identity (py_sorted resource_id_leb (Incident.affected_resources i)).
(** [_expected_resource_scope]. *)
Definition expected_resource_scope (i : Incident.t) : list string := map dumps (resource_scope i).

Context `{P : IsoParser}.

(** [_parse_evidence_time]. *)
Definition parse_evidence_time (value : json) : option Z :=
  match value with
  | JStr s =>
      if str_eqb s EmptyString then None
      else match fromisoformat (replace_Z s) with
           | Some (Aware local offset) => Some (local - offset)
           | _ => None
           end
  | _ => None
  end.

Definition is_mapping (v : json) : bool := match v with JObj _ => true | _ => false end.
Definition attribute (e : EvidenceReference.t) (key : string) : option json :=
  not_null (EvidenceReference.attributes e !! key).

(** The resource part of [_telemetry_scope_issue]. *)
Definition resource_scope_issue (e : EvidenceReference.t) (i : Incident.t) : option string :=
  match attribute e "resource_scope" with
  | None => Some "MISSING_RESOURCE_SCOPE"
  | Some (JArr entries) =>
      if match entries with [] => true | _ => existsb (negb ∘ is_mapping) entries end
      then Some "INVALID_RESOURCE_SCOPE"
      else
        let expected := expected_resource_scope i in
        if match expected with [] => true | _ => negb (bool_decide (map dumps entries = expected)) end
        then Some "RESOURCE_SCOPE_MISMATCH" else None
  | Some _ => Some "INVALID_RESOURCE_SCOPE"
  end.

(** The windows of the violations that have one. *)
Definition violation_windows (i : Incident.t) : list (Z * Z) :=
  omap (λ v, match KpiViolation.window_start v, KpiViolation.window_end v with
             | Some s, Some e => Some (s, e)
             | _, _ => None end) (Incident.violated_kpis i).

(** Its time part. *)
Definition time_scope_issue (e : EvidenceReference.t) (i : Incident.t) : option string :=
  match attribute e "window_start", attribute e "window_end" with
  | Some raw_start, Some raw_end =>
      match parse_evidence_time raw_start, parse_evidence_time raw_end with
      | Some s, Some f =>
          if (f <? s)%Z then Some "INVALID_TIME_SCOPE"
          else match Incident.window_start i, Incident.window_end i with
          | Some from, Some to =>
              let windows := violation_windows i in
              if ((s <? from) || (to <? f))%Z then Some "TIME_SCOPE_MISMATCH"
              else if match windows with
                      | [] => false
                      | _ => negb (existsb (λ w, ((s <=? w.2) && (w.1 <=? f))%Z) windows)
                      end
              then Some "TIME_SCOPE_MISMATCH"
              else match EvidenceReference.collected_at e with
              | Some c => if ((s <=? c) && (c <=? f))%Z then None
                          else Some "COLLECTED_AT_OUTSIDE_TIME_SCOPE"
              | None => None
              end
          | _, _ => Some "INCIDENT_TIME_SCOPE_MISSING"
          end
      | _, _ => Some "INVALID_TIME_SCOPE"
      end
  | _, _ => Some "MISSING_TIME_SCOPE"
  end%string.

(** [_telemetry_scope_issue]. *)
Definition telemetry_scope_issue (e : EvidenceReference.t) (i : Incident.t) : option string :=
  match resource_scope_issue e i with
  | Some code => Some code
  | None => time_scope_issue e i
  end.

(** An issue: its code, content digest, key and evidence type. *)
Definition evidence_issue (code content key type_ : string) : json :=
  JObj [ ("code", JStr code); ("content_sha256", JStr content); ("evidence_key", JStr key);
         ("evidence_type", JStr type_) ].

(** [_validate_telemetry_evidence], from the index [n]. *)
Fixpoint validate_telemetry (n : nat) (evidence : list EvidenceReference.t) (i : Incident.t) :
    list EvidenceReference.t * list json :=
  match evidence with
  | [] => ([], [])
  | e :: evidence =>
      let (valid, issues) := validate_telemetry (S n) evidence i in
      match telemetry_scope_issue e i with
      | None => (e :: valid, issues)
      | Some code =>
          (valid, evidence_issue code (content_sha256 e) ("telemetry-index-" +:+ pretty n)
                    (EvidenceType.value (EvidenceReference.evidence_type e)) :: issues)
      end
  end.

(** ** Facts *)

(** [candidates[name][_canonical_json(scalar)] = scalar]. *)
Definition add_fact (c : gmap string (gmap string scalar)) (fact : string * scalar) :
    gmap string (gmap string scalar) :=
  <[fact.1 := <[dumps (scalar_json fact.2) := fact.2]> (default ∅ (c !! fact.1))]> c.

(** The items of a mapping whose values are scalars. *)
Definition stated_facts (v : option json) : list (string * scalar) :=
  match v with
  | Some (JObj items) => omap (λ kv, pair kv.1 <$> scalar_of kv.2) items
  | _ => []
  end.

(** [normalized_counts]. *)
Definition outcome_counts (e : EvidenceReference.t) : option (list (string * Z)) :=
  let counts (items : list (string * json)) :=
    omap (λ kv, match kv.2 with
                | JInt z => if 0 <=? z then Some (kv.1, z) else None
                | _ => None end) items in
  match attribute e "outcome_counts" with
  | Some (JObj items) => Some (counts items)
  | _ => match attribute e "connection_outcomes" with
         | Some (JObj items) => Some (counts items)
         | _ => None end
  end.

(** What the counts of outcomes state. *)
Definition counted_facts (counts : list (string * Z)) : list (string * scalar) :=
  let get (name : string) := default 0 (items_get name counts) in
  let security_failures := get "FAILED_SECURITY_SETUP"%string in
  let failure_count := security_failures + get "FAILURE"%string in
  map (λ kv, (("outcome_count." +:+ lower kv.1)%string, ScInt kv.2)) counts ++
  [ ("failed_security_setup_count"%string, ScInt security_failures);
    ("failure_count"%string, ScInt failure_count) ] ++
  if failure_count =? 0 then []
  else [("failed_security_setup_ratio"%string, ScFloat (int_div security_failures failure_count))].

(** Every fact that a piece of evidence adds. *)
Definition facts_of (e : EvidenceReference.t) : list (string * scalar) :=
  stated_facts (attribute e "facts") ++
  match outcome_counts e with Some counts => counted_facts counts | None => [] end.

(** [key=lambda ref: (ref.evidence_type.value, ref.evidence_id)]. *)
Definition reference_leb (x y : EvidenceReference.t) : bool :=
  let key e := [EvidenceType.value (EvidenceReference.evidence_type e);
                EvidenceReference.evidence_id e] in
  texts_leb (key x) (key y).

(** [_merge_fact_candidates]. *)
Definition merge_fact_candidates (evidence : list EvidenceReference.t) : gmap string scalar :=
  let candidates := foldl add_fact ∅ (flat_map facts_of (py_sorted reference_leb evidence)) in
  omap (λ values, match map_to_list values with [(_, v)] => Some v | _ => None end) candidates.

(** [_predicate_group_matches]: every predicate is evaluated. *)
Definition predicate_holds (facts : gmap string scalar) (p : FactPredicate.t) : result exc bool :=
  match facts !! FactPredicate.fact p with
  | Some v => compare_values v (FactPredicate.comparator p) (FactPredicate.value p)
  | None => Ok false
  end.
Fixpoint predicates_hold (facts : gmap string scalar) (ps : list FactPredicate.t) :
    result exc (list bool) :=
  match ps with
  | [] => Ok []
  | p :: ps => predicate_holds facts p ≫= λ b : bool,
               predicates_hold facts ps ≫= λ bs : list bool, Ok (b :: bs)
  end.
Definition predicate_group_matches (g : PredicateGroup.t) (facts : gmap string scalar) :
    result exc bool :=
  predicates_hold facts (PredicateGroup.predicates g) ≫= λ results : list bool,
  Ok match PredicateGroup.operator g with
     | PredicateGroup.ALL => forallb id results
     | PredicateGroup.ANY => existsb id results
     end.
End evidence.
