(* ===== verification/RcaFacts.v ===== *)
(** * What the evidence states (telco_local/rca.py)

    The facts merged from evidence are those stated without contradiction, in
    any order of the evidence; the telemetry kept is the telemetry whose scope
    is that of the Incident. *)

From Stdlib Require Import Ascii String.
From stdpp Require Import pretty.
From S2P Require Import Prelude PyStr Json Models Incident Errors.
From S2P Require Import PyEq.
From S2P Require Import Rules.
From S2P Require Import RuleResolution.
From S2P Require Import PyFormat.
From S2P Require Import RcaEvidence.

(** ** Merged facts *)

(** The floats of facts are in normal form, as Python's are. *)
Definition normal_scalar (v : scalar) : bool :=
  match v with ScFloat f => float_normal f | _ => true end.

Section merged.
Context `{R : Runtime, L : !RuntimeLaws R}.

Lemma scalar_text_inj v w :
  normal_scalar v = true → normal_scalar w = true →
  dumps (scalar_json v) = dumps (scalar_json w) → v = w.
Proof.
  intros Hv Hw H.
  destruct (dumps_prefix_free (scalar_json v) (scalar_json w) EmptyString EmptyString) as [He _];
    [by destruct v|by destruct w|done..|].
  destruct v, w; first [discriminate He|by injection He as ->].
Qed.

(** The candidates of a name, with one more statement. *)
Lemma lookup_add_fact (c : gmap string (gmap string scalar)) n u name :
  default ∅ (add_fact c (n, u) !! name) =
  if decide (n = name) then <[dumps (scalar_json u) := u]> (default ∅ (c !! name))
  else default ∅ (c !! name).
Proof.
  unfold add_fact. cbn [fst snd]. case_decide as Hn.
  - subst n. by rewrite lookup_insert_eq.
  - by rewrite lookup_insert_ne.
Qed.

(** The candidates of a name, after some statements. *)
Lemma candidates_spec stated (c : gmap string (gmap string scalar)) name key v :
  default ∅ (foldl add_fact c stated !! name) !! key = Some v →
  default ∅ (c !! name) !! key = Some v ∨ (name, v) ∈ stated ∧ key = dumps (scalar_json v).
Proof.
  revert c. induction stated as [|[n u] stated IH]; intros c; cbn [foldl]; [by left|].
  intros [H|[H ->]]%IH; [|right; split; [by right|done]].
  rewrite lookup_add_fact in H. case_decide as Hn; [subst n|by left].
  apply lookup_insert_Some in H as [[<- <-]|[_ H]]; [right; split; [by left|done]|by left].
Qed.

Lemma candidates_kept stated (c : gmap string (gmap string scalar)) name key :
  is_Some (default ∅ (c !! name) !! key) →
  is_Some (default ∅ (foldl add_fact c stated !! name) !! key).
Proof.
  revert c. induction stated as [|[n u] stated IH]; intros c H; cbn [foldl]; [done|].
  apply IH. rewrite lookup_add_fact. case_decide; [|done].
  apply lookup_insert_is_Some'. by right.
Qed.

Lemma candidates_stated stated (c : gmap string (gmap string scalar)) name v :
  (name, v) ∈ stated →
  is_Some (default ∅ (foldl add_fact c stated !! name) !! dumps (scalar_json v)).
Proof.
  revert c. induction stated as [|[n u] stated IH]; intros c; [by intros ?%not_elem_of_nil|].
  cbn [foldl]. intros [[= <- <-]|H]%elem_of_cons; [|by apply IH].
  apply candidates_kept. rewrite lookup_add_fact, decide_True by done.
  apply lookup_insert_is_Some'. by left.
Qed.

(** The candidates of a name are the texts of its statements. *)
Lemma candidates_exact stated name key v :
  Forall (λ fact, normal_scalar fact.2 = true) stated →
  default ∅ (foldl add_fact ∅ stated !! name) !! key = Some v ↔
  (name, v) ∈ stated ∧ key = dumps (scalar_json v).
Proof.
  intros Hn. rewrite Forall_forall in Hn. split.
  - intros [H|H]%candidates_spec; [|done]. by rewrite lookup_empty in H.
  - intros [H ->]. destruct (candidates_stated stated ∅ name v H) as [w Hw].
    rewrite Hw. apply candidates_spec in Hw as [Hw|[Hw E]]; [by rewrite lookup_empty in Hw|].
    f_equal. symmetry. apply scalar_text_inj; [by apply (Hn _ H)|by apply (Hn _ Hw)|done].
Qed.

(** A map with one item. *)
Lemma sole_item {K A} `{Countable K} (m : gmap K A) v :
  match map_to_list m with [(_, w)] => Some w | _ => None end = Some v ↔
  ∃ k, m = {[k := v]}.
Proof.
  split.
  - destruct (map_to_list m) as [|[k w] [|]] eqn:E; [done| |done]. intros [= ->]. exists k.
    apply map_to_list_inj. by rewrite map_to_list_singleton, E.
  - intros [k ->]. by rewrite map_to_list_singleton.
Qed.

Definition stated_by (evidence : list EvidenceReference.t) : list (string * scalar) :=
  flat_map facts_of evidence.

Lemma elem_of_stated evidence fact :
  fact ∈ stated_by evidence ↔ ∃ e, e ∈ evidence ∧ fact ∈ facts_of e.
Proof.
  unfold stated_by. rewrite list_elem_of_In, in_flat_map. setoid_rewrite list_elem_of_In. done.
Qed.

Lemma merged_facts evidence name v :
  Forall (λ fact, normal_scalar fact.2 = true) (stated_by evidence) →
  merge_fact_candidates evidence !! name = Some v ↔
  (name, v) ∈ stated_by evidence ∧ ∀ w, (name, w) ∈ stated_by evidence → w = v.
Proof.
  intros Hn. unfold merge_fact_candidates. fold (stated_by (py_sorted reference_leb evidence)).
  set (sorted := stated_by (py_sorted reference_leb evidence)).
  assert (∀ fact, fact ∈ sorted ↔ fact ∈ stated_by evidence) as Hs.
  { intros fact. unfold sorted. rewrite !elem_of_stated. by setoid_rewrite elem_of_py_sorted. }
  assert (Forall (λ fact, normal_scalar fact.2 = true) sorted) as Hn'.
  { rewrite Forall_forall in *. intros fact ?%Hs. by apply Hn. }
  pose proof (λ key w, candidates_exact sorted name key w Hn') as Hc.
  rewrite lookup_omap. destruct (foldl add_fact ∅ sorted !! name) as [m|] eqn:Em; cbn in *.
  - rewrite sole_item. setoid_rewrite <- Hs. split.
    + intros [key ->]. pose proof (proj1 (Hc key v) (lookup_singleton_eq _ _)) as [Hv ->].
      split; [done|]. intros w Hw. pose proof (proj2 (Hc _ w) (conj Hw eq_refl)) as Hl.
      by apply lookup_singleton_Some in Hl as [_ ->].
    + intros [Hv Huniq]. exists (dumps (scalar_json v)). apply map_eq. intros key.
      apply option_eq. intros w. rewrite Hc, lookup_singleton_Some. naive_solver.
  - split; [done|]. intros [Hv _]. apply Hs in Hv.
    pose proof (proj2 (Hc _ v) (conj Hv eq_refl)) as Hl. by rewrite lookup_empty in Hl.
Qed.

(** C21. The merged facts are exactly the statements nobody contradicts: a name
    has a value when some evidence states it and every statement of that name
    is that very value; a name with two values has none.  The order in which
    the adapters deliver the evidence does not matter. *)
Theorem merge_exact evidence
    (Hn : Forall (λ fact, normal_scalar fact.2 = true) (stated_by evidence)) :
  (∀ name v, merge_fact_candidates evidence !! name = Some v ↔
     (∃ e, e ∈ evidence ∧ (name, v) ∈ facts_of e) ∧
     ∀ e w, e ∈ evidence → (name, w) ∈ facts_of e → w = v) ∧
  ∀ other, evidence ≡ₚ other → merge_fact_candidates other = merge_fact_candidates evidence.
Proof.
  split.
  - intros name v. rewrite merged_facts by done. setoid_rewrite elem_of_stated. naive_solver.
  - intros other Hp. apply map_eq. intros name. apply option_eq. intros v.
    assert (∀ fact, fact ∈ stated_by other ↔ fact ∈ stated_by evidence) as He.
    { intros fact. rewrite !elem_of_stated. by setoid_rewrite Hp. }
    assert (Forall (λ fact, normal_scalar fact.2 = true) (stated_by other)) as Ho.
    { rewrite Forall_forall in *. intros fact ?%He. by apply Hn. }
    rewrite !merged_facts by done. by setoid_rewrite He.
Qed.
End merged.

(** ** The scope of telemetry *)

Section scope.
Context `{R : Runtime, P : IsoParser}.

(** An attribute of evidence names an instant. *)
Definition names_instant (e : EvidenceReference.t) (key : string) (t : Z) : Prop :=
  ∃ value, attribute e key = Some value ∧ parse_evidence_time value = Some t.

(** Evidence about exactly the resources of the Incident, from within its
    window, that meets the window of a violation where violations have one, and
    was collected within the window it is about. *)
Definition names_resources (e : EvidenceReference.t) (i : Incident.t) : Prop :=
  ∃ entries, attribute e "resource_scope" = Some (JArr entries) ∧ entries ≠ [] ∧
    Forall (λ v, is_mapping v = true) entries ∧ map dumps entries = expected_resource_scope i.
Definition within_window (e : EvidenceReference.t) (i : Incident.t) : Prop :=
  ∃ s f from to, names_instant e "window_start" s ∧ names_instant e "window_end" f ∧
    Incident.window_start i = Some from ∧ Incident.window_end i = Some to ∧
    from ≤ s ∧ s ≤ f ∧ f ≤ to ∧
    (violation_windows i = [] ∨ ∃ w, w ∈ violation_windows i ∧ s ≤ w.2 ∧ w.1 ≤ f) ∧
    ∀ c, EvidenceReference.collected_at e = Some c → s ≤ c ∧ c ≤ f.
Definition in_scope (e : EvidenceReference.t) (i : Incident.t) : Prop :=
  names_resources e i ∧ within_window e i.

Lemma resource_scope_exact e i : resource_scope_issue e i = None ↔ names_resources e i.
Proof.
  unfold resource_scope_issue, names_resources.
  destruct (attribute e _) as [[| | | | |entries|]|]; try (split; [done|]; naive_solver).
  destruct entries as [|x xs]; [split; [done|]; naive_solver|].
  set (all := x :: xs). assert (all ≠ []) as Hne by done.
  destruct (existsb (negb ∘ is_mapping) all) eqn:Em.
  { split; [done|]. intros (? & [= <-] & _ & Hf & _).
    apply existsb_true_iff in Em as (v & Hv & Hm). rewrite Forall_forall in Hf.
    cbn in Hm. by rewrite (Hf v Hv) in Hm. }
  assert (Forall (λ v, is_mapping v = true) all) as Hf.
  { rewrite Forall_forall. intros v Hv. pose proof (proj1 (existsb_false_iff _ _) Em v Hv) as H.
    by apply negb_false_iff in H. }
  destruct (expected_resource_scope i) as [|y ys].
  { split; [done|]. by intros (? & [= <-] & _ & _ & ?). }
  case_bool_decide as Hd; cbn [negb]; split; [|done|done|].
  - intros _. by exists all.
  - by intros (? & [= <-] & _ & _ & ?).
Qed.

Lemma overlap_exact (windows : list (Z * Z)) s f :
  match windows with
  | [] => false
  | _ => negb (existsb (λ w, (s <=? w.2) && (w.1 <=? f)) windows)
  end = false ↔ windows = [] ∨ ∃ w, w ∈ windows ∧ s ≤ w.2 ∧ w.1 ≤ f.
Proof.
  destruct windows as [|w ws]; [naive_solver|]. rewrite negb_false_iff, existsb_true_iff.
  setoid_rewrite andb_true_iff. setoid_rewrite Z.leb_le. naive_solver.
Qed.

Lemma time_scope_exact e i : time_scope_issue e i = None ↔ within_window e i.
Proof.
  unfold time_scope_issue, within_window, names_instant.
  destruct (attribute e "window_start") as [u|]; [|naive_solver].
  destruct (attribute e "window_end") as [v|]; [|naive_solver].
  destruct (parse_evidence_time u) as [s|] eqn:Es; [|naive_solver].
  destruct (parse_evidence_time v) as [f|] eqn:Ef; [|naive_solver].
  destruct (Z.ltb_spec f s) as [Hfs|Hfs].
  { split; [done|]. intros (? & ? & ? & ? & (? & [= <-] & ?) & (? & [= <-] & ?) & ?).
    assert (s ≤ f) by naive_solver. lia. }
  destruct (Incident.window_start i) as [from|]; [|naive_solver].
  destruct (Incident.window_end i) as [to|]; [|naive_solver].
  destruct ((s <? from) || (to <? f)) eqn:Eo.
  { split; [done|]. intros (? & ? & ? & ? & (? & [= <-] & ?) & (? & [= <-] & ?) & [= <-] & [= <-] & ?).
    apply orb_true_iff in Eo. rewrite !Z.ltb_lt in Eo.
    assert (from ≤ s ∧ f ≤ to) by naive_solver. lia. }
  apply orb_false_iff in Eo as [Hs Hf]. rewrite Z.ltb_ge in Hs, Hf.
  pose proof (overlap_exact (violation_windows i) s f) as Hw. destruct (match _ with [] => _ | _ => _ end).
  { split; [done|]. intros (? & ? & ? & ? & (? & [= <-] & ?) & (? & [= <-] & ?) & ?). naive_solver. }
  assert (names_window : (violation_windows i = [] ∨ ∃ w, w ∈ violation_windows i ∧ s ≤ w.2 ∧ w.1 ≤ f))
    by naive_solver.
  destruct (EvidenceReference.collected_at e) as [c|].
  - destruct ((s <=? c) && (c <=? f)) eqn:Ec.
    + apply andb_true_iff in Ec. rewrite !Z.leb_le in Ec. naive_solver.
    + split; [done|]. intros (? & ? & ? & ? & (? & [= <-] & ?) & (? & [= <-] & ?) & ?).
      apply andb_false_iff in Ec. rewrite !Z.leb_gt in Ec.
      assert (s ≤ c ∧ c ≤ f) by naive_solver. lia.
  - naive_solver.
Qed.

Lemma scope_exact e i : telemetry_scope_issue e i = None ↔ in_scope e i.
Proof.
  unfold telemetry_scope_issue, in_scope. rewrite <- resource_scope_exact, <- time_scope_exact.
  destruct (resource_scope_issue e i); naive_solver.
Qed.

(** The telemetry an analysis uses is exactly the telemetry in the scope of
    its Incident, in the order it came: about the very resources, from within
    the window, meeting a violation's window; every other item is left out and
    reported as one issue, so that there is no issue only if all is in scope. *)
Theorem telemetry_scope_exact n evidence i :
  let (kept, issues) := validate_telemetry n evidence i in
  kept `sublist_of` evidence ∧
  (∀ e, e ∈ kept ↔ e ∈ evidence ∧ in_scope e i) ∧
  (length kept + length issues = length evidence)%nat ∧
  (issues = [] ↔ ∀ e, e ∈ evidence → in_scope e i).
Proof.
  revert n. induction evidence as [|e evidence IH]; intros n; cbn [validate_telemetry].
  { repeat split; set_solver. }
  specialize (IH (S n)). destruct (validate_telemetry (S n) evidence i) as [kept issues].
  destruct IH as (Hs & He & Hl & Hi). pose proof (scope_exact e i) as Hx.
  destruct (telemetry_scope_issue e i).
  - assert (¬ in_scope e i) by naive_solver. cbn [length]. split_and!.
    + by apply sublist_cons.
    + intros x. rewrite He, elem_of_cons. naive_solver.
    + lia.
    + split; [done|]. intros H'. exfalso. apply H, H'. by left.
  - assert (in_scope e i) by naive_solver. cbn [length]. split_and!.
    + by apply sublist_skip.
    + intros x. rewrite !elem_of_cons, He. naive_solver.
    + lia.
    + rewrite Hi. setoid_rewrite elem_of_cons. naive_solver.
Qed.
End scope.
