(* ===== verification/Rca.v ===== *)
(** * The deterministic analysis (telco_local/rca.py)

    [DeterministicRcaGateway.analyze]: the rules that are trusted for the
    Incident, the telemetry in its scope, what each rule concludes from the
    facts, the documents and similar Incidents, the report and its identity.
    The rule source, telemetry, documents, history and clock are ports. *)

From Stdlib Require Import Ascii String.
From stdpp Require Import pretty.
From S2P Require Import Prelude PyStr Json Privacy Models Incident Errors Repository.
From S2P Require Import PyEq.
From S2P Require Import Contracts Ports.
From S2P Require Import Rules.
From S2P Require Import RuleResolution.
From S2P Require Import RuleStore.
From S2P Require Import Detector.
From S2P Require Import PyFormat.
From S2P Require Import Similarity.
From S2P Require Import RcaEvidence.

Definition RCA_ENGINE_NAME : string := "deterministic-lte-rca".
Definition RCA_ENGINE_VERSION : string := "1.0.0".
Definition SEVERITY_RANK (s : IncidentSeverity.t) : Z :=
  match s with
  | IncidentSeverity.UNKNOWN => 0
  | IncidentSeverity.INFO => 1
  | IncidentSeverity.LOW => 2
  | IncidentSeverity.MEDIUM => 3
  | IncidentSeverity.HIGH => 4
  | IncidentSeverity.CRITICAL => 5
  end.

(** [repr] of a list or dictionary. *)
Class ContainerRepr := { container_repr : json → string }.

(** [_clip]. *)
Definition clip (value : string) (limit : Z) : string :=
  let normalized := join " " (words value) in
  if py_len normalized <=? limit then normalized
  else rstrip (py_take (Z.max 0 (limit - 1)) normalized) +:+ "…".

(** The loop of [_deduplicate_evidence]. *)
Fixpoint evidence_by_id (by_id : gmap string EvidenceReference.t)
    (evidence : list EvidenceReference.t) : result exc (gmap string EvidenceReference.t) :=
  match evidence with
  | [] => Ok by_id
  | item :: evidence =>
      throw_if match by_id !! EvidenceReference.evidence_id item with
               | Some previous => negb (evidence_eqb previous item)
               | None => false
               end
        (ValueError "conflicting evidence references share one evidence_id") ≫= λ _,
      evidence_by_id (<[EvidenceReference.evidence_id item := item]> by_id) evidence
  end.
Definition deduplicate_evidence (evidence : list EvidenceReference.t) :
    result exc (list EvidenceReference.t) :=
  evidence_by_id ∅ evidence ≫= λ by_id,
  Ok (py_sorted evidence_leb (map snd (map_to_list by_id))).

(** ** What a rule concludes *)

(** [key=lambda item: (item.observed_value, item.violation_id or "")]. *)
Definition violation_leb (x y : KpiViolation.t) : bool :=
  let id v := text_or (KpiViolation.violation_id v) in
  if float_eqb (KpiViolation.observed_value x) (KpiViolation.observed_value y)
  then String.leb (id x) (id y)
  else float_leb (KpiViolation.observed_value x) (KpiViolation.observed_value y).

Fixpoint matching_violations (rule : RcaRule.t) (vs : list KpiViolation.t) :
    result exc (list KpiViolation.t) :=
  match vs with
  | [] => Ok []
  | v :: vs =>
      detection_matches rule v ≫= λ b : bool,
      matching_violations rule vs ≫= λ rest, Ok (if b then v :: rest else rest)
  end.
(** [_matched_violation]. *)
Definition matched_violation (rule : RcaRule.t) (i : Incident.t) :
    result exc (option KpiViolation.t) :=
  matching_violations rule (Incident.violated_kpis i) ≫= λ matching,
  Ok match matching with
     | [] => None
     | v :: vs =>
         Some match RuleDetection.comparator (RcaRule.detection rule) with
              | KpiComparator.GREATER_THAN | KpiComparator.GREATER_THAN_OR_EQUAL =>
                  first_max violation_leb v vs
              | _ => first_min violation_leb v vs
              end
     end.

Fixpoint severity_of_cases (cases : list SeverityCase.t) (default_ : IncidentSeverity.t)
    (facts : gmap string scalar) : result exc IncidentSeverity.t :=
  match cases with
  | [] => Ok default_
  | case :: cases =>
      predicate_group_matches (SeverityCase.when case) facts ≫= λ b : bool,
      if b then Ok (SeverityCase.severity case) else severity_of_cases cases default_ facts
  end.
(** [_severity_for_rule]. *)
Definition severity_for_rule (rule : RcaRule.t) (facts : gmap string scalar) :
    result exc IncidentSeverity.t :=
  severity_of_cases (RuleSeverity.cases (RcaRule.severity rule))
    (RuleSeverity.default (RcaRule.severity rule)) facts.

Record RuleFinding := mk_finding {
  finding_rule : RcaRule.t;
  finding_conclusive : bool;
  finding_severity : IncidentSeverity.t;
  finding_evidence : EvidenceReference.t
}.

Section analysis.
Context `{R : Runtime}.

(** [key=lambda item: (item.kpi_name, item.observed_value, item.violation_id or "")]. *)
Definition named_violation_leb (x y : KpiViolation.t) : bool :=
  if str_eqb (KpiViolation.kpi_name x) (KpiViolation.kpi_name y) then violation_leb x y
  else String.leb (KpiViolation.kpi_name x) (KpiViolation.kpi_name y).

(** [a or b or c] of instants. *)
Definition instant_or (a b : option Z) (c : Z) : Z :=
  match a, b with Some t, _ | None, Some t => t | None, None => c end.
Definition unit_suffix (v : KpiViolation.t) : string :=
  match KpiViolation.unit_ v with
  | Some u => if str_eqb u EmptyString then EmptyString else " " +:+ u
  | None => EmptyString
  end.

(** The evidence of one violation, at its index in their order. *)
Definition evidence_of_violation (i : Incident.t) (index : nat) (v : KpiViolation.t) :
    EvidenceReference.t :=
  let digest := rca_digest (KpiViolation.to_json v) in
  let unit_ := unit_suffix v in
  EvidenceReference.mk ("metric-" +:+ substring 0 32 digest) EvidenceType.METRIC
    ("incident://" +:+ url_quote (Incident.incident_id i) +:+ "/violations/" +:+
     url_quote (KpiViolation.kpi_name v) +:+ "/" +:+ pretty index)
    (Some "canonical-incident"%string)
    (Some ("KPI " +:+ KpiViolation.kpi_name v +:+ " 的观测值为 " +:+
       format_g (KpiViolation.observed_value v) +:+ unit_ +:+ "，规则阈值为 " +:+
       KpiComparator.value (KpiViolation.comparator v) +:+ " " +:+
       format_g (KpiViolation.threshold_value v) +:+ unit_ +:+ "。"))
    (Some (default (Incident.detected_at i) (KpiViolation.window_end v))) None (Some digest)
    {[ "fact_schema" := JStr "canonical-kpi-violation/1.0";
       "facts" := JObj [("kpi." +:+ KpiViolation.kpi_name v, JFloat (KpiViolation.observed_value v))];
       "kpi_name" := JStr (KpiViolation.kpi_name v);
       "resource_scope" := JArr (resource_scope i);
       "window_end" := JStr (isoformat (instant_or (KpiViolation.window_end v)
                                          (Incident.window_end i) (Incident.detected_at i)));
       "window_start" := JStr (isoformat (instant_or (KpiViolation.window_start v)
                                            (Incident.window_start i) (Incident.detected_at i))) ]}.

Fixpoint make_all (evidence : list EvidenceReference.t) : result exc (list EvidenceReference.t) :=
  match evidence with
  | [] => Ok []
  | e :: evidence =>
      make_evidence e ≫= λ e, make_all evidence ≫= λ rest, Ok (e :: rest)
  end.
(** [_violation_evidence]. *)
Definition violation_evidence (i : Incident.t) : result exc (list EvidenceReference.t) :=
  make_all (imap (evidence_of_violation i)
              (py_sorted named_violation_leb (Incident.violated_kpis i))).

(** [_rule_evidence]. *)
Definition rule_evidence (rule : RcaRule.t) (collected_at : Z) : result exc EvidenceReference.t :=
  let digest := rca_digest (RcaRule.to_json rule) in
  make_evidence (EvidenceReference.mk ("rule-" +:+ substring 0 32 digest) EvidenceType.RULE
    ("rule://" +:+ url_quote (RcaRule.rule_id rule) +:+ "/" +:+ url_quote (RcaRule.version rule))
    (Some "local-json-rule-repository"%string) (Some (RcaRule.description_zh rule))
    (Some collected_at) None (Some digest)
    {[ "rule_id" := JStr (RcaRule.rule_id rule);
       "rule_version" := JStr (RcaRule.version rule);
       "technology" := JStr (RcaRule.technology rule) ]}).

(** The evidence types present, and the evidence of some types. *)
Definition type_available (evidence : list EvidenceReference.t) (t : EvidenceType.t) : bool :=
  existsb (λ e, bool_decide (EvidenceReference.evidence_type e = t)) evidence.
Definition of_types (types : list EvidenceType.t) (evidence : list EvidenceReference.t) :
    list EvidenceReference.t :=
  List.filter (λ e, bool_decide (EvidenceReference.evidence_type e ∈ types)) evidence.

(** The body of the loop over the rules. *)
Definition analyse_rule (i : Incident.t) (fact_evidence : list EvidenceReference.t) (now : Z)
    (rule : RcaRule.t) : result exc (option RuleFinding) :=
  matched_violation rule i ≫= λ matched : option KpiViolation.t,
  match matched with
  | None => Ok None
  | Some violation =>
      let required := RuleAnalysis.evidence_types (RcaRule.analysis rule) in
      let facts := merge_fact_candidates (of_types required fact_evidence) in
      (if forallb (type_available fact_evidence) required
       then predicate_group_matches (RuleAnalysis.when (RcaRule.analysis rule)) facts
       else Ok false) ≫= λ conclusive : bool,
      severity_for_rule rule
        (<["kpi_value" := ScFloat (KpiViolation.observed_value violation)]> facts)
        ≫= λ severity : IncidentSeverity.t,
      rule_evidence rule now ≫= λ evidence : EvidenceReference.t,
      Ok (Some (mk_finding rule conclusive severity evidence))
  end.
Fixpoint analyse_rules (i : Incident.t) (fact_evidence : list EvidenceReference.t) (now : Z)
    (rules : list RcaRule.t) : result exc (list RuleFinding) :=
  match rules with
  | [] => Ok []
  | rule :: rules =>
      analyse_rule i fact_evidence now rule ≫= λ finding : option RuleFinding,
      analyse_rules i fact_evidence now rules ≫= λ findings,
      Ok (match finding with Some f => f :: findings | None => findings end)
  end.

(** ** The report *)

(** [dict.fromkeys(texts)]. *)
Definition unique_texts (texts : list string) : list string := distinct texts.

Definition title_or (i : Incident.t) (otherwise : string) : string :=
  if negb (str_eqb (Incident.title i) EmptyString) then Incident.title i
  else if negb (str_eqb (Incident.description i) EmptyString) then Incident.description i
  else otherwise.
Definition nonempty_or (s otherwise : string) : string :=
  if str_eqb s EmptyString then otherwise else s.
Definition newline : string := String "010"%char EmptyString.

Definition render_overview (i : Incident.t) : string :=
  let kpis := nonempty_or
    (join "；" (map (λ v, KpiViolation.kpi_name v +:+ "=" +:+
                       format_g (KpiViolation.observed_value v) +:+ unit_suffix v)
              (Incident.violated_kpis i))) "暂无异常 KPI 明细" in
  clip ("Incident ID：" +:+ Incident.incident_id i +:+ "。" +:+ title_or i "暂无补充描述" +:+
        "。异常 KPI：" +:+ kpis +:+ "。") 520.
Definition render_analysis (conclusion : RcaConclusion.t) (root_cause : option string)
    (hypotheses : list string) : string :=
  match conclusion with
  | RcaConclusion.CONCLUSIVE =>
      clip ("结论：CONCLUSIVE。Root Cause：" +:+ default "None"%string root_cause +:+ "。" +:+
            match hypotheses with
            | [] => EmptyString
            | _ => "候选假设：" +:+ join "；" hypotheses +:+ "。"
            end) 700
  | _ =>
      clip ("结论：INCONCLUSIVE。现有规则和聚合证据不足以确定 Root Cause。" +:+
            match hypotheses with
            | [] => "未找到适用的 LTE RCA 规则。"
            | _ => "已检查假设：" +:+ join "；" hypotheses +:+ "。"
            end) 700
  end.
Definition NO_INFORMATION : string := "暂无相关信息。".
Definition render_history (similar : list SimilarIncident.t) : string :=
  nonempty_or (join newline (map (λ s,
    "- " +:+ SimilarIncident.incident_id s +:+ "（相似度 " +:+
    format_4f (SimilarIncident.similarity s) +:+ "）：" +:+
    clip (text_or (text_else (SimilarIncident.root_cause s) (Some (SimilarIncident.summary s)))) 180)
    similar)) NO_INFORMATION.
Definition render_references (evidence : list EvidenceReference.t) : string :=
  nonempty_or (join newline (map (λ e,
    "- [" +:+ EvidenceType.value (EvidenceReference.evidence_type e) +:+ "] " +:+
    EvidenceReference.evidence_id e +:+ "：" +:+ EvidenceReference.uri e) (take 20 evidence)))
    NO_INFORMATION.

(** The headings and bodies of the report. *)
Definition report_sections (i : Incident.t) (conclusion : RcaConclusion.t)
    (root_cause : option string) (hypotheses : list string) (severity : IncidentSeverity.t)
    (similar : list SimilarIncident.t) (document_lines : list string)
    (evidence : list EvidenceReference.t) : list (string * string) :=
  [ ("1. Incident 概述", render_overview i);
    ("2. Root Cause Analysis", render_analysis conclusion root_cause hypotheses);
    ("3. 严重程度", "规则计算结果：" +:+ IncidentSeverity.value severity +:+ "。");
    ("4. 相似历史 Incident", clip (render_history similar) 520);
    ("5. 内部资料", clip (nonempty_or (join newline document_lines) NO_INFORMATION) 520);
    ("6. 外部资料", "Local Profile 默认关闭外部资料检索。");
    ("7. 建议措施", "P2 只读 RCA 不生成或执行网络变更，暂无 RemediationAction。");
    ("8. 参考资料", clip (render_references evidence) 820) ].

(** [_render_report]. *)
Definition render_report (i : Incident.t) (conclusion : RcaConclusion.t)
    (root_cause : option string) (hypotheses : list string) (severity : IncidentSeverity.t)
    (similar : list SimilarIncident.t) (document_lines : list string)
    (evidence : list EvidenceReference.t) : result exc string :=
  let report := join (newline +:+ newline)
    (map (λ section, "## " +:+ section.1 +:+ newline +:+ section.2)
      (report_sections i conclusion root_cause hypotheses severity similar document_lines evidence)) in
  throw_if (4096 <? py_len report)
    (ValueError "deterministic RCA report exceeded the contract text budget") ≫= λ _,
  Ok report.

(** What the rules give together. *)
Record Analysis := mk_analysis {
  an_hypotheses : list string;
  an_root_cause : option string;
  an_conclusion : RcaConclusion.t;
  an_severity : IncidentSeverity.t
}.
Definition max_severity (severities : list IncidentSeverity.t) : IncidentSeverity.t :=
  default IncidentSeverity.UNKNOWN (max_by SEVERITY_RANK severities).
(** [resolution_is_complete]. *)
Definition resolution_is_complete (resolution : RuleResolution.t) (findings : list RuleFinding)
    (issues : list json) : bool :=
  let conclusive := List.filter finding_conclusive findings in
  let identities : gset (string * string) :=
    list_to_set (map (RcaRule.identity ∘ finding_rule) conclusive) in
  bool_decide (RuleResolution.status resolution = RuleResolutionStatus.EXACT)
  && match RuleResolution.rules resolution with [] => false | _ => true end
  && bool_decide (size identities = length (RuleResolution.rules resolution))
  && match issues with [] => true | _ => false end.
Definition conclude (resolution : RuleResolution.t) (findings : list RuleFinding)
    (issues : list json) : Analysis :=
  let analysis f := RcaRule.analysis (finding_rule f) in
  let hypotheses := unique_texts (map (RuleAnalysis.hypothesis_zh ∘ analysis) findings) in
  let root_causes := unique_texts (map (RuleAnalysis.root_cause_zh ∘ analysis)
                                    (List.filter finding_conclusive findings)) in
  let candidate := match root_causes with
                   | [] => None
                   | _ => Some (clip (join "；" root_causes) 4096) end in
  let root_cause := if resolution_is_complete resolution findings issues then candidate else None in
  mk_analysis hypotheses root_cause
    match root_cause with Some _ => RcaConclusion.CONCLUSIVE | None => RcaConclusion.INCONCLUSIVE end
    (max_severity (map finding_severity findings)).

Definition issue_json (issue : RuleResolutionIssue.t) : json :=
  JObj [ ("code", JStr (RuleResolutionIssueCode.value (RuleResolutionIssue.code issue)));
         ("rule_id", json_opt JStr (RuleResolutionIssue.rule_id issue));
         ("rule_version", json_opt JStr (RuleResolutionIssue.rule_version issue));
         ("violation_key", JStr (RuleResolutionIssue.violation_key issue)) ].
Definition resolution_issues_json (resolution : RuleResolution.t) : json :=
  JArr (map issue_json (RuleResolution.issues resolution)).
Definition evidence_resolution (issues : list json) : string :=
  match issues with [] => "EXACT" | _ => "CONFLICT" end.

(** [report_identity]. *)
Definition report_identity (i : Incident.t) (b : RcaRequest) (resolution : RuleResolution.t)
    (issues : list json) (an : Analysis) (evidence : list EvidenceReference.t) : json :=
  JObj [ ("analysis", JObj
            [ ("conclusion", JStr (RcaConclusion.value (an_conclusion an)));
              ("hypotheses", JArr (map JStr (an_hypotheses an)));
              ("root_cause", json_opt JStr (an_root_cause an));
              ("severity", JStr (IncidentSeverity.value (an_severity an))) ]);
         ("based_on_revision", JInt (rca_based_on_revision b));
         ("engine", JStr RCA_ENGINE_NAME);
         ("engine_version", JStr RCA_ENGINE_VERSION);
         ("evidence", JArr (map evidence_content_identity evidence));
         ("evidence_resolution", JStr (evidence_resolution issues));
         ("evidence_resolution_issues", JArr issues);
         ("incident_id", JStr (Incident.incident_id i));
         ("requested_report_version", JInt (rca_requested_report_version b));
         ("rule_resolution", JStr (RuleResolutionStatus.value (RuleResolution.status resolution)));
         ("rule_resolution_issues", resolution_issues_json resolution);
         ("rules", JArr (map (λ rule, JObj
            [ ("content_sha256", JStr (rca_digest (RcaRule.to_json rule)));
              ("rule_id", JStr (RcaRule.rule_id rule));
              ("version", JStr (RcaRule.version rule)) ]) (RuleResolution.rules resolution))) ].

(** [RcaReport(...)]. *)
Definition make_report (i : Incident.t) (b : RcaRequest) (resolution : RuleResolution.t)
    (issues : list json) (an : Analysis) (evidence : list EvidenceReference.t) (text : string)
    (now : Z) : RcaReport.t :=
  let rules := RuleResolution.rules resolution in
  RcaReport.mk (rca_stable_id "rca" (report_identity i b resolution issues an evidence))
    (Incident.incident_id i) (rca_requested_report_version b) ReportStatus.PROPOSED
    (Some (clip (title_or i "LTE Incident" +:+ " RCA") 1024)) text (an_hypotheses an)
    (an_root_cause an) (an_conclusion an) None evidence []
    (Some (RCA_ENGINE_NAME +:+ "/" +:+ RCA_ENGINE_VERSION))
    {[ "based_on_revision" := JInt (rca_based_on_revision b);
       "engine" := JStr RCA_ENGINE_NAME;
       "engine_version" := JStr RCA_ENGINE_VERSION;
       "evidence_resolution" := JStr (evidence_resolution issues);
       "evidence_resolution_issues" := JArr issues;
       "matched_rule_ids" := JArr (map (JStr ∘ RcaRule.rule_id) rules);
       "model_provider" := JStr "none";
       "rule_resolution" := JStr (RuleResolutionStatus.value (RuleResolution.status resolution));
       "rule_resolution_issues" := resolution_issues_json resolution;
       "rule_versions" := JObj (dict_of_items
          (map (λ rule, (RcaRule.rule_id rule, JStr (RcaRule.version rule))) rules));
       "severity" := JStr (IncidentSeverity.value (an_severity an)) ]}
    now.

(** [RcaResult(...)]. *)
Definition make_result (e : Envelope.t) (b : RcaRequest) (identity : json) (report : RcaReport.t)
    (text : string) (now : Z) : Envelope.t * RcaResult :=
  (Envelope.mk (rca_stable_id "rca-result" identity) (Envelope.workflow_id e)
     (Envelope.incident_id e) (Envelope.trace_id e)
     (rca_stable_id "rca-result-key" (JObj
        [ ("report", identity);
          ("request_idempotency_key", JStr (Envelope.idempotency_key e)) ]))
     now,
   mk_rca_result (Envelope.message_id e) report (rca_based_on_revision b)
     (rca_requested_report_version b) text).
End analysis.
