(* ===== verification/RcaProps.v ===== *)
(** * When an analysis is conclusive (telco_local/rca.py)

    The decision of [analyze] over its findings: a root cause is reported
    exactly when every trusted rule is supported by the evidence in scope. *)

From Stdlib Require Import Ascii String.
From S2P Require Import Prelude PyStr Json Privacy Models Incident Errors Contracts Ports.
From S2P Require Import PyEq.
From S2P Require Import GovernanceFacts.
From S2P Require Import Rules.
From S2P Require Import RuleResolution.
From S2P Require Import PyFormat.
From S2P Require Import Similarity.
From S2P Require Import RcaEvidence.
From S2P Require Import RcaFacts.
From S2P Require Import Rca.

(** ** Predicates *)

Definition holds (facts : gmap string scalar) (p : FactPredicate.t) : Prop :=
  ∃ v, facts !! FactPredicate.fact p = Some v ∧
    compare_values v (FactPredicate.comparator p) (FactPredicate.value p) = Ok true.
Definition group_holds (facts : gmap string scalar) (g : PredicateGroup.t) : Prop :=
  match PredicateGroup.operator g with
  | PredicateGroup.ALL => ∀ p, p ∈ PredicateGroup.predicates g → holds facts p
  | PredicateGroup.ANY => ∃ p, p ∈ PredicateGroup.predicates g ∧ holds facts p
  end.

Lemma predicate_holds_spec facts p b :
  predicate_holds facts p = Ok b → b = true ↔ holds facts p.
Proof.
  unfold predicate_holds, holds. destruct (facts !! _) as [v|]; [|naive_solver].
  intros H. split; [intros ->; eauto|]. intros (w & [= <-] & Hw). congruence.
Qed.

Lemma predicates_hold_spec facts ps bs :
  predicates_hold facts ps = Ok bs → Forall2 (λ p b, b = true ↔ holds facts p) ps bs.
Proof.
  revert bs. induction ps as [|p ps IH]; intros bs H; cbn in H; run_ok; subst; constructor.
  - by apply predicate_holds_spec.
  - by apply IH.
Qed.

Lemma group_matches_spec g facts b :
  predicate_group_matches g facts = Ok b → b = true ↔ group_holds facts g.
Proof.
  unfold predicate_group_matches, group_holds. intros (bs & H & [= <-])%bind_Ok.
  apply predicates_hold_spec in H. destruct (PredicateGroup.operator g).
  - induction H as [|p b ps bs Hb H IH]; cbn; [set_solver|].
    rewrite andb_true_iff. setoid_rewrite elem_of_cons. naive_solver.
  - induction H as [|p b ps bs Hb H IH]; cbn; [set_solver|].
    rewrite orb_true_iff. setoid_rewrite elem_of_cons. naive_solver.
Qed.

(** ** The rules *)

(** A rule is supported for an Incident by some evidence: one of the violations
    is the rule's, evidence of every type it requires is there, and the merged
    facts of that evidence satisfy its predicates. *)
Definition supported `{R : Runtime} (i : Incident.t) (evidence : list EvidenceReference.t)
    (rule : RcaRule.t) : Prop :=
  let required := RuleAnalysis.evidence_types (RcaRule.analysis rule) in
  (∃ v, v ∈ Incident.violated_kpis i ∧ detection_matches rule v = Ok true) ∧
  (∀ t, t ∈ required → ∃ e, e ∈ evidence ∧ EvidenceReference.evidence_type e = t) ∧
  group_holds (merge_fact_candidates (of_types required evidence))
    (RuleAnalysis.when (RcaRule.analysis rule)).

Section rules.
Context `{R : Runtime}.

Lemma matching_spec rule vs ms :
  matching_violations rule vs = Ok ms →
  ∀ v, v ∈ ms ↔ v ∈ vs ∧ detection_matches rule v = Ok true.
Proof.
  revert ms. induction vs as [|x vs IH]; intros ms H v; cbn in H; [run_ok; subst; set_solver|].
  apply bind_Ok in H as (b & Hb & (rest & Hr & [= <-])%bind_Ok). specialize (IH _ Hr).
  destruct b; rewrite ?elem_of_cons, IH; split.
  - intros [->|[? ?]]; tauto.
  - intros [[->|?] ?]; tauto.
  - tauto.
  - intros [[->|?] ?]; [congruence|done].
Qed.

Lemma first_min_in {A} (leb : A → A → bool) x xs : first_min leb x xs ∈ x :: xs.
Proof.
  revert x. induction xs as [|y xs IH]; intros x; cbn; [by left|].
  specialize (IH (if leb x y then x else y)). destruct (leb x y); set_solver.
Qed.

Lemma matched_violation_spec rule i o :
  matched_violation rule i = Ok o →
  match o with
  | Some v => v ∈ Incident.violated_kpis i ∧ detection_matches rule v = Ok true
  | None => ¬ ∃ v, v ∈ Incident.violated_kpis i ∧ detection_matches rule v = Ok true
  end.
Proof.
  unfold matched_violation. intros (ms & Hm & [= <-])%bind_Ok.
  pose proof (matching_spec _ _ _ Hm) as Hin. clear Hm. rename Hin into Hm. destruct ms as [|v vs].
  - intros (v & Hv). by apply Hm, not_elem_of_nil in Hv.
  - apply Hm. destruct (RuleDetection.comparator _); apply first_min_in.
Qed.

Lemma types_available evidence types :
  forallb (type_available evidence) types = true ↔
  ∀ t, t ∈ types → ∃ e, e ∈ evidence ∧ EvidenceReference.evidence_type e = t.
Proof.
  rewrite forallb_true_iff. unfold type_available. setoid_rewrite existsb_true_iff.
  by setoid_rewrite bool_decide_eq_true.
Qed.

Lemma analyse_rule_spec i evidence now rule o :
  analyse_rule i evidence now rule = Ok o →
  match o with
  | Some f => finding_rule f = rule ∧ (finding_conclusive f = true ↔ supported i evidence rule)
  | None => ¬ supported i evidence rule
  end.
Proof.
  unfold analyse_rule, supported. intros H. apply bind_Ok in H as (m & Hm & H).
  apply matched_violation_spec in Hm. destruct m as [v|]; [|run_ok; subst; tauto].
  apply bind_Ok in H as (b & Hb & H). run_ok. subst. cbn. split; [done|].
  destruct (forallb _ _) eqn:Ea.
  - rewrite types_available in Ea. apply group_matches_spec in Hb. rewrite Hb. naive_solver.
  - run_ok. subst. split; [done|]. intros (_ & Ht & _).
    apply types_available in Ht. congruence.
Qed.

(** The rules found conclusive are among the rules, and are all of them only
    when all are supported. *)
Lemma analyse_rules_spec i evidence now rules findings :
  analyse_rules i evidence now rules = Ok findings →
  let conclusive := map finding_rule (List.filter finding_conclusive findings) in
  conclusive `sublist_of` rules ∧
  (conclusive = rules ↔ ∀ rule, rule ∈ rules → supported i evidence rule).
Proof.
  revert findings. induction rules as [|rule rules IH]; intros findings H; cbn in H.
  { run_ok. subst. cbn. split; [constructor|]. set_solver. }
  apply bind_Ok in H as (o & Ho & H). apply bind_Ok in H as (fs & Hfs & H). run_ok. subst.
  apply analyse_rule_spec in Ho. specialize (IH _ Hfs) as [Hs He]. cbn in Hs, He.
  assert (∀ l, l `sublist_of` rules → l ≠ rule :: rules) as Hshort.
  { intros l Hl%sublist_length ->. cbn in Hl. lia. }
  destruct o as [f|].
  - destruct Ho as [<- Hc]. cbn. destruct (finding_conclusive f).
    + cbn. split; [by apply sublist_skip|]. setoid_rewrite elem_of_cons. split.
      * intros [= Hr] rule [->|Hx]; [by apply Hc|]. by apply He.
      * intros Hx. f_equal. apply He. naive_solver.
    + split; [by apply sublist_cons|]. split; [by intros ?%Hshort|].
      intros Hx. exfalso. specialize (Hx (finding_rule f) ltac:(left)). naive_solver.
  - cbn. split; [by apply sublist_cons|]. split; [by intros ?%Hshort|].
    intros Hx. exfalso. apply Ho, Hx. left.
Qed.
End rules.

(** ** The conclusion *)

(** An analysis is conclusive: the rules of the Incident are resolved exactly,
    there are some, no two share an identity, each is supported, and no
    telemetry was left out. *)
Definition conclusive `{R : Runtime} (i : Incident.t) (evidence : list EvidenceReference.t)
    (resolution : RuleResolution.t) (issues : list json) : Prop :=
  RuleResolution.status resolution = RuleResolutionStatus.EXACT ∧
  RuleResolution.rules resolution ≠ [] ∧
  NoDup (map RcaRule.identity (RuleResolution.rules resolution)) ∧
  (∀ rule, rule ∈ RuleResolution.rules resolution → supported i evidence rule) ∧
  issues = [].

Lemma sublist_same_length {A} (l k : list A) : l `sublist_of` k → length l = length k → l = k.
Proof.
  induction 1 as [|x l k Hs IH|x l k Hs IH]; cbn; [done| |].
  - intros [= Hl]. by rewrite IH.
  - intros Hl. apply sublist_length in Hs. lia.
Qed.

(** As many different keys of a sublist as the list has items. *)
Lemma all_distinct {A K} `{Countable K} (key : A → K) (l k : list A) :
  l `sublist_of` k →
  size (list_to_set (map key l) : gset K) = length k ↔ NoDup (map key k) ∧ l = k.
Proof.
  intros Hs. pose proof (size_list_to_set_le (map key l)) as Hle. rewrite length_map in Hle.
  pose proof (sublist_length _ _ Hs) as Hl. split.
  - intros Hz. assert (l = k) as -> by (apply sublist_same_length; [done|lia]).
    split; [|done]. apply has_duplicates_false. unfold has_duplicates.
    by rewrite length_map, Hz, Nat.eqb_refl.
  - intros [Hnd ->]. apply has_duplicates_false in Hnd. unfold has_duplicates in Hnd.
    apply negb_false_iff, Nat.eqb_eq in Hnd. by rewrite <- Hnd, length_map.
Qed.

Section conclusion.
Context `{R : Runtime}.

Lemma complete_spec i evidence now resolution issues findings :
  analyse_rules i evidence now (RuleResolution.rules resolution) = Ok findings →
  resolution_is_complete resolution findings issues = true ↔
  conclusive i evidence resolution issues.
Proof.
  intros [Hs Ha]%analyse_rules_spec. unfold resolution_is_complete, conclusive.
  set (found := List.filter finding_conclusive findings) in *.
  assert (map (RcaRule.identity ∘ finding_rule) found =
          map RcaRule.identity (map finding_rule found)) as -> by (by rewrite map_map).
  rewrite !andb_true_iff, !bool_decide_eq_true, all_distinct, <- Ha by done.
  destruct (RuleResolution.rules resolution), issues; naive_solver.
Qed.

Lemma root_cause_spec resolution findings issues :
  is_Some (an_root_cause (conclude resolution findings issues)) ↔
  an_conclusion (conclude resolution findings issues) = RcaConclusion.CONCLUSIVE.
Proof.
  unfold conclude. cbn [an_conclusion an_root_cause].
  destruct (resolution_is_complete _ _ _); [|split; [by intros []|done]].
  destruct (unique_texts _); split; (done || by intros []).
Qed.

Lemma conclusion_spec i evidence now resolution issues findings :
  analyse_rules i evidence now (RuleResolution.rules resolution) = Ok findings →
  an_conclusion (conclude resolution findings issues) = RcaConclusion.CONCLUSIVE ↔
  conclusive i evidence resolution issues.
Proof.
  intros Hf. pose proof (complete_spec i evidence now resolution issues findings Hf) as Hc.
  destruct (analyse_rules_spec _ _ _ _ _ Hf) as [_ Ha].
  unfold conclude. cbn [an_conclusion]. rewrite <- Hc.
  destruct (resolution_is_complete resolution findings issues); [|done].
  destruct Hc as [(_ & Hne & _ & Hall & _) _]; [done|]. apply Ha in Hall.
  destruct (List.filter finding_conclusive findings); [by destruct Hne|done].
Qed.

(** An analysis is CONCLUSIVE exactly when the rules that the Incident
    names resolve exactly and are not none, every one of them is supported by
    the evidence (a violation of the rule's, all the evidence types it
    requires, its predicates true of the merged facts), and no telemetry was
    out of scope; only then does the report name a root cause, made of the root
    causes of those very rules, and otherwise it names none. *)
Theorem conclusive_exact i evidence now resolution issues findings
    (Hf : analyse_rules i evidence now (RuleResolution.rules resolution) = Ok findings) :
  let analysis := conclude resolution findings issues in
  (an_conclusion analysis = RcaConclusion.CONCLUSIVE ↔
   conclusive i evidence resolution issues) ∧
  (an_conclusion analysis = RcaConclusion.INCONCLUSIVE ↔
   ¬ conclusive i evidence resolution issues) ∧
  an_root_cause analysis =
    if decide (an_conclusion analysis = RcaConclusion.CONCLUSIVE)
    then Some (clip (join "；" (unique_texts (map (RuleAnalysis.root_cause_zh ∘ RcaRule.analysis)
                                              (RuleResolution.rules resolution)))) 4096)
    else None.
Proof.
  cbn zeta. pose proof (conclusion_spec i evidence now resolution issues findings Hf) as Hc.
  destruct (analyse_rules_spec _ _ _ _ _ Hf) as [_ Ha]. split_and!; [done| |].
  - rewrite <- Hc. unfold conclude. cbn [an_conclusion]. split; intros Hx; [by rewrite Hx|].
    destruct (if resolution_is_complete _ _ _ then _ else _); done.
  - pose proof (root_cause_spec resolution findings issues) as Hroot. case_decide as Hd.
    + pose proof (proj1 Hc Hd) as (_ & _ & _ & Hall%Ha & _). apply Hroot in Hd as [cause Hd].
      rewrite Hd. unfold conclude in Hd. cbn [an_root_cause] in Hd.
      destruct (resolution_is_complete _ _ _); [|done].
      assert (map (RuleAnalysis.root_cause_zh ∘ (λ f, RcaRule.analysis (finding_rule f)))
                (List.filter finding_conclusive findings) =
              map (RuleAnalysis.root_cause_zh ∘ RcaRule.analysis) (RuleResolution.rules resolution))
        as Em by (rewrite <- Hall, map_map; done).
      rewrite Em in Hd. destruct (unique_texts _); [done|]. by rewrite <- Hd.
    + destruct (an_root_cause _); [|done]. by destruct Hd; apply Hroot.
Qed.
End conclusion.
