(* ===== verification/RcaText.v ===== *)
(** * The text of a report fits the contract

    Lengths of clipped and joined texts, in characters, and that the report can
    never exceed the 4096 characters of a contract text. *)

From Stdlib Require Import Ascii String.
From S2P Require Import Prelude PyStr Json Models Incident Errors Contracts.
From S2P Require Import PyEq.
From S2P Require Import PyFormat.
From S2P Require Import Similarity.
From S2P Require Import Rca.

(** ** Lengths *)

Lemma chars_head c s : ∃ h t, chars (String c s) = h :: t ∧ starts_continuation h = is_continuation c.
Proof.
  cbn [chars]. destruct (chars s) as [|h t]; [by eexists _, _|].
  destruct (starts_continuation h); by eexists _, _.
Qed.

(** A byte starts a new character unless a continuation follows it. *)
Lemma length_chars_cons c s :
  length (chars (String c s)) =
  if starts_continuation s then length (chars s) else S (length (chars s)).
Proof.
  destruct s as [|d s]; [done|]. destruct (chars_head d s) as (h & t & E & Eh).
  change (chars (String c (String d s))) with
    (match chars (String d s) with
     | h :: t => if starts_continuation h then String c h :: t else String c EmptyString :: h :: t
     | [] => [String c EmptyString]
     end).
  rewrite E. cbn [starts_continuation]. rewrite Eh. by destruct (is_continuation d).
Qed.

Lemma starts_continuation_app c s t :
  starts_continuation (String c s +:+ t) = starts_continuation (String c s).
Proof. done. Qed.

Lemma py_len_app s t : py_len (s +:+ t) ≤ py_len s + py_len t.
Proof.
  unfold py_len. enough (length (chars (s +:+ t)) ≤ length (chars s) + length (chars t))%nat by lia.
  induction s as [|c s IH]; [done|]. rewrite app_cons, 2 length_chars_cons.
  destruct s as [|d s].
  - change ("" +:+ t) with t. simpl. destruct (starts_continuation t); lia.
  - rewrite starts_continuation_app. destruct (starts_continuation (String d s)); lia.
Qed.

Lemma py_len_nonneg s : 0 ≤ py_len s.
Proof. unfold py_len. lia. Qed.

(** A prefix of the characters is a text of those characters. *)
Lemma py_len_concat_prefix (l k : list string) s :
  chars s = l ++ k → py_len (concat l) = Z.of_nat (length l).
Proof.
  intros E. unfold py_len. pose proof (char_list_chars s) as Hc. rewrite E in Hc.
  by rewrite (chars_concat l (char_list_app_l _ _ Hc)).
Qed.

Lemma py_len_take n s : 0 ≤ n → py_len (py_take n s) ≤ n.
Proof.
  intros Hn. unfold py_take.
  rewrite (py_len_concat_prefix _ (drop (Z.to_nat n) (chars s)) s) by (by rewrite take_drop).
  rewrite length_take. lia.
Qed.

Lemma py_len_rstrip s : py_len (rstrip s) ≤ py_len s.
Proof.
  unfold rstrip. destruct (drop_spaces_suffix (reverse (chars s))) as [k Hk].
  apply (f_equal reverse) in Hk. rewrite reverse_involutive, reverse_app in Hk.
  rewrite (py_len_concat_prefix _ _ s Hk). unfold py_len.
  apply (f_equal length) in Hk. rewrite length_app in Hk. lia.
Qed.

(** A clipped text has at most [limit] characters. *)
Lemma py_len_clip s limit : 1 ≤ limit → py_len (clip s limit) ≤ limit.
Proof.
  intros Hl. unfold clip. destruct (Z.leb_spec (py_len (join " " (words s))) limit); [done|].
  set (t := join " " (words s)) in *.
  pose proof (py_len_app (rstrip (py_take (Z.max 0 (limit - 1)) t)) "…") as H1.
  pose proof (py_len_rstrip (py_take (Z.max 0 (limit - 1)) t)) as H2.
  pose proof (py_len_take (Z.max 0 (limit - 1)) t ltac:(lia)) as H3.
  change (py_len "…") with 1 in H1. lia.
Qed.

Lemma py_len_join sep texts :
  py_len (join sep texts) ≤
  foldr (λ t n, py_len t + n) 0 texts + py_len sep * Z.of_nat (length texts).
Proof.
  induction texts as [|t [|u texts] IH]; [by rewrite Z.mul_0_r| |].
  - pose proof (py_len_nonneg sep). change (join sep [t]) with t. cbn [foldr length] in *. lia.
  - change (join sep (t :: u :: texts)) with (t +:+ sep +:+ join sep (u :: texts)).
    pose proof (py_len_app t (sep +:+ join sep (u :: texts))).
    pose proof (py_len_app sep (join sep (u :: texts))).
    cbn [foldr length] in *. lia.
Qed.

(** ** The report *)

Lemma severity_text_length s : py_len (IncidentSeverity.value s) ≤ 8.
Proof. by destruct s; vm_compute. Qed.

Lemma render_analysis_length conclusion cause hypotheses :
  py_len (render_analysis conclusion cause hypotheses) ≤ 700.
Proof. unfold render_analysis. destruct conclusion; by apply py_len_clip. Qed.

(** The length of a section with a heading of at most [h] characters. *)
Lemma section_length heading body h n :
  py_len heading ≤ h → py_len body ≤ n →
  py_len ("## " +:+ heading +:+ newline +:+ body) ≤ h + n + 4.
Proof.
  intros Hh Hb. pose proof (py_len_app "## " (heading +:+ newline +:+ body)).
  pose proof (py_len_app heading (newline +:+ body)). pose proof (py_len_app newline body).
  change (py_len "## ") with 3 in *. change (py_len newline) with 1 in *. lia.
Qed.

Lemma report_length i conclusion cause hypotheses severity similar lines evidence :
  py_len (join (newline +:+ newline)
    (map (λ section, "## " +:+ section.1 +:+ newline +:+ section.2)
      (report_sections i conclusion cause hypotheses severity similar lines evidence))) ≤ 4096.
Proof.
  etransitivity; [apply py_len_join|]. unfold report_sections. cbn [map fst snd foldr length].
  set (texts := (newline +:+ newline)%string).
  assert (py_len texts = 2) as -> by done.
  pose proof (section_length "1. Incident 概述" (render_overview i) 20 520
    ltac:(by vm_compute) (py_len_clip _ 520 ltac:(lia))).
  pose proof (section_length "2. Root Cause Analysis" (render_analysis conclusion cause hypotheses)
    30 700 ltac:(by vm_compute) (render_analysis_length _ _ _)).
  assert (py_len ("规则计算结果：" +:+ IncidentSeverity.value severity +:+ "。") ≤ 20) as Hs
    by (by destruct severity; vm_compute).
  pose proof (section_length "3. 严重程度" _ 20 20 ltac:(by vm_compute) Hs).
  pose proof (section_length "4. 相似历史 Incident" (clip (render_history similar) 520) 20 520
    ltac:(by vm_compute) (py_len_clip _ 520 ltac:(lia))).
  pose proof (section_length "5. 内部资料"
    (clip (nonempty_or (join newline lines) NO_INFORMATION) 520) 20 520
    ltac:(by vm_compute) (py_len_clip _ 520 ltac:(lia))).
  pose proof (section_length "6. 外部资料" "Local Profile 默认关闭外部资料检索。" 20 60
    ltac:(by vm_compute) ltac:(by vm_compute)).
  pose proof (section_length "7. 建议措施" "P2 只读 RCA 不生成或执行网络变更，暂无 RemediationAction。"
    20 80 ltac:(by vm_compute) ltac:(by vm_compute)).
  pose proof (section_length "8. 参考资料" (clip (render_references evidence) 820) 20 820
    ltac:(by vm_compute) (py_len_clip _ 820 ltac:(lia))).
  lia.
Qed.

(** Rendering a report never raises: whatever the Incident, the hypotheses,
    the similar Incidents, the documents and the evidence, the sections are
    clipped so that the text fits the 4096 characters a contract text may have. *)
Theorem report_fits i conclusion cause hypotheses severity similar lines evidence :
  ∃ text, render_report i conclusion cause hypotheses severity similar lines evidence = Ok text ∧
    py_len text ≤ 4096.
Proof.
  pose proof (report_length i conclusion cause hypotheses severity similar lines evidence) as Hl.
  unfold render_report. eexists. rewrite (proj2 (Z.ltb_ge _ _) Hl). split; [done|exact Hl].
Qed.
