(* ===== verification/RcaEngine.v ===== *)
(** * The analysis gateway (telco_local/rca.py, class DeterministicRcaGateway)

    [analyze] over its ports: where the rules come from, the telemetry of the
    Incident's scope, the documents and the history that go into the report. *)

From Stdlib Require Import Ascii String.
From stdpp Require Import pretty.
From S2P Require Import Prelude PyStr Json Privacy Models Incident Errors Repository.
From S2P Require Import PyEq.
From S2P Require Import Contracts Ports.
From S2P Require Import Rules.
From S2P Require Import RuleResolution.
From S2P Require Import RuleStore.
From S2P Require Import Detector.
From S2P Require Import PyFormat.
From S2P Require Import Similarity.
From S2P Require Import RcaEvidence.
From S2P Require Import Rca.

(** ** Ports *)

(** What a rule repository offers: [resolve_typed], or [match_typed] or
    [match], whose items are rules or documents of rules. *)
Inductive RuleSource (W : Type) :=
| Resolves (resolve_typed : Incident.t → Eff W RuleResolution.t)
| Matches (matched : Incident.t → Eff W (list (RcaRule.t + json))).
Arguments Resolves {_} _.
Arguments Matches {_} _.

Definition Document : Type := list (string * json).
(** [collect_evidence(incident, window_start, window_end, limit)]. *)
Definition CollectEvidence (W : Type) : Type :=
  Incident.t → option Z → option Z → Z → Eff W (list EvidenceReference.t).
(** [search(query, technology, limit)]. *)
Definition Search (W : Type) : Type := string → string → Z → Eff W (list Document).
(** [list(limit, offset)]. *)
Definition ListIncidents (W : Type) : Type := Z → Z → Eff W (list Incident.t).

Record RcaLimits := mk_limits {
  evidence_limit : Z;
  document_limit : Z;
  history_scan_limit : Z;
  history_match_limit : Z;
  history_min_score : pyfloat
}.
(** The checks of the constructor. *)
Definition check_limits (l : RcaLimits) : result exc unit :=
  let within (low high n : Z) := (low <=? n) && (n <=? high) in
  throw_if (negb (within 1 1000 (evidence_limit l)))
    (ValueError "evidence_limit must be between 1 and 1000") ≫= λ _,
  throw_if (negb (within 1 10 (document_limit l)))
    (ValueError "document_limit must be between 1 and 10") ≫= λ _,
  throw_if (negb (within 1 1000 (history_scan_limit l)))
    (ValueError "history_scan_limit must be between 1 and 1000") ≫= λ _,
  throw_if (negb (within 1 10 (history_match_limit l)))
    (ValueError "history_match_limit must be between 1 and 10") ≫= λ _,
  throw_if (negb (float_leb (PyFloat false 0 0) (history_min_score l)
                  && float_leb (history_min_score l) (PyFloat false 1 0)))
    (ValueError "history_min_score must be between 0 and 1").

Record RcaPorts (W : Type) := mk_ports {
  rule_repository : RuleSource W;
  telemetry_repository : CollectEvidence W;
  document_repository : option (Search W);
  incident_repository : option (ListIncidents W);
  rca_clock : Eff W pydatetime;
  limits : RcaLimits
}.
Arguments mk_ports {_} _ _ _ _ _ _.
Arguments rule_repository {_} _.
Arguments telemetry_repository {_} _.
Arguments document_repository {_} _.
Arguments incident_repository {_} _.
Arguments rca_clock {_} _.
Arguments limits {_} _.

(** ** Documents *)

Section documents.
Context `{R : Runtime, C : ContainerRepr}.

(** [str(value)]. *)
Definition py_str (v : json) : string :=
  match v with
  | JNull => "None"
  | JBool true => "True"
  | JBool false => "False"
  | JInt z => pretty z
  | JFloat f => float_repr f
  | JStr s => s
  | JArr _ | JObj _ => container_repr v
  end.
(** [bool(value)]. *)
Definition truthy (v : json) : bool :=
  match v with
  | JNull => false
  | JBool b => b
  | JInt z => negb (z =? 0)
  | JFloat f => negb (f_mant f =? 0)%N
  | JStr s => negb (str_eqb s EmptyString)
  | JArr l => match l with [] => false | _ => true end
  | JObj l => match l with [] => false | _ => true end
  end.
(** [record.get(key)]. *)
Definition field (key : string) (d : Document) : json := default JNull (items_get key d).
(** [str(record.get(key) or otherwise)]. *)
Definition field_or (key : string) (d : Document) (otherwise : string) : string :=
  if truthy (field key d) then py_str (field key d) else otherwise.

(** [key=lambda item: (str(item.get("uri", "")), str(item.get("title", "")))]. *)
Definition document_leb (x y : Document) : bool :=
  let get key d := py_str (default (JStr EmptyString) (items_get key d)) in
  texts_leb [get "uri"%string x; get "title"%string x] [get "uri"%string y; get "title"%string y].

Definition score_attribute (d : Document) : json :=
  match field "score" d with
  | (JInt _ | JFloat _ | JBool _) as v => v
  | _ => JNull
  end.

(** One record: its evidence and its line of the report. *)
Definition document_item (d : Document) (collected_at : Z) :
    result exc (option (EvidenceReference.t * string)) :=
  assert_model_safe (JObj d) ≫= λ _,
  match field "uri" d with
  | JStr uri =>
      if str_eqb uri EmptyString then Ok None
      else
        let title := field_or "title" d "本地资料" in
        let excerpt := field_or "excerpt" d (field_or "summary" d EmptyString) in
        let digest := rca_digest (JObj [ ("excerpt", JStr excerpt); ("score", field "score" d);
                                         ("title", JStr title); ("uri", JStr uri) ]) in
        make_evidence (EvidenceReference.mk ("document-" +:+ substring 0 32 digest)
          EvidenceType.DOCUMENT uri (Some "local-document-repository"%string)
          (Some (clip (nonempty_or excerpt title) 1024)) (Some collected_at) None (Some digest)
          {[ "score" := score_attribute d; "title" := JStr (clip title 256) ]}) ≫= λ evidence,
        Ok (Some (evidence, "- " +:+ clip title 120 +:+ "：" +:+ clip excerpt 260))
  | _ => Ok None
  end.
Fixpoint document_items (ds : list Document) (collected_at : Z) :
    result exc (list (EvidenceReference.t * string)) :=
  match ds with
  | [] => Ok []
  | d :: ds =>
      document_item d collected_at ≫= λ item : option (EvidenceReference.t * string),
      document_items ds collected_at ≫= λ items,
      Ok (match item with Some x => x :: items | None => items end)
  end.

(** ** Similar Incidents *)

Definition history_item (s : SimilarIncident.t) (collected_at : Z) :
    result exc EvidenceReference.t :=
  let digest := rca_digest (SimilarIncident.to_json s) in
  let summary := match SimilarIncident.root_cause s with
                 | Some cause => if str_eqb cause EmptyString then SimilarIncident.summary s
                                 else SimilarIncident.summary s +:+ "；历史根因：" +:+ cause
                 | None => SimilarIncident.summary s end in
  make_evidence (EvidenceReference.mk ("prior-" +:+ substring 0 32 digest)
    EvidenceType.PRIOR_INCIDENT ("incident://history/" +:+ url_quote (SimilarIncident.incident_id s))
    (Some "local-incident-repository"%string) (Some (clip summary 1024)) (Some collected_at) None
    (Some digest) {[ "similarity" := JFloat (SimilarIncident.similarity s) ]}).
Fixpoint history_items (similar : list SimilarIncident.t) (collected_at : Z) :
    result exc (list EvidenceReference.t) :=
  match similar with
  | [] => Ok []
  | s :: similar =>
      history_item s collected_at ≫= λ e, history_items similar collected_at ≫= λ es, Ok (e :: es)
  end.
End documents.

(** ** [analyze] *)

Section gateway.
Context `{R : Runtime, D : RuleDecoder, T : IsoParser, C : ContainerRepr}.
Context {W : Type} (P : RcaPorts W).

Fixpoint typed_rules (items : list (RcaRule.t + json)) : result exc (list RcaRule.t) :=
  match items with
  | [] => Ok []
  | inl rule :: items => typed_rules items ≫= λ rules, Ok (rule :: rules)
  | inr raw :: items =>
      of_option (match raw with JObj fields => rule_model_validate fields | _ => None end)
        (ValidationError "RcaRule") ≫= λ rule : RcaRule.t,
      typed_rules items ≫= λ rules, Ok (rule :: rules)
  end.

(** [_load_typed_rules]. *)
Definition load_typed_rules (i : Incident.t) : Eff W RuleResolution.t :=
  match rule_repository P with
  | Resolves resolve_typed =>
      resolve_typed i ≫= λ resolved : RuleResolution.t,
      if existsb (λ rule, negb (applicable i rule)) (RuleResolution.rules resolved)
      then pure (resolve_rules_for_incident i (RuleResolution.rules resolved))
      else pure (Ok resolved)
  | Matches matched =>
      matched i ≫= λ items : list (RcaRule.t + json),
      pure (typed_rules items) ≫= λ rules : list RcaRule.t,
      pure (resolve_rules_for_incident i (List.filter (applicable i) rules))
  end.

(** The issue of an LTE Incident without resources or without a window. *)
Definition scope_missing_issue (i : Incident.t) : json :=
  let time (t : option Z) := json_opt (JStr ∘ isoformat) t in
  evidence_issue
    (match Incident.affected_resources i with
     | [] => "INCIDENT_RESOURCE_SCOPE_MISSING"
     | _ => "INCIDENT_TIME_SCOPE_MISSING"
     end)
    (rca_digest (JObj [ ("resource_scope", JArr (resource_scope i));
                        ("window_end", time (Incident.window_end i));
                        ("window_start", time (Incident.window_start i)) ]))
    "incident-analysis-scope" "TELEMETRY".

Definition check_telemetry_item (e : EvidenceReference.t) : result exc unit :=
  assert_model_safe (EvidenceReference.to_json e) ≫= λ _,
  throw_if (negb (bool_decide (EvidenceReference.evidence_type e ∈
                    [EvidenceType.METRIC; EvidenceType.TRACE])))
    (ValueError "telemetry repository returned non-telemetry evidence").

(** The telemetry in the Incident's scope, and the issues of the rest. *)
Definition scoped_telemetry (i : Incident.t) : Eff W (list EvidenceReference.t * list json) :=
  match Incident.affected_resources i, Incident.window_start i, Incident.window_end i with
  | _ :: _, Some _, Some _ =>
      telemetry_repository P i (Incident.window_start i) (Incident.window_end i)
        (evidence_limit (limits P)) ≫= λ collected : list EvidenceReference.t,
      pure (deduplicate_evidence collected) ≫= λ telemetry : list EvidenceReference.t,
      pure (throw_if (evidence_limit (limits P) <? Z.of_nat (length telemetry))
        (ValueError "telemetry repository exceeded the requested limit")) ≫= λ _ : unit,
      pure (for_each check_telemetry_item telemetry) ≫= λ _ : unit,
      pure (Ok (validate_telemetry 0 telemetry i))
  | _, _, _ => pure (Ok ([], [scope_missing_issue i]))
  end.

(** [_document_evidence]. *)
Definition document_evidence (i : Incident.t) (collected_at : Z) :
    Eff W (list EvidenceReference.t * list string) :=
  match document_repository P with
  | Some search =>
      if bool_decide (Incident.technology i = Technology.LTE) then
        let query := clip (join " " (Incident.title i :: Incident.description i ::
                       map KpiViolation.kpi_name (Incident.violated_kpis i))) 2048 in
        search (nonempty_or query "LTE Incident") (Technology.value (Incident.technology i))
          (document_limit (limits P)) ≫= λ records : list Document,
        pure (document_items (py_sorted document_leb
                (take (Z.to_nat (document_limit (limits P))) records)) collected_at)
          ≫= λ items : list (EvidenceReference.t * string),
        pure (Ok (map fst items, map snd items))
      else pure (Ok ([], []))
  | None => pure (Ok ([], []))
  end.

(** [_history_evidence]. *)
Definition history_evidence (i : Incident.t) (collected_at : Z) :
    Eff W (list EvidenceReference.t * list SimilarIncident.t) :=
  match incident_repository P with
  | Some list_incidents =>
      if bool_decide (Incident.technology i = Technology.LTE) then
        list_incidents (history_scan_limit (limits P)) 0 ≫= λ candidates : list Incident.t,
        pure (rank_similar_incidents i candidates (history_match_limit (limits P))
                (history_min_score (limits P))) ≫= λ matches : list SimilarIncident.t,
        pure (history_items matches collected_at) ≫= λ evidence : list EvidenceReference.t,
        pure (Ok (evidence, matches))
      else pure (Ok ([], []))
  | None => pure (Ok ([], []))
  end.

Definition utc_now (value : pydatetime) : result exc Z :=
  match value with
  | Naive _ => fail (ValueError "clock must return a timezone-aware datetime")
  | Aware local offset => Ok (local - offset)
  end.

(** The report of everything that was found. *)
Definition report_of (e : Envelope.t) (b : RcaRequest) (now : Z) (resolution : RuleResolution.t)
    (issues : list json) (findings : list RuleFinding) (fact_evidence : list EvidenceReference.t)
    (documents : list EvidenceReference.t * list string)
    (history : list EvidenceReference.t * list SimilarIncident.t) :
    result exc (Envelope.t * RcaResult) :=
  let i := rca_incident b in
  let an := conclude resolution findings issues in
  deduplicate_evidence
    (fact_evidence ++ map finding_evidence findings ++ documents.1 ++ history.1) ≫= λ evidence,
  render_report i (an_conclusion an) (an_root_cause an) (an_hypotheses an) (an_severity an)
    history.2 documents.2 evidence ≫= λ text : string,
  let identity := report_identity i b resolution issues an evidence in
  let report := make_report i b resolution issues an evidence text now in
  validated (RcaReport.check report) ≫= λ _,
  let result := make_result e b identity report text now in
  let message := mk_message result.1 (IRcaResult result.2) in
  validated (check_message message) ≫= λ _,
  assert_model_safe (message_json message) ≫= λ _,
  to_data_part message ≫= λ _,
  Ok result.

Definition analyze (e : Envelope.t) (b : RcaRequest) : Eff W (Envelope.t * RcaResult) :=
  let i := rca_incident b in
  pure (assert_model_safe (message_json (mk_message e (IRcaRequest b)))) ≫= λ _ : unit,
  rca_clock P ≫= λ value : pydatetime,
  pure (utc_now value) ≫= λ now : Z,
  (if bool_decide (Incident.technology i ∈ [Technology.LTE; Technology.FIVE_G_SA])
   then load_typed_rules i
   else pure (Ok (RuleResolution.mk RuleResolutionStatus.NOT_APPLICABLE [] [])))
    ≫= λ resolution : RuleResolution.t,
  (if bool_decide (Incident.technology i = Technology.LTE)
   then scoped_telemetry i else pure (Ok ([], [])))
    ≫= λ '(valid_telemetry, issues),
  pure (violation_evidence i) ≫= λ base : list EvidenceReference.t,
  pure (deduplicate_evidence (base ++ valid_telemetry)) ≫= λ fact_evidence : list EvidenceReference.t,
  pure (analyse_rules i fact_evidence now (RuleResolution.rules resolution))
    ≫= λ findings : list RuleFinding,
  document_evidence i now ≫= λ documents : list EvidenceReference.t * list string,
  history_evidence i now ≫= λ history : list EvidenceReference.t * list SimilarIncident.t,
  pure (report_of e b now resolution issues findings fact_evidence documents history).

(** The gateway behind its Protocol. *)
Definition deterministic_rca_gateway : RcaGateway W := {| Ports.analyze := analyze |}.
End gateway.
