(* ===== verification/RcaReports.v ===== *)
(** * What an analysis returns (telco_local/rca.py, [analyze])

    The result of [analyze]: bound to its request, safe, a proposal without
    recommendations, and conclusive only on evidence in scope. *)

From Stdlib Require Import Ascii String.
From S2P Require Import Prelude PyStr Json Privacy Models Incident Errors Contracts Ports.
From S2P Require Import PyEq.
From S2P Require Import GovernanceBase Governance GovernanceFacts.
From S2P Require Import Rules.
From S2P Require Import RuleResolution.
From S2P Require Import RuleStore.
From S2P Require Import PyFormat.
From S2P Require Import Similarity.
From S2P Require Import RcaEvidence.
From S2P Require Import RcaFacts.
From S2P Require Import Rca.
From S2P Require Import RcaProps.
From S2P Require Import RcaEngine.

Section reports.
Context `{R : Runtime, D : RuleDecoder, T : IsoParser, C : ContainerRepr}.
Context {W : Type} (P : RcaPorts W).

(** ** The telemetry *)

Lemma deduplicate_in evidence kept e :
  deduplicate_evidence evidence = Ok kept → e ∈ kept → e ∈ evidence.
Proof.
  unfold deduplicate_evidence. intros (m & Hm & [= <-])%bind_Ok He.
  apply elem_of_py_sorted, list_elem_of_fmap in He as ([id x] & -> & He).
  apply elem_of_map_to_list in He. cbn.
  assert (∀ evidence by_id, evidence_by_id by_id evidence = Ok m →
    by_id !! id = Some x ∨ x ∈ evidence) as Hgo; [|by destruct (Hgo _ _ Hm) as [?%lookup_empty_Some|]].
  clear evidence Hm. induction evidence as [|y ys IH]; intros by_id; cbn [evidence_by_id].
  - intros [= ->]. by left.
  - intros (u & _ & [Hy|Hy]%IH)%bind_Ok; [|right; by right].
    apply lookup_insert_Some in Hy as [[_ ->]|[_ Hy]]; [right; by left|by left].
Qed.

(** Evidence that telemetry may be. *)
Definition telemetry_type (e : EvidenceReference.t) : Prop :=
  EvidenceReference.evidence_type e ∈ [EvidenceType.METRIC; EvidenceType.TRACE].

Lemma scoped_telemetry_run i w telemetry issues w' :
  scoped_telemetry P i w = (Ok (telemetry, issues), w') →
  ∀ e, e ∈ telemetry → in_scope e i ∧ telemetry_type e.
Proof.
  unfold scoped_telemetry. intros H.
  destruct (Incident.affected_resources i) as [|r rs]; [injection H as <- _ _; set_solver|].
  destruct (Incident.window_start i) as [from|]; [|injection H as <- _ _; set_solver].
  destruct (Incident.window_end i) as [to|]; [|injection H as <- _ _; set_solver].
  do 4 step_in H. injection H as Hv _. intros e He.
  pose proof (telemetry_scope_exact 0 a0 i) as Hx. rewrite Hv in Hx.
  destruct Hx as (_ & Hin & _). apply Hin in He as [He Hs]. split; [done|].
  apply for_each_Ok in E2. rewrite Forall_forall in E2. specialize (E2 e He).
  unfold check_telemetry_item in E2. apply bind_Ok in E2 as (? & _ & E2).
  apply throw_if_Ok, negb_false_iff, bool_decide_eq_true in E2. done.
Qed.

(** ** The result *)

(** Where an analysis has the rules and the telemetry of an Incident from. *)
Definition rules_resolved (i : Incident.t) (resolution : RuleResolution.t) : Prop :=
  if decide (Incident.technology i ∈ [Technology.LTE; Technology.FIVE_G_SA])
  then ∃ w w', load_typed_rules P i w = (Ok resolution, w')
  else resolution = RuleResolution.mk RuleResolutionStatus.NOT_APPLICABLE [] [].
Definition telemetry_collected (i : Incident.t) (telemetry : list EvidenceReference.t)
    (issues : list json) : Prop :=
  if decide (Incident.technology i = Technology.LTE)
  then ∃ w w', scoped_telemetry P i w = (Ok (telemetry, issues), w')
  else telemetry = [] ∧ issues = [].

(** A result answers a request. *)
Definition answers (e : Envelope.t) (b : RcaRequest) (e' : Envelope.t) (r : RcaResult) : Prop :=
  Envelope.workflow_id e' = Envelope.workflow_id e ∧
  Envelope.incident_id e' = Envelope.incident_id e ∧
  Envelope.trace_id e' = Envelope.trace_id e ∧
  result_request_message_id r = Envelope.message_id e ∧
  result_based_on_revision r = rca_based_on_revision b ∧
  result_requested_report_version r = rca_requested_report_version b ∧
  RcaReport.incident_id (result_report r) = Incident.incident_id (rca_incident b) ∧
  RcaReport.version (result_report r) = rca_requested_report_version b.

(** A result proposes nothing but a reading of the evidence, and may be sent. *)
Definition proposal (report : RcaReport.t) : Prop :=
  RcaReport.status report = ReportStatus.PROPOSED ∧
  RcaReport.recommendations report = [] ∧ RcaReport.confidence report = None.
Definition sendable (m : ContractMessage) : Prop :=
  check_message m = Ok tt ∧ is_ok (to_data_part m) = true.

Lemma report_of_result e b now resolution issues fs evidence documents history r :
  report_of e b now resolution issues fs evidence documents history = Ok r →
  let i := rca_incident b in
  let an := conclude resolution fs issues in
  ∃ all text,
    deduplicate_evidence (evidence ++ map finding_evidence fs ++ documents.1 ++ history.1) = Ok all ∧
    render_report i (an_conclusion an) (an_root_cause an) (an_hypotheses an) (an_severity an)
      history.2 documents.2 all = Ok text ∧
    r = make_result e b (report_identity i b resolution issues an all)
          (make_report i b resolution issues an all text now) text now.
Proof.
  unfold report_of. cbn zeta.
  intros (all & Ha & (text & Ht & (? & _ & (u & Hc & (? & _ & (d & Hd & [= <-])%bind_Ok)%bind_Ok)%bind_Ok)
    %bind_Ok)%bind_Ok)%bind_Ok. by exists all, text.
Qed.

Lemma report_of_run e b now resolution issues findings evidence documents history e' r :
  report_of e b now resolution issues findings evidence documents history = Ok (e', r) →
  answers e b e' r ∧ proposal (result_report r) ∧
  sendable (mk_message e' (IRcaResult r)) ∧
  RcaReport.conclusion (result_report r) = an_conclusion (conclude resolution findings issues) ∧
  RcaReport.root_cause (result_report r) = an_root_cause (conclude resolution findings issues).
Proof.
  unfold report_of. cbn zeta.
  intros (all & _ & (text & _ & (? & _ & (u & Hc & (? & _ & (d & Hd & Hr)%bind_Ok)%bind_Ok)%bind_Ok)
    %bind_Ok)%bind_Ok)%bind_Ok.
  apply validated_Ok in Hc. destruct u. cbn [make_result fst snd] in *.
  injection Hr as <- <-. unfold sendable. rewrite Hc, Hd. by split_and!.
Qed.

Lemma telemetry_collected_in_scope i telemetry issues e :
  telemetry_collected i telemetry issues → e ∈ telemetry → in_scope e i ∧ telemetry_type e.
Proof.
  unfold telemetry_collected. case_decide.
  - intros (w & w' & H'). by eapply scoped_telemetry_run.
  - intros [-> _] ?%not_elem_of_nil. done.
Qed.

(** The run of [analyze] up to its report. *)
Lemma analyze_run e b w e' r w' :
  analyze P e b w = (Ok (e', r), w') →
  ∃ now resolution telemetry issues base evidence findings documents history,
    rules_resolved (rca_incident b) resolution ∧
    telemetry_collected (rca_incident b) telemetry issues ∧
    violation_evidence (rca_incident b) = Ok base ∧
    deduplicate_evidence (base ++ telemetry) = Ok evidence ∧
    analyse_rules (rca_incident b) evidence now (RuleResolution.rules resolution) = Ok findings ∧
    report_of e b now resolution issues findings evidence documents history = Ok (e', r).
Proof.
  unfold analyze, rules_resolved, telemetry_collected. set (i := rca_incident b). intros H.
  step_in H. step_in H. step_in H. step_in H. step_in H. destruct a3 as [telemetry issues].
  step_in H. step_in H. step_in H. step_in H. step_in H. apply pure_ok in H as [H _].
  exists a1, a2, telemetry, issues, a3, a4, a5, a6, a7. split_and!; try done.
  - destruct (decide (Incident.technology i ∈ [Technology.LTE; Technology.FIVE_G_SA])) as [Ht|Ht].
    + rewrite (bool_decide_eq_true_2 _ Ht) in E2. eauto.
    + rewrite (bool_decide_eq_false_2 _ Ht) in E2. by apply pure_ok in E2 as [[= <-] _].
  - destruct (decide (Incident.technology i = Technology.LTE)) as [Ht|Ht].
    + rewrite (bool_decide_eq_true_2 _ Ht) in E3. eauto.
    + rewrite (bool_decide_eq_false_2 _ Ht) in E3. by apply pure_ok in E3 as [[= <- <-] _].
Qed.

(** C18. What an analysis returns answers its request (same workflow, Incident,
    trace, revision and report version), is a well-formed message that can be
    sent, and proposes a report without recommendations.  It is CONCLUSIVE
    exactly when the resolved rules are all supported by the Incident's own
    violations and by telemetry in the Incident's scope, none of the telemetry
    being out of scope; only then does it name a root cause. *)
Theorem analysis_exact e b w e' r w' (H : analyze P e b w = (Ok (e', r), w')) :
  answers e b e' r ∧ proposal (result_report r) ∧ sendable (mk_message e' (IRcaResult r)) ∧
  ∃ resolution telemetry issues base evidence,
    rules_resolved (rca_incident b) resolution ∧
    telemetry_collected (rca_incident b) telemetry issues ∧
    (∀ x, x ∈ telemetry → in_scope x (rca_incident b) ∧ telemetry_type x) ∧
    violation_evidence (rca_incident b) = Ok base ∧
    deduplicate_evidence (base ++ telemetry) = Ok evidence ∧
    (RcaReport.conclusion (result_report r) = RcaConclusion.CONCLUSIVE ↔
     conclusive (rca_incident b) evidence resolution issues) ∧
    (is_Some (RcaReport.root_cause (result_report r)) ↔
     RcaReport.conclusion (result_report r) = RcaConclusion.CONCLUSIVE).
Proof.
  apply analyze_run in H as (now & resolution & telemetry & issues & base & evidence & findings &
    documents & history & Hr & Ht & Hb & He & Hf & H).
  apply report_of_run in H as (Ha & Hp & Hs & Hc & Hroot). split_and!; [done..|].
  exists resolution, telemetry, issues, base, evidence. split_and!; try done.
  - intros x Hx. by eapply telemetry_collected_in_scope.
  - rewrite Hc. by eapply conclusion_spec.
  - rewrite Hc, Hroot. apply root_cause_spec.
Qed.

(** ** The engine that asked *)

(** Evidence is never lost. *)
Lemma deduplicate_nonempty evidence kept :
  deduplicate_evidence evidence = Ok kept → evidence ≠ [] → kept ≠ [].
Proof.
  unfold deduplicate_evidence. intros (m & Hm & [= <-])%bind_Ok Hne Hk.
  apply (f_equal length) in Hk. rewrite length_py_sorted, length_map, length_map_to_list in Hk.
  apply map_size_empty_inv in Hk. subst m.
  assert (∀ evidence by_id, evidence_by_id by_id evidence = Ok ∅ → by_id = ∅ ∧ evidence = []) as Hgo;
    [|by destruct (Hgo _ _ Hm)].
  clear. induction evidence as [|e evidence IH]; intros by_id; cbn [evidence_by_id].
  - by intros [= ->].
  - intros (u & _ & [H _]%IH)%bind_Ok. by apply insert_non_empty in H.
Qed.

Lemma violation_evidence_nonempty i base :
  violation_evidence i = Ok base → Incident.violated_kpis i ≠ [] → base ≠ [].
Proof.
  unfold violation_evidence. intros H Hne ->.
  pose proof (length_py_sorted named_violation_leb (Incident.violated_kpis i)) as Hl.
  destruct (py_sorted _ _) as [|v vs]; [by destruct (Incident.violated_kpis i)|].
  cbn [imap make_all] in H. by apply bind_Ok in H as (? & _ & (? & _ & [=])%bind_Ok).
Qed.

(** C20. The governance engine accepts what this gateway returns: for a request
    about the Incident it names, with a violated KPI, every result passes the
    engine's check that it is bound to the requested revision, eligible to be
    persisted, carries evidence and recommends nothing. *)
Theorem engine_accepts_analysis e b w e' r w'
    (H : analyze P e b w = (Ok (e', r), w'))
    (He : Envelope.incident_id e = Incident.incident_id (rca_incident b))
    (Hk : Incident.violated_kpis (rca_incident b) ≠ []) :
  LocalGovernanceEngine.validate_rca_result e b e' r = Ok tt.
Proof.
  apply analyze_run in H as (now & resolution & telemetry & issues & base & evidence & findings &
    documents & history & _ & _ & Hb & Hd & _ & H).
  pose proof (report_of_result _ _ _ _ _ _ _ _ _ _ H) as (all & text & Ha & _ & Hr).
  apply report_of_run in H as ((_ & Hi & Ht & _ & Hrev & Hver & Hid & Hv) & (Hs & Hrec & _) & _).
  assert (RcaReport.evidence_refs (result_report r) ≠ []) as Hne.
  { injection Hr as _ ->. cbn. apply (deduplicate_nonempty _ _ Ha).
    assert (evidence ≠ []) as Hev.
    { apply (deduplicate_nonempty _ _ Hd). pose proof (violation_evidence_nonempty _ _ Hb Hk).
      by destruct base. }
    by destruct evidence. }
  unfold LocalGovernanceEngine.validate_rca_result, differ. rewrite Hi, Ht, Hrev, Hver, Hid, Hv, He, Hs, Hrec.
  rewrite !bool_decide_eq_true_2 by done. destruct (RcaReport.evidence_refs _); done.
Qed.
End reports.
