(* ===== verification/RcaReplay.v ===== *)
(** * Analysing again (telco_local/rca.py)

    The identity of a report and of its message leaves out when evidence was
    collected: two analyses of one request that see the same rules, telemetry,
    documents and history agree whatever the clock says. *)

From Stdlib Require Import Ascii String.
From S2P Require Import Prelude PyStr Json Privacy Models Incident Errors Contracts Ports.
From S2P Require Import PyEq.
From S2P Require Import GovernanceFacts.
From S2P Require Import Rules.
From S2P Require Import RuleFacts.
From S2P Require Import RuleResolution.
From S2P Require Import RuleStore.
From S2P Require Import Detector.
From S2P Require Import PyFormat.
From S2P Require Import Similarity.
From S2P Require Import RcaEvidence.
From S2P Require Import Rca.
From S2P Require Import RcaEngine.
From S2P Require Import RcaReports.

(** ** The order of lists of texts *)

Lemma texts_leb_total x y : texts_leb x y = true ∨ texts_leb y x = true.
Proof.
  revert y. induction x as [|a x IH]; intros [|b y]; cbn; auto. unfold str_eqb.
  destruct (decide (a = b)) as [<-|Hn].
  - rewrite bool_decide_eq_true_2 by done. apply IH.
  - rewrite !bool_decide_eq_false_2 by done. apply StringLeb_total.
Qed.

Lemma texts_leb_antisym x y : texts_leb x y = true → texts_leb y x = true → x = y.
Proof.
  revert y. induction x as [|a x IH]; intros [|b y]; cbn; try done. unfold str_eqb.
  destruct (decide (a = b)) as [<-|Hn].
  - rewrite bool_decide_eq_true_2 by done. intros. f_equal. by apply IH.
  - rewrite !bool_decide_eq_false_2 by done. intros. by destruct Hn; apply StringLeb_antisym.
Qed.

Lemma texts_leb_trans x y z : texts_leb x y = true → texts_leb y z = true → texts_leb x z = true.
Proof.
  revert y z. induction x as [|a x IH]; intros [|b y] [|c z]; cbn; try done. unfold str_eqb.
  destruct (decide (a = b)) as [<-|Hab].
  - rewrite (bool_decide_eq_true_2 (a = a)) by done. destruct (decide (a = c)) as [<-|Hac].
    + rewrite (bool_decide_eq_true_2 (a = a)) by done. apply IH.
    + by rewrite !(bool_decide_eq_false_2 (a = c)) by done.
  - rewrite (bool_decide_eq_false_2 (a = b)) by done. destruct (decide (b = c)) as [<-|Hbc].
    + rewrite (bool_decide_eq_true_2 (b = b)), (bool_decide_eq_false_2 (a = b)) by done. done.
    + rewrite (bool_decide_eq_false_2 (b = c)) by done. intros H1 H2.
      assert (String.leb a c = true) as Hl by (by eapply StringLeb_trans).
      case_bool_decide as Hac; [|done]. subst c. by destruct Hab; apply StringLeb_antisym.
Qed.

(** ** Evidence but for its time *)

Definition timeless (e : EvidenceReference.t) : EvidenceReference.t :=
  EvidenceReference.mk (EvidenceReference.evidence_id e) (EvidenceReference.evidence_type e)
    (EvidenceReference.uri e) (EvidenceReference.source e) (EvidenceReference.summary e) None
    (EvidenceReference.content_type e) (EvidenceReference.checksum_sha256 e)
    (EvidenceReference.attributes e).
(** The same evidence, up to the times it was collected at. *)
Definition same_evidence (l k : list EvidenceReference.t) : Prop := map timeless l = map timeless k.

#[local] Instance same_evidence_equivalence : Equivalence same_evidence.
Proof.
  unfold same_evidence. split; [by intros ?|by intros ???|].
  intros ??? H1 H2. congruence.
Qed.
#[local] Instance same_evidence_app :
  Proper (same_evidence ==> same_evidence ==> same_evidence) app.
Proof. intros l k H l' k' H'. unfold same_evidence in *. rewrite !map_app. congruence. Qed.

(** What looks at the evidence without its time is the same of both. *)
Lemma map_same {A} (f : EvidenceReference.t → A) l k :
  (∀ e, f e = f (timeless e)) → same_evidence l k → map f l = map f k.
Proof.
  intros Hf H. rewrite (map_ext f (f ∘ timeless)), (map_ext f (f ∘ timeless) Hf k) by done.
  rewrite <- !(map_map timeless f). by rewrite H.
Qed.

Lemma same_take n l k : same_evidence l k → same_evidence (take n l) (take n k).
Proof. unfold same_evidence. intros H. rewrite <- !firstn_map. by f_equal. Qed.

(** ** Deduplication *)

Definition evidence_key (e : EvidenceReference.t) : list string :=
  [EvidenceType.value (EvidenceReference.evidence_type e);
   EvidenceReference.evidence_id e; EvidenceReference.uri e].

Lemma evidence_by_id_run by_id l m :
  evidence_by_id by_id l = Ok m →
  m = foldl (λ d e, <[EvidenceReference.evidence_id e := e]> d) by_id l.
Proof.
  revert by_id. induction l as [|e l IH]; intros by_id; cbn [evidence_by_id foldl].
  - by intros [= ->].
  - by intros (_ & _ & ->%IH)%bind_Ok.
Qed.

Lemma timeless_by_id l (d : gmap string EvidenceReference.t) :
  timeless <$> foldl (λ d e, <[EvidenceReference.evidence_id e := e]> d) d l =
  foldl (λ d e, <[EvidenceReference.evidence_id e := e]> d) (timeless <$> d) (map timeless l).
Proof.
  revert d. induction l as [|e l IH]; intros d; cbn [foldl map]; [done|].
  by rewrite IH, fmap_insert.
Qed.

(** Every key of the map is the identity of its item. *)
Definition keyed (d : gmap string EvidenceReference.t) : Prop :=
  ∀ id e, d !! id = Some e → EvidenceReference.evidence_id e = id.

Lemma keyed_by_id l d : keyed d → keyed (foldl (λ d e, <[EvidenceReference.evidence_id e := e]> d) d l).
Proof.
  revert d. induction l as [|e l IH]; intros d Hd; cbn [foldl]; [done|].
  apply IH. intros id x [[<- <-]|[_ Hx]]%lookup_insert_Some; [done|by apply Hd].
Qed.

Lemma keyed_NoDup d : keyed d → NoDup (map evidence_key (map snd (map_to_list d))).
Proof.
  intros Hd. set (id_of (key : list string) := nth 1 key EmptyString).
  enough (NoDup (map id_of (map evidence_key (map snd (map_to_list d))))) as H
    by (by apply (NoDup_fmap_1 id_of)).
  assert (map id_of (map evidence_key (map snd (map_to_list d))) = (map_to_list d).*1) as ->.
  { rewrite !map_map. apply list_fmap_ext. intros n [id e] Hl%list_elem_of_lookup_2.
    apply elem_of_map_to_list in Hl. by apply Hd. }
  apply NoDup_fst_map_to_list.
Qed.

Lemma same_deduplicate l k l' k' :
  same_evidence l k → deduplicate_evidence l = Ok l' → deduplicate_evidence k = Ok k' →
  same_evidence l' k'.
Proof.
  unfold deduplicate_evidence.
  intros H (m & Hm%evidence_by_id_run & [= <-])%bind_Ok (n & Hn%evidence_by_id_run & [= <-])%bind_Ok.
  assert (timeless <$> m = timeless <$> n) as E.
  { subst. by rewrite !timeless_by_id, H. }
  assert (keyed m) as Km by (subst; apply keyed_by_id; by intros ?? ?%lookup_empty_Some).
  assert (∀ d : gmap string EvidenceReference.t,
    map timeless (py_sorted evidence_leb (map snd (map_to_list d))) =
               py_sorted evidence_leb (map timeless (map snd (map_to_list d)))) as Hs.
  { intros d. apply (map_py_sorted evidence_leb timeless). }
  assert (∀ d : gmap string EvidenceReference.t,
    map timeless (map snd (map_to_list d)) ≡ₚ map snd (map_to_list (timeless <$> d))) as Hp.
  { intros d. rewrite map_to_list_fmap.
    change (prod_map id timeless <$> map_to_list d) with (map (prod_map id timeless) (map_to_list d)).
    by rewrite !map_map. }
  unfold same_evidence. rewrite !Hs.
  apply (py_sorted_key_perm texts_leb evidence_key);
    [exact texts_leb_total|exact texts_leb_trans|exact texts_leb_antisym| |].
  - rewrite map_map. by apply (keyed_NoDup m).
  - by rewrite !Hp, E.
Qed.

(** ** The parts of an analysis at two times *)

Section times.
Context `{R : Runtime, C : ContainerRepr}.

Lemma same_content l k :
  same_evidence l k → map evidence_content_identity l = map evidence_content_identity k.
Proof. by apply map_same. Qed.

(** Evidence made from descriptions that differ in their time. *)
Lemma same_made x y e f :
  timeless x = timeless y → make_evidence x = Ok e → make_evidence y = Ok f →
  timeless e = timeless f.
Proof.
  unfold make_evidence.
  intros H (? & _ & [= <-])%bind_Ok (? & _ & [= <-])%bind_Ok.
  destruct x, y. injection H as -> -> -> -> -> -> -> ->. done.
Qed.

(** Findings but for the times of their evidence. *)
Definition finding_core (f : RuleFinding) : RuleFinding :=
  mk_finding (finding_rule f) (finding_conclusive f) (finding_severity f)
    (timeless (finding_evidence f)).

Lemma same_analyse_rules i evidence t u rules fs gs :
  analyse_rules i evidence t rules = Ok fs → analyse_rules i evidence u rules = Ok gs →
  map finding_core fs = map finding_core gs.
Proof.
  revert fs gs. induction rules as [|rule rules IH]; intros fs gs; cbn [analyse_rules].
  { by intros [= <-] [= <-]. }
  intros (o & Ho & (fs' & Hfs & [= <-])%bind_Ok)%bind_Ok (p & Hp & (gs' & Hgs & [= <-])%bind_Ok)%bind_Ok.
  specialize (IH _ _ Hfs Hgs). unfold analyse_rule in Ho, Hp.
  destruct (matched_violation rule i) as [[v|]|]; [|by injection Ho as <-; injection Hp as <-|done].
  cbn [mbind result_bind] in Ho, Hp.
  apply bind_Ok in Ho as (b & Hb & (s & Hs & (e & He & [= <-])%bind_Ok)%bind_Ok).
  rewrite Hb in Hp. cbn [mbind result_bind] in Hp. rewrite Hs in Hp. cbn [mbind result_bind] in Hp.
  apply bind_Ok in Hp as (f & Hf & [= <-]). cbn [map]. f_equal; [|done].
  unfold finding_core. cbn. f_equal. by eapply same_made; [|exact He|exact Hf].
Qed.

Lemma map_filter {A} (p : A → bool) (f : A → A) l :
  (∀ x, p (f x) = p x) → List.filter p (map f l) = map f (List.filter p l).
Proof.
  intros Hp. induction l as [|x l IH]; cbn; [done|]. rewrite Hp, IH. by destruct (p x).
Qed.

Lemma conclude_core resolution fs issues :
  conclude resolution fs issues = conclude resolution (map finding_core fs) issues.
Proof.
  unfold conclude, resolution_is_complete.
  rewrite (map_filter finding_conclusive finding_core) by done. by rewrite !map_map.
Qed.

Lemma same_documents ds t u xs ys :
  document_items ds t = Ok xs → document_items ds u = Ok ys →
  same_evidence (map fst xs) (map fst ys) ∧ map snd xs = map snd ys.
Proof.
  revert xs ys. induction ds as [|d ds IH]; intros xs ys; cbn [document_items].
  { by intros [= <-] [= <-]. }
  intros (o & Ho & (xs' & Hxs & [= <-])%bind_Ok)%bind_Ok (p & Hp & (ys' & Hys & [= <-])%bind_Ok)%bind_Ok.
  destruct (IH _ _ Hxs Hys) as [He Hl]. unfold document_item in Ho, Hp.
  apply bind_Ok in Ho as (a & _ & Ho). apply bind_Ok in Hp as (a' & _ & Hp).
  destruct (field "uri" d); try (injection Ho as <-; injection Hp as <-; done).
  destruct (str_eqb _ _); [by injection Ho as <-; injection Hp as <-|].
  apply bind_Ok in Ho as (e & Ho & [= <-]). apply bind_Ok in Hp as (f & Hp & [= <-]).
  unfold same_evidence in *. cbn [map fst snd]. rewrite He, Hl. split; [|done].
  f_equal. by eapply same_made; [|exact Ho|exact Hp].
Qed.

Lemma same_history ss t u xs ys :
  history_items ss t = Ok xs → history_items ss u = Ok ys → same_evidence xs ys.
Proof.
  revert xs ys. induction ss as [|s ss IH]; intros xs ys; cbn [history_items].
  { by intros [= <-] [= <-]. }
  intros (e & He & (xs' & Hxs & [= <-])%bind_Ok)%bind_Ok (f & Hf & (ys' & Hys & [= <-])%bind_Ok)%bind_Ok.
  specialize (IH _ _ Hxs Hys). unfold same_evidence in *. cbn [map]. rewrite IH. f_equal.
  by eapply same_made; [|exact He|exact Hf].
Qed.
End times.

(** ** Two analyses *)

(** The ports with a clock that stands at [now]. *)
Definition at_time {W} (P : RcaPorts W) (now : pydatetime) : RcaPorts W :=
  mk_ports (rule_repository P) (telemetry_repository P) (document_repository P)
    (incident_repository P) (λ w, (Ok now, w)) (limits P).

(** Takes the first operation, the same pure one, off two runs. *)
Ltac both_in H1 H2 := step_in H1; rewrite bind_pure_run in H2; cbn beta iota in H2.

Section replay.
Context `{R : Runtime, D : RuleDecoder, T : IsoParser, C : ContainerRepr}.
Context {W : Type} (P : RcaPorts W).

Lemma same_render i conclusion cause hypotheses severity similar lines l k :
  same_evidence l k →
  render_report i conclusion cause hypotheses severity similar lines l =
  render_report i conclusion cause hypotheses severity similar lines k.
Proof.
  intros H. unfold render_report, report_sections, render_references.
  by rewrite (map_same _ (take 20 l) (take 20 k)) by (done || by apply same_take).
Qed.

(** Results that differ in their times only. *)
Definition same_result (x y : Envelope.t * RcaResult) : Prop :=
  Envelope.message_id x.1 = Envelope.message_id y.1 ∧
  Envelope.idempotency_key x.1 = Envelope.idempotency_key y.1 ∧
  result_summary_zh x.2 = result_summary_zh y.2 ∧
  RcaReport.report_id (result_report x.2) = RcaReport.report_id (result_report y.2) ∧
  RcaReport.conclusion (result_report x.2) = RcaReport.conclusion (result_report y.2) ∧
  RcaReport.root_cause (result_report x.2) = RcaReport.root_cause (result_report y.2) ∧
  RcaReport.model_metadata (result_report x.2) = RcaReport.model_metadata (result_report y.2) ∧
  same_evidence (RcaReport.evidence_refs (result_report x.2))
    (RcaReport.evidence_refs (result_report y.2)).

Lemma same_report_of e b t u resolution issues fs gs evidence d d' h h' x y :
  map finding_core fs = map finding_core gs →
  same_evidence d.1 d'.1 → d.2 = d'.2 → same_evidence h.1 h'.1 → h.2 = h'.2 →
  report_of e b t resolution issues fs evidence d h = Ok x →
  report_of e b u resolution issues gs evidence d' h' = Ok y → same_result x y.
Proof.
  intros Hf Hd Hdl Hh Hhl (all & text & Ha & Ht & ->)%report_of_result
    (all' & text' & Ha' & Ht' & ->)%report_of_result.
  assert (conclude resolution fs issues = conclude resolution gs issues) as Han.
  { by rewrite (conclude_core _ fs), (conclude_core _ gs), Hf. }
  assert (same_evidence (map finding_evidence fs) (map finding_evidence gs)) as Hfe.
  { apply (f_equal (map finding_evidence)) in Hf. rewrite !map_map in Hf.
    unfold same_evidence. by rewrite !map_map. }
  assert (same_evidence all all') as Hall.
  { eapply same_deduplicate; [|exact Ha|exact Ha']. by rewrite Hfe, Hd, Hh. }
  rewrite Han, Hhl, Hdl, (same_render _ _ _ _ _ _ _ _ _ Hall), Ht' in Ht. injection Ht as ->.
  rewrite Han. set (an := conclude resolution gs issues).
  assert (report_identity (rca_incident b) b resolution issues an all =
          report_identity (rca_incident b) b resolution issues an all') as Hid.
  { unfold report_identity. by rewrite (same_content all all' Hall). }
  unfold same_result, make_result, make_report. cbn. by rewrite Hid.
Qed.

Lemma same_document_evidence i t u w d w1 d' w2 :
  document_evidence P i t w = (Ok d, w1) → document_evidence P i u w = (Ok d', w2) →
  w1 = w2 ∧ same_evidence d.1 d'.1 ∧ d.2 = d'.2.
Proof.
  unfold document_evidence. intros H1 H2.
  destruct (document_repository P) as [search|]; [|by injection H1 as <- <-; injection H2 as <- <-].
  case_bool_decide; [|by injection H1 as <- <-; injection H2 as <- <-].
  apply bind_ok in H1 as (rs & w3 & Es & H1). apply bind_ok in H2 as (rs' & w3' & Es' & H2).
  rewrite Es in Es'. injection Es' as <- <-.
  step_in H1. step_in H2. injection H1 as <- <-. injection H2 as <- <-.
  destruct (same_documents _ _ _ _ _ E E0) as [He Hl]. done.
Qed.

Lemma same_history_evidence i t u w h w1 h' w2 :
  history_evidence P i t w = (Ok h, w1) → history_evidence P i u w = (Ok h', w2) →
  w1 = w2 ∧ same_evidence h.1 h'.1 ∧ h.2 = h'.2.
Proof.
  unfold history_evidence. intros H1 H2.
  destruct (incident_repository P) as [list_incidents|];
    [|by injection H1 as <- <-; injection H2 as <- <-].
  case_bool_decide; [|by injection H1 as <- <-; injection H2 as <- <-].
  apply bind_ok in H1 as (rs & w3 & Es & H1). apply bind_ok in H2 as (rs' & w3' & Es' & H2).
  rewrite Es in Es'. injection Es' as <- <-.
  both_in H1 H2.
  step_in H1. step_in H2. injection H1 as <- <-. injection H2 as <- <-.
  split; [done|]. split; [|done]. by eapply same_history.
Qed.

(** Only [rca_clock] looks at the clock. *)
Lemma load_at_time now i : load_typed_rules (at_time P now) i = load_typed_rules P i.
Proof. done. Qed.
Lemma telemetry_at_time now i : scoped_telemetry (at_time P now) i = scoped_telemetry P i.
Proof. done. Qed.
Lemma same_bind {A B} (m : Eff W A) (f g : A → Eff W B) w a w3 r r' :
  m w = (Ok a, w3) → (m ≫= f) w = r → (m ≫= g) w = r' → f a w3 = r ∧ g a w3 = r'.
Proof. unfold mbind, Eff_bind. by intros ->. Qed.

(** C19. Analysing a request again is idempotent: two analyses of one request in
    one state of the rules, telemetry, documents and history carry the same
    message identity, idempotency key, report identity, text, conclusion and
    evidence, whatever the clock said; only the times differ. *)
Theorem replay_identity e b w now now' x y w1 w2
    (H1 : analyze (at_time P now) e b w = (Ok x, w1))
    (H2 : analyze (at_time P now') e b w = (Ok y, w2)) :
  same_result x y ∧ w1 = w2.
Proof.
  unfold analyze in H1, H2. both_in H1 H2.
  apply bind_ok in H1 as (v & w3 & Ev & H1). injection Ev as <- <-.
  apply bind_ok in H2 as (v & w3 & Ev & H2). injection Ev as <- <-.
  step_in H1. step_in H2. rewrite !load_at_time, !telemetry_at_time in H1, H2.
  pose proof H1 as Hrun. apply bind_ok in Hrun as (resolution & w3 & Er & _).
  destruct (same_bind _ _ _ _ _ _ _ _ Er H1 H2) as [H1' H2']. clear H1 H2 Er.
  pose proof H1' as Hrun. apply bind_ok in Hrun as ([telemetry issues] & w4 & Er & _).
  destruct (same_bind _ _ _ _ _ _ _ _ Er H1' H2') as [H1 H2]. clear H1' H2' Er.
  both_in H1 H2. both_in H1 H2. step_in H1. step_in H2.
  pose proof (same_analyse_rules _ _ _ _ _ _ _ E4 E5) as Hf.
  apply bind_ok in H1 as (d & w5 & Ed & H1). apply bind_ok in H2 as (d' & w5' & Ed' & H2).
  destruct (same_document_evidence _ _ _ _ _ _ _ _ Ed Ed') as (<- & Hd & Hdl).
  apply bind_ok in H1 as (h & w6 & Eh & H1). apply bind_ok in H2 as (h' & w6' & Eh' & H2).
  destruct (same_history_evidence _ _ _ _ _ _ _ _ Eh Eh') as (<- & Hh & Hhl).
  apply pure_ok in H1 as [H1 ->]. apply pure_ok in H2 as [H2 ->]. split; [|done].
  by eapply same_report_of; [exact Hf|exact Hd|exact Hdl|exact Hh|exact Hhl|exact H1|exact H2].
Qed.
End replay.
