(* ===== verification/RcaSamples.v ===== *)
(** * An analysis at work

    The rule and the Incident of [RuleSamples], a trace in its scope, a
    document and an Incident resolved before: the report, the analysis as the
    gateway of the governance engine, and the Incident resolved by it. *)

From Stdlib Require Import Ascii String.
From stdpp Require Import pretty.
From S2P Require Import Prelude PyStr Json Reference Privacy Models Incident Errors StateMachine.
From S2P Require Import PyEq.
From S2P Require Import Samples Repository RepositoryFacts Contracts Ports LocalWorld GovernanceBase.
From S2P Require Import Governance GovernanceFacts GovernanceWorld.
From S2P Require Import Rules.
From S2P Require Import RuleResolution.
From S2P Require Import RuleStore.
From S2P Require Import RuleSamples.
From S2P Require Import PyFormat.
From S2P Require Import Similarity.
From S2P Require Import SimilarityProps.
From S2P Require Import RcaEvidence.
From S2P Require Import RcaFacts.
From S2P Require Import Rca.
From S2P Require Import RcaProps.
From S2P Require Import RcaEngine.
From S2P Require Import RcaReports.
From S2P Require Import RcaReplay.

(** ** The world *)

(** The instants that [quick] writes: digits and a suffix. *)
Fixpoint leading_digits (s : string) (n : Z) : Z * string :=
  match s with
  | String c s' => if is_digit c then leading_digits s' (10 * n + Z.of_N (byte_of c - 48)) else (n, s)
  | EmptyString => (n, s)
  end.
#[local] Instance quick_parser : IsoParser := {
  fromisoformat s :=
    let (n, rest) := leading_digits s 0 in
    if String.eqb rest "us+00:00" then Some (Aware n 0) else None
}.
#[local] Instance no_containers : ContainerRepr := { container_repr _ := "[...]"%string }.
#[local] Instance both_rules : RuleDecoder :=
  {| coerce_rule := λ items, next_such (λ r, bool_decide (RcaRule.to_json r = JObj items))
                               [rule_1; rule_2] |}.

(** Counts of connections of the cell, within the window of [snapshot]. *)
Definition trace_of (id : string) (start : Z) (outcomes : list (string * json)) : EvidenceReference.t :=
  EvidenceReference.mk id EvidenceType.TRACE "trace://cell-17/s1" (Some "traces") None (Some 20) None None
    {[ "resource_scope" := JArr [ResourceReference.stable_identity cell];
       "window_start" := JStr (@isoformat quick start);
       "window_end" := JStr (@isoformat quick 30);
       "connection_outcomes" := JObj outcomes ]}.
Definition failures : EvidenceReference.t :=
  trace_of "trace-1" 0 [("FAILED_SECURITY_SETUP", JInt 9); ("FAILURE", JInt 3); ("SUCCESS", JInt 88)].
Definition contradiction : EvidenceReference.t :=
  trace_of "trace-2" 0 [("FAILED_SECURITY_SETUP", JInt 0); ("FAILURE", JInt 3); ("SUCCESS", JInt 88)].
Definition outside : EvidenceReference.t := trace_of "trace-3" (-1) [("SUCCESS", JInt 88)].

Definition handbook : Document :=
  [ ("excerpt", JStr "check the security algorithms"); ("score", JInt 1);
    ("title", JStr "S1 setup"); ("uri", JStr "doc://lte/s1") ].
Definition resolved_before : Incident.t :=
  Incident.mk "inc-0" None ["src-0"] Technology.LTE None IncidentStatus.RESOLVED
    IncidentSeverity.UNKNOWN "ERAB KPI" "ERAB setup below threshold" [cell] 3 None None
    [] [] [] (Some "keys expired") [] [] [] [] [] ∅ ∅ "trace-0" None 3 3 0.

Definition analysis_clock (w : World) : result exc pydatetime * World :=
  (Ok (Aware (100 + Z.of_nat (tick w)) 0), mk_world (store w) (S (tick w))).
Definition sample_limits : RcaLimits := mk_limits 100 3 100 3 (PyFloat false 3602879701896397 (-55)).
Definition sample_ports (telemetry : list EvidenceReference.t) : RcaPorts World :=
  mk_ports (Resolves (λ i w, (resolve_rules_for_incident i [rule_2; rule_1], w)))
    (λ i from to limit w, (Ok telemetry, w))
    (Some (λ query technology limit w, (Ok [handbook], w)))
    (Some (λ limit offset w, (Ok [resolved_before; snapshot], w)))
    analysis_clock sample_limits.
Example limits_valid : check_limits sample_limits = Ok tt.
Proof. vm_compute. reflexivity. Qed.

Definition request_envelope : Envelope.t :=
  Envelope.mk "message-1" "workflow-1" "inc-1" "trace-1" "request-key" 40.
Definition request : RcaRequest := mk_rca_request snapshot 0 1.
Definition sample_analysis (telemetry : list EvidenceReference.t) : Eff World (Envelope.t * RcaResult) :=
  analyze (sample_ports telemetry) request_envelope request.
Definition start : World := mk_world empty_state 0.

Definition outcome (r : result exc (Envelope.t * RcaResult)) :
    option (RcaConclusion.t * option string * nat) :=
  match r with
  | Ok (_, r) => Some (RcaReport.conclusion (result_report r), RcaReport.root_cause (result_report r),
                       length (RcaReport.evidence_refs (result_report r)))
  | Err _ => None
  end.

(** Failures of the security setup are the root cause; contradicting counts, or
    a trace from outside the window, leave none. *)
Example conclusive_run :
  outcome (sample_analysis [failures] start).1 =
  Some (RcaConclusion.CONCLUSIVE, Some "failures of the S1 security setup"%string, 5%nat).
Proof. vm_compute. reflexivity. Qed.
Example contradicted_run :
  outcome (sample_analysis [failures; contradiction] start).1 =
  Some (RcaConclusion.INCONCLUSIVE, None, 6%nat).
Proof. vm_compute. reflexivity. Qed.
Example outside_run :
  outcome (sample_analysis [failures; outside] start).1 =
  Some (RcaConclusion.INCONCLUSIVE, None, 5%nat).
Proof. vm_compute. reflexivity. Qed.

(** ** The theorems at this world *)

Lemma analysis_returns : ∃ e r w, sample_analysis [failures] start = (Ok (e, r), w) ∧
  RcaReport.conclusion (result_report r) = RcaConclusion.CONCLUSIVE.
Proof.
  destruct (sample_analysis [failures] start) as [[[e r]|err] w] eqn:E.
  - exists e, r, w. split; [reflexivity|].
    assert (outcome (Ok (e, r)) = outcome (sample_analysis [failures] start).1) as Ho
      by (rewrite E; reflexivity).
    rewrite conclusive_run in Ho. injection Ho as Ho _ _. exact Ho.
  - pose proof conclusive_run as Ho. rewrite E in Ho. discriminate Ho.
Qed.

Lemma analysis_exact_witness :
  ∃ r resolution issues evidence,
    RcaReport.conclusion (result_report r) = RcaConclusion.CONCLUSIVE ∧
    conclusive snapshot evidence resolution issues.
Proof.
  destruct analysis_returns as (e & r & w & Hr & Hc).
  destruct (analysis_exact (sample_ports [failures]) request_envelope request start e r w Hr)
    as (_ & _ & _ & resolution & _ & issues & _ & evidence & _ & _ & _ & _ & _ & Hx & _).
  exists r, resolution, issues, evidence. split; [exact Hc|exact (proj1 Hx Hc)].
Defined.

Lemma replay_identity_witness :
  ∃ x y w, analyze (at_time (sample_ports [failures]) (Aware 100 0)) request_envelope request start
             = (Ok x, w) ∧
    analyze (at_time (sample_ports [failures]) (Aware 5000 0)) request_envelope request start
             = (Ok y, w) ∧ same_result x y.
Proof.
  destruct (analyze (at_time (sample_ports [failures]) (Aware 100 0)) request_envelope request start)
    as [[x|e] w] eqn:E.
  2: { assert (is_ok (analyze (at_time (sample_ports [failures]) (Aware 100 0)) request_envelope
         request start).1 = true) as H by (vm_compute; reflexivity).
       rewrite E in H. discriminate H. }
  destruct (analyze (at_time (sample_ports [failures]) (Aware 5000 0)) request_envelope request start)
    as [[y|e] w'] eqn:E'.
  2: { assert (is_ok (analyze (at_time (sample_ports [failures]) (Aware 5000 0)) request_envelope
         request start).1 = true) as H by (vm_compute; reflexivity).
       rewrite E' in H. discriminate H. }
  destruct (replay_identity (sample_ports [failures]) request_envelope request start
    (Aware 100 0) (Aware 5000 0) x y w w' E E') as [Hs <-].
  exists x, y, w. split; [reflexivity|]. split; [reflexivity|exact Hs].
Defined.

Lemma merge_exact_witness :
  merge_fact_candidates [failures; contradiction] !! "failure_count"%string = None ∧
  merge_fact_candidates [contradiction; failures] = merge_fact_candidates [failures; contradiction].
Proof.
  split; [vm_compute; reflexivity|].
  apply (merge_exact [failures; contradiction]).
  - vm_compute. repeat constructor.
  - apply perm_swap.
Defined.

Lemma conclusive_exact_witness :
  ∃ findings,
    analyse_rules snapshot [failures] 100 [rule_1] = Ok findings ∧
    conclusive snapshot [failures] resolution [].
Proof.
  destruct (analyse_rules snapshot [failures] 100 [rule_1]) as [findings|e] eqn:E.
  - exists findings. split; [reflexivity|].
    apply (conclusive_exact snapshot [failures] 100 resolution [] findings E).
    assert (match analyse_rules snapshot [failures] 100 [rule_1] with
            | Ok fs => an_conclusion (conclude resolution fs [])
            | Err _ => RcaConclusion.INCONCLUSIVE
            end = RcaConclusion.CONCLUSIVE) as H by (vm_compute; reflexivity).
    rewrite E in H. exact H.
  - assert (is_ok (analyse_rules snapshot [failures] 100 [rule_1]) = true) as H
      by (vm_compute; reflexivity).
    rewrite E in H. discriminate H.
Defined.

Lemma engine_accepts_analysis_witness :
  ∃ e r, LocalGovernanceEngine.validate_rca_result request_envelope request e r = Ok tt ∧
    RcaReport.conclusion (result_report r) = RcaConclusion.CONCLUSIVE.
Proof.
  destruct analysis_returns as (e & r & w & Hr & Hc). exists e, r. split; [|exact Hc].
  apply (engine_accepts_analysis (sample_ports [failures]) request_envelope request start e r w Hr);
    [reflexivity|discriminate].
Defined.

Definition candidates : list Incident.t := [snapshot; resolved_before].
Lemma rank_exact_witness :
  ∃ found, rank_similar_incidents snapshot candidates 3 (history_min_score sample_limits) = Ok found ∧
    length found = 1%nat ∧ Sorted similar_leb found.
Proof.
  destruct (rank_similar_incidents snapshot candidates 3 (history_min_score sample_limits))
    as [found|e] eqn:E.
  - exists found. split; [reflexivity|]. split.
    + assert (match rank_similar_incidents snapshot candidates 3 (history_min_score sample_limits) with
              | Ok l => length l | Err _ => 0%nat end = 1%nat) as H by (vm_compute; reflexivity).
      rewrite E in H. exact H.
    + apply (rank_exact snapshot candidates 3 (history_min_score sample_limits) found E).
  - assert (is_ok (rank_similar_incidents snapshot candidates 3 (history_min_score sample_limits))
            = true) as H by (vm_compute; reflexivity).
    rewrite E in H. discriminate H.
Defined.

(** ** The Incident governed with this analysis *)

Definition deterministic (e : Envelope.t) (b : RcaRequest) (n : nat) : result exc (Envelope.t * RcaResult) :=
  (analyze (sample_ports [failures]) e b (mk_world empty_state n)).1.
Definition registered : World :=
  mk_world (serve (Create snapshot (mk_metadata "k0" "collector" "detected" "trace-1")) (Aware 60 0)
              empty_state).2 0.
Definition run (calls : list Call) : World :=
  perform_all quiet wall wall deterministic calls registered.
Definition governed (w : World) : option Incident.t := incidents (store w) !! "inc-1"%string.

Definition prepare_call : Call := Prepare "inc-1" "root-1" "operator" 1000.
(** The action that awaits a decision. *)
Definition proposed : string :=
  default EmptyString (i ← governed (run [prepare_call]); r ← latest_report i;
    RemediationAction.action_hash <$> head (RcaReport.recommendations r)).
Definition decide_call : Call := Decide "inc-1" true proposed 4 "operator" "looks right" "decision-1".
Definition execute_call : Call := Execute "inc-1" "execute-1" "operator" true.

(** The analysis is conclusive, so an action is proposed, approved, simulated
    and verified, and the Incident is resolved with the rule's root cause. *)
Example governed_by_analysis :
  (λ i, (Incident.status i, Incident.root_cause i)) <$>
    governed (run [prepare_call; decide_call; execute_call]) =
  Some (IncidentStatus.RESOLVED, Some "failures of the S1 security setup"%string).
Proof. vm_compute. reflexivity. Qed.
