(* ===== verification/Projection.v ===== *)
(** * The projection of a completed lifecycle (telco_local/lifecycle_projection.py)

    [build_lifecycle_projection]: a read-only view, for a user interface, of an
    Incident that the local demo governed to its end.  It is made only when
    every durable record is the one that the demo's fixed chain of keys, actors
    and reasons gives.  An error is the code of a [LifecycleProjectionError]. *)

From Stdlib Require Import Ascii String.
From S2P Require Import Prelude PyStr Json Models Incident.
From S2P Require Import PyEq.
From S2P Require GovernanceBase.
From S2P Require Import Rules.
From S2P Require Import Contracts.
From S2P Require Rca.

Definition PROJECTION_SCHEMA : string := "networkagent-local-lifecycle-projection/1.0".
Definition PROJECTION_CLASSIFICATION : string := "DERIVED_FROM_DURABLE_CANONICAL_RECORDS".
Definition PROJECTION_ORDERING : string := "REVISION_GROUPED_ATOMIC_PROJECTION".

Definition EXPECTED_TO_STATUSES : list IncidentStatus.t :=
  [ IncidentStatus.DETECTED; IncidentStatus.TRIAGED; IncidentStatus.INVESTIGATING;
    IncidentStatus.RCA_COMPLETE; IncidentStatus.AWAITING_APPROVAL; IncidentStatus.REMEDIATING;
    IncidentStatus.VERIFYING ].
Definition EXPECTED_FROM_STATUSES : list (option IncidentStatus.t) :=
  None :: map Some EXPECTED_TO_STATUSES.
Definition RCA_METADATA_KEYS : gset string :=
  list_to_set [ "engine"; "engine_version"; "model_provider"; "severity"; "rule_resolution";
    "rule_resolution_issues"; "evidence_resolution"; "evidence_resolution_issues";
    "matched_rule_ids"; "rule_versions"; "based_on_revision"; "local_simulation_policy" ]%string.
Definition VERIFICATION_METADATA_KEYS : gset string :=
  list_to_set ["mode"; "requested_outcome"; "request_fingerprint"; "side_effects"]%string.
Definition LOCAL_ACTION_DESCRIPTION : string :=
  "Simulate a governance recovery locally without contacting or changing any network resource.".
Definition LOCAL_ACTION_OUTCOME : string := "Local deterministic verification completes.".
Definition VERIFICATION_CHECKS : list string :=
  ["local deterministic post-remediation health check"%string].
Definition INCIDENT_METADATA_KEYS : gset string :=
  list_to_set ["detector_algorithm"; "rule_content_hashes"; "local_governance"]%string.
Definition LOCAL_GOVERNANCE_MARKER_KEYS : gset string :=
  list_to_set [ "actor"; "mode"; "policy_version"; "root_fingerprint"; "request_fingerprint";
    "approval_ttl_seconds"; "workflow_id" ]%string.
Definition ACTION_RUN_OUTPUT : string :=
  "Local simulation completed; no network state was changed.".
Definition DETECTOR_ALGORITHM : string := "deterministic-threshold-episodes-v3".
Definition APPROVAL_REASON : string := "approved fixed isolated local simulation".
Definition EXPECTED_AUDIT_ACTORS : list string :=
  [ "local-stack-operator"; "local-governance"; "local-governance"; "local-governance";
    "local-approval-gateway"; "local-stack-operator"; "local-simulator"; "local-simulator" ]%string.
Definition EXPECTED_AUDIT_REASONS : list string :=
  [ "explicit local demo incident confirmation";
    "Triage incident for deterministic local governance";
    "Start deterministic local RCA";
    "Persist deterministic local RCA result";
    "Request explicit approval for the local simulation";
    "Record explicit local simulation decision: APPROVED";
    "Record side-effect-free local simulation run" ]%string.

(** The fixed codes of [LifecycleProjectionError]. *)
Definition codes : list string :=
  [ "INVALID_EXPECTED_STATUS"; "INCIDENT_CONTRACT_MISMATCH"; "HISTORY_CONTRACT_MISMATCH";
    "REPORT_CONTRACT_MISMATCH"; "ACTION_CONTRACT_MISMATCH"; "APPROVAL_CONTRACT_MISMATCH";
    "DEMO_CHAIN_CONTRACT_MISMATCH"; "ACTION_RUN_CONTRACT_MISMATCH";
    "VERIFICATION_CONTRACT_MISMATCH"; "INVALID_TIMESTAMP"; "INVALID_PROJECTION_INPUT" ]%string.

(** [if a or b or ...: _fail(code)]. *)
Definition fail_if_any (mismatches : list bool) (code : string) : result string unit :=
  throw_if (existsb id mismatches) code.

(** ** Values *)

Definition is_exact_string (value : option json) (expected : string) : bool :=
  match value with Some (JStr s) => str_eqb s expected | _ => false end.
Definition is_exactly_false (value : option json) : bool :=
  match value with Some (JBool b) => negb b | _ => false end.
Definition is_empty_list (value : option json) : bool :=
  match value with Some (JArr []) => true | _ => false end.
Definition keys_of (items : list (string * json)) : gset string := list_to_set (map fst items).
Definition has_text_value (v : json) : bool :=
  match v with JStr s => negb (is_blank s) | _ => false end.
(** A dictionary of texts equal to a field of type [dict[str, str]]. *)
Definition same_texts (value : option json) (texts : gmap string string) : bool :=
  match value with
  | Some (JObj items) => bool_decide ((list_to_map items : gmap string json) = JStr <$> texts)
  | _ => false
  end.

Section projection.
Context `{R : Runtime}.

(** [isoformat().replace("+00:00", "Z")]. *)
Fixpoint replace_utc (s : string) : string :=
  match s with
  | EmptyString => EmptyString
  | String c s' =>
      if String.prefix "+00:00" s
      then match s' with
           | String _ (String _ (String _ (String _ (String _ rest)))) => String "Z"%char (replace_utc rest)
           | _ => s
           end
      else String c (replace_utc s')
  end.
(** [_timestamp]. *)
Definition timestamp (value : option Z) : result string string :=
  match value with
  | Some t => Ok (replace_utc (isoformat t))
  | None => Err "INVALID_TIMESTAMP"%string
  end.

(** [_is_local_step_key]. *)
Definition is_local_step_key (value : option string) (step : string) : bool :=
  let prefix := "local-governance-" +:+ step +:+ "-" in
  match value with
  | Some s =>
      String.prefix prefix s &&
      let digest := substring (String.length prefix) (String.length s) s in
      (py_len digest =? 32) && string_forall is_lower_hex digest
  | None => false
  end.

(** [_canonical_digest], [_stable_id], [_step_key]. *)
Definition canonical_digest (parts : list json) : string := sha256_hex (dumps (JArr parts)).
Definition stable_id (prefix : string) (parts : list json) : string :=
  prefix +:+ "-" +:+ substring 0 32 (canonical_digest (JStr prefix :: parts)).
Definition step_key (root_key step : string) (request_parts : list json) : string :=
  stable_id ("local-governance-" +:+ step)
    (JStr (canonical_digest [JStr root_key]) :: request_parts).

(** ** The chain of the demo *)

(** [_local_stack_roots]. *)
Record Roots := mk_roots {
  root_digest : string;
  confirm_key : string;
  prepare_key : string;
  decision_key : string;
  execute_key : string
}.
Definition local_stack_roots (incident_id : string) : Roots :=
  let digest := substring 0 16 (sha256_hex incident_id) in
  mk_roots digest ("local-stack-confirm-key-" +:+ digest) ("local-stack-prepare-key-" +:+ digest)
    ("local-stack-decision-key-" +:+ digest) ("local-stack-execute-key-" +:+ digest).

(** 900.0 *)
Definition nine_hundred : pyfloat := PyFloat false 225 2.
(** [_expected_prepare_marker]: its items in key order. *)
Definition expected_prepare_marker (incident_id : string) : list (string * json) :=
  let root_fingerprint := canonical_digest [JStr (prepare_key (local_stack_roots incident_id))] in
  let request_fingerprint := canonical_digest
    [ JStr "local-governance-prepare-v1"; JStr root_fingerprint; JFloat nine_hundred;
      JStr "local-governance" ] in
  [ ("actor", JStr "local-governance"); ("approval_ttl_seconds", JFloat nine_hundred);
    ("mode", JStr "simulation"); ("policy_version", JStr "1.0");
    ("request_fingerprint", JStr request_fingerprint);
    ("root_fingerprint", JStr root_fingerprint);
    ("workflow_id", JStr (stable_id "local-governance-workflow" [JStr root_fingerprint])) ]%string.

(** [_DemoChain]. *)
Record DemoChain := mk_chain {
  chain_marker : list (string * json);
  audit_keys : list string;
  execution_fingerprint : string;
  pending_request_id : string;
  pending_approval_id : string;
  approved_approval_id : string;
  chain_action_run_id : string;
  chain_verification_id : string
}.

(** [_build_demo_chain]. *)
Definition build_demo_chain (i : Incident.t) (report : RcaReport.t) (action : RemediationAction.t)
    (approved : ApprovalDecision.t) (expected_verification : VerificationStatus.t) : DemoChain :=
  let id := Incident.incident_id i in
  let roots := local_stack_roots id in
  let action_hash := JStr (RemediationAction.action_hash action) in
  let marker := expected_prepare_marker id in
  let pending_request_id := stable_id "local-approval-request"
    [ default JNull (dict_get "request_fingerprint" marker); JStr (RcaReport.report_id report);
      action_hash ] in
  let decision_fingerprint := canonical_digest
    [ JStr "approval-decision-v1"; JBool true; action_hash; JInt 4; JStr "local-stack-operator";
      JStr APPROVAL_REASON ] in
  let execution_root := canonical_digest [JStr (execute_key roots)] in
  let execution_fingerprint := canonical_digest
    [ JStr "local-governance-execute-v2"; JStr id; JStr execution_root; JStr "local-simulator";
      JBool (bool_decide (expected_verification = VerificationStatus.PASSED)); action_hash;
      JStr (ApprovalDecision.approval_id approved) ] in
  let action_key := step_key (execute_key roots) "simulate-action"
    [JStr execution_fingerprint; action_hash] in
  mk_chain marker
    [ confirm_key roots; step_key (prepare_key roots) "triage" [];
      step_key (prepare_key roots) "investigate" []; step_key (prepare_key roots) "rca-complete" [];
      step_key (prepare_key roots) "approval-request" [];
      step_key (decision_key roots) "approval-decision" []; action_key;
      step_key (execute_key roots) "verify" [JStr execution_fingerprint] ]
    execution_fingerprint pending_request_id
    (stable_id "local-approval-pending" [JStr pending_request_id])
    (stable_id "local-approval-decision"
       [JStr (canonical_digest [JStr (decision_key roots)]); JStr decision_fingerprint])
    (stable_id "local-simulation-run" [JStr id; JStr action_key; action_hash])
    (stable_id "local-verification" [JStr execution_root; JStr id]).

(** ** The checks *)

(** [_validate_incident]. *)
Definition marker_is_exact (marker : option json) (expected : list (string * json)) : bool :=
  match marker with
  | Some (JObj items) =>
      bool_decide (keys_of items = LOCAL_GOVERNANCE_MARKER_KEYS)
      && forallb (λ key, match dict_get key expected with
                         | Some (JStr text) => is_exact_string (dict_get key items) text
                         | _ => false
                         end)
           [ "actor"; "mode"; "policy_version"; "root_fingerprint"; "request_fingerprint";
             "workflow_id" ]%string
      && match dict_get "approval_ttl_seconds" items with
         | Some (JFloat f) => float_eqb f nine_hundred
         | _ => false
         end
  | _ => false
  end.
Definition rule_hashes_match (rule_hashes : option json) (rule_versions : gmap string string) : bool :=
  match rule_hashes with
  | Some (JObj items) =>
      bool_decide (keys_of items = dom rule_versions)
      && forallb (λ kv, GovernanceBase.is_sha256_digest (Some kv.2)) items
  | _ => false
  end.
Definition validate_incident (i : Incident.t) (expected : IncidentStatus.t) : result string unit :=
  let metadata := Incident.model_metadata i in
  fail_if_any
    [ negb (bool_decide (Incident.status i = expected));
      negb (Incident.revision i =? 7);
      negb (str_eqb (Incident.trace_id i) ("local-stack-confirm-trace-" +:+
              root_digest (local_stack_roots (Incident.incident_id i))));
      negb (bool_decide (dom metadata = INCIDENT_METADATA_KEYS));
      negb (is_exact_string (metadata !! "detector_algorithm"%string) DETECTOR_ALGORITHM);
      negb (rule_hashes_match (metadata !! "rule_content_hashes"%string) (Incident.rule_versions i));
      negb (marker_is_exact (metadata !! "local_governance"%string)
              (expected_prepare_marker (Incident.incident_id i))) ]
    "INCIDENT_CONTRACT_MISMATCH".

(** The loop of [_validate_history], at [revision]. *)
Fixpoint validate_events (i : Incident.t) (revision : Z) (froms : list (option IncidentStatus.t))
    (tos : list IncidentStatus.t) (event_ids idempotency_keys : gset string)
    (events : list IncidentAuditEvent.t) : result string unit :=
  match events, froms, tos with
  | event :: events, from :: froms, to :: tos =>
      fail_if_any
        [ negb (IncidentAuditEvent.revision event =? revision);
          negb (str_eqb (IncidentAuditEvent.incident_id event) (Incident.incident_id i));
          negb (str_eqb (IncidentAuditEvent.trace_id event) (Incident.trace_id i));
          negb (bool_decide (IncidentAuditEvent.from_status event = from));
          negb (bool_decide (IncidentAuditEvent.to_status event = to));
          bool_decide (IncidentAuditEvent.event_id event ∈ event_ids);
          bool_decide (IncidentAuditEvent.idempotency_key event ∈ idempotency_keys) ]
        "HISTORY_CONTRACT_MISMATCH" ≫= λ _,
      validate_events i (revision + 1) froms tos
        ({[IncidentAuditEvent.event_id event]} ∪ event_ids)
        ({[IncidentAuditEvent.idempotency_key event]} ∪ idempotency_keys) events
  | _, _, _ => Ok tt
  end.
(** [_validate_history]. *)
Definition validate_history (history : list IncidentAuditEvent.t) (i : Incident.t)
    (expected : IncidentStatus.t) : result string unit :=
  fail_if_any [negb (Nat.eqb (length history) 8)] "HISTORY_CONTRACT_MISMATCH" ≫= λ _,
  validate_events i 0 EXPECTED_FROM_STATUSES (EXPECTED_TO_STATUSES ++ [expected]) ∅ ∅ history.

(** [_validate_report]. *)
Definition policy_is_exact (policy : option json) : bool :=
  match policy with
  | Some (JObj items) =>
      bool_decide (keys_of items = list_to_set ["action_type"; "side_effects"; "version"]%string)
      && is_exact_string (dict_get "action_type" items) GovernanceBase.LOCAL_SIMULATION_ACTION_TYPE
      && is_exactly_false (dict_get "side_effects" items)
      && is_exact_string (dict_get "version" items) "1.0"
  | _ => false
  end.
Definition text_of (v : json) : option string := match v with JStr s => Some s | _ => None end.
Definition valid_rule_bindings (matched_rule_ids rule_versions : option json) : bool :=
  match matched_rule_ids, rule_versions with
  | Some (JArr ids), Some (JObj items) =>
      negb (match ids with [] => true | _ => false end)
      && forallb has_text_value ids
      && negb (has_duplicates (omap text_of ids))
      && bool_decide (keys_of items = list_to_set (omap text_of ids))
      && forallb (λ kv, has_text_value kv.2) items
  | _, _ => false
  end.
Definition severity_values : list string :=
  map IncidentSeverity.value
    [ IncidentSeverity.UNKNOWN; IncidentSeverity.INFO; IncidentSeverity.LOW; IncidentSeverity.MEDIUM;
      IncidentSeverity.HIGH; IncidentSeverity.CRITICAL ].
(** [value in {...}]: a list or dictionary has no hash, and raises. *)
Definition known_severity (value : option json) : result string bool :=
  match value with
  | Some (JStr s) => Ok (bool_decide (s ∈ severity_values))
  | Some (JArr _ | JObj _) => Err "INVALID_PROJECTION_INPUT"%string
  | _ => Ok false
  end.
Definition validate_report (i : Incident.t) : result string RcaReport.t :=
  match Incident.rca_reports i with
  | [report] =>
      let mismatch := "REPORT_CONTRACT_MISMATCH"%string in
      let evidence := RcaReport.evidence_refs report in
      let metadata := RcaReport.model_metadata report in
      let meta (key : string) := metadata !! key in
      fail_if_any
        [ negb (str_eqb (RcaReport.incident_id report) (Incident.incident_id i));
          negb (RcaReport.version report =? 1);
          negb (bool_decide (RcaReport.status report = ReportStatus.PROPOSED));
          negb (bool_decide (RcaReport.conclusion report = RcaConclusion.CONCLUSIVE));
          negb (has_text (RcaReport.root_cause report));
          negb (bool_decide (Incident.root_cause i = RcaReport.root_cause report));
          negb (bool_decide (Incident.hypotheses i = RcaReport.hypotheses report));
          is_blank (RcaReport.summary report);
          match evidence with [] => true | _ => false end;
          has_duplicates (map EvidenceReference.evidence_id evidence);
          negb (forallb (λ e, isSome (EvidenceReference.source e)) evidence);
          negb (bool_decide (RcaReport.generated_by report =
                  Some (Rca.RCA_ENGINE_NAME +:+ "/" +:+ Rca.RCA_ENGINE_VERSION)%string));
          negb (bool_decide (dom metadata = RCA_METADATA_KEYS));
          negb (is_exact_string (meta "engine"%string) Rca.RCA_ENGINE_NAME);
          negb (is_exact_string (meta "engine_version"%string) Rca.RCA_ENGINE_VERSION);
          negb (is_exact_string (meta "model_provider"%string) "none") ] mismatch ≫= λ _,
      known_severity (meta "severity"%string) ≫= λ known : bool,
      fail_if_any
        [ negb known;
          negb (is_exact_string (meta "rule_resolution"%string) "EXACT");
          negb (is_empty_list (meta "rule_resolution_issues"%string));
          negb (is_exact_string (meta "evidence_resolution"%string) "EXACT");
          negb (is_empty_list (meta "evidence_resolution_issues"%string));
          negb (bool_decide (meta "based_on_revision"%string = Some (JInt 2)));
          negb (same_texts (meta "rule_versions"%string) (Incident.rule_versions i));
          negb (policy_is_exact (meta "local_simulation_policy"%string));
          negb (valid_rule_bindings (meta "matched_rule_ids"%string) (meta "rule_versions"%string));
          negb (Nat.eqb (length (RcaReport.recommendations report)) 1) ] mismatch ≫= λ _,
      Ok report
  | _ => Err "REPORT_CONTRACT_MISMATCH"%string
  end.

(** [_validate_action]. *)
Definition validate_action (i : Incident.t) (report : RcaReport.t) :
    result string RemediationAction.t :=
  match Incident.recommendations i with
  | [action] =>
      fail_if_any
        [ match RcaReport.recommendations report with
          | first :: _ => negb (action_eqb first action)
          | [] => true
          end;
          negb (str_eqb (RemediationAction.action_type action)
                  GovernanceBase.LOCAL_SIMULATION_ACTION_TYPE);
          negb (bool_decide (RemediationAction.description action = Some LOCAL_ACTION_DESCRIPTION));
          negb (attributes_eqb (RemediationAction.parameters action)
                  GovernanceBase.LOCAL_SIMULATION_PARAMETERS);
          negb (bool_decide (RemediationAction.risk_level action = RiskLevel.LOW));
          negb (RemediationAction.reversible action);
          negb (bool_decide (RemediationAction.rollback_plan action =
                  Some GovernanceBase.LOCAL_SIMULATION_ROLLBACK));
          negb (bool_decide (RemediationAction.expected_outcome action = Some LOCAL_ACTION_OUTCOME));
          isNone (RemediationAction.idempotency_key action);
          negb (same_list resource_eqb (RemediationAction.target_resources action)
                  (Incident.affected_resources i)) ]
        "ACTION_CONTRACT_MISMATCH" ≫= λ _,
      Ok action
  | _ => Err "ACTION_CONTRACT_MISMATCH"%string
  end.

Definition key_at (audit : list IncidentAuditEvent.t) (n : nat) : option string :=
  IncidentAuditEvent.idempotency_key <$> audit !! n.

(** [_validate_approvals]. *)
Definition validate_approvals (i : Incident.t) (report : RcaReport.t) (action : RemediationAction.t)
    (audit : list IncidentAuditEvent.t) : result string (ApprovalDecision.t * ApprovalDecision.t) :=
  match Incident.approvals i with
  | [pending; approved] =>
      let network_action d := bool_decide (ApprovalDecision.approval_type d = ApprovalType.NETWORK_ACTION) in
      let ttl := match ApprovalDecision.expires_at pending with
                 | Some e => e - ApprovalDecision.requested_at pending | None => 0 end in
      fail_if_any
        [ negb (ApprovalDecision.is_status ApprovalStatus.PENDING pending);
          negb (ApprovalDecision.sequence pending =? 0);
          isSome (ApprovalDecision.decided_at pending);
          isSome (ApprovalDecision.decided_by pending);
          isSome (ApprovalDecision.reason pending);
          negb (bool_decide (ApprovalDecision.requested_by pending = Some "local-governance-engine"%string));
          isNone (ApprovalDecision.expires_at pending);
          ttl <=? 0;
          900000000 <? ttl;
          negb (ApprovalDecision.is_status ApprovalStatus.APPROVED approved);
          negb (ApprovalDecision.sequence approved =? 1);
          isNone (ApprovalDecision.decided_at approved);
          negb (bool_decide (ApprovalDecision.requested_by approved = Some "local-governance-engine"%string));
          negb (bool_decide (ApprovalDecision.decided_by approved = Some "local-stack-operator"%string));
          negb (bool_decide (ApprovalDecision.reason approved = Some APPROVAL_REASON));
          negb (network_action pending);
          negb (network_action approved);
          negb (str_eqb (ApprovalDecision.request_id pending) (ApprovalDecision.request_id approved));
          str_eqb (ApprovalDecision.approval_id pending) (ApprovalDecision.approval_id approved);
          str_eqb (ApprovalDecision.idempotency_key pending) (ApprovalDecision.idempotency_key approved);
          negb (bool_decide (key_at audit 4 = Some (ApprovalDecision.idempotency_key pending)));
          negb (bool_decide (key_at audit 5 = Some (ApprovalDecision.idempotency_key approved)));
          negb (is_local_step_key (Some (ApprovalDecision.idempotency_key pending)) "approval-request");
          negb (is_local_step_key (Some (ApprovalDecision.idempotency_key approved)) "approval-decision");
          negb (ApprovalDecision.requested_at pending =? ApprovalDecision.requested_at approved);
          negb (bool_decide (ApprovalDecision.expires_at pending = ApprovalDecision.expires_at approved));
          negb (ApprovalDecision.covers_action pending action (Incident.incident_id i) report);
          negb (ApprovalDecision.covers_action approved action (Incident.incident_id i) report) ]
        "APPROVAL_CONTRACT_MISMATCH" ≫= λ _,
      Ok (pending, approved)
  | _ => Err "APPROVAL_CONTRACT_MISMATCH"%string
  end.

(** [_validate_demo_chain]. *)
Definition validate_demo_chain (chain : DemoChain) (audit : list IncidentAuditEvent.t)
    (pending approved : ApprovalDecision.t) (expected_verification : VerificationStatus.t) :
    result string unit :=
  fail_if_any
    [ negb (bool_decide (map IncidentAuditEvent.idempotency_key (take 6 audit) =
                         take 6 (audit_keys chain)));
      negb (bool_decide (map IncidentAuditEvent.actor audit = EXPECTED_AUDIT_ACTORS));
      negb (bool_decide (map IncidentAuditEvent.reason (take 7 audit) = EXPECTED_AUDIT_REASONS));
      negb (bool_decide ((IncidentAuditEvent.reason <$> audit !! 7%nat) =
              Some ("Record local simulated verification: " +:+
                    VerificationStatus.value expected_verification)%string));
      negb (str_eqb (ApprovalDecision.request_id pending) (pending_request_id chain));
      negb (str_eqb (ApprovalDecision.request_id approved) (pending_request_id chain));
      negb (str_eqb (ApprovalDecision.approval_id pending) (pending_approval_id chain));
      negb (str_eqb (ApprovalDecision.approval_id approved) (approved_approval_id chain)) ]
    "DEMO_CHAIN_CONTRACT_MISMATCH".

(** [_validate_action_run]. *)
Definition simulation_metadata (metadata : gmap string json) : bool :=
  bool_decide (dom metadata = list_to_set ["mode"; "side_effects"]%string)
  && is_exact_string (metadata !! "mode"%string) "simulation"
  && is_exactly_false (metadata !! "side_effects"%string).
Definition validate_action_run (i : Incident.t) (action : RemediationAction.t)
    (audit : list IncidentAuditEvent.t) (chain : DemoChain) : result string ActionRun.t :=
  match Incident.action_runs i with
  | [run] =>
      let key := ActionRun.idempotency_key run in
      fail_if_any
        [ negb (bool_decide (ActionRun.incident_id run = Some (Incident.incident_id i)));
          negb (str_eqb (ActionRun.action_run_id run) (chain_action_run_id chain));
          negb (str_eqb (ActionRun.action_id run) (RemediationAction.action_id action));
          negb (bool_decide (ActionRun.action_hash run = Some (RemediationAction.action_hash action)));
          negb (bool_decide (ActionRun.status run = ActionRunStatus.SUCCEEDED));
          negb (ActionRun.attempt run =? 1);
          negb (bool_decide (key = key_at audit 6));
          negb (bool_decide (key = audit_keys chain !! 6%nat));
          negb (is_local_step_key key "simulate-action");
          isNone (ActionRun.started_at run);
          isNone (ActionRun.finished_at run);
          isSome (ActionRun.error run);
          negb (bool_decide (ActionRun.output_summary run = Some ACTION_RUN_OUTPUT));
          negb (simulation_metadata (ActionRun.metadata run)) ]
        "ACTION_RUN_CONTRACT_MISMATCH" ≫= λ _,
      Ok run
  | _ => Err "ACTION_RUN_CONTRACT_MISMATCH"%string
  end.

(** [_validate_verification]. *)
Definition verification_evidence_is_exact (v : VerificationRun.t) (expected : VerificationStatus.t)
    (summary : string) : bool :=
  match VerificationRun.evidence_refs v with
  | [e] =>
      bool_decide (EvidenceReference.evidence_type e = EvidenceType.TEST_RESULT)
      && str_eqb (EvidenceReference.evidence_id e)
           (stable_id "local-verification-evidence"
              [ JStr (VerificationRun.verification_id v); JStr (VerificationStatus.value expected) ])
      && bool_decide (EvidenceReference.source e = Some "local-verification-gateway"%string)
      && str_eqb (EvidenceReference.uri e)
           ("local-simulation://verification/" +:+ VerificationRun.verification_id v)
      && bool_decide (EvidenceReference.summary e = Some summary)
      && bool_decide (EvidenceReference.collected_at e = VerificationRun.finished_at v)
      && simulation_metadata (EvidenceReference.attributes e)
      && isNone (EvidenceReference.content_type e)
      && isNone (EvidenceReference.checksum_sha256 e)
  | _ => false
  end.
Definition verification_metadata_is_exact (metadata : gmap string json)
    (expected : VerificationStatus.t) (fingerprint : string) : bool :=
  bool_decide (dom metadata = VERIFICATION_METADATA_KEYS)
  && is_exact_string (metadata !! "mode"%string) "simulation"
  && is_exact_string (metadata !! "requested_outcome"%string) (VerificationStatus.value expected)
  && is_exact_string (metadata !! "request_fingerprint"%string) fingerprint
  && is_exactly_false (metadata !! "side_effects"%string).
Definition validate_verification (i : Incident.t) (run : ActionRun.t) (chain : DemoChain)
    (audit : list IncidentAuditEvent.t) (expected : VerificationStatus.t) :
    result string VerificationRun.t :=
  match Incident.verification_runs i with
  | [v] =>
      let passed := bool_decide (expected = VerificationStatus.PASSED) in
      let summary := (if passed then "Local simulated health checks passed."
                      else "Local simulated health checks failed.")%string in
      let error := if passed then None else Some "Local simulated verification failed"%string in
      fail_if_any
        [ negb (bool_decide (VerificationRun.incident_id v = Some (Incident.incident_id i)));
          negb (str_eqb (VerificationRun.verification_id v) (chain_verification_id chain));
          negb (bool_decide (key_at audit 7 = audit_keys chain !! 7%nat));
          negb (bool_decide (VerificationRun.action_run_ids v = [ActionRun.action_run_id run]));
          negb (bool_decide (VerificationRun.status v = expected));
          negb (bool_decide (VerificationRun.checks v = VERIFICATION_CHECKS));
          match VerificationRun.observed_kpis v with [] => false | _ => true end;
          isNone (VerificationRun.started_at v);
          isNone (VerificationRun.finished_at v);
          negb (bool_decide (VerificationRun.started_at v = VerificationRun.finished_at v));
          negb (bool_decide (VerificationRun.summary v = Some summary));
          negb (bool_decide (VerificationRun.error v = error));
          negb (verification_metadata_is_exact (VerificationRun.metadata v) expected
                  (execution_fingerprint chain));
          negb (verification_evidence_is_exact v expected summary) ]
        "VERIFICATION_CONTRACT_MISMATCH" ≫= λ _,
      Ok v
  | _ => Err "VERIFICATION_CONTRACT_MISMATCH"%string
  end.
(** ** The projection *)

(** [_event], [_audit_event]: an event's items in key order. *)
Definition event (sequence : Z) (occurred_at : option Z)
    (record_type component operation outcome : string) : result string json :=
  timestamp occurred_at ≫= λ time,
  Ok (JObj [ ("component", JStr component); ("occurred_at", JStr time);
             ("operation", JStr operation); ("outcome", JStr outcome);
             ("record_type", JStr record_type); ("sequence", JInt sequence) ]).
Definition audit_event (sequence : Z) (audit : list IncidentAuditEvent.t) (n : nat) :
    result string json :=
  match audit !! n with
  | Some e => event sequence (Some (IncidentAuditEvent.occurred_at e)) "INCIDENT_AUDIT_EVENT"
                "INCIDENT_REPOSITORY" "RECORD_STATE_TRANSITION"
                (IncidentStatus.value (IncidentAuditEvent.to_status e))
  | None => Err "INVALID_PROJECTION_INPUT"%string
  end.
Fixpoint all_events (events : list (result string json)) : result string (list json) :=
  match events with
  | [] => Ok []
  | e :: events => e ≫= λ e, all_events events ≫= λ es, Ok (e :: es)
  end.
(** The events of each revision, one revision after the other. *)
Fixpoint revision_groups (revision : Z) (groups : list (list (result string json))) :
    result string (list json) :=
  match groups with
  | [] => Ok []
  | events :: groups =>
      all_events events ≫= λ events,
      revision_groups (revision + 1) groups ≫= λ rest,
      Ok (JObj [("events", JArr events); ("revision", JInt revision)] :: rest)
  end.

(** What the projection of these records looks like. *)
Definition projected_groups (audit : list IncidentAuditEvent.t) (report : RcaReport.t)
    (action : RemediationAction.t) (pending approved : ApprovalDecision.t) (run : ActionRun.t)
    (verification : VerificationRun.t) : list (list (result string json)) :=
  [ [audit_event 1 audit 0];
    [audit_event 2 audit 1];
    [audit_event 3 audit 2];
    [ event 4 (Some (RcaReport.created_at report)) "RCA_REPORT" "RCA_GATEWAY" "PROPOSE_REPORT"
        (RcaConclusion.value (RcaReport.conclusion report));
      event 5 (Some (RemediationAction.created_at action)) "REMEDIATION_ACTION" "GOVERNANCE_ENGINE"
        "PROPOSE_ACTION" (RemediationAction.action_type action);
      audit_event 6 audit 3 ];
    [ event 7 (Some (ApprovalDecision.requested_at pending)) "APPROVAL_DECISION" "APPROVAL_GATEWAY"
        "REQUEST_NETWORK_ACTION_APPROVAL" (ApprovalStatus.value (ApprovalDecision.status pending));
      audit_event 8 audit 4 ];
    [ event 9 (ApprovalDecision.decided_at approved) "APPROVAL_DECISION" "APPROVAL_GATEWAY"
        "DECIDE_NETWORK_ACTION_APPROVAL" (ApprovalStatus.value (ApprovalDecision.status approved));
      audit_event 10 audit 5 ];
    [ event 11 (ActionRun.finished_at run) "ACTION_RUN" "SIMULATED_ACTION_GATEWAY"
        "EXECUTE_LOCAL_SIMULATION" (ActionRunStatus.value (ActionRun.status run));
      audit_event 12 audit 6 ];
    [ event 13 (VerificationRun.finished_at verification) "VERIFICATION_RUN"
        "LOCAL_VERIFICATION_GATEWAY" "VERIFY_LOCAL_SIMULATION"
        (VerificationStatus.value (VerificationRun.status verification));
      audit_event 14 audit 7 ] ].

Definition envelope_of (terminal : IncidentStatus.t) (groups : list json) : json :=
  let status := IncidentStatus.value terminal in
  JObj [ ("classification", JStr PROJECTION_CLASSIFICATION);
         ("distributed_trace", JBool false);
         ("invariants", JObj
            [ ("bindings_exact", JBool true); ("revision_contiguous", JBool true);
              ("side_effects", JBool false); ("single_execution_attempt", JBool true);
              ("single_incident", JBool true) ]);
         ("ordering", JStr PROJECTION_ORDERING);
         ("read_only", JBool true);
         ("record_counts", JObj
            [ ("action_runs", JInt 1); ("approval_decisions", JInt 2);
              ("incident_audit_events", JInt 8); ("incidents", JInt 1);
              ("projected_events", JInt 14); ("rca_reports", JInt 1);
              ("remediation_actions", JInt 1); ("verification_runs", JInt 1) ]);
         ("revision_groups", JArr groups);
         ("scenario", JStr ("LOCAL_SIMULATION_" +:+ status));
         ("schema", JStr PROJECTION_SCHEMA);
         ("terminal_status", JStr status) ].

Definition terminal_of (expected_status : string) : result string IncidentStatus.t :=
  if str_eqb expected_status "RESOLVED" then Ok IncidentStatus.RESOLVED
  else if str_eqb expected_status "REOPENED" then Ok IncidentStatus.REOPENED
  else Err "INVALID_EXPECTED_STATUS"%string.
Definition verification_of (terminal : IncidentStatus.t) : VerificationStatus.t :=
  if bool_decide (terminal = IncidentStatus.RESOLVED) then VerificationStatus.PASSED
  else VerificationStatus.FAILED.

(** [build_lifecycle_projection], [_build_projection]. *)
Definition build_lifecycle_projection (i : Incident.t) (history : list IncidentAuditEvent.t)
    (expected_status : string) : result string json :=
  terminal_of expected_status ≫= λ terminal : IncidentStatus.t,
  let expected_verification := verification_of terminal in
  validate_incident i terminal ≫= λ _,
  validate_history history i terminal ≫= λ _,
  validate_report i ≫= λ report : RcaReport.t,
  validate_action i report ≫= λ action : RemediationAction.t,
  validate_approvals i report action history
    ≫= λ '(pending, approved),
  let chain := build_demo_chain i report action approved expected_verification in
  validate_demo_chain chain history pending approved expected_verification ≫= λ _,
  validate_action_run i action history chain ≫= λ run : ActionRun.t,
  validate_verification i run chain history expected_verification
    ≫= λ verification : VerificationRun.t,
  revision_groups 0 (projected_groups history report action pending approved run verification)
    ≫= λ groups : list json,
  Ok (envelope_of terminal groups).
End projection.
