(* ===== verification/ProjectionProps.v ===== *)
(** * What the projection shows and requires (telco_local/lifecycle_projection.py)

    A projection reveals nothing but the times of fourteen records; it is made
    only of a lifecycle that was approved, run once and verified; and its fixed
    chain is the one the governance engine makes of the demo's keys. *)

From Stdlib Require Import Ascii String.
From S2P Require Import Prelude PyStr Json Models Incident.
From S2P Require Import PyEq.
From S2P Require GovernanceBase.
From S2P Require Import Contracts.
From S2P Require Import Gateways.
From S2P Require Import Governance.
From S2P Require Import Rules.
From S2P Require Import RuleFacts.
From S2P Require Import Projection.

(** ** Checks that passed *)

Lemma fail_if_any_Ok mismatches code u :
  fail_if_any mismatches code = Ok u ↔ Forall (λ b, b = false) mismatches.
Proof.
  unfold fail_if_any. rewrite throw_if_Ok, existsb_false_iff, Forall_forall. done.
Qed.

Lemma isNone_false {A} (o : option A) : isNone o = false ↔ is_Some o.
Proof. destruct o; cbn; split; (done || by intros []). Qed.
Lemma isSome_false {A} (o : option A) : isSome o = false ↔ o = None.
Proof. by destruct o. Qed.

(** [passed H] turns the passed checks [H] into facts about the records. *)
Ltac passed H :=
  apply fail_if_any_Ok in H; rewrite ?Forall_cons in H;
  rewrite ?negb_false_iff, ?bool_decide_eq_true, ?bool_decide_eq_false, ?str_eqb_true,
    ?str_eqb_false, ?Z.eqb_eq, ?isNone_false, ?isSome_false, ?Forall_nil in H.

Lemma range_lookup n (k : nat) : (k < n)%nat → range n !! k = Some (Z.of_nat k).
Proof. intros Hk. unfold range. by rewrite list_lookup_fmap, lookup_seq_lt. Qed.
Lemma length_range n : length (range n) = n.
Proof. unfold range. by rewrite length_fmap, length_seq. Qed.

Section projection.
Context `{R : Runtime}.

(** ** Each check raises one code *)

Lemma fail_if_any_raises mismatches code :
  code ∈ codes → raises (λ c, c ∈ codes) (fail_if_any mismatches code).
Proof. intros Hc. by apply raises_throw_if. Qed.

Ltac code_tac := apply (bool_decide_eq_true_1 _); reflexivity.

Lemma timestamp_raises t : raises (λ c, c ∈ codes) (timestamp t).
Proof. destruct t; [apply raises_Ok|apply raises_Err; code_tac]. Qed.

Lemma validate_events_raises i n froms tos ids keys events :
  raises (λ c, c ∈ codes) (validate_events i n froms tos ids keys events).
Proof.
  revert n froms tos ids keys.
  induction events as [|e events IH]; intros n [|from froms] [|to tos] ids keys;
    try apply raises_Ok.
  cbn [validate_events]. apply raises_bind; [apply fail_if_any_raises; code_tac|].
  intros; apply IH.
Qed.

Lemma event_raises n t a b c d : raises (λ c, c ∈ codes) (event n t a b c d).
Proof. apply raises_bind; [apply timestamp_raises|intros; apply raises_Ok]. Qed.
Lemma audit_event_raises n audit k : raises (λ c, c ∈ codes) (audit_event n audit k).
Proof.
  unfold audit_event. destruct (audit !! k); [apply event_raises|apply raises_Err; code_tac].
Qed.

Lemma revision_groups_raises n groups :
  Forall (Forall (raises (λ c, c ∈ codes))) groups →
  raises (λ c, c ∈ codes) (revision_groups n groups).
Proof.
  intros Hg. revert n. induction Hg as [|es groups He Hg IH]; intros n; cbn [revision_groups];
    [apply raises_Ok|].
  apply raises_bind; [|intros; apply raises_bind; [apply IH|intros; apply raises_Ok]].
  clear IH Hg. induction He as [|e es He Hes IH]; cbn [all_events]; [apply raises_Ok|].
  apply raises_bind; [done|]. intros. apply raises_bind; [apply IH|intros; apply raises_Ok].
Qed.
(** ** The history *)

Definition path (terminal : IncidentStatus.t) : list IncidentStatus.t :=
  EXPECTED_TO_STATUSES ++ [terminal].

(** An event of the history belongs to the Incident and has its place in it. *)
Definition in_place (i : Incident.t) (n : Z) (from : option IncidentStatus.t)
    (to : IncidentStatus.t) (e : IncidentAuditEvent.t) : Prop :=
  IncidentAuditEvent.revision e = n ∧
  IncidentAuditEvent.incident_id e = Incident.incident_id i ∧
  IncidentAuditEvent.trace_id e = Incident.trace_id i ∧
  IncidentAuditEvent.from_status e = from ∧ IncidentAuditEvent.to_status e = to.

Lemma validate_events_spec i n froms tos ids keys events u :
  length froms = length events → length tos = length events →
  validate_events i n froms tos ids keys events = Ok u →
  (∀ (k : nat) e, events !! k = Some e → (∃ from to, froms !! k = Some from ∧ tos !! k = Some to ∧
     in_place i (n + Z.of_nat k) from to e)) ∧
  NoDup (map IncidentAuditEvent.event_id events) ∧
  NoDup (map IncidentAuditEvent.idempotency_key events) ∧
  (∀ e, e ∈ events → (IncidentAuditEvent.event_id e ∉ ids) ∧
     (IncidentAuditEvent.idempotency_key e ∉ keys)).
Proof.
  revert n froms tos ids keys.
  induction events as [|e events IH]; intros n [|from froms] [|to tos] ids keys; try done.
  { intros _ _ _. split_and!; [by intros k ?|constructor|constructor|set_solver]. }
  intros [= Hf] [= Ht] (v & Hv & H)%bind_Ok. passed Hv.
  destruct Hv as (Hn & Hi & Htr & Hfrom & Hto & Hid & Hkey & _).
  destruct (IH _ _ _ _ _ Hf Ht H) as (Hin & Hids & Hkeys & Hnew). split_and!.
  - intros [|k] x; cbn.
    + intros [= <-]. exists from, to. rewrite Z.add_0_r. done.
    + intros (f & t & ? & ? & Hp)%Hin. exists f, t.
      replace (n + Z.of_nat (S k)) with (n + 1 + Z.of_nat k) by lia. done.
  - cbn. constructor; [|done]. intros (x & E & Hx)%list_elem_of_fmap.
    apply Hnew in Hx as [Hx _]. set_solver.
  - cbn. constructor; [|done]. intros (x & E & Hx)%list_elem_of_fmap.
    apply Hnew in Hx as [_ Hx]. set_solver.
  - intros x [->|Hx]%elem_of_cons; [done|]. apply Hnew in Hx. set_solver.
Qed.

Lemma validate_history_spec i history terminal u :
  validate_history history i terminal = Ok u →
  length history = 8%nat ∧
  (∀ k e, history !! k = Some e → ∃ from to, EXPECTED_FROM_STATUSES !! k = Some from ∧
     path terminal !! k = Some to ∧ in_place i (Z.of_nat k) from to e) ∧
  NoDup (map IncidentAuditEvent.event_id history) ∧
  NoDup (map IncidentAuditEvent.idempotency_key history).
Proof.
  intros (v & Hv & H)%bind_Ok. passed Hv. destruct Hv as [Hl _]. apply Nat.eqb_eq in Hl.
  apply validate_events_spec in H as (Hin & Hids & Hkeys & _); [|by rewrite Hl..].
  split_and!; [done| |done|done]. intros k e He. by apply Hin.
Qed.

(** ** The records a projection is made of *)

(** The checks of [build_lifecycle_projection], and what they left. *)
Record projected (i : Incident.t) (history : list IncidentAuditEvent.t) (terminal : IncidentStatus.t)
    (report : RcaReport.t) (action : RemediationAction.t) (pending approved : ApprovalDecision.t)
    (run : ActionRun.t) (v : VerificationRun.t) : Prop := {
  p_incident : validate_incident i terminal = Ok tt;
  p_history : validate_history history i terminal = Ok tt;
  p_report : validate_report i = Ok report;
  p_action : validate_action i report = Ok action;
  p_approvals : validate_approvals i report action history = Ok (pending, approved);
  p_chain : validate_demo_chain
    (build_demo_chain i report action approved (verification_of terminal))
    history pending approved (verification_of terminal) = Ok tt;
  p_run : validate_action_run i action history
    (build_demo_chain i report action approved (verification_of terminal)) = Ok run;
  p_verification : validate_verification i run
    (build_demo_chain i report action approved (verification_of terminal)) history
    (verification_of terminal) = Ok v
}.

Lemma projection_run i history status p :
  build_lifecycle_projection i history status = Ok p →
  ∃ terminal report action pending approved run v groups,
    terminal_of status = Ok terminal ∧
    projected i history terminal report action pending approved run v ∧
    revision_groups 0 (projected_groups history report action pending approved run v) = Ok groups ∧
    p = envelope_of terminal groups.
Proof.
  unfold build_lifecycle_projection.
  intros (terminal & Ht & ([] & Hi & ([] & Hh & (report & Hr & (action & Ha & ([pending approved] &
    Hp & ([] & Hc & (run & Hrun & (v & Hv & (groups & Hg & [= <-])%bind_Ok)%bind_Ok)%bind_Ok)%bind_Ok)
    %bind_Ok)%bind_Ok)%bind_Ok)%bind_Ok)%bind_Ok)%bind_Ok.
  exists terminal, report, action, pending, approved, run, v, groups. by split_and!.
Qed.

Lemma validate_report_spec i report :
  validate_report i = Ok report →
  Incident.rca_reports i = [report] ∧ RcaReport.conclusion report = RcaConclusion.CONCLUSIVE ∧
  has_text (RcaReport.root_cause report) = true ∧
  Incident.root_cause i = RcaReport.root_cause report ∧
  RcaReport.incident_id report = Incident.incident_id i.
Proof.
  unfold validate_report. destruct (Incident.rca_reports i) as [|r [|]]; [done| |done].
  intros (u & Hu & (k & _ & (w & _ & [= <-])%bind_Ok)%bind_Ok)%bind_Ok.
  passed Hu. destruct Hu as (Hi & _ & _ & Hc & Ht & Hr & _). done.
Qed.

Lemma validate_action_spec i report action :
  validate_action i report = Ok action →
  Incident.recommendations i = [action] ∧
  RemediationAction.action_type action = GovernanceBase.LOCAL_SIMULATION_ACTION_TYPE ∧
  ∃ first rest, RcaReport.recommendations report = first :: rest ∧ action_eqb first action = true.
Proof.
  unfold validate_action. destruct (Incident.recommendations i) as [|a [|]]; [done| |done].
  intros (u & Hu & [= <-])%bind_Ok. passed Hu. destruct Hu as (Hf & Ht & _).
  destruct (RcaReport.recommendations report) as [|first rest]; [done|].
  apply negb_false_iff in Hf. split_and!; [done|done|]. by exists first, rest.
Qed.

Lemma validate_approvals_spec i report action audit pending approved :
  validate_approvals i report action audit = Ok (pending, approved) →
  Incident.approvals i = [pending; approved] ∧
  ApprovalDecision.status pending = ApprovalStatus.PENDING ∧
  ApprovalDecision.status approved = ApprovalStatus.APPROVED ∧
  is_Some (ApprovalDecision.decided_at approved) ∧
  ApprovalDecision.decided_by approved = Some "local-stack-operator"%string ∧
  ApprovalDecision.covers_action approved action (Incident.incident_id i) report = true.
Proof.
  unfold validate_approvals.
  destruct (Incident.approvals i) as [|a [|b [|]]]; [done|done| |done].
  intros (u & Hu & [= <- <-])%bind_Ok. passed Hu. destruct_and! Hu. unfold ApprovalDecision.is_status in *.
  split_and!; try done; by eapply bool_decide_eq_true_1.
Qed.

Lemma validate_action_run_spec i action audit chain run :
  validate_action_run i action audit chain = Ok run →
  Incident.action_runs i = [run] ∧ ActionRun.status run = ActionRunStatus.SUCCEEDED ∧
  ActionRun.attempt run = 1 ∧ is_Some (ActionRun.finished_at run) ∧
  ActionRun.action_hash run = Some (RemediationAction.action_hash action) ∧
  simulation_metadata (ActionRun.metadata run) = true.
Proof.
  unfold validate_action_run. destruct (Incident.action_runs i) as [|r [|]]; [done| |done].
  intros (u & Hu & [= <-])%bind_Ok. passed Hu. by destruct_and! Hu.
Qed.

Lemma validate_verification_spec i run chain audit expected v :
  validate_verification i run chain audit expected = Ok v →
  Incident.verification_runs i = [v] ∧ VerificationRun.status v = expected ∧
  VerificationRun.action_run_ids v = [ActionRun.action_run_id run] ∧
  is_Some (VerificationRun.finished_at v).
Proof.
  unfold validate_verification. destruct (Incident.verification_runs i) as [|r [|]]; [done| |done].
  intros (u & Hu & [= <-])%bind_Ok. passed Hu. by destruct_and! Hu.
Qed.
(** ** What a projection shows *)

(** An event of the projection: fixed texts and a time. *)
Definition shown (sequence : Z) (t : Z) (record_type component operation outcome : string) : json :=
  JObj [ ("component", JStr component); ("occurred_at", JStr (replace_utc (isoformat t)));
         ("operation", JStr operation); ("outcome", JStr outcome);
         ("record_type", JStr record_type); ("sequence", JInt sequence) ].
Definition shown_transition (sequence : Z) (t : Z) (status : IncidentStatus.t) : json :=
  shown sequence t "INCIDENT_AUDIT_EVENT" "INCIDENT_REPOSITORY" "RECORD_STATE_TRANSITION"
    (IncidentStatus.value status).
Definition shown_group (revision : Z) (events : list json) : json :=
  JObj [("events", JArr events); ("revision", JInt revision)].

(** All that a projection can be, from the final status and fourteen times. *)
Definition template (terminal : IncidentStatus.t) (time : Z → Z) : json :=
  envelope_of terminal
    [ shown_group 0 [shown_transition 1 (time 1) IncidentStatus.DETECTED];
      shown_group 1 [shown_transition 2 (time 2) IncidentStatus.TRIAGED];
      shown_group 2 [shown_transition 3 (time 3) IncidentStatus.INVESTIGATING];
      shown_group 3
        [ shown 4 (time 4) "RCA_REPORT" "RCA_GATEWAY" "PROPOSE_REPORT" "CONCLUSIVE";
          shown 5 (time 5) "REMEDIATION_ACTION" "GOVERNANCE_ENGINE" "PROPOSE_ACTION" "LOCAL_SIMULATION";
          shown_transition 6 (time 6) IncidentStatus.RCA_COMPLETE ];
      shown_group 4
        [ shown 7 (time 7) "APPROVAL_DECISION" "APPROVAL_GATEWAY" "REQUEST_NETWORK_ACTION_APPROVAL"
            "PENDING";
          shown_transition 8 (time 8) IncidentStatus.AWAITING_APPROVAL ];
      shown_group 5
        [ shown 9 (time 9) "APPROVAL_DECISION" "APPROVAL_GATEWAY" "DECIDE_NETWORK_ACTION_APPROVAL"
            "APPROVED";
          shown_transition 10 (time 10) IncidentStatus.REMEDIATING ];
      shown_group 6
        [ shown 11 (time 11) "ACTION_RUN" "SIMULATED_ACTION_GATEWAY" "EXECUTE_LOCAL_SIMULATION"
            "SUCCEEDED";
          shown_transition 12 (time 12) IncidentStatus.VERIFYING ];
      shown_group 7
        [ shown 13 (time 13) "VERIFICATION_RUN" "LOCAL_VERIFICATION_GATEWAY" "VERIFY_LOCAL_SIMULATION"
            (VerificationStatus.value (verification_of terminal));
          shown_transition 14 (time 14) terminal ] ].

(** The times of the records, in the order of their events. *)
Definition times_of (history : list IncidentAuditEvent.t) (report : RcaReport.t)
    (action : RemediationAction.t) (pending approved : ApprovalDecision.t) (run : ActionRun.t)
    (v : VerificationRun.t) (sequence : Z) : Z :=
  let audit (n : nat) := default 0 (IncidentAuditEvent.occurred_at <$> history !! n) in
  match sequence with
  | 1 => audit 0%nat
  | 2 => audit 1%nat
  | 3 => audit 2%nat
  | 4 => RcaReport.created_at report
  | 5 => RemediationAction.created_at action
  | 6 => audit 3%nat
  | 7 => ApprovalDecision.requested_at pending
  | 8 => audit 4%nat
  | 9 => default 0 (ApprovalDecision.decided_at approved)
  | 10 => audit 5%nat
  | 11 => default 0 (ActionRun.finished_at run)
  | 12 => audit 6%nat
  | 13 => default 0 (VerificationRun.finished_at v)
  | _ => audit 7%nat
  end.

Lemma projected_shape i history terminal report action pending approved run v groups :
  projected i history terminal report action pending approved run v →
  revision_groups 0 (projected_groups history report action pending approved run v) = Ok groups →
  envelope_of terminal groups =
    template terminal (times_of history report action pending approved run v).
Proof.
  intros [_ Hh Hr Ha Hp _ Hrun Hv] Hg.
  apply validate_history_spec in Hh as (Hl & Hin & _ & _).
  apply validate_report_spec in Hr as (_ & Hc & _).
  apply validate_action_spec in Ha as (_ & Ht & _).
  apply validate_approvals_spec in Hp as (_ & Hpend & Happ & [d Hd] & _).
  apply validate_action_run_spec in Hrun as (_ & Hrs & _ & [f Hf] & _).
  apply validate_verification_spec in Hv as (_ & Hvs & _ & [g Hgv]).
  destruct history as [|e0 [|e1 [|e2 [|e3 [|e4 [|e5 [|e6 [|e7 [|]]]]]]]]]; try discriminate Hl.
  assert (∀ (k : nat) e to, [e0; e1; e2; e3; e4; e5; e6; e7] !! k = Some e →
    path terminal !! k = Some to → IncidentAuditEvent.to_status e = to) as Hto.
  { intros k e to He Hk. destruct (Hin k e He) as (? & to' & _ & Hk' & _ & _ & _ & _ & ->). congruence. }
  unfold projected_groups, audit_event in Hg. cbn [lookup list_lookup] in Hg.
  rewrite (Hto 0%nat e0 _ eq_refl eq_refl), (Hto 1%nat e1 _ eq_refl eq_refl),
    (Hto 2%nat e2 _ eq_refl eq_refl), (Hto 3%nat e3 _ eq_refl eq_refl),
    (Hto 4%nat e4 _ eq_refl eq_refl), (Hto 5%nat e5 _ eq_refl eq_refl),
    (Hto 6%nat e6 _ eq_refl eq_refl), (Hto 7%nat e7 _ eq_refl eq_refl) in Hg.
  rewrite Hc, Ht, Hpend, Happ, Hrs, Hvs, Hd, Hf, Hgv in Hg.
  unfold times_of, template. cbn [lookup list_lookup fmap option_fmap option_map default from_option id].
  rewrite Hd, Hf, Hgv. cbn in Hg. injection Hg as <-. reflexivity.
Qed.
(** ** Only fixed codes are raised *)

Lemma known_severity_raises value : raises (λ c, c ∈ codes) (known_severity value).
Proof.
  destruct value as [[]|]; cbn [known_severity];
    first [apply raises_Ok|apply raises_Err; code_tac].
Qed.

Lemma projected_groups_raise audit report action pending approved run v :
  Forall (Forall (raises (λ c, c ∈ codes)))
    (projected_groups audit report action pending approved run v).
Proof.
  unfold projected_groups.
  repeat first [apply Forall_nil_2 | apply Forall_cons_2 | apply audit_event_raises | apply event_raises].
Qed.

(** [codes_tac] takes [raises _ check] apart along a check. *)
Ltac codes_tac :=
  repeat match goal with
  | |- raises _ (Ok _) => apply raises_Ok
  | |- raises _ (Err _) => apply raises_Err; code_tac
  | |- raises _ (fail_if_any _ _) => apply fail_if_any_raises; code_tac
  | |- raises _ (known_severity _) => apply known_severity_raises
  | |- raises _ (validate_events _ _ _ _ _ _ _) => apply validate_events_raises
  | |- raises _ (revision_groups _ _) => apply revision_groups_raises, projected_groups_raise
  | |- raises _ (_ ≫= _) => apply raises_bind; [|intros ? ?]
  | |- raises _ (let (_, _) := ?x in _) => destruct x
  | |- raises _ (match ?x with _ => _ end) => destruct x
  end.

Lemma projection_raises i history status :
  raises (λ c, c ∈ codes) (build_lifecycle_projection i history status).
Proof.
  unfold build_lifecycle_projection.
  apply raises_bind; [unfold terminal_of; codes_tac|intros terminal _].
  apply raises_bind; [unfold validate_incident; codes_tac|intros _ _].
  apply raises_bind; [unfold validate_history; codes_tac|intros _ _].
  apply raises_bind; [unfold validate_report; codes_tac|intros report _].
  apply raises_bind; [unfold validate_action; codes_tac|intros action _].
  apply raises_bind; [unfold validate_approvals; codes_tac|intros [pending approved] _].
  apply raises_bind; [unfold validate_demo_chain; codes_tac|intros _ _].
  apply raises_bind; [unfold validate_action_run; codes_tac|intros run _].
  apply raises_bind; [unfold validate_verification; codes_tac|intros v _].
  codes_tac.
Qed.

(** A projection reveals nothing of the records but times: whatever the
    Incident and its history hold, the outcome is one of eleven fixed codes, or
    the fixed text of the final status with the times of fourteen records, so
    that no identifier, key, actor, reason or evidence can leave through it. *)
Theorem projection_reveals_only_times i history status :
  match build_lifecycle_projection i history status with
  | Err code => code ∈ codes
  | Ok p => ∃ terminal time, terminal_of status = Ok terminal ∧ p = template terminal time
  end.
Proof.
  destruct (build_lifecycle_projection i history status) as [p|code] eqn:E.
  - apply projection_run in E as (terminal & report & action & pending & approved & run & v &
      groups & Ht & Hp & Hg & ->). eexists terminal, _. split; [done|]. by eapply projected_shape.
  - by eapply projection_raises.
Qed.

(** ** What a projection requires *)

(** C28. Only a completed lifecycle is projected: an Incident at revision 7 in
    the expected final status, with eight audit events that walk the whole path
    from DETECTED without a gap or a repeated key; one conclusive report, whose
    root cause is the Incident's; one action, the local simulation; two
    approval events, the last an approval by the operator that covers this
    action of this report; one successful run, the only attempt; and one
    verification of that run, passed exactly when the Incident is RESOLVED. *)
Theorem projected_lifecycle i history status p
    (H : build_lifecycle_projection i history status = Ok p) :
  ∃ terminal report action pending approved run v,
    terminal_of status = Ok terminal ∧
    Incident.status i = terminal ∧ Incident.revision i = 7 ∧
    map IncidentAuditEvent.to_status history = path terminal ∧
    map IncidentAuditEvent.revision history = range 8 ∧
    NoDup (map IncidentAuditEvent.idempotency_key history) ∧
    Incident.rca_reports i = [report] ∧
    RcaReport.conclusion report = RcaConclusion.CONCLUSIVE ∧
    Incident.root_cause i = RcaReport.root_cause report ∧
    Incident.recommendations i = [action] ∧
    RemediationAction.action_type action = GovernanceBase.LOCAL_SIMULATION_ACTION_TYPE ∧
    Incident.approvals i = [pending; approved] ∧
    ApprovalDecision.status approved = ApprovalStatus.APPROVED ∧
    ApprovalDecision.decided_by approved = Some "local-stack-operator"%string ∧
    ApprovalDecision.covers_action approved action (Incident.incident_id i) report = true ∧
    Incident.action_runs i = [run] ∧
    ActionRun.status run = ActionRunStatus.SUCCEEDED ∧ ActionRun.attempt run = 1 ∧
    ActionRun.action_hash run = Some (RemediationAction.action_hash action) ∧
    Incident.verification_runs i = [v] ∧
    VerificationRun.action_run_ids v = [ActionRun.action_run_id run] ∧
    VerificationRun.status v = verification_of terminal.
Proof.
  apply projection_run in H as (terminal & report & action & pending & approved & run & v & groups &
    Ht & [Hi Hh Hr Ha Hp _ Hrun Hv] & _ & ->).
  exists terminal, report, action, pending, approved, run, v.
  unfold validate_incident in Hi. passed Hi. destruct Hi as (Hst & Hrev & _).
  apply validate_history_spec in Hh as (Hl & Hin & _ & Hkeys).
  apply validate_report_spec in Hr as (Hr & Hc & _ & Hroot & _).
  apply validate_action_spec in Ha as (Ha & Htype & _).
  apply validate_approvals_spec in Hp as (Hp & _ & Happ & _ & Hby & Hcov).
  apply validate_action_run_spec in Hrun as (Hrun & Hrs & Hatt & _ & Hhash & _).
  apply validate_verification_spec in Hv as (Hv & Hvs & Hids & _).
  split_and!; try done.
  - apply list_eq. intros k. rewrite list_lookup_fmap. destruct (history !! k) as [e|] eqn:Ek; cbn.
    + destruct (Hin k e Ek) as (? & to & _ & Hk & _ & _ & _ & _ & <-). done.
    + apply lookup_ge_None in Ek. rewrite Hl in Ek. symmetry. by apply lookup_ge_None.
  - apply list_eq. intros k. rewrite list_lookup_fmap.
    destruct (history !! k) as [e|] eqn:Ek.
    + destruct (Hin k e Ek) as (? & ? & _ & _ & Hn & _). apply lookup_lt_Some in Ek.
      rewrite range_lookup by lia. cbn. by rewrite Hn.
    + apply lookup_ge_None in Ek. symmetry. apply lookup_ge_None. by rewrite length_range, <- Hl.
Qed.
End projection.
