(* ===== verification/ProjectionChain.v ===== *)
(** * The records of the demo and the projection

    The run and the verification that the gateways make of a request with the
    keys of the demo pass the projection's checks. *)

From Stdlib Require Import Ascii String.
From S2P Require Import Prelude PyStr Json Models Incident.
From S2P Require Import PyEq.
From S2P Require Import Contracts.
From S2P Require Import GovernanceBase.
From S2P Require Import Gateways.
From S2P Require Import Governance.
From S2P Require Import GovernanceFacts.
From S2P Require Import GovernanceTypes.
From S2P Require Import Rules.
From S2P Require Import RuleFacts.
From S2P Require Import Projection.
From S2P Require Import ProjectionProps.
Import LocalGovernanceEngine.

(** ** Keys of a step *)

Lemma substring_all n s : (String.length s ≤ n)%nat → substring 0 n s = s.
Proof.
  revert n. induction s as [|c s IH]; intros [|n] H; cbn in *; try done; try lia.
  by rewrite IH by lia.
Qed.
Lemma substring_prefix n s : (n ≤ String.length s)%nat → String.length (substring 0 n s) = n.
Proof.
  revert n. induction s as [|c s IH]; intros [|n] H; cbn in *; try done; try lia.
  by rewrite IH by lia.
Qed.
Lemma substring_forall p n m s :
  string_forall p s = true → string_forall p (substring n m s) = true.
Proof.
  revert n m. induction s as [|c s IH]; intros [|n] [|m]; cbn; try done;
    intros [Hc Hs]%andb_true_iff; rewrite ?Hc; cbn; by apply IH.
Qed.
Lemma substring_skip p n s :
  substring (String.length p) n (p +:+ s) = substring 0 n s.
Proof. induction p as [|c p IH]; [done|]. rewrite app_cons. cbn. apply IH. Qed.
Lemma string_app_assoc s t u : s +:+ (t +:+ u) = (s +:+ t) +:+ u.
Proof. induction s as [|c s IH]; [done|]. by rewrite !app_cons, IH. Qed.
Lemma prefix_own p s : String.prefix p (p +:+ s) = true.
Proof.
  induction p as [|c p IH]; [by destruct s|]. rewrite app_cons. cbn.
  by destruct (ascii_dec c c).
Qed.

Section chain.
Context `{R : Runtime, L : !RuntimeLaws R}.

(** The fingerprint and the key of the execution of the demo. *)
Definition demo_fingerprint (i : Incident.t) (action : RemediationAction.t)
    (approved : ApprovalDecision.t) (passes : bool) : string :=
  execute_fingerprint i
    (digest [JStr (execute_key (local_stack_roots (Incident.incident_id i)))]) "local-simulator"
    passes action (Some approved).
Definition demo_action_key (i : Incident.t) (action : RemediationAction.t)
    (approved : ApprovalDecision.t) (passes : bool) : string :=
  GovernanceBase.step_key (execute_key (local_stack_roots (Incident.incident_id i)))
    "simulate-action"
    [ JStr (demo_fingerprint i action approved passes);
      JStr (RemediationAction.action_hash action) ].
Definition passing (expected : VerificationStatus.t) : bool :=
  bool_decide (expected = VerificationStatus.PASSED).

Lemma step_key_is_local key step parts :
  is_local_step_key (Some (GovernanceBase.step_key key step parts)) step = true.
Proof.
  unfold is_local_step_key, GovernanceBase.step_key, GovernanceBase.stable_id.
  set (d := digest _). set (p := "local-governance-" +:+ step).
  rewrite (string_app_assoc p), prefix_own, substring_skip.
  assert (is_hex64 d = true) as [Hl Hx]%andb_true_iff by apply sha256_hex64.
  apply Nat.eqb_eq in Hl.
  assert (String.length (substring 0 32 d) = 32%nat) as H32 by (apply substring_prefix; lia).
  rewrite substring_all by (rewrite string_length_app, H32; lia).
  rewrite plain_py_len by apply plain_substring, plain_digest.
  rewrite H32, substring_forall by done. reflexivity.
Qed.

(** [accepted] proves that each check passes, by [tac] where it does not compute. *)
Ltac check_accepted tac :=
  apply negb_false_iff;
  first [apply bool_decide_eq_true_2 | apply str_eqb_true | apply Z.eqb_eq | idtac];
  first [reflexivity | solve [tac]].
Ltac accepted tac :=
  match goal with
  | |- fail_if_any ?l ?c ≫= _ = Ok _ =>
      assert (fail_if_any l c = Ok tt) as ->;
        [ apply fail_if_any_Ok; repeat apply Forall_cons_2; try apply Forall_nil_2;
          first [reflexivity | check_accepted tac]
        | reflexivity ]
  end.

(** The checks of the metadata of a simulated record. *)
Lemma simulated_metadata :
  simulation_metadata {["mode" := JStr "simulation"; "side_effects" := JBool false]} = true.
Proof. by vm_compute. Qed.

Lemma concluded_metadata current run vid fp terminal t :
  let st := verification_of terminal in
  verification_metadata_is_exact
    (VerificationRun.metadata (LocalVerificationGateway.concluded
       (pending_verification current run vid fp (passing st)) st t)) st fp = true.
Proof.
  unfold verification_of. destruct (bool_decide (terminal = _));
    unfold verification_metadata_is_exact; rewrite !andb_true_iff; split_and!;
    try (by vm_compute); by apply str_eqb_true.
Qed.
Lemma concluded_evidence current run vid fp terminal t :
  let st := verification_of terminal in
  verification_evidence_is_exact
    (LocalVerificationGateway.concluded
       (pending_verification current run vid fp (passing st)) st t) st
    (if passing st then "Local simulated health checks passed."
     else "Local simulated health checks failed.") = true.
Proof.
  unfold verification_of. destruct (bool_decide (terminal = _));
    unfold verification_evidence_is_exact;
    cbn [LocalVerificationGateway.concluded LocalVerificationGateway.test_evidence
         VerificationRun.evidence_refs];
    rewrite !andb_true_iff; split_and!;
    first [by apply str_eqb_true | by apply bool_decide_eq_true_2 | apply simulated_metadata | done].
Qed.
Lemma verification_outcome terminal current run vid fp t :
  let st := verification_of terminal in
  VerificationRun.error (LocalVerificationGateway.concluded
    (pending_verification current run vid fp (passing st)) st t) =
  if passing st then None else Some "Local simulated verification failed"%string.
Proof. unfold verification_of. by destruct (bool_decide (terminal = _)). Qed.

(** What the gateways make of the demo's requests passes the projection:
    the run that the simulated gateway makes of the request with the chain's key,
    and the verification that its gateway makes of that run with the outcome the
    final status calls for, are accepted in an Incident that holds just them and
    whose last two audit events carry their keys. *)
Theorem gateway_records_accepted current i report action approved audit terminal t0 t1 t2
    (Hid : Incident.incident_id current = Incident.incident_id i)
    (Hkey : key_at audit 6 =
      Some (demo_action_key i action approved (passing (verification_of terminal))))
    (Hverify : key_at audit 7 = Some (GovernanceBase.step_key
      (execute_key (local_stack_roots (Incident.incident_id i))) "verify"
      [JStr (demo_fingerprint i action approved (passing (verification_of terminal)))])) :
  let expected := verification_of terminal in
  let chain := build_demo_chain i report action approved expected in
  let fp := demo_fingerprint i action approved (passing expected) in
  let e := change_envelope current action (demo_action_key i action approved (passing expected)) fp t0 in
  let run := SimulatedActionGateway.simulated_run e action t1 in
  let v := LocalVerificationGateway.concluded
    (pending_verification current run (chain_verification_id chain) fp (passing expected)) expected t2 in
  (Incident.action_runs i = [run] → validate_action_run i action audit chain = Ok run) ∧
  (Incident.verification_runs i = [v] → validate_verification i run chain audit expected = Ok v).
Proof.
  intros expected chain fp e run v. split; intros H.
  - unfold validate_action_run. rewrite H.
    accepted ltac:(first [cbn; by rewrite Hid | done | apply step_key_is_local]).
  - unfold validate_verification. rewrite H.
    assert (verification_metadata_is_exact (VerificationRun.metadata v) expected
      (execution_fingerprint chain) = true) as -> by apply concluded_metadata.
    assert (verification_evidence_is_exact v expected
      (if bool_decide (expected = VerificationStatus.PASSED)
       then "Local simulated health checks passed."
       else "Local simulated health checks failed.") = true) as -> by apply concluded_evidence.
    accepted ltac:(first [cbn; by rewrite Hid | done | apply verification_outcome]).
Qed.
End chain.
