(* ===== verification/ProjectionEngine.v ===== *)
(** * The chain of the demo and the writes of the governance engine

    The projection rebuilds a chain of keys and identifiers from the identifier
    of an Incident alone ([Projection.build_demo_chain]).  Here the calls that the
    demo makes are followed through [prepare], [decide] and [execute], over any
    lawful world: the writes that these programs make carry the keys of that
    chain, and the records that they append its identifiers. *)

From Stdlib Require Import Ascii String.
From S2P Require Import Prelude PyStr Json Models Incident Errors StateMachine Repository.
From S2P Require Import PyEq.
From S2P Require Import Contracts Ports GovernanceBase Gateways Governance.
From S2P Require Import GovernanceFacts GovernanceRuns GovernanceProps.
From S2P Require Import Reference.
From S2P Require Import Projection.
From S2P Require Import ProjectionChain.
Import LocalGovernanceEngine.

(** ** What following the chain means *)

Section following.
Context `{WL : WorldLaws W}.

(** [key] is the [n]-th audit key of the chains of the Incident [id] with the
    report and action. *)
Definition keyed (id : string) (n : nat) (key : string) : Prop :=
  ∀ i report action approved expected, Incident.incident_id i = id →
    audit_keys (build_demo_chain i report action approved expected) !! n = Some key.

(** From a status, an Incident is moved on by a write under the [n]-th key. *)
Definition moved (id : string) (from to : IncidentStatus.t) (n : nat) (u : Incident.t → Updates → Prop)
    (i : Incident.t) (w : W) (j : Incident.t) (w' : W) : Prop :=
  if bool_decide (Incident.status i = from)
  then ∃ key us, keyed id n key ∧ u i us ∧
    committed (Incident.incident_id i) to (Incident.revision i) key us w j w'
  else j = i ∧ w' = w.

Definition claims (id : string) (i : Incident.t) (us : Updates) : Prop :=
  us = update_metadata
         (<[MARKER_KEY := JObj (expected_prepare_marker id)]> (Incident.model_metadata i)).
Definition analyses (i : Incident.t) (us : Updates) : Prop :=
  ∃ report, us = update_rca (RcaReport.root_cause report) (RcaReport.hypotheses report)
    (Incident.rca_reports i ++ [report]) (RcaReport.recommendations report).

(** The approval of the report's one action was asked for, here or before. *)
Definition asked (id : string) (i : Incident.t) (w w' : W) : Prop :=
  ∃ report action current pending key v,
    latest_report i = Some report ∧ RcaReport.recommendations report = [action] ∧
    later w v ∧ stored v current ∧ Incident.incident_id current = Incident.incident_id i ∧
    keyed id 4 key ∧ ApprovalDecision.idempotency_key pending = key ∧
    ApprovalDecision.sequence pending = 0 ∧
    (∀ i0 approved expected, Incident.incident_id i0 = id →
       ApprovalDecision.request_id pending
         = pending_request_id (build_demo_chain i0 report action approved expected)) ∧
    (pending ∈ Incident.approvals current ∨
     (∀ i0 approved expected, Incident.incident_id i0 = id →
        ApprovalDecision.approval_id pending
          = pending_approval_id (build_demo_chain i0 report action approved expected)) ∧
     ∃ j v', later v' w' ∧
       committed (Incident.incident_id i) IncidentStatus.AWAITING_APPROVAL
         (Incident.revision current) key
         (update_approvals (Incident.approvals current ++ [pending])) v j v').

Definition prepare_follows (id : string) (w : W) (g : GovernanceResult) (w' : W) : Prop :=
  ∃ v i0 i1 w1 i2 w2 i3 w3, later w v ∧ stored v i0 ∧ Incident.incident_id i0 = id ∧
    moved id IncidentStatus.DETECTED IncidentStatus.TRIAGED 1 (claims id) i0 v i1 w1 ∧
    moved id IncidentStatus.TRIAGED IncidentStatus.INVESTIGATING 2 (λ _ us, us = no_updates)
      i1 w1 i2 w2 ∧
    moved id IncidentStatus.INVESTIGATING IncidentStatus.RCA_COMPLETE 3 analyses i2 w2 i3 w3 ∧
    (g_incident g = i3 ∧ w' = w3 ∨
     Incident.status i3 = IncidentStatus.RCA_COMPLETE ∧ asked id i3 w3 w').

Definition decide_follows (id hash : string) (w : W) (g : GovernanceResult) (w' : W) : Prop :=
  ∃ v current d key, later w v ∧ stored v current ∧ Incident.incident_id current = id ∧
    keyed id 5 key ∧ ApprovalDecision.idempotency_key d = key ∧
    (∀ report action approved expected, RemediationAction.action_hash action = hash →
       ApprovalDecision.approval_id d
         = approved_approval_id (build_demo_chain current report action approved expected)) ∧
    (d ∈ Incident.approvals current ∧ g_incident g = current ∧ w' = v ∨
     ∃ target, committed id target 4 key
       (update_approvals (Incident.approvals current ++ [d])) v (g_incident g) w').

(** The run and its verification, as the chain names them. *)
Definition run_named (chain : DemoChain) (run : ActionRun.t) : Prop :=
  ActionRun.action_run_id run = chain_action_run_id chain.
Definition verification_named (chain : DemoChain) (v : VerificationRun.t) : Prop :=
  VerificationRun.verification_id v = chain_verification_id chain ∧
  VerificationRun.metadata v !! "request_fingerprint"%string
    = Some (JStr (execution_fingerprint chain)).

Definition execution_follows (chain : DemoChain) (passed : bool) (current : Incident.t) (w : W)
    (g : GovernanceResult) (w' : W) : Prop :=
  (** Verified before. *)
  (∃ v, v ∈ Incident.verification_runs current ∧ verification_named chain v ∧
     g_incident g = current ∧ w' = w) ∨
  (** Failed, here or before, for this request. *)
  (∃ raw, Incident.model_metadata current !! EXECUTION_FAILURE_MARKER_KEY = Some (JObj raw) ∧
     dict_get "request_fingerprint" raw = Some (JStr (execution_fingerprint chain)) ∧
     Incident.status current = IncidentStatus.FAILED ∧ g_incident g = current ∧ w' = w) ∨
  (∃ key root v, later w v ∧ committed (Incident.incident_id current) IncidentStatus.FAILED
     (Incident.revision current) key
     (update_metadata (<[EXECUTION_FAILURE_MARKER_KEY
                          := failure_binding root (execution_fingerprint chain)]>
                         (Incident.model_metadata current))) v (g_incident g) w') ∨
  (** Simulated, here or before, and verified. *)
  ∃ reached u run verification key,
    (Incident.status current = IncidentStatus.VERIFYING ∧ reached = current ∧ u = w ∨
     ∃ run' key' v, later w v ∧ run_named chain run' ∧ audit_keys chain !! 6%nat = Some key' ∧
       ActionRun.idempotency_key run' = Some key' ∧
       committed (Incident.incident_id current) IncidentStatus.VERIFYING
         (Incident.revision current) key'
         (update_action_runs (Incident.action_runs current ++ [run'])) v reached u) ∧
    run ∈ Incident.action_runs reached ∧ run_named chain run ∧
    verification_named chain verification ∧
    VerificationRun.action_run_ids verification = [ActionRun.action_run_id run] ∧
    audit_keys chain !! 7%nat = Some key ∧
    committed (Incident.incident_id reached)
      (if passed then IncidentStatus.RESOLVED else IncidentStatus.REOPENED)
      (Incident.revision reached) key
      (update_verification_runs (Incident.verification_runs reached ++ [verification]))
      u (g_incident g) w'.

Definition execute_follows (id : string) (passed : bool) (w : W) (g : GovernanceResult) (w' : W) :
    Prop :=
  ∃ v current report action, later w v ∧ stored v current ∧ Incident.incident_id current = id ∧
    latest_report current = Some report ∧ RcaReport.recommendations report = [action] ∧
    ∀ approved, latest_approval current = Some approved →
      execution_follows
        (build_demo_chain current report action approved
           (if passed then VerificationStatus.PASSED else VerificationStatus.FAILED))
        passed current v g w'.
End following.

(** ** The calls of the demo *)

Section engine.
Context `{WL : WorldLaws W, L : !RuntimeLaws R}.

Lemma root_stripped p n s :
  string_forall visible_char p = true →
  py_strip (p +:+ substring 0 n (sha256_hex s)) = p +:+ substring 0 n (sha256_hex s).
Proof.
  intros Hp. apply py_strip_visible. rewrite string_forall_app, Hp. cbn [andb].
  apply substring_forall.
  assert (is_hex64 (sha256_hex s) = true) as [_ Hx]%andb_true_iff by apply sha256_hex64.
  revert Hx. apply string_forall_impl. intros c. unfold is_lower_hex, is_digit, visible_char.
  rewrite !orb_true_iff, !andb_true_iff, !N.leb_le. lia.
Qed.
Lemma prepare_key_stripped id :
  py_strip (prepare_key (local_stack_roots id)) = prepare_key (local_stack_roots id).
Proof. by apply root_stripped. Qed.
Lemma decision_key_stripped id :
  py_strip (decision_key (local_stack_roots id)) = decision_key (local_stack_roots id).
Proof. by apply root_stripped. Qed.
Lemma execute_key_stripped id :
  py_strip (execute_key (local_stack_roots id)) = execute_key (local_stack_roots id).
Proof. by apply root_stripped. Qed.

Section calls.
Context (id : string).
Let roots := local_stack_roots id.
Let marker := make_marker (prepare_key roots) 900000000 "local-governance".

Lemma marker_expected : marker_json marker = JObj (expected_prepare_marker id).
Proof. reflexivity. Qed.
Lemma actor_utf8 : utf8 "local-governance".
Proof. by apply utf8b_utf8. Qed.

Lemma claim_moves i w j b w' : sane w → known i →
  claim_step (prepare_key roots) "local-governance" marker i w = (Ok (j, b), w') →
  moved id IncidentStatus.DETECTED IncidentStatus.TRIAGED 1 (claims id) i w j w'.
Proof.
  intros Hs Hk H. unfold claim_step in H. unfold moved. case_bool_decide.
  - step_in H. step_in H. simplify_eq.
    apply write_run in E as (_ & _ & Hc); try done; [|by apply utf8_step_key|apply actor_utf8].
    eexists _, _. split_and!; [|by unfold claims|exact Hc]. by intros ? ? ? ? ? <-.
  - step_in H. step_in H. by simplify_eq.
Qed.
Lemma investigate_moves i b0 w j b w' : sane w → known i →
  investigate_step (prepare_key roots) "local-governance" (i, b0) w = (Ok (j, b), w') →
  moved id IncidentStatus.TRIAGED IncidentStatus.INVESTIGATING 2 (λ _ us, us = no_updates) i w j w'.
Proof.
  intros Hs Hk H. unfold investigate_step in H. unfold moved. case_bool_decide.
  - step_in H. step_in H. simplify_eq.
    apply write_run in E as (_ & _ & Hc); try done; [|by apply utf8_step_key|apply actor_utf8].
    eexists _, _. split_and!; [|reflexivity|exact Hc]. by intros ? ? ? ? ? <-.
  - step_in H. by simplify_eq.
Qed.
Lemma analyze_moves i b0 w j b w' : sane w → known i →
  analyze_step (prepare_key roots) "local-governance" marker (i, b0) w = (Ok (j, b), w') →
  moved id IncidentStatus.INVESTIGATING IncidentStatus.RCA_COMPLETE 3 analyses i w j w'.
Proof.
  intros Hs Hk H. unfold analyze_step in H. unfold moved. case_bool_decide.
  - step_in H. pose proof (now_run _ _ _ Hs E) as Hl1. pose proof (sane_later _ _ Hl1 Hs) as Hs1.
    step_in H. step_in H. pose proof (analyze_spec _ _ _ _ _ Hs1 E1) as Hl2.
    pose proof (sane_later _ _ Hl2 Hs1) as Hs2. destruct a1 as [e' b']. do 4 (step_in H). simplify_eq.
    apply write_run in E4 as (_ & _ & Hc); try done; [|by apply utf8_step_key|apply actor_utf8].
    eexists _, _. split_and!; [| |eapply committed_from; [|exact Hc]; by etransitivity].
    + by intros ? ? ? ? ? <-.
    + by exists a2.
  - step_in H. by simplify_eq.
Qed.

Lemma pending_spec e b now pending :
  LocalApprovalGateway.pending_from_request e b now = Ok pending →
  ApprovalDecision.idempotency_key pending = Envelope.idempotency_key e ∧
  ApprovalDecision.sequence pending = 0 ∧
  ApprovalDecision.request_id pending = ask_request_id b ∧
  ApprovalDecision.approval_id pending
    = GovernanceBase.stable_id "local-approval-pending" [JStr (ask_request_id b)].
Proof.
  unfold LocalApprovalGateway.pending_from_request.
  destruct (ask_action b), (ask_expires_at b); try done. by intros (? & _ & [= <-])%bind_Ok.
Qed.

(** The approval request of the gateway, followed. *)
Lemma request_asks i report action now w m w' : sane w → known i →
  latest_report i = Some report → RcaReport.recommendations report = [action] →
  LocalApprovalGateway.request_approval (ask_envelope (prepare_key roots) marker i action now)
    (ask_body 900000000 marker i report action now) w = (Ok m, w') →
  later w w' ∧ asked id i w w'.
Proof.
  intros Hs Hk Hr Ha H.
  split; [eapply request_approval_calm; [|exact Hs|exact H]; by apply utf8_step_key|].
  unfold LocalApprovalGateway.request_approval in H. do 5 (step_in H).
  pose proof (now_run _ _ _ Hs E) as Hl1. pose proof (sane_later _ _ Hl1 Hs) as Hs1.
  destruct (found_run _ _ _ _ _ _ Hs1 E2 E3) as (Hl2 & Hs2 & Hst & Hid & Hk').
  destruct (max_by _ _) as [pending|] eqn:Hp.
  - apply max_by_Some in Hp as [[Hq Hin]%list_elem_of_filter _]. do 2 (step_in H).
    apply throw_if_Ok, orb_false_iff in E4 as [Hseq%negb_false_iff%Z.eqb_eq Hb%negb_false_iff].
    unfold LocalApprovalGateway.same_binding in Hb. rewrite !andb_true_iff, !bool_decide_eq_true in Hb.
    destruct_and! Hb.
    exists report, action, a3, pending, (ApprovalDecision.idempotency_key pending), w1.
    split_and!; try done; [by etransitivity| | |by left].
    + intros ? ? ? ? ? <-. match goal with H : _ = ApprovalDecision.idempotency_key pending |- _ =>
        by rewrite <- H end.
    + intros ? ? ? <-. by rewrite Hq.
  - do 5 (step_in H). rename a7 into pending. step_in H. step_in H.
    apply throw_if_Ok, negb_false_iff, Z.eqb_eq in E5.
    apply write_run in E8 as (Hl3 & _ & Hc); try done;
      [|by apply utf8_step_key|by apply utf8b_utf8].
    apply pending_spec in E7 as (Hkey & Hseq & Hq & Hp').
    exists report, action, a3, pending, (ApprovalDecision.idempotency_key pending), w1.
    split_and!; [done..|by etransitivity|done|done| |done|done| |right; split].
    + intros ? ? ? ? ? <-. by rewrite Hkey.
    + intros ? ? ? <-. by rewrite Hq.
    + intros ? ? ? <-. by rewrite Hp'.
    + exists a8, w2. rewrite Hkey. by split.
Qed.

Lemma asked_within i w0 w v w' : later w0 w → later v w' → asked id i w v → asked id i w0 w'.
Proof.
  intros Hl Hl' (report & action & current & pending & key & u & Hr & Ha & Hu & Hst & Hi & Hk &
    Hpk & Hs & Hq & Hc).
  exists report, action, current, pending, key, u. split_and!; try done; [by etransitivity|].
  destruct Hc as [Hc|(Hp & j & v' & Hv & Hc)]; [by left|right]. split; [done|].
  exists j, v'. split; [|done]. by etransitivity.
Qed.

Lemma request_follows i b w g w' : sane w → known i →
  request_step (prepare_key roots) 900000000 marker (i, b) w = (Ok g, w') →
  g_incident g = i ∧ w' = w ∨
  Incident.status i = IncidentStatus.RCA_COMPLETE ∧ asked id i w w'.
Proof.
  intros Hs Hk H. unfold request_step in H. case_bool_decide as Hst.
  - step_in H. apply of_option_Ok in E. case_bool_decide; [step_in H; by left|right]. split; [done|].
    do 4 (step_in H). apply of_option_Ok in E0.
    assert (RcaReport.recommendations a = [a0]) as Ha.
    { cbn in E0. destruct (RcaReport.recommendations a) as [|x [|]]; by simplify_eq. }
    pose proof (now_run _ _ _ Hs E1) as Hl1. pose proof (sane_later _ _ Hl1 Hs) as Hs1.
    apply request_asks in E3 as [Hl2 Hasked]; [|done..].
    step_in H. step_in H.
    apply get_incident_run in E3 as (Hl3 & _); [|by eapply sane_later].
    by eapply asked_within.
  - step_in H. apply finish_prepared in H as [Hg _]. by left.
Qed.

Lemma prepare_follow w g w' : sane w → py_strip id = id →
  prepare id (prepare_key roots) "local-governance" 900000000 w = (Ok g, w') →
  prepare_follows id w g w'.
Proof.
  intros Hs Hid H. unfold prepare in H. do 3 (step_in H).
  apply require_text_Ok in E as (_ & _ & ->), E0 as (_ & _ & ->).
  replace (py_strip (prepare_key roots)) with (prepare_key roots) in H
    by (symmetry; apply prepare_key_stripped).
  change (py_strip "local-governance") with "local-governance"%string in H.
  step_in H. apply get_incident_run in E as (Hl & Hs1 & Hst & Hi & Hk); [|done].
  rewrite Hid in Hi.
  step_in H. destruct a0 as [i1 b1].
  destruct (claim_calm _ _ _ _ actor_utf8 Hk _ _ _ Hs1 E) as [Hl1 Hk1].
  apply claim_moves in E; [|done..]. pose proof (sane_later _ _ Hl1 Hs1) as Hs2.
  step_in H. destruct a0 as [i2 b2].
  destruct (investigate_calm _ _ (i1, b1) actor_utf8 Hk1 _ _ _ Hs2 E0) as [Hl2 Hk2].
  apply investigate_moves in E0; [|done..]. pose proof (sane_later _ _ Hl2 Hs2) as Hs3.
  step_in H. destruct a0 as [i3 b3].
  destruct (analyze_calm _ _ _ (i2, b2) actor_utf8 Hk2 _ _ _ Hs3 E2) as [Hl3 Hk3].
  apply analyze_moves in E2; [|done..]. pose proof (sane_later _ _ Hl3 Hs3) as Hs4.
  eexists _, _, _, _, _, _, _, _. split_and!; [exact Hl|exact Hst|exact Hi|exact E|exact E0|exact E2|].
  by eapply request_follows.
Qed.

Lemma decide_follow hash w g w' : sane w →
  decide id true hash 4 "local-stack-operator" APPROVAL_REASON (decision_key roots) w = (Ok g, w') →
  decide_follows id hash w g w'.
Proof.
  intros Hs H. unfold decide in H. step_in H. apply get_incident_run in E as (Hl & Hs1 & _); [|done].
  do 3 (step_in H). subst.
  apply gateway_decide_run in E0 as (_ & v & current & now & Ht & Hst & Hi & H);
    [|done|by apply utf8b_utf8].
  pose proof (told_later _ _ _ (sane_later _ _ Hl Hs) Ht) as Hl'.
  unfold decided_before, decided, roots in H. rewrite !decision_key_stripped in H.
  change (py_strip "local-stack-operator") with "local-stack-operator"%string in H.
  change (py_strip APPROVAL_REASON) with APPROVAL_REASON in H.
  set (key := LocalApprovalGateway.event_key _) in H.
  assert (keyed id 5 key) as Hkey by (by intros ? ? ? ? ? <-).
  destruct H as [(Hg & -> & d & Hin & Hdk & Hda)|(pending & Hp & _ & Hc)].
  - exists v, current, d, key. split_and!; try done; [by etransitivity| |by left].
    intros ? ? ? ? <-. rewrite Hda, <- Hi. reflexivity.
  - apply decidable_spec in Hp as (_ & _ & _ & Hrev & _). rewrite Hrev in Hc.
    eexists v, current, _, key.
    split_and!; [by etransitivity|done|done|done| | |right; eexists; exact Hc]; [done|].
    intros ? ? ? ? <-. rewrite <- Hi. reflexivity.
Qed.

(** What [execute] does, in the terms of the chain. *)
Lemma failed_replay_binding current root fp g :
  failed_replay current root fp = Ok g →
  ∃ raw, Incident.model_metadata current !! EXECUTION_FAILURE_MARKER_KEY = Some (JObj raw) ∧
    dict_get "request_fingerprint" raw = Some (JStr fp).
Proof.
  unfold failed_replay. destruct (require_failure_binding current) as [raw|] eqn:E; [|done].
  intros H. run_ok. exists raw. split.
  - unfold require_failure_binding in E.
    repeat case_match; try done.
    run_ok. by subst.
  - by eapply differ_false.
Qed.

Lemma execution_follow passed current report action approved w g w' : sane w →
  Incident.incident_id current = id → latest_approval current = Some approved →
  execution id (execute_key roots) "local-simulator" passed current report action
    (execute_fingerprint current (digest [JStr (py_strip (execute_key roots))])
       (py_strip "local-simulator") passed action (latest_approval current)) w g w' →
  execution_follows
    (build_demo_chain current report action approved
       (if passed then VerificationStatus.PASSED else VerificationStatus.FAILED))
    passed current w g w'.
Proof.
  intros Hs Hi Hap H. set (chain := build_demo_chain _ _ _ _ _).
  unfold roots in H. rewrite execute_key_stripped, Hap in H.
  change (py_strip "local-simulator") with "local-simulator"%string in H.
  set (fp := execute_fingerprint _ _ _ _ _ _) in H.
  assert (fp = execution_fingerprint chain) as Hfp by (subst fp chain; rewrite <- Hi; by destruct passed).
  assert (execution_vid id (execute_key (local_stack_roots id)) = chain_verification_id chain) as Hvid.
  { unfold execution_vid. rewrite execute_key_stripped. subst chain. by rewrite <- Hi. }
  assert (audit_keys chain !! 6%nat = Some (execution_key (execute_key (local_stack_roots id)) fp action))
    as H6. { unfold execution_key. rewrite execute_key_stripped, Hfp. subst chain. by rewrite <- Hi. }
  assert (audit_keys chain !! 7%nat = Some (GovernanceBase.step_key (execute_key (local_stack_roots id))
    "verify" [JStr fp])) as H7.
  { rewrite Hfp. subst chain. by rewrite <- Hi. }
  assert (SimulatedActionGateway.run_id (Incident.incident_id current)
    (execution_key (execute_key (local_stack_roots id)) fp action) (RemediationAction.action_hash action)
    = chain_action_run_id chain) as Hrun.
  { unfold execution_key. rewrite execute_key_stripped, Hfp. subst chain. by rewrite <- Hi. }
  clearbody fp. destruct H as
    [v Hin Hv Hf|Hst H|approval now v g w' _ _ Ht _ [_ Hc]|reached run v g w' Hreach _ Hin Hr _ _ Hver].
  - left. exists v. split_and!; [done|split; congruence|done|done].
  - right. left. apply failed_replay_binding in H as (raw & Hm & Hf). exists raw.
    split_and!; [done| |done..]. by rewrite Hf, Hfp.
  - right. right. left. rewrite Hfp in Hc. eexists _, _, v. split; [by eapply told_later|exact Hc].
  - right. right. right. destruct Hver as [_ [t Hc]].
    cbv zeta in Hc. rewrite execute_key_stripped in Hc.
    set (verification := LocalVerificationGateway.concluded _ _ _) in Hc.
    eexists reached, v, run, verification, _.
    split_and!; [|done|unfold run_named; congruence|split| |exact H7|exact Hc].
    + destruct Hreach as [[? [-> ->]]|(_ & approval & _ & t0 & t1 & now & d & found & u & u' & Ht0 &
        _ & _ & Ht & _ & _ & _ & Hsim)]; [by left|right].
      pose proof (told_later _ _ _ Hs Ht0) as Hl. pose proof (sane_later _ _ Hl Hs) as Hs'.
      pose proof (told_later _ _ _ Hs' Ht) as Hl'.
      eexists _, _, u'. split_and!; [by etransitivity| |exact H6| |exact Hsim]; [exact Hrun|done].
    + by rewrite <- Hvid; destruct passed.
    + rewrite <- Hfp. by destruct passed.
    + by destruct passed.
Qed.

Lemma execute_follow passed w g w' : sane w → py_strip id = id →
  execute id (execute_key roots) "local-simulator" passed w = (Ok g, w') →
  execute_follows id passed w g w'.
Proof.
  intros Hs Hid H. apply execute_run in H as (current & report & action & v & Hl & Hst & Hi & Hr &
    Ha & H); [|done|by apply utf8b_utf8].
  rewrite Hid in Hi. exists v, current, report, action. split_and!; try done.
  intros approved Hap. eapply execution_follow; try done. by eapply sane_later.
Qed.
End calls.

(** C29. The chain that the projection rebuilds is what the engine writes.  In any
    lawful world, when a call of the demo on the Incident [id] returns:
    [prepare] moved the Incident on by transitions recorded under the 1st, 2nd and
    3rd audit key of the chain, claimed it with the chain's marker, and asked, or
    had asked, under the 4th key for an approval with the chain's request
    identifier (and, when asked now, its approval identifier); [decide] recorded,
    or had recorded, under the 5th key a decision with the identifier of the
    chain's approval; and [execute], under the approval of the Incident it read,
    recorded or had recorded the chain's run under the 6th key and the chain's
    verification, of that run and with the chain's execution fingerprint, under
    the 7th, or failed the Incident with that fingerprint. *)
Theorem chain_follows_engine id w g w' (Hs : sane w) (Hid : py_strip id = id) :
  let roots := local_stack_roots id in
  (prepare id (prepare_key roots) "local-governance" 900000000 w = (Ok g, w') →
     prepare_follows id w g w') ∧
  (∀ hash, decide id true hash 4 "local-stack-operator" APPROVAL_REASON (decision_key roots) w
       = (Ok g, w') → decide_follows id hash w g w') ∧
  (∀ passed, execute id (execute_key roots) "local-simulator" passed w = (Ok g, w') →
     execute_follows id passed w g w').
Proof.
  intros roots. split_and!.
  - by apply prepare_follow.
  - intros hash. by apply decide_follow.
  - intros passed. by apply execute_follow.
Qed.
End engine.
