(* ===== verification/ProjectionSamples.v ===== *)
(** * A lifecycle from detection to its projection

    The detector of [DetectorSamples] finds an episode and its candidate is
    confirmed with the keys of the local demo; the governance engine prepares,
    decides and executes with the analysis of [RcaSamples]; and the projection
    accepts the records that are left. *)

From Stdlib Require Import Ascii String.
From S2P Require Import Prelude PyStr Json Reference Models Incident Errors StateMachine.
From S2P Require Import PyEq.
From S2P Require Import Samples.
From S2P Require Import Repository Contracts Gateways Ports LocalWorld GovernanceBase Governance.
From S2P Require Import RepositoryFacts GovernanceFacts GovernanceWorld.
From S2P Require Import Rules.
From S2P Require Import RuleResolution.
From S2P Require Import RuleStore.
From S2P Require Import RuleSamples.
From S2P Require Import Detector.
From S2P Require DetectorSamples.
From S2P Require Import RcaEngine.
From S2P Require Import RcaSamples.
From S2P Require Import Projection.
From S2P Require Import ProjectionProps.
From S2P Require Import ProjectionChain.
From S2P Require Import ProjectionEngine.
Import LocalGovernanceEngine.

(** ** The run *)

Definition the_id : string := DetectorSamples.first_candidate.
Definition roots : Roots := local_stack_roots the_id.
Definition confirmed : World :=
  (@confirm quick DetectorSamples.every_rule World
     (DetectorSamples.sample_telemetry DetectorSamples.observations) DetectorSamples.sample_uuids
     DetectorSamples.sample_clock (DetectorSamples.sample_rules [rule_1; rule_2])
     DetectorSamples.sample_repository the_id
     ("local-stack-confirm-trace-" +:+ root_digest roots) (confirm_key roots) "local-stack-operator"
     "explicit local demo incident confirmation" None None [] DetectorSamples.start).2.
Definition run (calls : list Call) : World :=
  perform_all DetectorSamples.quiet DetectorSamples.wall DetectorSamples.wall deterministic calls confirmed.
Definition governed (w : World) : option Incident.t := incidents (store w) !! the_id.
Definition prepare_call : Call := Prepare the_id (prepare_key roots) "local-governance" 900000000.
Definition proposed : string :=
  default EmptyString (i ← governed (run [prepare_call]); r ← latest_report i;
    RemediationAction.action_hash <$> head (RcaReport.recommendations r)).
Definition calls (passes : bool) : list Call :=
  [ prepare_call;
    Decide the_id true proposed 4 "local-stack-operator" APPROVAL_REASON (decision_key roots);
    Execute the_id (execute_key roots) "local-simulator" passes ].
Definition final (passes : bool) : World := run (calls passes).
Definition audit_trail (w : World) : list IncidentAuditEvent.t :=
  default [] (histories (store w) !! the_id).
Definition project (id : string) (w : World) (status : string) : result string json :=
  match incidents (store w) !! id with
  | Some i => build_lifecycle_projection i (audit_trail w) status
  | None => Err "no Incident"%string
  end.
Definition projection (passes : bool) (status : string) : result string json :=
  project the_id (final passes) status.

(** ** What is projected *)

Definition outcome (r : result string json) : string :=
  match r with
  | Ok (JObj fields) => match dict_get "scenario" fields with Some (JStr s) => s | _ => EmptyString end
  | Ok _ => EmptyString
  | Err code => code
  end.


(** The records that a world holds of the Incident. *)
Section held.
Variable w : World.
Definition held : Incident.t := default Samples.detected (governed w).
Definition its_report : RcaReport.t := default Samples.report (latest_report held).
Definition its_action : RemediationAction.t :=
  default Samples.action (head (RcaReport.recommendations its_report)).
Definition its_approval : ApprovalDecision.t :=
  default Samples.approved (last (Incident.approvals held)).
Definition its_run : ActionRun.t := default Samples.run (head (Incident.action_runs held)).
Definition its_verification : VerificationRun.t :=
  default Samples.verification (head (Incident.verification_runs held)).
Definition its_chain : DemoChain :=
  build_demo_chain held its_report its_action its_approval VerificationStatus.FAILED.
(** The records as the gateways make them, with a verification that fails. *)
Definition made_run : ActionRun.t :=
  SimulatedActionGateway.simulated_run
    (change_envelope held its_action (demo_action_key held its_action its_approval false)
       (demo_fingerprint held its_action its_approval false) 0) its_action
    (default 0 (ActionRun.finished_at its_run)).
Definition made_verification : VerificationRun.t :=
  LocalVerificationGateway.concluded
    (pending_verification held made_run (chain_verification_id its_chain)
       (demo_fingerprint held its_action its_approval false) false) VerificationStatus.FAILED
    (default 0 (VerificationRun.finished_at its_verification)).
Definition reopened_as_made : Prop :=
  ( outcome (project the_id w "REOPENED"), is_ok (project the_id w "REOPENED"),
    outcome (project the_id w "RESOLVED"), key_at (audit_trail w) 6, key_at (audit_trail w) 7,
    Incident.action_runs held, Incident.verification_runs held )
  = ( "LOCAL_SIMULATION_REOPENED"%string, true, "INCIDENT_CONTRACT_MISMATCH"%string,
      Some (demo_action_key held its_action its_approval false),
      Some (GovernanceBase.step_key
        (execute_key (local_stack_roots (Incident.incident_id held))) "verify"
        [JStr (demo_fingerprint held its_action its_approval false)]),
      [made_run], [made_verification] ).
End held.

(** A lifecycle that was verified is projected. *)
Example projected_passed : outcome (projection true "RESOLVED") = "LOCAL_SIMULATION_RESOLVED".
Proof. vm_compute. reflexivity. Qed.
(** One that was not is projected as what it is and not as the other, and holds
    the records that the gateways make. *)
Lemma projected_reopened : reopened_as_made (final false).
Proof. vm_compute. reflexivity. Qed.

Lemma projected_lifecycle_witness :
  ∃ i run, governed (final false) = Some i ∧ Incident.action_runs i = [run] ∧ ActionRun.attempt run = 1.
Proof.
  pose proof projected_reopened as H. revert H. generalize (final false). intros w [= _ Hok _ _ _ _ _].
  unfold project in Hok. unfold governed.
  destruct (incidents (store w) !! the_id) as [i|]; [|discriminate Hok].
  destruct (build_lifecycle_projection i (audit_trail w) "REOPENED") as [p|] eqn:Hp;
    [|discriminate Hok].
  destruct (projected_lifecycle _ _ _ _ Hp) as (? & ? & ? & ? & ? & run & ? & H).
  destruct_and! H. by exists i, run.
Defined.

Lemma gateway_records_accepted_witness :
  let w := final false in
  validate_action_run (held w) (its_action w) (audit_trail w) (its_chain w) = Ok (made_run w) ∧
  validate_verification (held w) (made_run w) (its_chain w) (audit_trail w) VerificationStatus.FAILED
    = Ok (made_verification w).
Proof.
  pose proof projected_reopened as H. revert H. generalize (final false).
  intros w [= _ _ _ Hkey Hverify Hruns Hvs]. cbv zeta.
  destruct (gateway_records_accepted (held w) (held w) (its_report w) (its_action w) (its_approval w)
    (audit_trail w) IncidentStatus.REOPENED 0 (default 0 (ActionRun.finished_at (its_run w)))
    (default 0 (VerificationRun.finished_at (its_verification w))) eq_refl Hkey Hverify)
    as [Hrun Hv].
  split; [apply Hrun, Hruns|apply Hv, Hvs].
Defined.

(** ** The calls of the demo, one by one *)

(** The Incident of [GovernanceWorld], governed with the keys of the demo. *)
Definition demo_roots : Roots := local_stack_roots "inc-1".
Definition demo_prepare : Call :=
  Prepare "inc-1" (prepare_key demo_roots) "local-governance" 900000000.
Definition asked_world : World := (sample_perform demo_prepare w_created).2.
Definition demo_hash : string :=
  default EmptyString (i ← incidents (store asked_world) !! "inc-1"%string; r ← latest_report i;
    RemediationAction.action_hash <$> head (RcaReport.recommendations r)).
Definition demo_calls : list Call :=
  [ demo_prepare;
    Decide "inc-1" true demo_hash 4 "local-stack-operator" APPROVAL_REASON (decision_key demo_roots);
    Execute "inc-1" (execute_key demo_roots) "local-simulator" true ].
Definition demo_world (n : nat) : World :=
  perform_all GovernanceWorld.quiet GovernanceWorld.wall GovernanceWorld.wall analyst
    (take n demo_calls) w_created.

#[local] Existing Instance sample_repository.
#[local] Existing Instance sample_clock.
#[local] Existing Instance sample_gateway.
#[local] Existing Instance sample_laws.
Lemma demo_sane n : sane (demo_world n).
Proof.
  assert (Forall call_texts (take n demo_calls)) as Ht
    by (apply Forall_take; repeat constructor; by apply utf8b_utf8).
  pose proof (perform_all_later GovernanceWorld.quiet GovernanceWorld.wall GovernanceWorld.wall analyst
    GovernanceWorld.quiet_texts _ _ Ht created_inv) as [Hl _].
  exact (effects_inv _ _ Hl created_inv).
Qed.
Lemma demo_returns :
  forallb (λ n, match demo_calls !! n with
                | Some c => is_ok (sample_perform c (demo_world n)).1
                | None => false
                end) [0; 1; 2]%nat = true.
Proof. vm_compute. reflexivity. Qed.

Lemma demo_call n c : demo_calls !! n = Some c → (n < 3)%nat →
  ∃ w g w', sane w ∧ sample_perform c w = (Ok g, w').
Proof.
  intros Hc Hn. pose proof demo_returns as H. rewrite forallb_forall in H.
  specialize (H n). rewrite Hc in H. exists (demo_world n). pose proof (demo_sane n) as Hs.
  destruct (sample_perform c (demo_world n)) as [[g|e] w]; [by exists g, w|].
  discriminate H. destruct n as [|[|[|]]]; cbn; [tauto..|lia].
Qed.

Lemma chain_follows_engine_witness :
  (∃ w g w', prepare_follows "inc-1" w g w') ∧
  (∃ w g w', decide_follows "inc-1" demo_hash w g w') ∧
  (∃ w g w', execute_follows "inc-1" true w g w').
Proof.
  assert (py_strip "inc-1" = "inc-1"%string) as Hid by (vm_compute; reflexivity).
  split; [|split].
  - destruct (demo_call 0 _ eq_refl) as (w & g & w' & Hs & H); [lia|]. exists w, g, w'.
    destruct (chain_follows_engine "inc-1" w g w' Hs Hid) as [Hp _]. apply Hp. exact H.
  - destruct (demo_call 1 _ eq_refl) as (w & g & w' & Hs & H); [lia|]. exists w, g, w'.
    destruct (chain_follows_engine "inc-1" w g w' Hs Hid) as (_ & Hd & _). apply Hd. exact H.
  - destruct (demo_call 2 _ eq_refl) as (w & g & w' & Hs & H); [lia|]. exists w, g, w'.
    destruct (chain_follows_engine "inc-1" w g w' Hs Hid) as (_ & _ & He). apply He. exact H.
Defined.
