(* ===== verification/LabEpisodes.v ===== *)
(** * Episodes of the dataset laboratory (telco_lab/schema.py)

    The intervals that a dataset labels, those that a detector predicts, and the
    report of their comparison, each with the tests of its validators.  The
    identifier of an episode is the digest of its content. *)

From Stdlib Require Import Ascii String.
From S2P Require Import Prelude PyStr Json Privacy Models.
From S2P Require Import PyEq.
From S2P Require Import Rules.
From S2P Require GovernanceBase.
From S2P Require Import PyFormat.

Definition LAB_SCHEMA_VERSION : string := "1.0".
Definition MAX_EPISODE_FEATURES : nat := 32.
Definition MAX_BUNDLE_OBSERVATIONS : Z := 50000.
Definition MAX_BUNDLE_EPISODES : Z := 10000.
Definition MAX_EPISODE_SERIALIZED_BYTES : Z := 16 * 1024.

(** ** Texts *)

(** [text] begins with one of [prefixes]; what follows it satisfies [rest]. *)
Definition after_one_of (prefixes : list string) (rest : string → bool) (text : string) : bool :=
  existsb (λ p, String.prefix p text &&
    rest (substring (String.length p) (String.length text - String.length p) text)) prefixes.
Definition hex_digits (n : nat) (text : string) : bool :=
  Nat.eqb (String.length text) n && string_forall is_lower_hex text.

(** [ContentId], [SafeName], [LabResourceId], [MetricName]. *)
Definition content_id (text : string) : bool :=
  after_one_of ["labobs-"; "labtruth-"; "labpred-"; "labbundle-"; "labeval-"]%string
    (hex_digits 64) text.
Definition alphanumeric (c : ascii) : bool := is_digit c || is_lower c || is_upper c.
Definition safe_name (text : string) : bool :=
  match text with
  | EmptyString => false
  | String c rest =>
      alphanumeric c
      && string_forall (λ c, alphanumeric c || bool_decide (c ∈ ["."; "_"; ":"; "-"]%char)) rest
      && (Z.of_nat (String.length text) <=? 128)
  end.
Definition lab_resource_id (text : string) : bool :=
  after_one_of ["lab:lte:"; "lab:5g-nsa:"; "lab:5g-sa:"]%string
    (after_one_of ["enodeb:"; "gnb:"; "cell:"]%string (hex_digits 24)) text.
(** [(?:[._][a-z0-9]+)*] after letters and digits; [separated] just after a
    separator. *)
Fixpoint metric_rest (separated : bool) (text : string) : bool :=
  match text with
  | EmptyString => negb separated
  | String c rest =>
      if is_digit c || is_lower c then metric_rest false rest
      else bool_decide (c ∈ ["."; "_"]%char) && negb separated && metric_rest true rest
  end.
Definition metric_name (text : string) : bool :=
  match text with
  | EmptyString => false
  | String c rest =>
      is_lower c && metric_rest false rest && (Z.of_nat (String.length text) <=? 128)
  end.
Definition EPISODE_LABEL : string := "persistent_interference".

Section lab.
Context `{Runtime}.

(** [stable_content_id]. *)
Definition stable_content_id (prefix : string) (value : json) : string :=
  "lab" +:+ prefix +:+ "-" +:+
  sha256_hex ("telco-lab:" +:+ LAB_SCHEMA_VERSION +:+ ":" +:+ prefix
              +:+ String "000"%char (dumps value)).
(** [_privacy_safe], and [len(canonical_json_bytes(self))]. *)
Definition privacy_safe (value : json) : bool :=
  match find_sensitive_paths value "$" with [] => true | _ => false end.
Definition serialized_bytes (value : json) : Z := Z.of_nat (String.length (dumps value)).
End lab.

(** [int(timedelta.total_seconds())] of a nonnegative duration. *)
Definition whole_seconds (microseconds : Z) : Z :=
  let s := GovernanceBase.total_seconds microseconds in
  if 0 <=? f_expo s then Z.of_N (f_mant s) * 2 ^ f_expo s
  else Z.of_N (f_mant s) / 2 ^ (- f_expo s).

(** ** [LabEpisode] *)

Module LabEpisode.
Record t := mk {
  episode_id : string;
  dataset_id : string;
  dataset_version : string;
  source_artifact_sha256 : string;
  resource_id : string;
  label : string;
  window_start : Z;
  window_end : Z;
  sample_count : Z;
  first_observation_id : string;
  last_observation_id : string
}.
#[global] Instance eq_dec : EqDecision t.
Proof. solve_decision. Defined.

Section episode.
Context `{Runtime}.

Definition identity (e : t) : json :=
  JObj [ ("dataset_id", JStr (dataset_id e)); ("dataset_version", JStr (dataset_version e));
         ("first_observation_id", JStr (first_observation_id e)); ("label", JStr (label e));
         ("last_observation_id", JStr (last_observation_id e));
         ("resource_id", JStr (resource_id e)); ("sample_count", JInt (sample_count e));
         ("source_artifact_sha256", JStr (source_artifact_sha256 e));
         ("window_end", JStr (isoformat (window_end e)));
         ("window_start", JStr (isoformat (window_start e))) ].
Definition to_json (e : t) : json :=
  JObj [ ("dataset_id", JStr (dataset_id e)); ("dataset_version", JStr (dataset_version e));
         ("episode_id", JStr (episode_id e));
         ("first_observation_id", JStr (first_observation_id e)); ("label", JStr (label e));
         ("last_observation_id", JStr (last_observation_id e)); ("origin", JStr "GROUND_TRUTH");
         ("resource_id", JStr (resource_id e)); ("sample_count", JInt (sample_count e));
         ("schema_version", JStr LAB_SCHEMA_VERSION);
         ("source_artifact_sha256", JStr (source_artifact_sha256 e));
         ("window_end", JStr (isoformat (window_end e)));
         ("window_start", JStr (isoformat (window_start e))) ].

(** The fields, [_privacy_safe] and [_validate_contiguous_window]. *)
Definition check (e : t) : result string unit :=
  throw_if (negb (content_id (episode_id e))) "episode_id" ≫= λ _,
  throw_if (negb (safe_name (dataset_id e))) "dataset_id" ≫= λ _,
  throw_if (negb (safe_name (dataset_version e))) "dataset_version" ≫= λ _,
  throw_if (negb (is_hex64 (source_artifact_sha256 e))) "source_artifact_sha256" ≫= λ _,
  throw_if (negb (lab_resource_id (resource_id e))) "resource_id" ≫= λ _,
  throw_if (negb (str_eqb (label e) EPISODE_LABEL)) "label" ≫= λ _,
  throw_if (negb ((1 <=? sample_count e) && (sample_count e <=? MAX_BUNDLE_OBSERVATIONS)))
    "sample_count" ≫= λ _,
  throw_if (negb (content_id (first_observation_id e))) "first_observation_id" ≫= λ _,
  throw_if (negb (content_id (last_observation_id e))) "last_observation_id" ≫= λ _,
  throw_if (negb (privacy_safe (to_json e))) "Raw subscriber identifiers are not allowed" ≫= λ _,
  throw_if (window_end e <? window_start e)
    "episode window_end must not precede window_start" ≫= λ _,
  throw_if (negb (whole_seconds (window_end e - window_start e) + 1 =? sample_count e))
    "ground-truth episode samples must be one-second contiguous" ≫= λ _,
  throw_if (MAX_EPISODE_SERIALIZED_BYTES <? serialized_bytes (to_json e))
    "lab episode exceeds its serialized size budget" ≫= λ _,
  throw_if (negb (str_eqb (stable_content_id "truth" (identity e)) (episode_id e)))
    "episode content identifier does not match content".
End episode.
End LabEpisode.

(** ** [PredictedEpisode] *)

Module PredictedEpisode.
Record t := mk {
  prediction_id : string;
  dataset_id : string;
  dataset_version : string;
  source_artifact_sha256 : string;
  source_item_number : Z;
  resource_id : string;
  label : string;
  window_start : Z;
  window_end : Z;
  detected_at : Z;
  detector_id : string;
  score : pyfloat;
  features : list string
}.
#[global] Instance eq_dec : EqDecision t.
Proof. solve_decision. Defined.

Section prediction.
Context `{Runtime}.

Definition identity (p : t) : json :=
  JObj [ ("dataset_id", JStr (dataset_id p)); ("dataset_version", JStr (dataset_version p));
         ("detected_at", JStr (isoformat (detected_at p))); ("detector_id", JStr (detector_id p));
         ("features", json_list JStr (features p)); ("label", JStr (label p));
         ("resource_id", JStr (resource_id p)); ("score", JFloat (score p));
         ("source_artifact_sha256", JStr (source_artifact_sha256 p));
         ("source_item_number", JInt (source_item_number p));
         ("window_end", JStr (isoformat (window_end p)));
         ("window_start", JStr (isoformat (window_start p))) ].
Definition to_json (p : t) : json :=
  JObj [ ("dataset_id", JStr (dataset_id p)); ("dataset_version", JStr (dataset_version p));
         ("detected_at", JStr (isoformat (detected_at p))); ("detector_id", JStr (detector_id p));
         ("features", json_list JStr (features p)); ("label", JStr (label p));
         ("origin", JStr "PREDICTION"); ("prediction_id", JStr (prediction_id p));
         ("resource_id", JStr (resource_id p)); ("schema_version", JStr LAB_SCHEMA_VERSION);
         ("score", JFloat (score p));
         ("source_artifact_sha256", JStr (source_artifact_sha256 p));
         ("source_item_number", JInt (source_item_number p));
         ("window_end", JStr (isoformat (window_end p)));
         ("window_start", JStr (isoformat (window_start p))) ].

(** The fields, [_privacy_safe] and [_validate_prediction]. *)
Definition check (p : t) : result string unit :=
  throw_if (negb (content_id (prediction_id p))) "prediction_id" ≫= λ _,
  throw_if (negb (safe_name (dataset_id p))) "dataset_id" ≫= λ _,
  throw_if (negb (safe_name (dataset_version p))) "dataset_version" ≫= λ _,
  throw_if (negb (is_hex64 (source_artifact_sha256 p))) "source_artifact_sha256" ≫= λ _,
  throw_if (negb ((1 <=? source_item_number p) && (source_item_number p <=? 1000000)))
    "source_item_number" ≫= λ _,
  throw_if (negb (lab_resource_id (resource_id p))) "resource_id" ≫= λ _,
  throw_if (negb (str_eqb (label p) EPISODE_LABEL)) "label" ≫= λ _,
  throw_if (negb (safe_name (detector_id p))) "detector_id" ≫= λ _,
  throw_if (negb (float_leb (PyFloat false 0 0) (score p))) "score" ≫= λ _,
  throw_if (negb (forallb metric_name (features p)
                  && Nat.leb (length (features p)) MAX_EPISODE_FEATURES)) "features" ≫= λ _,
  throw_if (negb (privacy_safe (to_json p))) "Raw subscriber identifiers are not allowed" ≫= λ _,
  throw_if (window_end p <? window_start p)
    "prediction window_end must not precede window_start" ≫= λ _,
  throw_if (detected_at p <? window_end p)
    "prediction detected_at must not precede window_end" ≫= λ _,
  throw_if (negb (bool_decide (features p = py_sorted String.leb (distinct (features p)))))
    "prediction features must be unique and sorted" ≫= λ _,
  throw_if (MAX_EPISODE_SERIALIZED_BYTES <? serialized_bytes (to_json p))
    "predicted episode exceeds its serialized size budget" ≫= λ _,
  throw_if (negb (str_eqb (stable_content_id "pred" (identity p)) (prediction_id p)))
    "prediction content identifier does not match content".
End prediction.
End PredictedEpisode.

(** ** [EpisodeMatch] and [EpisodeEvaluation] *)

Definition fraction_check (x : pyfloat) : bool :=
  float_leb (PyFloat false 0 0) x && float_leb x (PyFloat false 1 0).

Module EpisodeMatch.
Record t := mk {
  ground_truth_episode_id : string;
  prediction_id : string;
  temporal_iou : pyfloat
}.
#[global] Instance eq_dec : EqDecision t.
Proof. solve_decision. Defined.
Definition to_json (m : t) : json :=
  JObj [ ("ground_truth_episode_id", JStr (ground_truth_episode_id m));
         ("prediction_id", JStr (prediction_id m));
         ("schema_version", JStr LAB_SCHEMA_VERSION);
         ("temporal_iou", JFloat (temporal_iou m)) ].
Definition check `{Runtime} (m : t) : result string unit :=
  throw_if (negb (content_id (ground_truth_episode_id m))) "ground_truth_episode_id" ≫= λ _,
  throw_if (negb (content_id (prediction_id m))) "prediction_id" ≫= λ _,
  throw_if (negb (fraction_check (temporal_iou m))) "temporal_iou" ≫= λ _,
  throw_if (negb (privacy_safe (to_json m))) "Raw subscriber identifiers are not allowed".
End EpisodeMatch.

Module EpisodeEvaluation.
Record t := mk {
  evaluation_id : string;
  overlap_threshold : pyfloat;
  ground_truth_count : Z;
  prediction_count : Z;
  true_positives : Z;
  false_positives : Z;
  false_negatives : Z;
  precision : pyfloat;
  recall : pyfloat;
  f1 : pyfloat;
  duration_precision : pyfloat;
  duration_recall : pyfloat;
  duration_f1 : pyfloat;
  mean_matched_iou : pyfloat;
  matches : list EpisodeMatch.t
}.
#[global] Instance eq_dec : EqDecision t.
Proof. solve_decision. Defined.

Definition to_json (e : t) : json :=
  JObj [ ("algorithm", JStr "temporal-iou-one-to-one-v1");
         ("duration_f1", JFloat (duration_f1 e));
         ("duration_precision", JFloat (duration_precision e));
         ("duration_recall", JFloat (duration_recall e));
         ("evaluation_id", JStr (evaluation_id e)); ("f1", JFloat (f1 e));
         ("false_negatives", JInt (false_negatives e));
         ("false_positives", JInt (false_positives e));
         ("ground_truth_count", JInt (ground_truth_count e));
         ("matches", json_list EpisodeMatch.to_json (matches e));
         ("mean_matched_iou", JFloat (mean_matched_iou e));
         ("overlap_threshold", JFloat (overlap_threshold e));
         ("precision", JFloat (precision e)); ("prediction_count", JInt (prediction_count e));
         ("recall", JFloat (recall e)); ("schema_version", JStr LAB_SCHEMA_VERSION);
         ("true_positives", JInt (true_positives e)) ].

(** The fields, [_privacy_safe] and [_validate_confusion_counts]. *)
Definition count_check (n : Z) : bool := (0 <=? n) && (n <=? MAX_BUNDLE_EPISODES).
Definition check `{Runtime} (e : t) : result string unit :=
  throw_if (negb (content_id (evaluation_id e))) "evaluation_id" ≫= λ _,
  throw_if (negb (fraction_check (overlap_threshold e)
                  && negb (float_leb (overlap_threshold e) (PyFloat false 0 0))))
    "overlap_threshold" ≫= λ _,
  throw_if (negb (count_check (ground_truth_count e))) "ground_truth_count" ≫= λ _,
  throw_if (negb (count_check (prediction_count e))) "prediction_count" ≫= λ _,
  throw_if (negb (forallb (Z.leb 0) [true_positives e; false_positives e; false_negatives e]))
    "counts" ≫= λ _,
  throw_if (negb (forallb fraction_check
    [ precision e; recall e; f1 e; duration_precision e; duration_recall e; duration_f1 e;
      mean_matched_iou e ])) "metrics" ≫= λ _,
  throw_if (MAX_BUNDLE_EPISODES <? Z.of_nat (length (matches e))) "matches" ≫= λ _,
  for_each EpisodeMatch.check (matches e) ≫= λ _,
  throw_if (negb (privacy_safe (to_json e))) "Raw subscriber identifiers are not allowed" ≫= λ _,
  throw_if (negb (true_positives e + false_negatives e =? ground_truth_count e))
    "evaluation ground-truth counts are inconsistent" ≫= λ _,
  throw_if (negb (true_positives e + false_positives e =? prediction_count e))
    "evaluation prediction counts are inconsistent" ≫= λ _,
  throw_if (negb (Z.of_nat (length (matches e)) =? true_positives e))
    "evaluation matches do not equal true positives" ≫= λ _,
  throw_if (has_duplicates (map EpisodeMatch.ground_truth_episode_id (matches e))
            || has_duplicates (map EpisodeMatch.prediction_id (matches e)))
    "evaluation matches must be one-to-one".
End EpisodeEvaluation.
