(* ===== verification/LabEvaluation.v ===== *)
(** * Evaluation of a detector against labels (telco_lab/evaluation.py)

    [evaluate_episodes]: the pairs of a labelled and a predicted interval that
    overlap enough, found by a sweep over the ends of the intervals; the
    one-to-one matching made of them, the best first; and the counts and
    durations of the report, in the double precision of the code. *)

From Stdlib Require Import Ascii String.
From S2P Require Import Prelude PyStr Json Models.
From S2P Require Import PyEq.
From S2P Require GovernanceBase.
From S2P Require Import Rules.
From S2P Require Import RuleResolution.
From S2P Require Import Detector.
From S2P Require Import PyFormat.
From S2P Require Import LabEpisodes.

Definition MAX_EVALUATION_CANDIDATES : Z := 100000.

(** What the evaluation raises: an [EvaluationError] with its code, or the
    [ValidationError] of a model of the report, or, for an integer that no
    double can hold, an [OverflowError]. *)
Inductive error :=
| EvaluationError (code : string)
| IntegerOverflow
| ReportError (check : string).

(** ** Doubles *)

Definition zero : pyfloat := PyFloat false 0 0.
Definition one : pyfloat := PyFloat false 1 0.
Definition is_zero (x : pyfloat) : bool := (f_mant x =? 0)%N.
Definition float_of_int (n : Z) : pyfloat := quotient (n <? 0) (Z.abs n) 1 0.
(** [x + y], [x - y] and [abs(x)]. *)
Definition float_add (x y : pyfloat) : pyfloat :=
  let e := Z.min (f_expo x) (f_expo y) in
  let total := f_signed x e + f_signed y e in
  quotient (total <? 0) (Z.abs total) 1 e.
Definition float_sub (x y : pyfloat) : pyfloat :=
  float_add x (PyFloat (negb (f_neg y)) (f_mant y) (f_expo y)).
Definition float_abs (x : pyfloat) : pyfloat := PyFloat false (f_mant x) (f_expo x).
(** [sum(values)] of doubles: a compensated sum. *)
Definition compensated (state : pyfloat * pyfloat) (x : pyfloat) : pyfloat * pyfloat :=
  let (s, c) := state in
  let t := float_add s x in
  (t, float_add c (if float_leb (float_abs x) (float_abs s)
                   then float_add (float_sub s t) x
                   else float_add (float_sub x t) s)).
Definition float_sum (values : list pyfloat) : pyfloat :=
  let (s, c) := fold_left compensated values (zero, zero) in
  if is_zero c then s else float_add s c.
(** [_rounded]: [round(x, 12)]. *)
Definition rounded (x : pyfloat) : pyfloat := quotient (f_neg x) (scaled x 12) (10 ^ 12) 0.

(** ** Intervals *)

(** [_inclusive_interval]: one second after the inclusive end. *)
Definition inclusive_interval (window_start window_end : Z) : Z * Z :=
  (window_start, window_end + 1000000).
Definition truth_interval (t : LabEpisode.t) : Z * Z :=
  inclusive_interval (LabEpisode.window_start t) (LabEpisode.window_end t).
Definition prediction_interval (p : PredictedEpisode.t) : Z * Z :=
  inclusive_interval (PredictedEpisode.window_start p) (PredictedEpisode.window_end p).
(** The part that two intervals have in common, and its length. *)
Definition common (a b : Z * Z) : Z * Z := (Z.max a.1 b.1, Z.min a.2 b.2).
Definition extent (a : Z * Z) : Z := Z.max 0 (a.2 - a.1).

(** The group of an episode: its resource and label. *)
Definition truth_group (t : LabEpisode.t) : string * string :=
  (LabEpisode.resource_id t, LabEpisode.label t).
Definition prediction_group (p : PredictedEpisode.t) : string * string :=
  (PredictedEpisode.resource_id p, PredictedEpisode.label p).

(** [temporal_iou]. *)
Definition temporal_iou (truth : LabEpisode.t) (prediction : PredictedEpisode.t) : pyfloat :=
  if negb (bool_decide (truth_group truth = prediction_group prediction)) then zero
  else
    let a := truth_interval truth in
    let b := prediction_interval prediction in
    let intersection_seconds := GovernanceBase.total_seconds (extent (common a b)) in
    if is_zero intersection_seconds then zero
    else float_quotient intersection_seconds
           (GovernanceBase.total_seconds (Z.max a.2 b.2 - Z.min a.1 b.1)).

(** [_metric], [_f1]. *)
Definition metric (numerator denominator : pyfloat) (both_empty : bool) : pyfloat :=
  if is_zero denominator then if both_empty then one else zero
  else float_quotient numerator denominator.
Definition f1_of (precision recall : pyfloat) : pyfloat :=
  if is_zero (float_add precision recall) then zero
  else float_quotient (float_mul (float_mul (PyFloat false 1 1) precision) recall)
         (float_add precision recall).

(** [_merged_intervals]: the intervals of each group, in the order in which the
    groups were first seen. *)
Definition interval_leb (a b : Z * Z) : bool :=
  (a.1 <? b.1) || (a.1 =? b.1) && (a.2 <=? b.2).
(** The loop over the sorted intervals, with the last merged one at hand. *)
Fixpoint merge_from (last : Z * Z) (intervals : list (Z * Z)) : list (Z * Z) :=
  match intervals with
  | [] => [last]
  | a :: intervals =>
      if last.2 <? a.1 then last :: merge_from a intervals
      else merge_from (last.1, Z.max last.2 a.2) intervals
  end.
Definition merge (intervals : list (Z * Z)) : list (Z * Z) :=
  match py_sorted interval_leb intervals with
  | [] => []
  | a :: intervals => merge_from a intervals
  end.
Definition merged_intervals {A} (group : A → string * string) (interval : A → Z * Z)
    (episodes : list A) : list ((string * string) * list (Z * Z)) :=
  map (λ g, (g.1, merge (map interval g.2))) (grouped_by group episodes).

(** [_total_seconds]. *)
Definition total_seconds (groups : list ((string * string) * list (Z * Z))) : pyfloat :=
  float_sum (map (λ a, GovernanceBase.total_seconds (a.2 - a.1)) (List.concat (map snd groups))).

(** [_intersection_seconds]: what the two pointers have in common at each step,
    and the sum of its lengths over the groups in order. *)
Fixpoint overlaps (xs : list (Z * Z)) : list (Z * Z) → list (Z * Z) :=
  match xs with
  | [] => λ _, []
  | x :: xs' =>
      fix go (ys : list (Z * Z)) : list (Z * Z) :=
        match ys with
        | [] => []
        | y :: ys' => common x y :: if x.2 <=? y.2 then overlaps xs' ys else go ys'
        end
  end.
Definition intervals_of (group : string * string)
    (groups : list ((string * string) * list (Z * Z))) : list (Z * Z) :=
  default [] (snd <$> next_such (λ g, bool_decide (g.1 = group)) groups).
Definition common_parts (truth predictions : list ((string * string) * list (Z * Z))) :
    list (Z * Z) :=
  let keys := List.filter (λ g, bool_decide (g ∈ map fst predictions)) (map fst truth) in
  List.concat (map (λ g, overlaps (intervals_of g truth) (intervals_of g predictions))
            (py_sorted identity_leb keys)).
Definition intersection_seconds (truth predictions : list ((string * string) * list (Z * Z))) :
    pyfloat :=
  fold_left (λ s a, float_add s (GovernanceBase.total_seconds (extent a)))
    (common_parts truth predictions) zero.

(** ** The candidates *)

(** A candidate: its overlap, the two identifiers, and the two episodes. *)
Record Candidate := mk_candidate {
  overlap : pyfloat;
  truth_id : string;
  prediction_id : string;
  the_truth : LabEpisode.t;
  the_prediction : PredictedEpisode.t
}.
#[export] Instance candidate_eq_dec : EqDecision Candidate.
Proof. solve_decision. Defined.

(** The ends of an interval: at an instant first the ends (phase 0), then the
    starts of labels (1), then those of predictions (2). *)
Inductive Item := Truth (t : LabEpisode.t) | Prediction (p : PredictedEpisode.t).
#[export] Instance item_eq_dec : EqDecision Item.
Proof. solve_decision. Defined.
Record Event := mk_event { instant : Z; phase : Z; item_id : string; item : Item }.
#[export] Instance event_eq_dec : EqDecision Event.
Proof. solve_decision. Defined.
Definition event_leb (a b : Event) : bool :=
  if instant a =? instant b then
    if phase a =? phase b then String.leb (item_id a) (item_id b) else phase a <=? phase b
  else instant a <=? instant b.

Definition truth_start (t : LabEpisode.t) : Event :=
  mk_event (truth_interval t).1 1 (LabEpisode.episode_id t) (Truth t).
Definition truth_end (t : LabEpisode.t) : Event :=
  mk_event (truth_interval t).2 0 (LabEpisode.episode_id t) (Truth t).
Definition prediction_start (p : PredictedEpisode.t) : Event :=
  mk_event (prediction_interval p).1 2 (PredictedEpisode.prediction_id p) (Prediction p).
Definition prediction_end (p : PredictedEpisode.t) : Event :=
  mk_event (prediction_interval p).2 0 (PredictedEpisode.prediction_id p) (Prediction p).
Definition events_of (truths : list LabEpisode.t) (predictions : list PredictedEpisode.t) :
    list Event :=
  py_sorted event_leb
    (List.concat (map (λ t, [truth_end t; truth_start t]) truths)
     ++ List.concat (map (λ p, [prediction_end p; prediction_start p]) predictions)).

(** The state of the loop: the open intervals, the pairs compared so far, and
    the candidates. *)
Record Sweep := mk_sweep {
  active_truth : gmap string LabEpisode.t;
  active_predictions : gmap string PredictedEpisode.t;
  evaluated_pairs : Z;
  candidates : list Candidate
}.

(** The values of a dictionary, in the order of its sorted keys. *)
Definition sorted_values {A} (m : gmap string A) : list A :=
  omap (λ k, m !! k) (py_sorted String.leb (elements (dom m))).

(** [consider]. *)
Definition consider (threshold : pyfloat) (s : Sweep) (pair : LabEpisode.t * PredictedEpisode.t) :
    result error Sweep :=
  let (truth, prediction) := pair in
  throw_if (MAX_EVALUATION_CANDIDATES <=? evaluated_pairs s)
    (EvaluationError "evaluation_limit_exceeded") ≫= λ _,
  let overlap := temporal_iou truth prediction in
  Ok (mk_sweep (active_truth s) (active_predictions s) (evaluated_pairs s + 1)
        (if float_leb threshold overlap
         then candidates s ++
              [mk_candidate overlap (LabEpisode.episode_id truth)
                 (PredictedEpisode.prediction_id prediction) truth prediction]
         else candidates s)).
Fixpoint consider_all (threshold : pyfloat) (pairs : list (LabEpisode.t * PredictedEpisode.t))
    (s : Sweep) : result error Sweep :=
  match pairs with
  | [] => Ok s
  | first :: pairs => consider threshold s first ≫= λ s, consider_all threshold pairs s
  end.

(** The pairs that an event makes with the open intervals. *)
Definition pairs_at (s : Sweep) (e : Event) : list (LabEpisode.t * PredictedEpisode.t) :=
  if phase e =? 0 then []
  else match item e with
       | Truth t => map (λ p, (t, p)) (sorted_values (active_predictions s))
       | Prediction p => map (λ t, (t, p)) (sorted_values (active_truth s))
       end.
(** The intervals open after an event. *)
Definition opened (e : Event) (s : Sweep) : Sweep :=
  match item e with
  | Truth t =>
      mk_sweep (if phase e =? 0 then delete (item_id e) (active_truth s)
                else <[item_id e := t]> (active_truth s))
        (active_predictions s) (evaluated_pairs s) (candidates s)
  | Prediction p =>
      mk_sweep (active_truth s)
        (if phase e =? 0 then delete (item_id e) (active_predictions s)
         else <[item_id e := p]> (active_predictions s))
        (evaluated_pairs s) (candidates s)
  end.
Fixpoint sweep (threshold : pyfloat) (events : list Event) (s : Sweep) : result error Sweep :=
  match events with
  | [] => Ok s
  | e :: events =>
      consider_all threshold (pairs_at s e) s ≫= λ s, sweep threshold events (opened e s)
  end.

(** [_candidate_matches]: group by group, in order. *)
Fixpoint sweep_groups (threshold : pyfloat) (truths : list LabEpisode.t)
    (predictions : list PredictedEpisode.t) (groups : list (string * string)) (evaluated : Z)
    (found : list Candidate) : result error (list Candidate) :=
  match groups with
  | [] => Ok found
  | g :: groups =>
      sweep threshold
        (events_of (filter (λ t, truth_group t = g) truths)
                   (filter (λ p, prediction_group p = g) predictions))
        (mk_sweep ∅ ∅ evaluated found) ≫= λ s,
      sweep_groups threshold truths predictions groups (evaluated_pairs s) (candidates s)
  end.
Definition candidate_matches (truths : list LabEpisode.t) (predictions : list PredictedEpisode.t)
    (threshold : pyfloat) : result error (list Candidate) :=
  sweep_groups threshold truths predictions
    (py_sorted identity_leb (distinct (map truth_group truths ++ map prediction_group predictions)))
    0 [].

(** ** The matching *)

(** [key=lambda item: (-item[0], item[1], item[2])]. *)
Definition candidate_leb (a b : Candidate) : bool :=
  if float_eqb (overlap a) (overlap b)
  then identity_leb (truth_id a, prediction_id a) (truth_id b, prediction_id b)
  else float_leb (overlap b) (overlap a).
(** The candidates that are taken: the first one of each label and prediction. *)
Fixpoint selected (matched_truth matched_predictions : gset string) (cs : list Candidate) :
    list Candidate :=
  match cs with
  | [] => []
  | c :: cs =>
      if bool_decide (truth_id c ∈ matched_truth ∨ prediction_id c ∈ matched_predictions)
      then selected matched_truth matched_predictions cs
      else c :: selected ({[truth_id c]} ∪ matched_truth)
                  ({[prediction_id c]} ∪ matched_predictions) cs
  end.
Definition match_of (c : Candidate) : EpisodeMatch.t :=
  EpisodeMatch.mk (truth_id c) (prediction_id c) (rounded (overlap c)).
Definition match_ids (m : EpisodeMatch.t) : string * string :=
  (EpisodeMatch.ground_truth_episode_id m, EpisodeMatch.prediction_id m).
Definition match_leb (a b : EpisodeMatch.t) : bool := identity_leb (match_ids a) (match_ids b).

(** ** The report *)

Section evaluation.
Context `{Runtime}.

(** The arguments: [overlap_threshold], and a sequence of any objects. *)
Inductive Argument := Sequence (items : list (option Item)) | NotASequence.
Definition bounded_sequence {A} (expected : Item → option A) (value : Argument) :
    result error (list A) :=
  match value with
  | NotASequence => Err (EvaluationError "evaluation_invalid_input")
  | Sequence items =>
      throw_if (MAX_BUNDLE_EPISODES <? Z.of_nat (length items))
        (EvaluationError "evaluation_limit_exceeded") ≫= λ _,
      of_option (mapM (λ o, o ≫= expected) items) (EvaluationError "evaluation_type_confusion")
  end.
Definition as_truth (i : Item) : option LabEpisode.t :=
  match i with Truth t => Some t | Prediction _ => None end.
Definition as_prediction (i : Item) : option PredictedEpisode.t :=
  match i with Prediction p => Some p | Truth _ => None end.
Definition as_threshold (value : json) : result error pyfloat :=
  let invalid := EvaluationError "evaluation_invalid_input" in
  let bounded f := throw_if (negb (negb (float_leb f zero) && float_leb f one)) invalid
                   ≫= λ _, Ok f in
  match value with
  | JInt n =>
      throw_if (too_large (float_of_int n)) IntegerOverflow ≫= λ _, bounded (float_of_int n)
  | JFloat f => bounded f
  | _ => Err invalid
  end.

(** The report, before its identifier. *)
Definition report_payload (truths : list LabEpisode.t) (predictions : list PredictedEpisode.t)
    (threshold : pyfloat) (matches : list EpisodeMatch.t) (evaluation_id : string) :
    EpisodeEvaluation.t :=
  let n := Z.of_nat (length truths) in
  let m := Z.of_nat (length predictions) in
  let true_positives := Z.of_nat (length matches) in
  let both_empty := (n =? 0) && (m =? 0) in
  let precision := metric (float_of_int true_positives) (float_of_int m) both_empty in
  let recall := metric (float_of_int true_positives) (float_of_int n) both_empty in
  let truth_intervals := merged_intervals truth_group truth_interval truths in
  let prediction_intervals :=
    merged_intervals prediction_group prediction_interval predictions in
  let overlap_seconds := intersection_seconds truth_intervals prediction_intervals in
  let duration_precision := metric overlap_seconds (total_seconds prediction_intervals) both_empty in
  let duration_recall := metric overlap_seconds (total_seconds truth_intervals) both_empty in
  let mean_iou :=
    match matches with
    | [] => if both_empty then one else zero
    | _ => float_div (float_sum (map EpisodeMatch.temporal_iou matches)) true_positives
    end in
  EpisodeEvaluation.mk evaluation_id (rounded threshold) n m true_positives (m - true_positives)
    (n - true_positives) (rounded precision) (rounded recall) (rounded (f1_of precision recall))
    (rounded duration_precision) (rounded duration_recall)
    (rounded (f1_of duration_precision duration_recall)) (rounded mean_iou) matches.

(** What the identifier is made of. *)
Definition identity_payload (r : EpisodeEvaluation.t) (truth_ids prediction_ids : list string) : json :=
  JObj [ ("algorithm", JStr "temporal-iou-one-to-one-v1");
         ("duration_f1", JFloat (EpisodeEvaluation.duration_f1 r));
         ("duration_precision", JFloat (EpisodeEvaluation.duration_precision r));
         ("duration_recall", JFloat (EpisodeEvaluation.duration_recall r));
         ("f1", JFloat (EpisodeEvaluation.f1 r));
         ("false_negatives", JInt (EpisodeEvaluation.false_negatives r));
         ("false_positives", JInt (EpisodeEvaluation.false_positives r));
         ("ground_truth_count", JInt (EpisodeEvaluation.ground_truth_count r));
         ("ground_truth_ids", json_list JStr (py_sorted String.leb truth_ids));
         ("matches", json_list EpisodeMatch.to_json (EpisodeEvaluation.matches r));
         ("mean_matched_iou", JFloat (EpisodeEvaluation.mean_matched_iou r));
         ("overlap_threshold", JFloat (EpisodeEvaluation.overlap_threshold r));
         ("precision", JFloat (EpisodeEvaluation.precision r));
         ("prediction_count", JInt (EpisodeEvaluation.prediction_count r));
         ("prediction_ids", json_list JStr (py_sorted String.leb prediction_ids));
         ("recall", JFloat (EpisodeEvaluation.recall r));
         ("true_positives", JInt (EpisodeEvaluation.true_positives r)) ].

(** A model that the report is made of, or its [ValidationError]. *)
Definition constructed (r : result string unit) : result error unit :=
  match r with Ok _ => Ok tt | Err e => Err (ReportError e) end.

(** [evaluate_episodes], of sequences of the right types. *)
Definition evaluate_items (truths : list LabEpisode.t) (predictions : list PredictedEpisode.t)
    (threshold : pyfloat) : result error EpisodeEvaluation.t :=
  let truth_ids := map LabEpisode.episode_id truths in
  let prediction_ids := map PredictedEpisode.prediction_id predictions in
  throw_if (has_duplicates truth_ids || has_duplicates prediction_ids)
    (EvaluationError "evaluation_invalid_input") ≫= λ _,
  let by_id {A} (id : A → string) := py_sorted (λ x y, String.leb (id x) (id y)) in
  candidate_matches (by_id LabEpisode.episode_id truths)
    (by_id PredictedEpisode.prediction_id predictions) threshold ≫= λ cs,
  let taken := map match_of (selected ∅ ∅ (py_sorted candidate_leb cs)) in
  for_each (λ m, constructed (EpisodeMatch.check m)) taken ≫= λ _,
  let matches := py_sorted match_leb taken in
  let payload := report_payload truths predictions threshold matches in
  let report := payload (stable_content_id "eval"
    (identity_payload (payload EmptyString) truth_ids prediction_ids)) in
  constructed (EpisodeEvaluation.check report) ≫= λ _,
  Ok report.
Definition evaluate_episodes (ground_truth predictions : Argument) (overlap_threshold : json) :
    result error EpisodeEvaluation.t :=
  as_threshold overlap_threshold ≫= λ threshold : pyfloat,
  bounded_sequence as_truth ground_truth ≫= λ truths : list LabEpisode.t,
  bounded_sequence as_prediction predictions ≫= λ predictions : list PredictedEpisode.t,
  evaluate_items truths predictions threshold.
End evaluation.
