(* ===== verification/LabSweep.v ===== *)
(** * The sweep compares exactly the overlapping pairs

    The sweep over the sorted ends of the intervals finds the candidates that a
    comparison of all pairs would find, and compares no other pair than those
    whose intervals overlap. *)

From Stdlib Require Import Ascii String.
From S2P Require Import Prelude PyStr Json Models Incident.
From S2P Require Import PyEq.
From S2P Require Import Rules.
From S2P Require Import RuleResolution.
From S2P Require Import RuleFacts.
From S2P Require Import Detector.
From S2P Require Import LabEpisodes.
From S2P Require Import LabEvaluation.

(** ** Accepted episodes *)

Section accepted.
Context `{R : Runtime}.

Lemma truth_ordered t :
  LabEpisode.check t = Ok tt → LabEpisode.window_start t ≤ LabEpisode.window_end t.
Proof.
  unfold LabEpisode.check. intros H. repeat apply bind_Ok in H as (? & ?%throw_if_Ok & H). lia.
Qed.
Lemma prediction_ordered p :
  PredictedEpisode.check p = Ok tt → PredictedEpisode.window_start p ≤ PredictedEpisode.window_end p.
Proof.
  unfold PredictedEpisode.check. intros H. repeat apply bind_Ok in H as (? & ?%throw_if_Ok & H). lia.
Qed.
Lemma truth_interval_ordered t :
  LabEpisode.check t = Ok tt → (truth_interval t).1 < (truth_interval t).2.
Proof. intros H%truth_ordered. cbn. lia. Qed.
Lemma prediction_interval_ordered p :
  PredictedEpisode.check p = Ok tt → (prediction_interval p).1 < (prediction_interval p).2.
Proof. intros H%prediction_ordered. cbn. lia. Qed.
End accepted.

(** ** Sorted lists *)

Section sorted.
Context {A : Type} (leb : A → A → bool).
Hypothesis leb_total : ∀ x y, leb x y = true ∨ leb y x = true.
Hypothesis leb_trans : ∀ x y z, leb x y = true → leb y z = true → leb x z = true.

Lemma py_sorted_split l l1 x l2 :
  py_sorted leb l = l1 ++ x :: l2 →
  (∀ y, y ∈ l1 → leb y x = true) ∧ (∀ y, y ∈ l2 → leb x y = true).
Proof.
  intros E. assert (StronglySorted leb (l1 ++ x :: l2)) as Hs.
  { rewrite <- E. apply Sorted_StronglySorted; [|by apply py_sorted_Sorted].
    intros a b c. rewrite !Is_true_true. apply leb_trans. }
  clear E. induction l1 as [|y l1 IH]; cbn in Hs; apply StronglySorted_inv in Hs as [Hs Hf].
  - split; [by intros y ?%not_elem_of_nil|]. intros y Hy.
    rewrite Forall_forall in Hf. apply Is_true_true. by apply Hf.
  - destruct (IH Hs) as [H1 H2]. split; [|done]. intros z [->|Hz]%elem_of_cons; [|by apply H1].
    rewrite Forall_forall in Hf. apply Is_true_true, Hf. set_solver.
Qed.
End sorted.

Lemma event_leb_total a b : event_leb a b = true ∨ event_leb b a = true.
Proof.
  unfold event_leb. rewrite (Z.eqb_sym (instant b)), (Z.eqb_sym (phase b)).
  destruct (instant a =? instant b); [|rewrite !Z.leb_le; lia].
  destruct (phase a =? phase b); [apply StringLeb_total|rewrite !Z.leb_le; lia].
Qed.
Lemma event_leb_trans a b c :
  event_leb a b = true → event_leb b c = true → event_leb a c = true.
Proof.
  unfold event_leb. intros H1 H2.
  destruct (Z.eqb_spec (instant a) (instant b)), (Z.eqb_spec (instant b) (instant c)),
    (Z.eqb_spec (instant a) (instant c)); try lia;
  destruct (Z.eqb_spec (phase a) (phase b)), (Z.eqb_spec (phase b) (phase c)),
    (Z.eqb_spec (phase a) (phase c)); try lia.
  by eapply StringLeb_trans.
Qed.

Lemma event_leb_order a b :
  event_leb a b = true →
  instant a ≤ instant b ∧ (instant a = instant b → phase a ≤ phase b).
Proof.
  unfold event_leb. destruct (Z.eqb_spec (instant a) (instant b)); [|rewrite Z.leb_le; lia].
  destruct (Z.eqb_spec (phase a) (phase b)); [lia|rewrite Z.leb_le; lia].
Qed.

(** ** The open intervals *)

(** Between its start and its end an interval is open. *)
Section active.
Context {A : Type} (id : A → string) (start finish : A → Event) `{!Inj (=) (=) start}.

Definition is_open (seen : list Event) (a : A) : Prop := start a ∈ seen ∧ finish a ∉ seen.
Definition active_after (m : gmap string A) (seen : list Event) : Prop :=
  ∀ k a, m !! k = Some a ↔ id a = k ∧ is_open seen a.

Lemma active_start m seen a0 :
  active_after m seen → (∀ a, start a ∈ seen → id a = id a0 → a = a0) →
  finish a0 ∉ seen → (∀ a, finish a ≠ start a0) →
  active_after (<[id a0 := a0]> m) (seen ++ [start a0]).
Proof.
  intros Hm Huniq Hfin Hne k a. unfold is_open.
  rewrite !elem_of_app, !list_elem_of_singleton. specialize (Hne a) as Hn.
  destruct (decide (k = id a0)) as [->|Hk].
  - rewrite lookup_insert_eq. split.
    + intros [= ->]. tauto.
    + intros (E & [Hs|Hs%(inj start)] & _); [|congruence]. f_equal. symmetry. by apply Huniq.
  - rewrite lookup_insert_ne by done. rewrite (Hm k a). unfold is_open. split; [tauto|].
    intros (E & [Hs|Hs%(inj start)] & Hf); [tauto|congruence].
Qed.
Lemma active_finish m seen a0 :
  active_after m seen → (∀ a, start a ∈ seen → id a = id a0 → a = a0) →
  (∀ a, start a ≠ finish a0) → (∀ a, finish a = finish a0 → a = a0) →
  active_after (delete (id a0) m) (seen ++ [finish a0]).
Proof.
  intros Hm Huniq Hne Hinj k a. unfold is_open.
  rewrite !elem_of_app, !list_elem_of_singleton. specialize (Hne a) as Hn.
  destruct (decide (k = id a0)) as [->|Hk].
  - rewrite lookup_delete_eq. split; [done|]. intros (E & [Hs|Hs] & Hf); [exfalso|done].
    apply Hf. right. f_equal. by apply Huniq.
  - rewrite lookup_delete_ne by done. rewrite (Hm k a). unfold is_open. split; [|tauto].
    intros (E & Hs & Hf). split_and!; [done|tauto|]. intros [?|Hx%Hinj]; [done|congruence].
Qed.
Lemma active_other m seen e :
  active_after m seen → (∀ a, start a ≠ e) → (∀ a, finish a ≠ e) →
  active_after m (seen ++ [e]).
Proof.
  intros Hm Hs Hf k a. rewrite (Hm k a). unfold is_open.
  rewrite !elem_of_app, !list_elem_of_singleton. specialize (Hs a). specialize (Hf a). tauto.
Qed.
Lemma active_none : active_after ∅ [].
Proof.
  intros k a. rewrite lookup_empty. split; [done|]. intros (_ & H & _). by apply not_elem_of_nil in H.
Qed.

Lemma elem_of_sorted_values (m : gmap string A) a : a ∈ sorted_values m ↔ ∃ k, m !! k = Some a.
Proof.
  unfold sorted_values. rewrite list_elem_of_omap. split.
  - intros (k & _ & H). by exists k.
  - intros [k H]. exists k. split; [|done]. rewrite elem_of_py_sorted.
    apply elem_of_elements, elem_of_dom. by exists a.
Qed.
Lemma active_values m seen a : active_after m seen → a ∈ sorted_values m ↔ is_open seen a.
Proof.
  intros Hm. rewrite elem_of_sorted_values. split.
  - intros [k [_ H]%Hm]. done.
  - intros H. exists (id a). by apply Hm.
Qed.
Lemma NoDup_sorted_values m seen : active_after m seen → NoDup (sorted_values m).
Proof.
  intros Hm. apply (NoDup_fmap_1 id). unfold sorted_values.
  assert (NoDup (py_sorted String.leb (elements (dom m)))) as Hn
    by (rewrite py_sorted_perm; apply NoDup_elements).
  induction Hn as [|k l Hk Hn IH]; cbn; [constructor|].
  destruct (m !! k) as [a|] eqn:E; [|done]. cbn. apply Hm in E as [<- _]. constructor; [|done].
  intros (b & Hb & Hin)%list_elem_of_fmap. apply list_elem_of_omap in Hin as (k' & Hk' & E').
  apply Hm in E' as [<- _]. by rewrite Hb in Hk.
Qed.
End active.

(** ** The loop *)

(** The pairs that the loop compares, and the candidates among them. *)
Fixpoint compared (s : Sweep) (events : list Event) : list (LabEpisode.t * PredictedEpisode.t) :=
  match events with [] => [] | e :: events => pairs_at s e ++ compared (opened e s) events end.
Definition candidate_of (pair : LabEpisode.t * PredictedEpisode.t) : Candidate :=
  mk_candidate (temporal_iou pair.1 pair.2) (LabEpisode.episode_id pair.1)
    (PredictedEpisode.prediction_id pair.2) pair.1 pair.2.
Definition keep (threshold : pyfloat) (pairs : list (LabEpisode.t * PredictedEpisode.t)) :
    list Candidate :=
  map candidate_of
    (filter (λ pair, float_leb threshold (temporal_iou pair.1 pair.2) = true) pairs).

Lemma keep_app threshold xs ys : keep threshold (xs ++ ys) = keep threshold xs ++ keep threshold ys.
Proof. unfold keep. by rewrite filter_app, map_app. Qed.

(** Only the open intervals matter to what is compared. *)
Definition same_active (s s' : Sweep) : Prop :=
  active_truth s = active_truth s' ∧ active_predictions s = active_predictions s'.
Lemma pairs_at_same s s' e : same_active s s' → pairs_at s e = pairs_at s' e.
Proof. intros [Ht Hp]. unfold pairs_at. by rewrite Ht, Hp. Qed.
Lemma opened_same s s' e : same_active s s' → same_active (opened e s) (opened e s').
Proof. intros [Ht Hp]. unfold opened. destruct (item e); split; cbn; by rewrite ?Ht, ?Hp. Qed.
Lemma opened_counts e s :
  evaluated_pairs (opened e s) = evaluated_pairs s ∧ candidates (opened e s) = candidates s.
Proof. unfold opened. by destruct (item e). Qed.
Lemma compared_same events s s' : same_active s s' → compared s events = compared s' events.
Proof.
  revert s s'. induction events as [|e events IH]; intros s s' H; [done|]. cbn.
  rewrite (pairs_at_same s s') by done. f_equal. by apply IH, opened_same.
Qed.

(** A loop that stops at the limit, or has compared all its pairs. *)
Definition within_limit {A} (count : Z) (a : A) : result error A :=
  if count <=? MAX_EVALUATION_CANDIDATES then Ok a
  else Err (EvaluationError "evaluation_limit_exceeded").

Lemma consider_all_run threshold pairs s :
  evaluated_pairs s ≤ MAX_EVALUATION_CANDIDATES →
  consider_all threshold pairs s =
    within_limit (evaluated_pairs s + Z.of_nat (length pairs))
      (mk_sweep (active_truth s) (active_predictions s)
         (evaluated_pairs s + Z.of_nat (length pairs)) (candidates s ++ keep threshold pairs)).
Proof.
  unfold within_limit. revert s. induction pairs as [|[t p] pairs IH]; intros s Hs; cbn.
  - rewrite Z.add_0_r, app_nil_r. destruct s. by rewrite (proj2 (Z.leb_le _ _)).
  - unfold consider. destruct (Z.leb_spec MAX_EVALUATION_CANDIDATES (evaluated_pairs s)); cbn.
    + by destruct (Z.leb_spec (evaluated_pairs s + Z.of_nat (S (length pairs)))
        MAX_EVALUATION_CANDIDATES); [lia|].
    + rewrite IH by (cbn; lia). cbn [evaluated_pairs active_truth active_predictions candidates].
      replace (evaluated_pairs s + 1 + Z.of_nat (length pairs))
        with (evaluated_pairs s + Z.of_nat (S (length pairs))) by lia.
      unfold keep. destruct (decide (float_leb threshold (temporal_iou t p) = true)) as [E|E];
        [|apply not_true_is_false in E]; rewrite E; [|done]. cbn [map]. by rewrite <- app_assoc.
Qed.

(** Where the loop ends up: the open intervals at the end do not matter. *)
Lemma sweep_run threshold events s :
  evaluated_pairs s ≤ MAX_EVALUATION_CANDIDATES →
  ∃ at_end : Sweep,
    evaluated_pairs at_end = evaluated_pairs s + Z.of_nat (length (compared s events)) ∧
    candidates at_end = candidates s ++ keep threshold (compared s events) ∧
    sweep threshold events s = within_limit (evaluated_pairs at_end) at_end.
Proof.
  revert s. induction events as [|e events IH]; intros s Hs; cbn [sweep compared].
  - exists s. cbn. rewrite Z.add_0_r, app_nil_r. unfold within_limit.
    by rewrite (proj2 (Z.leb_le _ _)).
  - rewrite consider_all_run by done.
    set (n := evaluated_pairs s + Z.of_nat (length (pairs_at s e))).
    unfold within_limit at 1. destruct (Z.leb_spec n MAX_EVALUATION_CANDIDATES) as [Hn|Hn]; cbn.
    + set (s' := mk_sweep (active_truth s) (active_predictions s) n
        (candidates s ++ keep threshold (pairs_at s e))).
      destruct (opened_counts e s') as [Hev Hca].
      destruct (IH (opened e s')) as (f & He & Hc & Hr); [by rewrite Hev|].
      assert (compared (opened e s') events = compared (opened e s) events) as Hsame
        by (apply compared_same, opened_same; done).
      exists f. rewrite Hr, He, Hc, Hsame, length_app, keep_app, Hev, Hca. cbn.
      split_and!; [lia|by rewrite app_assoc|done].
    + exists (mk_sweep ∅ ∅ (evaluated_pairs s + Z.of_nat (length (pairs_at s e ++ compared (opened e s) events)))
        (candidates s ++ keep threshold (pairs_at s e ++ compared (opened e s) events))).
      split_and!; [done|done|]. cbn. unfold within_limit. rewrite length_app.
      destruct (Z.leb_spec (evaluated_pairs s + Z.of_nat (length (pairs_at s e)
        + length (compared (opened e s) events))) MAX_EVALUATION_CANDIDATES); [lia|done].
Qed.

(** ** The pairs of one group *)

Definition overlapping (t : LabEpisode.t) (p : PredictedEpisode.t) : Prop :=
  (truth_interval t).1 < (prediction_interval p).2 ∧
  (prediction_interval p).1 < (truth_interval t).2.
#[export] Instance overlapping_dec t p : Decision (overlapping t p).
Proof. unfold overlapping. apply _. Defined.

#[export] Instance truth_start_inj : Inj (=) (=) truth_start.
Proof. by intros x y [= ]. Qed.
#[export] Instance prediction_start_inj : Inj (=) (=) prediction_start.
Proof. by intros x y [= ]. Qed.

Definition open_truth := is_open truth_start truth_end.
Definition open_prediction := is_open prediction_start prediction_end.
Definition sweep_after (s : Sweep) (seen : list Event) : Prop :=
  active_after LabEpisode.episode_id truth_start truth_end (active_truth s) seen ∧
  active_after PredictedEpisode.prediction_id prediction_start prediction_end
    (active_predictions s) seen.

(** [same_event E] takes an equation of two ends apart. *)
Ltac same_event E :=
  apply (f_equal (λ e, (phase e, item e))) in E; cbn in E; simplify_eq.

Lemma elem_of_ends {A} (f g : A → Event) l e :
  e ∈ List.concat (map (λ x, [f x; g x]) l) ↔ ∃ x, x ∈ l ∧ (e = f x ∨ e = g x).
Proof.
  induction l as [|x l IH]; cbn; [set_solver|].
  rewrite !elem_of_cons, IH. setoid_rewrite elem_of_cons. naive_solver.
Qed.
Lemma NoDup_ends {A} (f g : A → Event) (id : A → string) l :
  (∀ x y, f x = f y → x = y) → (∀ x y, g x = g y → x = y) → (∀ x y, f x = g y → False) →
  NoDup (map id l) → NoDup (List.concat (map (λ x, [f x; g x]) l)).
Proof.
  intros Hf Hg Hfg Hn%NoDup_fmap_1.
  induction Hn as [|x l Hx Hn IH]; cbn; [constructor|]. constructor; [|constructor; [|done]].
  - rewrite elem_of_cons, elem_of_ends. intros [E%Hfg|(y & Hy & [E%Hf|E%Hfg])]; congruence.
  - rewrite elem_of_ends. intros (y & Hy & [E|E%Hg]); [by apply eq_sym, Hfg in E|congruence].
Qed.

Section group.
Context (truths : list LabEpisode.t) (predictions : list PredictedEpisode.t).
Hypothesis truths_distinct : NoDup (map LabEpisode.episode_id truths).
Hypothesis predictions_distinct : NoDup (map PredictedEpisode.prediction_id predictions).
Hypothesis truths_ordered :
  ∀ t, t ∈ truths → LabEpisode.window_start t ≤ LabEpisode.window_end t.
Hypothesis predictions_ordered :
  ∀ p, p ∈ predictions → PredictedEpisode.window_start p ≤ PredictedEpisode.window_end p.

Abbreviation events := (events_of truths predictions).

Lemma elem_of_events e : e ∈ events ↔
  (∃ t, t ∈ truths ∧ (e = truth_end t ∨ e = truth_start t)) ∨
  (∃ p, p ∈ predictions ∧ (e = prediction_end p ∨ e = prediction_start p)).
Proof. unfold events_of. by rewrite elem_of_py_sorted, elem_of_app, !elem_of_ends. Qed.
Lemma truth_in_events t :
  (truth_start t ∈ events ↔ t ∈ truths) ∧ (truth_end t ∈ events ↔ t ∈ truths).
Proof.
  rewrite !elem_of_events. split; split; try (intros Ht; left; exists t; tauto);
    intros [(u & Hu & [E|E])|(u & Hu & [E|E])]; by same_event E.
Qed.
Lemma prediction_in_events p :
  (prediction_start p ∈ events ↔ p ∈ predictions) ∧ (prediction_end p ∈ events ↔ p ∈ predictions).
Proof.
  rewrite !elem_of_events. split; split; try (intros Hp; right; exists p; tauto);
    intros [(u & Hu & [E|E])|(u & Hu & [E|E])]; by same_event E.
Qed.

Lemma events_NoDup : NoDup events.
Proof.
  unfold events_of. rewrite py_sorted_perm. apply NoDup_app. split_and!.
  - apply (NoDup_ends _ _ LabEpisode.episode_id); [| | |done]; intros x y E; by same_event E.
  - intros e (t & _ & Ht)%elem_of_ends (p & _ & Hp)%elem_of_ends.
    destruct Ht as [->| ->]; destruct Hp as [E|E]; by same_event E.
  - apply (NoDup_ends _ _ PredictedEpisode.prediction_id); [| | |done]; intros x y E; by same_event E.
Qed.

Lemma events_ordered l1 e l2 : events = l1 ++ e :: l2 →
  (∀ x, x ∈ l1 → event_leb x e = true) ∧ (∀ x, x ∈ l2 → event_leb e x = true).
Proof. apply py_sorted_split; [apply event_leb_total|apply event_leb_trans]. Qed.
(** An end of an interval comes after its start. *)
Lemma truth_ends_later l1 t l2 : events = l1 ++ truth_start t :: l2 → truth_end t ∉ l1.
Proof.
  intros E H. assert (t ∈ truths) as Ht.
  { apply truth_in_events. rewrite E. set_solver. }
  apply (events_ordered _ _ _ E) in H. apply event_leb_order in H.
  specialize (truths_ordered t Ht). cbn in H. lia.
Qed.
Lemma prediction_ends_later l1 p l2 : events = l1 ++ prediction_start p :: l2 → prediction_end p ∉ l1.
Proof.
  intros E H. assert (p ∈ predictions) as Hp.
  { apply prediction_in_events. rewrite E. set_solver. }
  apply (events_ordered _ _ _ E) in H. apply event_leb_order in H.
  specialize (predictions_ordered p Hp). cbn in H. lia.
Qed.

Lemma sweep_step s l1 e l2 :
  events = l1 ++ e :: l2 → sweep_after s l1 → sweep_after (opened e s) (l1 ++ [e]).
Proof.
  intros E [Ht Hp].
  assert (∀ x, x ∈ l1 → x ∈ events) as Hin by (rewrite E; set_solver).
  assert (∀ t t', t ∈ truths → truth_start t' ∈ l1 →
    LabEpisode.episode_id t' = LabEpisode.episode_id t → t' = t) as Hut.
  { intros t t' H H'%Hin%truth_in_events. by apply (NoDup_map_inj _ _ _ _ truths_distinct). }
  assert (∀ p p', p ∈ predictions → prediction_start p' ∈ l1 →
    PredictedEpisode.prediction_id p' = PredictedEpisode.prediction_id p → p' = p) as Hup.
  { intros p p' H H'%Hin%prediction_in_events. by apply (NoDup_map_inj _ _ _ _ predictions_distinct). }
  assert (e ∈ events) as He by (rewrite E; set_solver).
  apply elem_of_events in He as [(t & Hti & [->| ->])|(p & Hpi & [->| ->])]; split; cbn.
  - apply active_finish; [done|by intros ? ? ?; apply Hut|..]; intros a Ea; by same_event Ea.
  - apply active_other; [done|..]; intros a Ea; by same_event Ea.
  - apply active_start; [apply _|done|by intros ? ? ?; apply Hut|by eapply truth_ends_later|].
    intros a Ea; by same_event Ea.
  - apply active_other; [done|..]; intros a Ea; by same_event Ea.
  - apply active_other; [done|..]; intros a Ea; by same_event Ea.
  - apply active_finish; [done|by intros ? ? ?; apply Hup|..]; intros a Ea; by same_event Ea.
  - apply active_other; [done|..]; intros a Ea; by same_event Ea.
  - apply active_start; [apply _|done|by intros ? ? ?; apply Hup|by eapply prediction_ends_later|].
    intros a Ea; by same_event Ea.
Qed.

(** A pair is compared when the later of its two intervals begins. *)
Definition met (before : list Event) (e : Event) (t : LabEpisode.t) (p : PredictedEpisode.t) : Prop :=
  (e = prediction_start p ∧ open_truth before t) ∨ (e = truth_start t ∧ open_prediction before p).
Lemma pairs_at_spec s l1 e l2 t p :
  events = l1 ++ e :: l2 → sweep_after s l1 → (t, p) ∈ pairs_at s e ↔ met l1 e t p.
Proof.
  intros E [Ht Hp]. assert (e ∈ events) as He by (rewrite E; set_solver).
  unfold met, pairs_at.
  apply elem_of_events in He as [(u & _ & [->| ->])|(u & _ & [->| ->])]; cbn.
  - split; [by intros ?%not_elem_of_nil|]. intros [[H _]|[H _]]; by same_event H.
  - rewrite list_elem_of_fmap. split.
    + intros (q & [= -> ->] & Hq). right. split; [done|]. by apply (active_values _ _ _ _ _ _ Hp).
    + intros [[H _]|[H%(inj truth_start) Hq]]; [by same_event H|]. exists p. split; [by rewrite H|].
      by apply (active_values _ _ _ _ _ _ Hp).
  - split; [by intros ?%not_elem_of_nil|]. intros [[H _]|[H _]]; by same_event H.
  - rewrite list_elem_of_fmap. split.
    + intros (q & [= -> ->] & Hq). left. split; [done|]. by apply (active_values _ _ _ _ _ _ Ht).
    + intros [[H%(inj prediction_start) Hq]|[H _]]; [|by same_event H]. exists t. split; [by rewrite H|].
      by apply (active_values _ _ _ _ _ _ Ht).
Qed.
Lemma NoDup_pairs_at s l1 e : sweep_after s l1 → NoDup (pairs_at s e).
Proof.
  intros [Ht Hp]. unfold pairs_at. destruct (phase e =? 0); [constructor|].
  destruct (item e); apply NoDup_fmap_2; try (intros ? ? [=]; done);
    by eapply NoDup_sorted_values.
Qed.

Lemma compared_spec l2 l1 s :
  events = l1 ++ l2 → sweep_after s l1 →
  (∀ t p, (t, p) ∈ compared s l2 ↔ ∃ l e l', l2 = l ++ e :: l' ∧ met (l1 ++ l) e t p) ∧
  NoDup (compared s l2).
Proof.
  revert l1 s. induction l2 as [|e l2 IH]; intros l1 s E Hs; cbn.
  - split; [|constructor]. intros t p. split; [by intros ?%not_elem_of_nil|].
    intros (l & e & l' & H & _). by destruct l.
  - assert (events = (l1 ++ [e]) ++ l2) as E' by (by rewrite <- app_assoc).
    destruct (IH _ _ E' (sweep_step _ _ _ _ E Hs)) as [Hm Hn]. split.
    + intros t p. rewrite elem_of_app, (pairs_at_spec s l1 e l2) by done. rewrite Hm. split.
      * intros [H|(l & x & l' & -> & H)]; [exists [], e, l2; by rewrite app_nil_r|].
        exists (e :: l), x, l'. split; [done|]. by rewrite <- app_assoc in H.
      * intros ([|y l] & x & l' & [= -> ->] & H); [left; by rewrite app_nil_r in H|].
        right. exists l, x, l'. split; [done|]. by rewrite <- app_assoc.
    + apply NoDup_app. split_and!; [by eapply NoDup_pairs_at| |done].
      intros [t p] H1 (l & x & l' & -> & H2)%Hm.
      apply (pairs_at_spec s l1 e _ t p E Hs) in H1.
      pose proof events_NoDup as Hnd. rewrite E in Hnd.
      assert (∀ y, (y = e ∨ y ∈ l1) → y ∉ l ++ x :: l') as Hd.
      { intros y Hy Hin. apply NoDup_app in Hnd as (_ & Hnd & Hnd').
        apply NoDup_cons in Hnd' as [Hnd' _]. destruct Hy as [->|Hy]; [done|].
        apply (Hnd y Hy). set_solver. }
      assert (x ∈ l ++ x :: l') as Hx by set_solver.
      destruct H1 as [[-> [H1 _]]|[-> [H1 _]]]; destruct H2 as [[-> _]|[-> _]];
        apply (Hd _) in Hx; tauto.
Qed.

Lemma compared_overlapping t p :
  (t, p) ∈ compared (mk_sweep ∅ ∅ 0 []) events ↔
  t ∈ truths ∧ p ∈ predictions ∧ overlapping t p.
Proof.
  assert (sweep_after (mk_sweep ∅ ∅ 0 []) []) as Hs by (split; apply active_none).
  destruct (compared_spec events [] _ eq_refl Hs) as [-> _]. clear Hs. cbn [app]. split.
  - intros (l & e & l' & E & Hm).
    destruct (events_ordered _ _ _ E) as [Hb Ha].
    assert (∀ x, x ∈ events → x ∉ l → x ≠ e → event_leb e x = true) as Hlater.
    { intros x. rewrite E. intros [Hx|[Hx|Hx]%elem_of_cons]%elem_of_app; [done..|]. by intros; apply Ha. }
    assert (e ∈ events) as He by (rewrite E; set_solver).
    assert (∀ x, x ∈ l → x ∈ events) as Hl by (rewrite E; set_solver).
    destruct Hm as [[-> [Hst Hen]]|[-> [Hst Hen]]].
    + apply prediction_in_events in He. pose proof (Hl _ Hst) as Ht%truth_in_events.
      apply Hb, event_leb_order in Hst. assert (event_leb (prediction_start p) (truth_end t) = true) as Hlt.
      { apply Hlater; [by apply truth_in_events|done|]. intros H; by same_event H. }
      apply event_leb_order in Hlt. cbn in Hst, Hlt. split_and!; [done..|].
      specialize (predictions_ordered p He). unfold overlapping. cbn. lia.
    + apply truth_in_events in He. pose proof (Hl _ Hst) as Hp%prediction_in_events.
      apply Hb, event_leb_order in Hst. assert (event_leb (truth_start t) (prediction_end p) = true) as Hlt.
      { apply Hlater; [by apply prediction_in_events|done|]. intros H; by same_event H. }
      apply event_leb_order in Hlt. cbn in Hst, Hlt. split_and!; [done..|].
      specialize (truths_ordered t He). unfold overlapping. cbn. lia.
  - intros (Ht & Hp & Ho). unfold overlapping in Ho. cbn in Ho.
    pose proof (proj2 (proj1 (truth_in_events t)) Ht) as Hts.
    pose proof (proj2 (proj1 (prediction_in_events p)) Hp) as Hps.
    destruct (Z.le_gt_cases (LabEpisode.window_start t) (PredictedEpisode.window_start p)) as [Hle|Hgt].
    + apply list_elem_of_split in Hps as (l & l' & E). destruct (events_ordered _ _ _ E) as [Hb Ha].
      exists l, (prediction_start p), l'. split; [done|]. left. split; [done|]. split.
      * rewrite E in Hts. apply elem_of_app in Hts as [?|[H|H]%elem_of_cons]; [done|by same_event H|].
        apply Ha, event_leb_order in H. cbn in H. lia.
      * intros H. apply Hb, event_leb_order in H. cbn in H. lia.
    + apply list_elem_of_split in Hts as (l & l' & E). destruct (events_ordered _ _ _ E) as [Hb Ha].
      exists l, (truth_start t), l'. split; [done|]. right. split; [done|]. split.
      * rewrite E in Hps. apply elem_of_app in Hps as [?|[H|H]%elem_of_cons]; [done|by same_event H|].
        apply Ha, event_leb_order in H. cbn in H. lia.
      * intros H. apply Hb, event_leb_order in H. cbn in H. lia.
Qed.
End group.

(** ** All groups *)

Section groups.
Context (truths : list LabEpisode.t) (predictions : list PredictedEpisode.t).
Hypothesis truths_distinct : NoDup (map LabEpisode.episode_id truths).
Hypothesis predictions_distinct : NoDup (map PredictedEpisode.prediction_id predictions).
Hypothesis truths_ordered :
  ∀ t, t ∈ truths → LabEpisode.window_start t ≤ LabEpisode.window_end t.
Hypothesis predictions_ordered :
  ∀ p, p ∈ predictions → PredictedEpisode.window_start p ≤ PredictedEpisode.window_end p.

Definition group_events (g : string * string) : list Event :=
  events_of (filter (λ t, truth_group t = g) truths) (filter (λ p, prediction_group p = g) predictions).
Definition group_pairs (g : string * string) : list (LabEpisode.t * PredictedEpisode.t) :=
  compared (mk_sweep ∅ ∅ 0 []) (group_events g).
Definition all_groups : list (string * string) :=
  py_sorted identity_leb (distinct (map truth_group truths ++ map prediction_group predictions)).
Definition all_compared : list (LabEpisode.t * PredictedEpisode.t) :=
  List.concat (map group_pairs all_groups).

Lemma NoDup_map_filter {A} (f : A → string) (P : A → Prop) `{∀ x, Decision (P x)} l :
  NoDup (map f l) → NoDup (map f (filter P l)).
Proof.
  intros Hn. induction l as [|x l IH]; [done|]. apply NoDup_cons in Hn as [Hx Hn].
  rewrite filter_cons. destruct (decide (P x)); [|by apply IH]. cbn. constructor; [|by apply IH].
  intros (y & E & [_ Hy]%list_elem_of_filter)%list_elem_of_fmap. apply Hx. rewrite E.
  by apply list_elem_of_fmap_2.
Qed.

Lemma group_pairs_spec g :
  (∀ t p, (t, p) ∈ group_pairs g ↔
     (truth_group t = g ∧ t ∈ truths) ∧ (prediction_group p = g ∧ p ∈ predictions) ∧ overlapping t p) ∧
  NoDup (group_pairs g).
Proof.
  assert (∀ t, t ∈ filter (λ t, truth_group t = g) truths →
    LabEpisode.window_start t ≤ LabEpisode.window_end t) as Ht
    by (intros t [_ ?]%list_elem_of_filter; auto).
  assert (∀ p, p ∈ filter (λ p, prediction_group p = g) predictions →
    PredictedEpisode.window_start p ≤ PredictedEpisode.window_end p) as Hp
    by (intros p [_ ?]%list_elem_of_filter; auto).
  pose proof (NoDup_map_filter _ (λ t, truth_group t = g) _ truths_distinct) as Htd.
  pose proof (NoDup_map_filter _ (λ p, prediction_group p = g) _ predictions_distinct) as Hpd.
  split.
  - intros t p. unfold group_pairs, group_events. rewrite compared_overlapping by done.
    by rewrite !list_elem_of_filter.
  - eapply (compared_spec _ _ Htd Hpd Ht Hp _ []); [done|]. split; apply active_none.
Qed.

Lemma sweep_groups_run threshold groups evaluated found :
  evaluated ≤ MAX_EVALUATION_CANDIDATES →
  let pairs := List.concat (map group_pairs groups) in
  sweep_groups threshold truths predictions groups evaluated found =
    within_limit (evaluated + Z.of_nat (length pairs)) (found ++ keep threshold pairs).
Proof.
  revert evaluated found. induction groups as [|g groups IH]; intros evaluated found Hev;
    cbn [sweep_groups map List.concat].
  - unfold within_limit. cbn. rewrite Z.add_0_r, app_nil_r. by rewrite (proj2 (Z.leb_le _ _)).
  - destruct (sweep_run threshold (group_events g) (mk_sweep ∅ ∅ evaluated found) Hev)
      as (f & He & Hc & Hr).
    rewrite (compared_same (group_events g) (mk_sweep ∅ ∅ evaluated found) (mk_sweep ∅ ∅ 0 [])) in He, Hc
      by done.
    unfold group_events at 1 in Hr. rewrite Hr. unfold within_limit at 1.
    cbn [evaluated_pairs candidates] in He, Hc. fold (group_pairs g) in He, Hc.
    rewrite length_app, keep_app.
    destruct (Z.leb_spec (evaluated_pairs f) MAX_EVALUATION_CANDIDATES) as [Hle|Hgt]; cbn.
    + rewrite IH by done. rewrite He, Hc, <- app_assoc. f_equal. lia.
    + unfold within_limit. destruct (Z.leb_spec (evaluated + Z.of_nat (length (group_pairs g)
        + length (List.concat (map group_pairs groups)))) MAX_EVALUATION_CANDIDATES); [lia|done].
Qed.

Lemma all_compared_spec :
  (∀ t p, (t, p) ∈ all_compared ↔
     t ∈ truths ∧ p ∈ predictions ∧ truth_group t = prediction_group p ∧ overlapping t p) ∧
  NoDup all_compared.
Proof.
  assert (∀ groups t p, (t, p) ∈ List.concat (map group_pairs groups) ↔
    ∃ g, g ∈ groups ∧ (t, p) ∈ group_pairs g) as Hc.
  { intros groups t p. induction groups as [|g groups IH]; cbn; [set_solver|].
    rewrite elem_of_app, IH. set_solver. }
  unfold all_compared. split.
  - intros t p. rewrite Hc. setoid_rewrite (λ g, proj1 (group_pairs_spec g) t p). split.
    + intros (g & _ & [<- Ht] & [Hg Hp] & Ho). done.
    + intros (Ht & Hp & Hg & Ho). exists (truth_group t). split_and!; try done.
      unfold all_groups. rewrite elem_of_py_sorted, elem_of_distinct, elem_of_app. left.
      by apply list_elem_of_fmap_2.
  - assert (NoDup all_groups) as Hn.
    { unfold all_groups. rewrite py_sorted_perm. apply NoDup_distinct. }
    induction Hn as [|g groups Hg Hn IH]; cbn; [constructor|].
    apply NoDup_app. split_and!; [apply group_pairs_spec| |done].
    intros [t p] [[<- _] _]%(proj1 (group_pairs_spec g)) (g' & Hg' & [[<- _] _]%(proj1 (group_pairs_spec g')))%Hc.
    done.
Qed.
End groups.
