(* ===== verification/LabEvaluationProps.v ===== *)
(** * What the evaluation computes

    The candidates are those of a comparison of all pairs; the matching is
    one-to-one and no candidate is passed over but for a better one; merged
    intervals cover what the intervals cover, and the two pointers find exactly
    what two lists of merged intervals have in common. *)

From Stdlib Require Import Ascii String.
From S2P Require Import Prelude PyStr Json Models Incident.
From S2P Require Import PyEq.
From S2P Require Import Rules.
From S2P Require Import RuleResolution.
From S2P Require Import RuleFacts.
From S2P Require Import Detector.
From S2P Require Import PyFormat.
From S2P Require Import SimilarityProps.
From S2P Require Import LabEpisodes.
From S2P Require Import LabEvaluation.
From S2P Require Import LabSweep.

(** ** The candidates *)

Lemma total_seconds_zero : is_zero (GovernanceBase.total_seconds 0) = true.
Proof. reflexivity. Qed.

(** A positive overlap is one of two intervals of one group that meet. *)
Lemma iou_overlapping threshold t p :
  float_leb threshold zero = false → float_leb threshold (temporal_iou t p) = true →
  truth_group t = prediction_group p ∧ overlapping t p.
Proof.
  intros Hz. unfold temporal_iou.
  destruct (bool_decide_reflect (truth_group t = prediction_group p)) as [Hg|]; cbn [negb]; [|congruence].
  intros H. split; [done|].
  destruct (decide (extent (common (truth_interval t) (prediction_interval p)) = 0)) as [E|E];
    [rewrite E, total_seconds_zero in H; congruence|].
  unfold extent, common in E. cbn [fst snd] in E. unfold overlapping. lia.
Qed.

Definition all_pairs (truths : list LabEpisode.t) (predictions : list PredictedEpisode.t) :
    list (LabEpisode.t * PredictedEpisode.t) :=
  list_prod truths predictions.
Definition meeting_pairs (truths : list LabEpisode.t) (predictions : list PredictedEpisode.t) :
    list (LabEpisode.t * PredictedEpisode.t) :=
  filter (λ tp, truth_group tp.1 = prediction_group tp.2 ∧ overlapping tp.1 tp.2)
    (all_pairs truths predictions).

Lemma elem_of_all_pairs truths predictions t p :
  (t, p) ∈ all_pairs truths predictions ↔ t ∈ truths ∧ p ∈ predictions.
Proof. unfold all_pairs. rewrite !list_elem_of_In. apply in_prod_iff. Qed.
Lemma NoDup_all_pairs truths predictions :
  NoDup truths → NoDup predictions → NoDup (all_pairs truths predictions).
Proof.
  intros Ht Hp. unfold all_pairs. induction Ht as [|t truths Hin Ht IH]; cbn; [constructor|].
  apply NoDup_app. split_and!; [apply NoDup_fmap_2; [by intros ? ? [=]|done]| |done].
  intros [u p] (q & [= -> ->] & _)%list_elem_of_fmap [Hu _]%elem_of_all_pairs. done.
Qed.

(** ** The matching *)

Lemma candidate_leb_total a b : candidate_leb a b = true ∨ candidate_leb b a = true.
Proof.
  apply (best_first_total overlap
    (λ a b, identity_leb (truth_id a, prediction_id a) (truth_id b, prediction_id b))).
  intros. apply identity_leb_total.
Qed.
Lemma candidate_leb_trans a b c :
  candidate_leb a b = true → candidate_leb b c = true → candidate_leb a c = true.
Proof.
  apply (best_first_trans overlap
    (λ a b, identity_leb (truth_id a, prediction_id a) (truth_id b, prediction_id b))).
  intros ? ? ?. apply identity_leb_trans.
Qed.

(** [c] shares its label or its prediction with [d]. *)
Definition clashes (c d : Candidate) : Prop :=
  truth_id c = truth_id d ∨ prediction_id c = prediction_id d.
#[export] Instance clashes_dec c d : Decision (clashes c d).
Proof. unfold clashes. apply _. Defined.

Lemma selected_spec mt mp cs :
  let taken := selected mt mp cs in
  (∀ c, c ∈ taken → c ∈ cs ∧ (truth_id c ∉ mt) ∧ (prediction_id c ∉ mp)) ∧
  NoDup (map truth_id taken) ∧ NoDup (map prediction_id taken).
Proof.
  revert mt mp. induction cs as [|c cs IH]; intros mt mp; cbn.
  { split; [by intros c ?%not_elem_of_nil|split; constructor]. }
  case_bool_decide as Hc.
  { destruct (IH mt mp) as [H Hn]. split; [|done]. intros d Hd%H. set_solver. }
  destruct (IH ({[truth_id c]} ∪ mt) ({[prediction_id c]} ∪ mp)) as (H & Ht & Hp).
  split_and!.
  - intros d [->|Hd%H]%elem_of_cons; set_solver.
  - cbn. constructor; [|done]. intros (d & E & Hd%H)%list_elem_of_fmap. set_solver.
  - cbn. constructor; [|done]. intros (d & E & Hd%H)%list_elem_of_fmap. set_solver.
Qed.

(** A candidate is passed over only for one that comes before it. *)
Lemma selected_first mt mp cs c :
  StronglySorted candidate_leb cs → c ∈ cs → truth_id c ∉ mt → prediction_id c ∉ mp →
  ∃ m, m ∈ selected mt mp cs ∧ clashes m c ∧ (m = c ∨ candidate_leb m c = true).
Proof.
  intros Hs. revert mt mp.
  induction Hs as [|d cs Hs IH Hd]; intros mt mp Hc Ht Hp; [by apply not_elem_of_nil in Hc|].
  cbn. apply elem_of_cons in Hc as [->|Hc].
  { rewrite bool_decide_eq_false_2 by tauto. exists d. split; [left|]. split; [by left|by left]. }
  case_bool_decide as Hin; [by apply IH|].
  destruct (decide (clashes d c)) as [Hcl|Hcl].
  { exists d. split; [left|]. split; [done|]. right. rewrite Forall_forall in Hd.
    by apply Is_true_true, Hd. }
  unfold clashes in Hcl.
  destruct (IH ({[truth_id d]} ∪ mt) ({[prediction_id d]} ∪ mp)) as (m & Hm & Hr);
    [done|set_solver..|]. exists m. split; [by right|done].
Qed.

(** A list of episodes that the models accept, with distinct identifiers. *)
Definition good_truths `{Runtime} (truths : list LabEpisode.t) : Prop :=
  NoDup (map LabEpisode.episode_id truths) ∧ ∀ t, t ∈ truths → LabEpisode.check t = Ok tt.
Definition good_predictions `{Runtime} (predictions : list PredictedEpisode.t) : Prop :=
  NoDup (map PredictedEpisode.prediction_id predictions) ∧
  ∀ p, p ∈ predictions → PredictedEpisode.check p = Ok tt.

Section props.
Context `{R : Runtime}.

(** The candidates, as pairs that reach the threshold. *)
Lemma found_candidates_perm truths predictions threshold :
  good_truths truths → good_predictions predictions → float_leb threshold zero = false →
  match candidate_matches truths predictions threshold with
  | Ok found =>
      Z.of_nat (length (meeting_pairs truths predictions)) ≤ MAX_EVALUATION_CANDIDATES ∧
      found ≡ₚ map candidate_of
        (filter (λ tp, float_leb threshold (temporal_iou tp.1 tp.2) = true)
           (all_pairs truths predictions))
  | Err e =>
      MAX_EVALUATION_CANDIDATES < Z.of_nat (length (meeting_pairs truths predictions)) ∧
      e = EvaluationError "evaluation_limit_exceeded"
  end.
Proof.
  intros [Htd Htc] [Hpd Hpc] Hz.
  destruct (all_compared_spec truths predictions Htd Hpd
    (λ t H, truth_ordered t (Htc t H)) (λ p H, prediction_ordered p (Hpc p H))) as [Hm Hn].
  pose proof (NoDup_all_pairs truths predictions (NoDup_fmap_1 _ _ Htd) (NoDup_fmap_1 _ _ Hpd)) as Ha.
  assert (all_compared truths predictions ≡ₚ meeting_pairs truths predictions) as Hmeet.
  { apply NoDup_Permutation; [done|by apply NoDup_filter|]. intros [t p].
    unfold meeting_pairs. rewrite Hm, list_elem_of_filter, elem_of_all_pairs. cbn. tauto. }
  unfold candidate_matches. rewrite sweep_groups_run by done.
  fold (all_groups truths predictions). fold (all_compared truths predictions).
  rewrite <- (Permutation_length Hmeet). unfold within_limit. cbn [app]. rewrite Z.add_0_l.
  destruct (Z.leb_spec (Z.of_nat (length (all_compared truths predictions))) MAX_EVALUATION_CANDIDATES);
    [|done].
  split; [done|]. unfold keep. apply Permutation_map, NoDup_Permutation; [by apply NoDup_filter..|].
  intros [t p]. rewrite !list_elem_of_filter, Hm, elem_of_all_pairs. cbn.
  split; [tauto|]. intros (Hi & Hti & Hpi). by destruct (iou_overlapping _ _ _ Hz Hi).
Qed.
Lemma found_candidates_spec threshold truths predictions cs :
  good_truths truths → good_predictions predictions → float_leb threshold zero = false →
  candidate_matches truths predictions threshold = Ok cs →
  ∀ c, c ∈ cs ↔ ∃ t p, t ∈ truths ∧ p ∈ predictions ∧ c = candidate_of (t, p) ∧
    float_leb threshold (temporal_iou t p) = true.
Proof.
  intros Ht Hp Hz E c. pose proof (found_candidates_perm truths predictions threshold Ht Hp Hz) as H.
  rewrite E in H. destruct H as [_ ->]. rewrite list_elem_of_fmap. split.
  - intros ([t p] & -> & [Hi [Hti Hpi]%elem_of_all_pairs]%list_elem_of_filter). by exists t, p.
  - intros (t & p & Hti & Hpi & -> & Hi). exists (t, p). split; [done|].
    by rewrite list_elem_of_filter, elem_of_all_pairs.
Qed.

(** C30. The sweep finds the candidates of a comparison of all pairs: for episodes
    that the models accept, with distinct identifiers, and a positive threshold,
    it returns the pairs whose overlap reaches the threshold, each once, exactly
    when no more than 100000 pairs of one resource and label have intervals that
    meet, which are the only pairs it compares; otherwise it raises the limit
    error. *)
Theorem sweep_exact truths predictions threshold
    (Ht : good_truths truths) (Hp : good_predictions predictions)
    (Hz : float_leb threshold zero = false) :
  match candidate_matches truths predictions threshold with
  | Ok found =>
      Z.of_nat (length (meeting_pairs truths predictions)) ≤ MAX_EVALUATION_CANDIDATES ∧
      found ≡ₚ map candidate_of
        (filter (λ tp, float_leb threshold (temporal_iou tp.1 tp.2) = true)
           (all_pairs truths predictions))
  | Err e =>
      MAX_EVALUATION_CANDIDATES < Z.of_nat (length (meeting_pairs truths predictions)) ∧
      e = EvaluationError "evaluation_limit_exceeded"
  end.
Proof. by apply found_candidates_perm. Qed.

Lemma good_truths_perm l l' : l ≡ₚ l' → good_truths l → good_truths l'.
Proof. intros Hp [Hn Hc]. split; [by rewrite <- Hp|]. intros t Ht. apply Hc. by rewrite Hp. Qed.
Lemma good_predictions_perm l l' : l ≡ₚ l' → good_predictions l → good_predictions l'.
Proof. intros Hp [Hn Hc]. split; [by rewrite <- Hp|]. intros t Ht. apply Hc. by rewrite Hp. Qed.

Definition by_id {A} (id : A → string) : list A → list A :=
  py_sorted (λ x y, String.leb (id x) (id y)).
Lemma by_id_perm {A} (id : A → string) l l' :
  NoDup (map id l) → l ≡ₚ l' → by_id id l = by_id id l'.
Proof.
  apply (py_sorted_key_perm String.leb id);
    [apply StringLeb_total|apply StringLeb_trans|apply StringLeb_antisym].
Qed.

(** An evaluation that returned: its candidates, and its report. *)
Lemma evaluation_run truths predictions threshold report :
  evaluate_items truths predictions threshold = Ok report →
  ∃ cs id, candidate_matches (by_id LabEpisode.episode_id truths)
      (by_id PredictedEpisode.prediction_id predictions) threshold = Ok cs ∧
    report = report_payload truths predictions threshold
      (py_sorted match_leb (map match_of (selected ∅ ∅ (py_sorted candidate_leb cs)))) id ∧
    EpisodeEvaluation.check report = Ok tt.
Proof.
  unfold evaluate_items.
  intros (u & _ & (cs & Hcs & (u2 & _ & (u3 & Hu & [= <-])%bind_Ok)%bind_Ok)%bind_Ok)%bind_Ok.
  eexists cs, _. split; [exact Hcs|]. split; [reflexivity|].
  unfold constructed in Hu. by destruct (EpisodeEvaluation.check _) as [[]|].
Qed.

(** C31. The matching is one-to-one and greedy: the matches of a report are, sorted
    by their identifiers, candidates no two of which share a label or a
    prediction, each of an overlap of at least the threshold; a pair that reaches
    the threshold is passed over only for a match that shares its label or its
    prediction and comes before it (a larger overlap, or an equal one and smaller
    identifiers); and the counts of the report are those of this matching. *)
Theorem matching_exact truths predictions threshold report
    (Ht : good_truths truths) (Hp : good_predictions predictions)
    (Hz : float_leb threshold zero = false)
    (H : evaluate_items truths predictions threshold = Ok report) :
  let n := Z.of_nat (length (EpisodeEvaluation.matches report)) in
  ∃ taken : list Candidate,
    EpisodeEvaluation.matches report = py_sorted match_leb (map match_of taken) ∧
    NoDup (map truth_id taken) ∧ NoDup (map prediction_id taken) ∧
    (∀ c, c ∈ taken → ∃ t p, t ∈ truths ∧ p ∈ predictions ∧ c = candidate_of (t, p) ∧
       float_leb threshold (temporal_iou t p) = true) ∧
    (∀ t p, t ∈ truths → p ∈ predictions → float_leb threshold (temporal_iou t p) = true →
       ∃ m, m ∈ taken ∧ clashes m (candidate_of (t, p)) ∧
         (m = candidate_of (t, p) ∨ candidate_leb m (candidate_of (t, p)) = true)) ∧
    EpisodeEvaluation.true_positives report = n ∧
    EpisodeEvaluation.false_positives report = Z.of_nat (length predictions) - n ∧
    EpisodeEvaluation.false_negatives report = Z.of_nat (length truths) - n.
Proof.
  apply evaluation_run in H as (cs & id & Hcs & -> & _). cbn.
  assert (by_id LabEpisode.episode_id truths ≡ₚ truths) as Hpt by apply py_sorted_perm.
  assert (by_id PredictedEpisode.prediction_id predictions ≡ₚ predictions) as Hpp by apply py_sorted_perm.
  pose proof (found_candidates_spec threshold _ _ cs (good_truths_perm _ _ (symmetry Hpt) Ht)
    (good_predictions_perm _ _ (symmetry Hpp) Hp) Hz Hcs) as Hin.
  destruct (selected_spec ∅ ∅ (py_sorted candidate_leb cs)) as (Hsel & Hst & Hsp).
  exists (selected ∅ ∅ (py_sorted candidate_leb cs)). split_and!; try done.
  - intros c [Hc _]%Hsel. rewrite elem_of_py_sorted in Hc. apply Hin in Hc as (t & p & Hti & Hpi & Hr).
    rewrite Hpt in Hti. rewrite Hpp in Hpi. by exists t, p.
  - intros t p Hti Hpi Hi. apply selected_first; [|rewrite elem_of_py_sorted; apply Hin|set_solver..].
    + apply Sorted_StronglySorted; [|apply py_sorted_Sorted, candidate_leb_total].
      intros a b c. rewrite !Is_true_true. apply candidate_leb_trans.
    + exists t, p. by rewrite Hpt, Hpp.
Qed.

(** The order of the input does not matter: two evaluations of the same
    episodes and predictions, however ordered, find the same matches, counts,
    precision, recall, f1 and mean overlap. *)
Theorem evaluation_order_irrelevant truths truths' predictions predictions' threshold report report'
    (Ht : good_truths truths) (Hp : good_predictions predictions)
    (Htp : truths ≡ₚ truths') (Hpp : predictions ≡ₚ predictions')
    (H : evaluate_items truths predictions threshold = Ok report)
    (H' : evaluate_items truths' predictions' threshold = Ok report') :
  EpisodeEvaluation.matches report = EpisodeEvaluation.matches report' ∧
  EpisodeEvaluation.true_positives report = EpisodeEvaluation.true_positives report' ∧
  EpisodeEvaluation.false_positives report = EpisodeEvaluation.false_positives report' ∧
  EpisodeEvaluation.false_negatives report = EpisodeEvaluation.false_negatives report' ∧
  EpisodeEvaluation.precision report = EpisodeEvaluation.precision report' ∧
  EpisodeEvaluation.recall report = EpisodeEvaluation.recall report' ∧
  EpisodeEvaluation.f1 report = EpisodeEvaluation.f1 report' ∧
  EpisodeEvaluation.mean_matched_iou report = EpisodeEvaluation.mean_matched_iou report'.
Proof.
  apply evaluation_run in H as (cs & id & Hcs & -> & _).
  apply evaluation_run in H' as (cs' & id' & Hcs' & -> & _).
  destruct Ht as [Ht _], Hp as [Hp _].
  rewrite (by_id_perm _ _ _ Ht Htp), (by_id_perm _ _ _ Hp Hpp) in Hcs.
  rewrite Hcs in Hcs'. injection Hcs' as <-. cbn.
  by rewrite (Permutation_length Htp), (Permutation_length Hpp).
Qed.
End props.
