(* ===== verification/LabIntervals.v ===== *)
(** * Durations: merged intervals and what two lists of them have in common

    The duration metrics count seconds of merged intervals.  Merging covers what
    the intervals cover with intervals that do not touch, and the two pointers
    find exactly the instants that two merged lists share, each once. *)

From Stdlib Require Import Ascii String.
From S2P Require Import Prelude PyStr Json Models.
From S2P Require Import PyEq.
From S2P Require Import Rules.
From S2P Require Import RuleResolution.
From S2P Require Import LabEpisodes.
From S2P Require Import LabEvaluation.
From S2P Require Import LabSweep.

(** An instant lies in a half-open interval; a list of intervals covers it. *)
Definition within (t : Z) (a : Z * Z) : Prop := a.1 ≤ t < a.2.
Definition covers (l : list (Z * Z)) (t : Z) : Prop := ∃ a, a ∈ l ∧ within t a.
(** Nonempty intervals, each strictly after the one before. *)
Fixpoint separated (l : list (Z * Z)) : Prop :=
  match l with
  | [] => True
  | a :: l => a.1 < a.2 ∧ (∀ b, b ∈ l → a.2 < b.1) ∧ separated l
  end.
(** No instant lies in two of the intervals. *)
Fixpoint disjoint_parts (l : list (Z * Z)) : Prop :=
  match l with
  | [] => True
  | a :: l => (∀ t, within t a → ¬ covers l t) ∧ disjoint_parts l
  end.

Lemma covers_nil t : ¬ covers [] t.
Proof. by intros (a & H%not_elem_of_nil & _). Qed.
Lemma covers_cons a l t : covers (a :: l) t ↔ within t a ∨ covers l t.
Proof.
  split.
  - intros (b & [->|Hb]%elem_of_cons & Ht); [by left|right; by exists b].
  - intros [H|(b & Hb & Ht)]; [exists a; split; [left|done]|exists b; split; [by right|done]].
Qed.

Lemma interval_leb_total a b : interval_leb a b = true ∨ interval_leb b a = true.
Proof. unfold interval_leb. rewrite !orb_true_iff, !andb_true_iff, !Z.ltb_lt, !Z.eqb_eq, !Z.leb_le. lia. Qed.
Lemma interval_leb_trans a b c :
  interval_leb a b = true → interval_leb b c = true → interval_leb a c = true.
Proof. unfold interval_leb. rewrite !orb_true_iff, !andb_true_iff, !Z.ltb_lt, !Z.eqb_eq, !Z.leb_le. lia. Qed.
Lemma interval_leb_start a b : interval_leb a b = true → a.1 ≤ b.1.
Proof. unfold interval_leb. rewrite !orb_true_iff, !andb_true_iff, !Z.ltb_lt, !Z.eqb_eq, !Z.leb_le. lia. Qed.

(** ** Merging *)

Lemma merge_from_spec l last :
  last.1 < last.2 → (∀ a, a ∈ l → last.1 ≤ a.1 ∧ a.1 < a.2) → StronglySorted interval_leb l →
  separated (merge_from last l) ∧
  (∀ t, covers (merge_from last l) t ↔ within t last ∨ covers l t) ∧
  (∀ a, a ∈ merge_from last l → last.1 ≤ a.1).
Proof.
  intros Hl Ha Hs. revert last Hl Ha.
  induction Hs as [|a l Hs IH Hf]; intros last Hl Ha; cbn [merge_from].
  - split_and!.
    + cbn. split; [done|]. split; [by intros b ?%not_elem_of_nil|done].
    + intros t. by rewrite covers_cons.
    + intros a ->%list_elem_of_singleton. lia.
  - assert (∀ b, b ∈ l → a.1 ≤ b.1 ∧ b.1 < b.2) as Hal.
    { intros b Hb. rewrite Forall_forall in Hf. specialize (Hf b Hb).
      apply Is_true_true, interval_leb_start in Hf. split; [done|]. apply Ha. by right. }
    destruct (Ha a ltac:(left)) as [Hla Hne]. destruct (Z.ltb_spec last.2 a.1) as [Hgap|Hmeet].
    + destruct (IH a Hne Hal) as (Hsep & Hcov & Hlow). split_and!.
      * cbn. split_and!; [done| |done]. intros b Hb%Hlow. lia.
      * intros t. rewrite !covers_cons, Hcov. done.
      * intros b [->|Hb%Hlow]%elem_of_cons; lia.
    + destruct (IH (last.1, Z.max last.2 a.2)) as (Hsep & Hcov & Hlow); cbn; [lia| |].
      { intros b Hb. destruct (Hal b Hb). lia. }
      split_and!; [done| |done]. intros t. rewrite Hcov, covers_cons. unfold within. cbn.
      destruct (Z.max_spec last.2 a.2); intuition lia.
Qed.

Lemma covers_sorted l t : covers (py_sorted interval_leb l) t ↔ covers l t.
Proof. unfold covers. by setoid_rewrite elem_of_py_sorted. Qed.

Lemma merge_spec l :
  (∀ a, a ∈ l → a.1 < a.2) →
  separated (merge l) ∧ ∀ t, covers (merge l) t ↔ covers l t.
Proof.
  intros Hl. unfold merge.
  assert (StronglySorted interval_leb (py_sorted interval_leb l)) as Hs.
  { apply Sorted_StronglySorted; [|apply py_sorted_Sorted, interval_leb_total].
    intros a b c. rewrite !Is_true_true. apply interval_leb_trans. }
  setoid_rewrite <- (covers_sorted l).
  assert (∀ a, a ∈ py_sorted interval_leb l → a.1 < a.2) as Hl'
    by (intros a; rewrite elem_of_py_sorted; apply Hl).
  destruct (py_sorted interval_leb l) as [|a m]; [done|]. apply StronglySorted_inv in Hs as [Hs Hf].
  destruct (merge_from_spec m a) as (Hsep & Hcov & _); [apply Hl'; left| |done|].
  - intros b Hb. rewrite Forall_forall in Hf. specialize (Hf b Hb).
    apply Is_true_true, interval_leb_start in Hf. split; [done|]. apply Hl'. by right.
  - split; [done|]. intros t. by rewrite Hcov, covers_cons.
Qed.

(** ** Two pointers *)

Lemma within_common t a b : within t (common a b) ↔ within t a ∧ within t b.
Proof. unfold within, common. cbn. lia. Qed.

Lemma separated_after a l t : separated (a :: l) → covers l t → a.2 < t.
Proof. intros (_ & H & _) (b & Hb%H & [Hbt _]). lia. Qed.

Lemma overlaps_spec xs ys :
  separated xs → separated ys →
  (∀ t, covers (overlaps xs ys) t ↔ covers xs t ∧ covers ys t) ∧ disjoint_parts (overlaps xs ys).
Proof.
  revert ys. induction xs as [|x xs IHx]; intros ys Hx Hy.
  { cbn. split; [|done]. intros t. split; [by intros ?%covers_nil|by intros [?%covers_nil _]]. }
  induction ys as [|y ys IHy].
  { cbn. split; [|done]. intros t. split; [by intros ?%covers_nil|by intros [_ ?%covers_nil]]. }
  pose proof (separated_after x xs) as Hxa. pose proof (separated_after y ys) as Hya.
  destruct Hx as (Hx1 & Hx2 & Hx3), Hy as (Hy1 & Hy2 & Hy3).
  change (overlaps (x :: xs) (y :: ys)) with
    (common x y :: if x.2 <=? y.2 then overlaps xs (y :: ys) else overlaps (x :: xs) ys).
  destruct (Z.leb_spec x.2 y.2) as [Hle|Hgt].
  - destruct (IHx (y :: ys)) as [Hc Hd]; [done|done|]. split.
    + intros t. rewrite covers_cons, Hc, within_common, !covers_cons.
      specialize (Hya t ltac:(done)). unfold within in *.
      split; [tauto|]. intros [[H|H] [H'|H']]; try tauto. specialize (Hya H'). lia.
    + cbn. split; [|done]. intros t [Ht _]%within_common [H _]%Hc.
      specialize (Hxa t ltac:(done) H). unfold within in Ht. lia.
  - destruct IHy as [Hc Hd]; [done|]. split.
    + intros t. rewrite covers_cons, Hc, within_common, !covers_cons.
      specialize (Hxa t ltac:(done)). unfold within in *.
      split; [tauto|]. intros [[H|H] [H'|H']]; try tauto. specialize (Hxa H). lia.
    + cbn. split; [|done]. intros t [_ Ht]%within_common [_ H]%Hc.
      specialize (Hya t ltac:(done) H). unfold within in Ht. lia.
Qed.

(** ** The groups *)

Lemma next_such_key {K V} `{EqDecision K} (f : K → V) (ks : list K) k :
  next_such (λ g : K * V, bool_decide (g.1 = k)) (map (λ k, (k, f k)) ks) =
  if decide (k ∈ ks) then Some (k, f k) else None.
Proof.
  unfold next_such. induction ks as [|k' ks IH]; cbn.
  - by rewrite decide_False by apply not_elem_of_nil.
  - case_bool_decide as H; [subst; by rewrite decide_True by left|]. rewrite IH.
    destruct (decide (k ∈ ks)); [by rewrite decide_True by (by right)|].
    rewrite decide_False; [done|]. by intros [?|?]%elem_of_cons.
Qed.

Lemma intervals_of_merged {A} (group : A → string * string) (interval : A → Z * Z) episodes g :
  intervals_of g (merged_intervals group interval episodes) =
  merge (map interval (filter (λ e, group e = g) episodes)).
Proof.
  unfold intervals_of, merged_intervals, grouped_by. rewrite map_map. cbn.
  rewrite (next_such_key (λ k, merge (map interval (filter (λ e, group e = k) episodes)))).
  case_decide as Hg; [done|]. cbn. rewrite elem_of_distinct in Hg.
  assert (filter (λ e, group e = g) episodes = []) as ->; [|done].
  destruct (filter _ episodes) as [|e l] eqn:E; [done|]. exfalso. apply Hg.
  assert (e ∈ filter (λ e, group e = g) episodes) as He by (rewrite E; left).
  apply list_elem_of_filter in He as [<- He]. by apply list_elem_of_fmap_2.
Qed.

Section durations.
Context {A : Type} (group : A → string * string) (interval : A → Z * Z) (episodes : list A).
Hypothesis ordered : ∀ e, e ∈ episodes → (interval e).1 < (interval e).2.
Lemma merged_spec g :
  let l := intervals_of g (merged_intervals group interval episodes) in
  separated l ∧
  ∀ t, covers l t ↔ ∃ e, e ∈ episodes ∧ group e = g ∧ within t (interval e).
Proof.
  cbn. rewrite intervals_of_merged.
  destruct (merge_spec (map interval (filter (λ e, group e = g) episodes))) as [Hs Hc].
  { intros a (e & -> & [_ He]%list_elem_of_filter)%list_elem_of_fmap. by apply ordered. }
  split; [done|]. intros t. rewrite Hc. unfold covers. split.
  - intros (a & (e & -> & [Hg He]%list_elem_of_filter)%list_elem_of_fmap & Ht). by exists e.
  - intros (e & He & Hg & Ht). exists (interval e). split; [|done].
    apply list_elem_of_fmap_2. by apply list_elem_of_filter.
Qed.
Lemma merged_groups g :
  g ∈ map fst (merged_intervals group interval episodes) ↔ ∃ e, e ∈ episodes ∧ group e = g.
Proof.
  unfold merged_intervals, grouped_by. rewrite !map_map. cbn. rewrite map_id, elem_of_distinct.
  rewrite list_elem_of_fmap. naive_solver.
Qed.
End durations.

Section exact.
Context `{R : Runtime} (truths : list LabEpisode.t) (predictions : list PredictedEpisode.t).

(** C32. Durations are exact: for episodes and predictions that the models accept,
    the merged intervals of a resource and label are separated by gaps and cover
    just the instants that some episode (or prediction) of that resource and
    label covers; and the parts whose lengths are summed as the overlap are, for
    some resource and label, instants that both cover, every such instant in
    one part and no more. *)
Theorem durations_exact
    (Ht : ∀ t, t ∈ truths → LabEpisode.check t = Ok tt)
    (Hp : ∀ p, p ∈ predictions → PredictedEpisode.check p = Ok tt) :
  let merged_truth := merged_intervals truth_group truth_interval truths in
  let merged_prediction := merged_intervals prediction_group prediction_interval predictions in
  let xs g := intervals_of g merged_truth in
  let ys g := intervals_of g merged_prediction in
  (∀ g, separated (xs g) ∧ separated (ys g) ∧
    (∀ t, covers (xs g) t ↔ ∃ e, e ∈ truths ∧ truth_group e = g ∧ within t (truth_interval e)) ∧
    (∀ t, covers (ys g) t ↔
       ∃ p, p ∈ predictions ∧ prediction_group p = g ∧ within t (prediction_interval p)) ∧
    (∀ t, covers (overlaps (xs g) (ys g)) t ↔ covers (xs g) t ∧ covers (ys g) t) ∧
    disjoint_parts (overlaps (xs g) (ys g))) ∧
  ∃ groups, NoDup groups ∧
    common_parts merged_truth merged_prediction =
      List.concat (map (λ g, overlaps (xs g) (ys g)) groups) ∧
    ∀ g, g ∈ groups ↔ (∃ e, e ∈ truths ∧ truth_group e = g) ∧
                       (∃ p, p ∈ predictions ∧ prediction_group p = g).
Proof.
  intros merged_truth merged_prediction xs ys. split.
  - intros g.
    destruct (merged_spec truth_group truth_interval truths (λ t H, truth_interval_ordered t (Ht t H)) g)
      as [Hs Hc].
    destruct (merged_spec prediction_group prediction_interval predictions
      (λ p H, prediction_interval_ordered p (Hp p H)) g) as [Hs' Hc'].
    destruct (overlaps_spec _ _ Hs Hs'). done.
  - eexists. split; [|split; [reflexivity|]].
    + rewrite py_sorted_perm. apply NoDup_ListNoDup, List.NoDup_filter, NoDup_ListNoDup.
      unfold merged_truth, merged_intervals, grouped_by. rewrite !map_map. cbn. rewrite map_id.
      apply NoDup_distinct.
    + intros g. rewrite elem_of_py_sorted, list_elem_of_In, filter_In, bool_decide_eq_true.
      rewrite <- list_elem_of_In. unfold merged_truth, merged_prediction. by rewrite !merged_groups.
Qed.
End exact.
