(* ===== verification/LabSamples.v ===== *)
(** * Samples of an evaluation

    Two cells, three labelled intervals, four predictions: the evaluation of
    them, and the theorems of [LabEvaluationProps] and [LabIntervals] at it. *)

From Stdlib Require Import Ascii String.
From S2P Require Import Prelude PyStr Json Reference Models.
From S2P Require Import PyEq.
From S2P Require Import Detector.
From S2P Require Import PyFormat.
From S2P Require Import LabEpisodes.
From S2P Require Import LabEvaluation.
From S2P Require Import LabSweep.
From S2P Require Import LabEvaluationProps.
From S2P Require Import LabIntervals.

#[local] Existing Instance quick.

Definition hex_of (n : nat) (c : ascii) : string := string_of_list_ascii (repeat c n).
Definition cell_1 : string := "lab:lte:cell:" +:+ hex_of 24 "1".
Definition cell_2 : string := "lab:lte:cell:" +:+ hex_of 24 "2".
Definition artifact : string := hex_of 64 "a".
Definition observation : string := "labobs-" +:+ hex_of 64 "b".
Definition at_second (s : Z) : Z := 1700000000000000 + s * 1000000.

(** A labelled interval from one second to another, both included. *)
Definition labelled (cell : string) (first last : Z) : LabEpisode.t :=
  let draft id := LabEpisode.mk id "set" "1" artifact cell EPISODE_LABEL (at_second first)
    (at_second last) (last - first + 1) observation observation in
  draft (stable_content_id "truth" (LabEpisode.identity (draft EmptyString))).
Definition predicted (cell : string) (n first last : Z) : PredictedEpisode.t :=
  let draft id := PredictedEpisode.mk id "set" "1" artifact n cell EPISODE_LABEL (at_second first)
    (at_second last) (at_second (last + 5)) "detector" (PyFloat false 1 0) ["rsrp.mean"%string] in
  draft (stable_content_id "pred" (PredictedEpisode.identity (draft EmptyString))).

Definition truths : list LabEpisode.t :=
  [labelled cell_1 0 59; labelled cell_1 100 159; labelled cell_2 0 9].
Definition predictions : list PredictedEpisode.t :=
  [predicted cell_1 1 10 69; predicted cell_1 2 0 49; predicted cell_1 3 100 159; predicted cell_2 4 50 59].
Definition half : pyfloat := PyFloat false 1 (-1).

Lemma truths_good : good_truths truths.
Proof.
  split; [apply (bool_decide_eq_true_1 _); vm_compute; reflexivity|].
  apply Forall_forall. repeat constructor; vm_compute; reflexivity.
Qed.
Lemma predictions_good : good_predictions predictions.
Proof.
  split; [apply (bool_decide_eq_true_1 _); vm_compute; reflexivity|].
  apply Forall_forall. repeat constructor; vm_compute; reflexivity.
Qed.

(** What the report says: matches, counts, and the metrics as they are printed. *)
Definition summary (r : result error EpisodeEvaluation.t) :=
  match r with
  | Ok e => Some (length (EpisodeEvaluation.matches e), EpisodeEvaluation.true_positives e,
      EpisodeEvaluation.false_positives e, EpisodeEvaluation.false_negatives e,
      map format_4f [ EpisodeEvaluation.precision e; EpisodeEvaluation.recall e;
        EpisodeEvaluation.duration_precision e; EpisodeEvaluation.duration_recall e;
        EpisodeEvaluation.mean_matched_iou e])
  | Err _ => None
  end.
Definition sequence {A} (item : A → Item) (l : list A) : Argument := Sequence (map (Some ∘ item) l).
Example evaluated :
  summary (evaluate_episodes (sequence Truth truths) (sequence Prediction predictions) (JFloat half)) =
  Some (2%nat, 2, 2, 1, ["0.5000"; "0.6667"; "0.8571"; "0.9231"; "0.9167"]%string).
Proof. vm_compute. reflexivity. Qed.
(** Labels in the place of predictions, and a threshold that is not one. *)
Example labels_are_not_predictions :
  evaluate_episodes (sequence Truth truths) (sequence Truth truths) (JFloat half) =
  Err (EvaluationError "evaluation_type_confusion").
Proof. vm_compute. reflexivity. Qed.
Example threshold_too_large :
  evaluate_episodes (sequence Truth truths) (sequence Prediction predictions) (JInt 2) =
  Err (EvaluationError "evaluation_invalid_input").
Proof. vm_compute. reflexivity. Qed.
(** Nothing to find and nothing found is a perfect score. *)
Example nothing : summary (evaluate_episodes (Sequence []) (Sequence []) (JInt 1)) =
  Some (0%nat, 0, 0, 0, ["1.0000"; "1.0000"; "1.0000"; "1.0000"; "1.0000"]%string).
Proof. vm_compute. reflexivity. Qed.

Lemma sweep_exact_witness :
  ∃ found, candidate_matches truths predictions half = Ok found ∧ length found = 3%nat.
Proof.
  pose proof (sweep_exact truths predictions half truths_good predictions_good eq_refl) as H.
  assert (length (filter (λ tp, float_leb half (temporal_iou tp.1 tp.2) = true)
    (all_pairs truths predictions)) = 3%nat) as Hl by (vm_compute; reflexivity).
  assert ((Z.of_nat (length (meeting_pairs truths predictions)) <=? MAX_EVALUATION_CANDIDATES) = true)
    as Hm%Z.leb_le by (vm_compute; reflexivity).
  destruct (candidate_matches truths predictions half) as [found|e]; [|lia].
  exists found. split; [done|]. destruct H as [_ Hp]. apply Permutation_length in Hp.
  rewrite Hp, length_map. exact Hl.
Defined.

Lemma evaluation_returns ts ps :
  is_ok (evaluate_items ts ps half) = true → ∃ report, evaluate_items ts ps half = Ok report.
Proof. destruct (evaluate_items ts ps half) as [r|]; [by exists r|done]. Qed.

Lemma matching_exact_witness :
  ∃ report, evaluate_items truths predictions half = Ok report ∧
    EpisodeEvaluation.false_positives report =
      4 - Z.of_nat (length (EpisodeEvaluation.matches report)).
Proof.
  destruct (evaluation_returns truths predictions) as [report E]; [vm_compute; reflexivity|].
  exists report. split; [exact E|].
  destruct (matching_exact truths predictions half report truths_good predictions_good eq_refl E)
    as (taken & _ & _ & _ & _ & _ & _ & H & _). exact H.
Defined.

Lemma evaluation_order_irrelevant_witness :
  ∃ report report', evaluate_items truths predictions half = Ok report ∧
    evaluate_items (rev truths) (rev predictions) half = Ok report' ∧
    EpisodeEvaluation.matches report = EpisodeEvaluation.matches report'.
Proof.
  destruct (evaluation_returns truths predictions) as [report E]; [vm_compute; reflexivity|].
  destruct (evaluation_returns (rev truths) (rev predictions)) as [report' E'];
    [vm_compute; reflexivity|].
  exists report, report'. split; [exact E|split; [exact E'|]].
  apply (evaluation_order_irrelevant truths (rev truths) predictions (rev predictions) half report report'
    truths_good predictions_good (Permutation_rev _) (Permutation_rev _) E E').
Defined.

Lemma durations_exact_witness : let g := (cell_1, EPISODE_LABEL) in
  covers (overlaps (intervals_of g (merged_intervals truth_group truth_interval truths))
    (intervals_of g (merged_intervals prediction_group prediction_interval predictions)))
    (at_second 55).
Proof.
  destruct (durations_exact truths predictions (proj2 truths_good) (proj2 predictions_good)) as [H _].
  destruct (H (cell_1, EPISODE_LABEL)) as (_ & _ & Ht & Hp & Hc & _). apply Hc. split.
  - apply Ht. exists (labelled cell_1 0 59). split; [left|]. vm_compute. repeat split; done.
  - apply Hp. exists (predicted cell_1 1 10 69). split; [left|]. vm_compute. repeat split; done.
Defined.
