(* ===== verification/BusinessBoundary.v ===== *)
(** * One business operation at a time (telco_assurance_agent/business_boundary.py)

    [LocalBusinessOperationBoundary] runs one operation at a time on a worker
    thread of its own; [LocalHttpRequestAdmission] admits one HTTP request at a
    time, and none while an operation is still unknown.  The critical sections
    of the two locks are the atomic steps; callers, the worker threads and the
    callbacks of futures interleave between them in any order.

    Threads, their event loops, futures, callers, requests and tokens are
    numbers; a thread and its loop have the same number. *)

From S2P Require Import Prelude.
From stdpp Require Import relations.

(** ** [LocalHttpRequestAdmission] *)

(** [_active_token], the [_token] of each lease, and the next new object. *)
Record Admission := mk_admission {
  active_token : option nat;
  leases : gmap nat (option nat);
  next_token : nat
}.
Definition admission_is_busy (a : Admission) : bool := isSome (active_token a).

(** [_release]. *)
Definition release_token (token : nat) (a : Admission) : Admission :=
  if bool_decide (active_token a = Some token)
  then mk_admission None (leases a) (next_token a) else a.
(** [_LocalHttpRequestLease.release]. *)
Definition release (lease : nat) (a : Admission) : Admission :=
  match leases a !! lease with
  | Some (Some token) =>
      release_token token (mk_admission (active_token a) (<[lease := None]> (leases a)) (next_token a))
  | _ => a
  end.

(** ** [LocalBusinessOperationBoundary] *)

(** Where a worker thread is in [_worker_main]: just started; [_loop] set;
    [_ready] set and [run_forever]; [loop.close()] done; at its end. *)
Inductive Phase := Created | Published | Serving | LoopClosed | Exited.
#[export] Instance phase_eq_dec : EqDecision Phase.
Proof. solve_decision. Defined.
(** The worker: [_loop], [_thread], [_ready], [_stopped]; the threads, the loops
    asked to stop, and the next new thread. *)
Record Worker := mk_worker {
  loop : option nat;
  thread : option nat;
  ready : bool;
  stopped : bool;
  threads : gmap nat Phase;
  stop_requested : gset nat;
  next_thread : nat
}.
(** The operation in flight: [_inflight], [_idle]; the futures not done, each with
    the loop it runs on, those done whose callback [_clear_inflight] has not run;
    the next new future. *)
Record Flight := mk_flight {
  inflight : option nat;
  idle : bool;
  running : gmap nat nat;
  pending : gset nat;
  next_future : nat
}.
(** Where a caller of [run] is. *)
Inductive Caller :=
| Starting
| Waiting
| Submitting (l : nat)
| Awaiting (f : nat)
| Refused
| Failed
| TimedOut (f : nat)
| Returned (f : nat).
#[export] Instance caller_eq_dec : EqDecision Caller.
Proof. solve_decision. Defined.
Record Boundary := mk_boundary {
  closed : bool;
  start_lock : option nat;
  worker : Worker;
  flight : Flight;
  callers : gmap nat Caller
}.

(** [inflight is None or inflight.done()]. *)
Definition settled (b : Boundary) : bool :=
  match inflight (flight b) with
  | None => true
  | Some f => isNone (running (flight b) !! f)
  end.
(** [is_busy], [is_accepting_work]. *)
Definition is_busy (b : Boundary) : bool := negb (settled b).
Definition is_accepting_work (b : Boundary) : bool := negb (closed b) && settled b.

Definition at_ (c : nat) (pc : Caller) (b : Boundary) : Boundary :=
  mk_boundary (closed b) (start_lock b) (worker b) (flight b) (<[c := pc]> (callers b)).
Definition with_worker (w : Worker) (b : Boundary) : Boundary :=
  mk_boundary (closed b) (start_lock b) w (flight b) (callers b).
Definition with_flight (f : Flight) (b : Boundary) : Boundary :=
  mk_boundary (closed b) (start_lock b) (worker b) f (callers b).
Definition with_lock (l : option nat) (b : Boundary) : Boundary :=
  mk_boundary (closed b) l (worker b) (flight b) (callers b).
(** [loop.call_soon_threadsafe(loop.stop)]. *)
Definition request_stop (l : option nat) (w : Worker) : Worker :=
  match l with
  | None => w
  | Some l => mk_worker (loop w) (thread w) (ready w) (stopped w) (threads w)
                ({[l]} ∪ stop_requested w) (next_thread w)
  end.
Definition in_phase (t : nat) (p : Phase) (w : Worker) : Worker :=
  mk_worker (loop w) (thread w) (ready w) (stopped w) (<[t := p]> (threads w)) (stop_requested w)
    (next_thread w).
(** [thread.is_alive()]; a closed loop takes no operation. *)
Definition is_alive (t : nat) (w : Worker) : bool :=
  match threads w !! t with None | Some Exited => false | Some _ => true end.
Definition loop_is_closed (l : nat) (w : Worker) : bool :=
  match threads w !! l with Some (LoopClosed | Exited) => true | _ => false end.

(** The loop, when the worker that owns it can be used. *)
Definition usable_loop (w : Worker) : option nat :=
  match loop w, thread w with
  | Some l, Some t => if is_alive t w then Some l else None
  | _, _ => None
  end.

(** [_ensure_worker], under [_start_lock]: the test for closing and for a worker. *)
Definition ensure (c : nat) (b : Boundary) : option Boundary :=
  match callers b !! c, start_lock b with
  | None, None =>
      Some (if closed b then at_ c Refused b
            else with_lock (Some c)
                   (at_ c (if isSome (usable_loop (worker b)) then Waiting else Starting) b))
  | _, _ => None
  end.
(** The new thread. *)
Definition start (c : nat) (b : Boundary) : option Boundary :=
  match callers b !! c with
  | Some Starting =>
      let w := worker b in
      let t := next_thread w in
      Some (at_ c Waiting (with_worker
        (mk_worker None (Some t) false false (<[t := Created]> (threads w)) (stop_requested w) (S t)) b))
  | _ => None
  end.
(** [_worker_main] sets [_loop], and then [_ready]. *)
Definition publish (t : nat) (b : Boundary) : option Boundary :=
  let w := worker b in
  if bool_decide (threads w !! t = Some Created)
  then Some (with_worker (in_phase t Published
              (mk_worker (Some t) (thread w) (ready w) (stopped w) (threads w) (stop_requested w)
                 (next_thread w))) b)
  else None.
Definition signal (t : nat) (b : Boundary) : option Boundary :=
  let w := worker b in
  if bool_decide (threads w !! t = Some Published)
  then Some (with_worker (in_phase t Serving
              (mk_worker (loop w) (thread w) true (stopped w) (threads w) (stop_requested w)
                 (next_thread w))) b)
  else None.
(** The wait for [_ready] ends, with it or without it. *)
Definition proceed (c : nat) (in_time : bool) (b : Boundary) : option Boundary :=
  match callers b !! c with
  | Some Waiting =>
      if in_time && negb (ready (worker b)) then None
      else Some (with_lock None (at_ c
             (match usable_loop (worker b) with
              | Some l => if in_time then Submitting l else Refused
              | None => Refused
              end) b))
  | _ => None
  end.

(** [_submit], under [_state_lock]. *)
Definition submit (c : nat) (b : Boundary) : option Boundary :=
  match callers b !! c with
  | Some (Submitting l) =>
      let fl := flight b in
      let f := next_future fl in
      Some (if negb (is_accepting_work b) then at_ c Refused b
            else if loop_is_closed l (worker b)
            then at_ c Failed
                   (with_flight (mk_flight None true (running fl) (pending fl) (next_future fl)) b)
            else at_ c (Awaiting f)
                   (with_flight (mk_flight (Some f) false (<[f := l]> (running fl)) (pending fl) (S f)) b))
  | _ => None
  end.
(** The operation ends; then its callback [_clear_inflight] runs. *)
Definition complete (f : nat) (b : Boundary) : option Boundary :=
  let fl := flight b in
  match running fl !! f with
  | Some l =>
      if bool_decide (threads (worker b) !! l = Some Serving)
      then Some (with_flight (mk_flight (inflight fl) (idle fl) (delete f (running fl))
                   ({[f]} ∪ pending fl) (next_future fl)) b)
      else None
  | None => None
  end.
Definition clear_inflight (f : nat) (b : Boundary) : option Boundary :=
  let fl := flight b in
  if bool_decide (f ∈ pending fl) then
    let rest := pending fl ∖ {[f]} in
    Some (if bool_decide (inflight fl = Some f)
          then with_worker
                 (if closed b then request_stop (loop (worker b)) (worker b) else worker b)
                 (with_flight (mk_flight None true (running fl) rest (next_future fl)) b)
          else with_flight (mk_flight (inflight fl) (idle fl) (running fl) rest (next_future fl)) b)
  else None.
(** [run]: the deadline passes, or the result is there. *)
Definition time_out (c : nat) (b : Boundary) : option Boundary :=
  match callers b !! c with Some (Awaiting f) => Some (at_ c (TimedOut f) b) | _ => None end.
Definition finish (c : nat) (b : Boundary) : option Boundary :=
  match callers b !! c with
  | Some (Awaiting f) =>
      if isSome (running (flight b) !! f) then None else Some (at_ c (Returned f) b)
  | _ => None
  end.

(** [close], under [_state_lock]. *)
Definition close (b : Boundary) : Boundary :=
  mk_boundary true (start_lock b)
    (if settled b then request_stop (loop (worker b)) (worker b) else worker b)
    (flight b) (callers b).
(** A loop asked to stop: [loop.close()], then the end of [_worker_main]. *)
Definition close_loop (t : nat) (b : Boundary) : option Boundary :=
  let w := worker b in
  if bool_decide (t ∈ stop_requested w ∧ threads w !! t = Some Serving)
  then Some (with_worker (in_phase t LoopClosed w) b)
  else None.
Definition exit_thread (t : nat) (b : Boundary) : option Boundary :=
  let w := worker b in
  if bool_decide (threads w !! t = Some LoopClosed)
  then Some (with_worker (in_phase t Exited
              (mk_worker (if bool_decide (loop w = Some t) then None else loop w) (thread w) false true
                 (threads w) (stop_requested w) (next_thread w))) b)
  else None.

(** ** The system *)

(** Where an HTTP request is: admitted with a lease, refused, or over. *)
Inductive Request := Holding (lease : nat) | Busy | Over (lease : nat).
#[export] Instance request_eq_dec : EqDecision Request.
Proof. solve_decision. Defined.
Record State := mk_state {
  admission : Admission;
  boundary : Boundary;
  requests : gmap nat Request
}.

(** [try_acquire(operation_boundary=...)], by a new request. *)
Definition try_acquire (r : nat) (with_boundary : bool) (s : State) : option State :=
  let a := admission s in
  match requests s !! r with
  | None =>
      Some (if isSome (active_token a)
               || with_boundary && negb (is_accepting_work (boundary s))
            then mk_state a (boundary s) (<[r := Busy]> (requests s))
            else let t := next_token a in
                 mk_state (mk_admission (Some t) (<[t := Some t]> (leases a)) (S t)) (boundary s)
                   (<[r := Holding t]> (requests s)))
  | Some _ => None
  end.
(** The end of a request releases its lease; releasing it again is possible. *)
Definition leave (r : nat) (s : State) : option State :=
  match requests s !! r with
  | Some (Holding lease | Over lease) =>
      Some (mk_state (release lease (admission s)) (boundary s) (<[r := Over lease]> (requests s)))
  | _ => None
  end.

Inductive Action :=
| TryAcquire (r : nat) (with_boundary : bool)
| Leave (r : nat)
| Ensure (c : nat)
| Start (c : nat)
| Publish (t : nat)
| Signal (t : nat)
| Proceed (c : nat) (in_time : bool)
| Submit (c : nat)
| Complete (f : nat)
| ClearInflight (f : nat)
| TimeOut (c : nat)
| Finish (c : nat)
| Close
| CloseLoop (t : nat)
| ExitThread (t : nat).

Definition on_boundary (f : Boundary → option Boundary) (s : State) : option State :=
  (λ b, mk_state (admission s) b (requests s)) <$> f (boundary s).
(** What an action does, if it can be done. *)
Definition act (a : Action) : State → option State :=
  match a with
  | TryAcquire r with_boundary => try_acquire r with_boundary
  | Leave r => leave r
  | Ensure c => on_boundary (ensure c)
  | Start c => on_boundary (start c)
  | Publish t => on_boundary (publish t)
  | Signal t => on_boundary (signal t)
  | Proceed c in_time => on_boundary (proceed c in_time)
  | Submit c => on_boundary (submit c)
  | Complete f => on_boundary (complete f)
  | ClearInflight f => on_boundary (clear_inflight f)
  | TimeOut c => on_boundary (time_out c)
  | Finish c => on_boundary (finish c)
  | Close => on_boundary (λ b, Some (close b))
  | CloseLoop t => on_boundary (close_loop t)
  | ExitThread t => on_boundary (exit_thread t)
  end.
Fixpoint acts (l : list Action) (s : State) : option State :=
  match l with [] => Some s | a :: l => act a s ≫= acts l end.

(** A new boundary and a new admission. *)
Definition initial : State :=
  mk_state (mk_admission None ∅ 0)
    (mk_boundary false None (mk_worker None None false true ∅ ∅ 0) (mk_flight None true ∅ ∅ 0) ∅) ∅.
Inductive reachable : State → Prop :=
| reachable_initial : reachable initial
| reachable_act s a s' : reachable s → act a s = Some s' → reachable s'.
