(* ===== verification/BusinessBoundaryProps.v ===== *)
(** * Single flight, shutdown, and admission

    In every interleaving at most one operation runs, on a loop that is neither
    stopped nor closed; a boundary that is closing accepts nothing, interrupts
    nothing, and stops its worker when the last operation is over; and at most
    one HTTP request holds a lease. *)

From S2P Require Import Prelude.
From S2P Require Import BusinessBoundary.

(** ** The invariant of the boundary *)

(** What holds of a caller: its loop was published; nobody got an operation that
    could not be submitted; what it waits for was submitted, and a result is that
    of an operation that is over. *)
Definition caller_ok (b : Boundary) (pc : Caller) : Prop :=
  match pc with
  | Submitting l => ∃ p, threads (worker b) !! l = Some p ∧ p ≠ Created
  | Failed => False
  | Awaiting f | TimedOut f => (f < next_future (flight b))%nat
  | Returned f => (f < next_future (flight b))%nat ∧ running (flight b) !! f = None
  | _ => True
  end.
Record boundary_ok (b : Boundary) : Prop := {
  b_running : ∀ f l, running (flight b) !! f = Some l →
    inflight (flight b) = Some f ∧ (f < next_future (flight b))%nat ∧ (f ∉ pending (flight b)) ∧
    (l ∉ stop_requested (worker b)) ∧ ∃ p, threads (worker b) !! l = Some p ∧ (p = Published ∨ p = Serving);
  b_pending : ∀ f, f ∈ pending (flight b) → (f < next_future (flight b))%nat;
  b_stop : ∀ t, t ∈ stop_requested (worker b) → closed b = true ∧ running (flight b) = ∅;
  b_closed : ∀ t, loop_is_closed t (worker b) = true → t ∈ stop_requested (worker b);
  b_idle : idle (flight b) = true ↔ inflight (flight b) = None;
  b_inflight : ∀ f, inflight (flight b) = Some f →
    (f < next_future (flight b))%nat ∧ (is_Some (running (flight b) !! f) ∨ f ∈ pending (flight b));
  b_loop : ∀ l, loop (worker b) = Some l → ∃ p, threads (worker b) !! l = Some p ∧ p ≠ Created;
  b_callers : ∀ c pc, callers b !! c = Some pc → caller_ok b pc;
  b_threads : ∀ t p, threads (worker b) !! t = Some p → (t < next_thread (worker b))%nat
}.

(** Nothing runs when the operation in flight is over. *)
Lemma settled_idle b : boundary_ok b → settled b = true → running (flight b) = ∅.
Proof.
  intros Hb Hs. apply map_empty. intros f. destruct (running (flight b) !! f) as [l|] eqn:E; [|done].
  unfold settled in Hs. destruct (b_running b Hb _ _ E) as [Hf _]. by rewrite Hf, E in Hs.
Qed.
Lemma open_no_stop b : boundary_ok b → closed b = false → stop_requested (worker b) = ∅.
Proof.
  intros Hb Hc. apply set_eq. intros t. split; [|set_solver]. intros Ht.
  destruct (b_stop b Hb t Ht). congruence.
Qed.

(** ** Every step of the boundary keeps it *)

Lemma at_ok c pc b : boundary_ok b → caller_ok b pc → boundary_ok (at_ c pc b).
Proof.
  intros [] Hpc. constructor; try done. cbn. intros c' pc'.
  destruct (decide (c = c')) as [<-|]; [rewrite lookup_insert_eq; by intros [= ->]|].
  rewrite lookup_insert_ne by done. intros H%b_callers0. by destruct pc'.
Qed.
(** Callers stay right when published loops stay published, futures are only
    added, and what was over stays over. *)
Lemma caller_mono b b' pc :
  (∀ l p, threads (worker b) !! l = Some p → p ≠ Created →
    ∃ p', threads (worker b') !! l = Some p' ∧ p' ≠ Created) →
  (next_future (flight b) ≤ next_future (flight b'))%nat →
  (∀ f, (f < next_future (flight b))%nat → running (flight b) !! f = None →
    running (flight b') !! f = None) →
  caller_ok b pc → caller_ok b' pc.
Proof.
  intros Ht Hn Hr. destruct pc; cbn; try done; try lia.
  - intros (p & Hp & ?). eauto.
  - intros [? ?]. split; [lia|eauto].
Qed.
Lemma caller_same b b' pc :
  threads (worker b') = threads (worker b) → next_future (flight b') = next_future (flight b) →
  running (flight b') = running (flight b) → caller_ok b pc → caller_ok b' pc.
Proof. intros Ht Hn Hr. destruct pc; cbn; by rewrite ?Ht, ?Hn, ?Hr. Qed.
(** The phase of one thread changes to one that is published. *)
Lemma caller_phase b b' t q pc :
  threads (worker b') = <[t := q]> (threads (worker b)) → q ≠ Created →
  flight b' = flight b → caller_ok b pc → caller_ok b' pc.
Proof.
  intros Ht Hq Hf. apply caller_mono; rewrite ?Hf; try done. intros l p Hl Hp. rewrite Ht.
  destruct (decide (t = l)) as [<-|]; [rewrite lookup_insert_eq; eauto|].
  rewrite lookup_insert_ne by done. eauto.
Qed.
Lemma lock_ok l b : boundary_ok b → boundary_ok (with_lock l b).
Proof. by intros []. Qed.

(** A thread that moves on, from a phase in which it is not closed. *)
Lemma phase_ok t p w b :
  boundary_ok b → threads (worker b) !! t = Some p → p = Created ∨ p = Published →
  ∀ q, q = Published ∨ q = Serving →
  threads w = threads (worker b) → stop_requested w = stop_requested (worker b) →
  next_thread w = next_thread (worker b) → (loop w = loop (worker b) ∨ loop w = Some t) →
  boundary_ok (with_worker (in_phase t q w) b).
Proof.
  intros [] Ht Hp q Hq Hth Hst Hn Hl. constructor; cbn; rewrite ?Hth, ?Hst, ?Hn; try done.
  - intros f l H. destruct (b_running0 f l H) as (? & ? & ? & ? & p' & Hp' & ?). split_and!; try done.
    destruct (decide (t = l)) as [<-|]; [rewrite lookup_insert_eq; eauto|].
    rewrite lookup_insert_ne; eauto.
  - intros l. unfold loop_is_closed. cbn. rewrite Hth.
    destruct (decide (t = l)) as [<-|]; [rewrite lookup_insert_eq; by destruct Hq as [->| ->]|].
    rewrite lookup_insert_ne by done. apply b_closed0.
  - intros l Hl'. destruct (decide (t = l)) as [<-|].
    { rewrite lookup_insert_eq. exists q. split; [done|]. by destruct Hq as [->| ->]. }
    rewrite lookup_insert_ne by done. apply b_loop0. destruct Hl; congruence.
  - intros c pc H. apply (caller_phase b _ t q); cbn; [by rewrite Hth| |done|eauto].
    by destruct Hq as [->| ->].
  - intros l p'. destruct (decide (t = l)) as [<-|]; [eauto|]. rewrite lookup_insert_ne by done. eauto.
Qed.

Lemma ensure_ok c b b' : boundary_ok b → ensure c b = Some b' → boundary_ok b'.
Proof.
  intros Hb. unfold ensure. destruct (callers b !! c), (start_lock b); try done. intros [= <-].
  destruct (closed b); [by apply at_ok|]. apply lock_ok, at_ok; [done|].
  by destruct (isSome _).
Qed.
Lemma start_ok c b b' : boundary_ok b → start c b = Some b' → boundary_ok b'.
Proof.
  intros Hb. unfold start. destruct (callers b !! c) as [[]|]; try done. intros [= <-].
  apply at_ok; [|done]. destruct Hb. set (t := next_thread (worker b)).
  assert (∀ l p, threads (worker b) !! l = Some p → l ≠ t) as Hne.
  { intros l p H%b_threads0. unfold t. lia. }
  constructor; cbn; try done.
  - intros f l H. destruct (b_running0 f l H) as (? & ? & ? & ? & p & Hp & ?). split_and!; try done.
    exists p. rewrite lookup_insert_ne; [done|]. by apply not_eq_sym, (Hne _ _ Hp).
  - intros l. unfold loop_is_closed. cbn. destruct (decide (t = l)) as [<-|].
    { by rewrite lookup_insert_eq. }
    rewrite lookup_insert_ne by done. apply b_closed0.
  - intros c' pc H. apply (caller_mono b); cbn; [|done..|eauto]. intros l p Hp ?. exists p.
    rewrite lookup_insert_ne; [done|]. by apply not_eq_sym, (Hne _ _ Hp).
  - intros l p. destruct (decide (t = l)) as [<-|]; [intros _; lia|].
    rewrite lookup_insert_ne by done. intros H%b_threads0. unfold t in *. lia.
Qed.
Lemma publish_ok t b b' : boundary_ok b → publish t b = Some b' → boundary_ok b'.
Proof.
  intros Hb. unfold publish. case_bool_decide as Ht; [|done]. intros [= <-].
  eapply phase_ok; eauto.
Qed.
Lemma signal_ok t b b' : boundary_ok b → signal t b = Some b' → boundary_ok b'.
Proof.
  intros Hb. unfold signal. case_bool_decide as Ht; [|done]. intros [= <-].
  eapply phase_ok; eauto.
Qed.
Lemma proceed_ok c i b b' : boundary_ok b → proceed c i b = Some b' → boundary_ok b'.
Proof.
  intros Hb. unfold proceed. destruct (callers b !! c) as [[]|]; try done.
  destruct (i && negb (ready (worker b))); [done|]. intros [= <-]. apply lock_ok, at_ok; [done|].
  unfold usable_loop. destruct (loop (worker b)) as [l|] eqn:El; [|done].
  destruct (thread (worker b)); [|done]. destruct (is_alive _ _); [|done]. destruct i; [|done].
  by apply b_loop.
Qed.
Lemma submit_ok c b b' : boundary_ok b → submit c b = Some b' → boundary_ok b'.
Proof.
  intros Hb. unfold submit. destruct (callers b !! c) as [[| |l| | | | |]|] eqn:Ec; try done. intros [= <-].
  unfold is_accepting_work. destruct (closed b) eqn:Hcl; cbn; [by apply at_ok|].
  destruct (settled b) eqn:Hs; cbn; [|by apply at_ok].
  pose proof (settled_idle b Hb Hs) as Hr. pose proof (open_no_stop b Hb Hcl) as Hst.
  destruct (loop_is_closed l (worker b)) eqn:Hl.
  { apply b_closed in Hl; [|done]. rewrite Hst in Hl. set_solver. }
  destruct Hb. apply at_ok; [|cbn; lia]. constructor; cbn; try done.
  - intros f l'. rewrite Hr. destruct (decide (f = next_future (flight b))) as [->|].
    + rewrite lookup_insert_eq. intros [= <-]. split_and!; [done|lia| |by rewrite Hst|].
      * intros H%b_pending0. lia.
      * destruct (b_callers0 c _ Ec) as (p & Hp & Hne). exists p. split; [done|].
        unfold loop_is_closed in Hl. rewrite Hp in Hl. destruct p; auto; done.
    + rewrite lookup_insert_ne, lookup_empty by done. done.
  - intros f H%b_pending0. lia.
  - intros t. rewrite Hst. set_solver.
  - intros f [= <-]. split; [lia|]. left. rewrite lookup_insert_eq. eauto.
  - intros c' pc H. apply (caller_mono b); cbn; eauto. intros f ? ?.
    rewrite lookup_insert_ne by lia. done.
Qed.
Lemma complete_ok f b b' : boundary_ok b → complete f b = Some b' → boundary_ok b'.
Proof.
  intros Hb. unfold complete. destruct (running (flight b) !! f) as [l|] eqn:E; [|done].
  case_bool_decide as Hph; [|done]. intros [= <-].
  destruct Hb. constructor; cbn; try done.
  - intros g m. rewrite lookup_delete_Some. intros [Hne H]. destruct (b_running0 g m H) as (Hg & ?).
    destruct (b_running0 f l E) as (Hf & _). congruence.
  - intros g [->%elem_of_singleton|Hg]%elem_of_union; [by apply b_running0 in E as (_ & ? & _)|eauto].
  - intros t [Hc Hr]%b_stop0. rewrite Hr in E. done.
  - intros g Hg. destruct (b_inflight0 g Hg) as (Hlt & _). split; [done|].
    destruct (decide (f = g)) as [->|]; [right; set_solver|].
    destruct (b_running0 f l E) as (Hf & _). congruence.
  - intros c pc H. apply (caller_mono b); cbn; eauto. intros g ? ?. by apply lookup_delete_None; auto.
Qed.
Lemma clear_ok f b b' : boundary_ok b → clear_inflight f b = Some b' → boundary_ok b'.
Proof.
  intros Hb. unfold clear_inflight. case_bool_decide as Hp; [|done]. intros [= <-].
  assert (inflight (flight b) = Some f → running (flight b) = ∅) as Hnone.
  { intros Hf. apply map_empty. intros g. destruct (running (flight b) !! g) as [l|] eqn:E; [|done].
    destruct (b_running b Hb g l E) as (Hg & _ & Hn & _). congruence. }
  case_bool_decide as Hf.
  - specialize (Hnone Hf). destruct Hb.
    assert (∀ w, stop_requested w = stop_requested (worker b) ∨
        (closed b = true ∧ stop_requested (worker b) ⊆ stop_requested w) →
      loop w = loop (worker b) → threads w = threads (worker b) → next_thread w = next_thread (worker b) →
      boundary_ok (with_worker w (with_flight (mk_flight None true (running (flight b))
        (pending (flight b) ∖ {[f]}) (next_future (flight b))) b))) as H.
    { intros w Hw Hlo Hth Hn. constructor; cbn; rewrite ?Hlo, ?Hth, ?Hn, ?Hnone; try done.
      - intros g. rewrite elem_of_difference. intros [? _]. eauto.
      - intros t Ht. split; [|done]. destruct Hw as [Hw|[? _]]; [|done].
        rewrite Hw in Ht. by destruct (b_stop0 t Ht).
      - intros t Ht. unfold loop_is_closed in Ht. rewrite Hth in Ht. apply b_closed0 in Ht.
        destruct Hw as [->|[_ Hw]]; [done|by apply Hw].
      - intros c pc Hpc. apply (caller_same b); cbn; [done|done| |by eapply b_callers0]. by rewrite Hnone. }
    destruct (closed b) eqn:Hc; [|by apply H; auto].
    destruct (loop (worker b)) as [l|] eqn:El; cbn; apply H; cbn; auto; right; set_solver.
  - destruct Hb. constructor; cbn; try done.
    + intros g l H. destruct (b_running0 g l H) as (? & ? & ? & ? & ?). split_and!; try done. set_solver.
    + intros g [? _]%elem_of_difference. eauto.
    + intros g Hg. destruct (b_inflight0 g Hg) as (? & [?|?]); split; auto. right.
      apply elem_of_difference. split; [done|]. intros ->%elem_of_singleton. done.
Qed.
Lemma time_out_ok c b b' : boundary_ok b → time_out c b = Some b' → boundary_ok b'.
Proof.
  intros Hb. unfold time_out. destruct (callers b !! c) as [[]|] eqn:Ec; try done. intros [= <-]. apply at_ok; [done|].
  by apply (b_callers b Hb) in Ec.
Qed.
Lemma finish_ok c b b' : boundary_ok b → finish c b = Some b' → boundary_ok b'.
Proof.
  intros Hb. unfold finish. destruct (callers b !! c) as [[]|] eqn:Ec; try done.
  destruct (running (flight b) !! f) eqn:Ef; [done|]. intros [= <-]. apply at_ok; [done|].
  by apply (b_callers b Hb) in Ec.
Qed.
Lemma close_ok b : boundary_ok b → boundary_ok (close b).
Proof.
  intros Hb. unfold close. destruct (settled b) eqn:Hs.
  - pose proof (settled_idle b Hb Hs) as Hr. destruct Hb. rewrite Hr in b_inflight0.
    destruct (loop (worker b)) as [l|] eqn:El; constructor; cbn; rewrite ?Hr, ?El; try done.
    intros t Ht. apply elem_of_union_r, b_closed0, Ht.
  - destruct Hb. constructor; cbn; try done. intros t [_ H]%b_stop0. done.
Qed.
Lemma close_loop_ok t b b' : boundary_ok b → close_loop t b = Some b' → boundary_ok b'.
Proof.
  intros Hb. unfold close_loop. case_bool_decide as Ht; [|done]. intros [= <-].
  destruct Ht as [Hst Ht]. destruct (b_stop b Hb t Hst) as [Hc Hr]. destruct Hb. rewrite Hr in b_inflight0.
  constructor; cbn; rewrite ?Hr; try done.
  - intros l. unfold loop_is_closed. cbn. destruct (decide (t = l)) as [<-|]; [done|].
    rewrite lookup_insert_ne by done. apply b_closed0.
  - intros l Hl. destruct (decide (t = l)) as [<-|]; [rewrite lookup_insert_eq; eauto|].
    rewrite lookup_insert_ne by done. eauto.
  - intros c pc H. eapply caller_phase; [done| |done|eauto]. done.
  - intros l p. destruct (decide (t = l)) as [<-|]; [eauto|]. rewrite lookup_insert_ne by done. eauto.
Qed.
Lemma exit_ok t b b' : boundary_ok b → exit_thread t b = Some b' → boundary_ok b'.
Proof.
  intros Hb. unfold exit_thread. case_bool_decide as Ht; [|done]. intros [= <-].
  assert (t ∈ stop_requested (worker b)) as Hst.
  { apply (b_closed b Hb). unfold loop_is_closed. by rewrite Ht. }
  destruct (b_stop b Hb t Hst) as [Hc Hr]. destruct Hb. rewrite Hr in b_inflight0.
  constructor; cbn; rewrite ?Hr; try done.
  - intros l. unfold loop_is_closed. cbn. destruct (decide (t = l)) as [<-|]; [done|].
    rewrite lookup_insert_ne by done. apply b_closed0.
  - intros l. case_bool_decide as Hl; [done|]. intros Hl'.
    destruct (decide (t = l)) as [<-|]; [done|]. rewrite lookup_insert_ne by done. eauto.
  - intros c pc H. eapply caller_phase; [done| |done|eauto]. done.
  - intros l p. destruct (decide (t = l)) as [<-|]; [eauto|]. rewrite lookup_insert_ne by done. eauto.
Qed.
