(* ===== verification/BusinessBoundaryRuns.v ===== *)
(** * The runs of the boundary

    Every reachable state keeps the invariant of the boundary and that of the
    admission; what follows from it for operations, for shutdown and for HTTP
    requests; concrete runs, one of which leaves a worker behind. *)

From S2P Require Import Prelude.
From S2P Require Import BusinessBoundary.
From S2P Require Import BusinessBoundaryProps.

(** ** The invariant of the admission *)

(** The lease of a request that got one; whether it is released. *)
Definition request_lease (r : Request) : option (nat * bool) :=
  match r with Holding l => Some (l, false) | Over l => Some (l, true) | Busy => None end.
Record admission_ok (s : State) : Prop := {
  a_lease : ∀ l tok, leases (admission s) !! l = Some tok →
    (l < next_token (admission s))%nat ∧ (tok = Some l ∨ tok = None);
  a_active : ∀ t, active_token (admission s) = Some t ↔ leases (admission s) !! t = Some (Some t);
  a_requests : ∀ r q l over, requests s !! r = Some q → request_lease q = Some (l, over) →
    leases (admission s) !! l = Some (if over then None else Some l);
  a_owner : ∀ l tok, leases (admission s) !! l = Some tok →
    ∃ r q over, requests s !! r = Some q ∧ request_lease q = Some (l, over);
  a_distinct : ∀ r1 q1 o1 r2 q2 o2 l, requests s !! r1 = Some q1 → request_lease q1 = Some (l, o1) →
    requests s !! r2 = Some q2 → request_lease q2 = Some (l, o2) → r1 = r2
}.

Lemma admission_same s b : admission_ok s → admission_ok (mk_state (admission s) b (requests s)).
Proof. by intros []. Qed.

Lemma try_acquire_ok r w s s' : admission_ok s → try_acquire r w s = Some s' → admission_ok s'.
Proof.
  intros []. unfold try_acquire. destruct (requests s !! r) eqn:Er; [done|]. intros [= <-].
  destruct (isSome (active_token (admission s)) || _) eqn:Hb.
  - constructor; cbn; try done.
    + intros r' q l o. rewrite lookup_insert_Some. intros [[<- <-]|[_ H]]; [done|eauto].
    + intros l tok H. destruct (a_owner0 l tok H) as (r' & q & o & Hq & Ho). exists r', q, o.
      split; [|done]. rewrite lookup_insert_ne; [done|]. congruence.
    + intros r1 q1 o1 r2 q2 o2 l. rewrite !lookup_insert_Some.
      intros [[<- <-]|[_ H1]] H1l [[<- <-]|[_ H2]] H2l; try done. by eapply a_distinct0.
  - apply orb_false_iff in Hb as [Hn _]. destruct (active_token (admission s)) eqn:Ha; [done|].
    set (t := next_token (admission s)).
    assert (leases (admission s) !! t = None) as Ht.
    { destruct (leases (admission s) !! t) eqn:E; [|done]. destruct (a_lease0 _ _ E). unfold t in *. lia. }
    assert (∀ r' q l o, requests s !! r' = Some q → request_lease q = Some (l, o) → l ≠ t) as Hne.
    { intros r' q l o Hq Hl ->. by rewrite (a_requests0 _ _ _ _ Hq Hl) in Ht. }
    constructor; cbn.
    + intros l tok. rewrite lookup_insert_Some. intros [[<- <-]|[_ H]]; [split; [lia|auto]|].
      destruct (a_lease0 _ _ H). split; [unfold t; lia|done].
    + intros l. rewrite lookup_insert_Some. split.
      * intros [= <-]. by left.
      * intros [[<- _]|[_ H]]; [done|]. apply a_active0 in H. done.
    + intros r' q l o. rewrite lookup_insert_Some. intros [[<- <-]|[_ H]] Hl.
      * injection Hl as <- <-. by rewrite lookup_insert_eq.
      * rewrite lookup_insert_ne; [eauto|]. by apply not_eq_sym, (Hne _ _ _ _ H Hl).
    + intros l tok. rewrite lookup_insert_Some. intros [[<- <-]|[_ H]].
      * exists r, (Holding t), false. by rewrite lookup_insert_eq.
      * destruct (a_owner0 l tok H) as (r' & q & o & Hq & Ho). exists r', q, o.
        split; [|done]. rewrite lookup_insert_ne; [done|]. congruence.
    + intros r1 q1 o1 r2 q2 o2 l. rewrite !lookup_insert_Some.
      intros [[<- <-]|[_ H1]] H1l [[<- <-]|[_ H2]] H2l; [done| | |by eapply a_distinct0].
      * injection H1l as <- _. by destruct (Hne _ _ _ _ H2 H2l).
      * injection H2l as <- _. by destruct (Hne _ _ _ _ H1 H1l).
Qed.

(** What releasing a lease does: its own token goes, no other. *)
Lemma release_fact s l : admission_ok s →
  leases (admission s) !! l = Some (Some l) →
  active_token (release l (admission s)) = None ∧
  leases (release l (admission s)) = <[l := None]> (leases (admission s)) ∧
  next_token (release l (admission s)) = next_token (admission s).
Proof.
  intros Ha Hl. unfold release, release_token. rewrite Hl. cbn.
  rewrite bool_decide_true; [done|]. by apply Ha.
Qed.
Lemma release_again s l : leases (admission s) !! l = Some None → release l (admission s) = admission s.
Proof. intros Hl. unfold release. by rewrite Hl. Qed.

Lemma leave_ok r s s' : admission_ok s → leave r s = Some s' → admission_ok s'.
Proof.
  intros Ha. pose proof Ha as []. unfold leave.
  destruct (requests s !! r) as [[l| |l]|] eqn:Er; try done; intros [= <-].
  - pose proof (a_requests0 _ _ l false Er eq_refl) as Hl.
    destruct (release_fact s l Ha Hl) as (Hat & Hle & Hnx).
    constructor; cbn; rewrite ?Hat, ?Hle, ?Hnx.
    + intros k tok. rewrite lookup_insert_Some. intros [[<- <-]|[_ H']]; [|eauto].
      split; [by destruct (a_lease0 _ _ Hl)|auto].
    + intros t. split; [done|]. rewrite lookup_insert_Some. intros [[_ ?]|[Hne H']]; [done|].
      apply a_active0 in H'. apply a_active0 in Hl. congruence.
    + intros r' q k o. rewrite lookup_insert_Some. intros [[<- <-]|[Hne H']] Hk.
      * injection Hk as <- <-. by rewrite lookup_insert_eq.
      * rewrite lookup_insert_ne; [eauto|]. intros <-. by destruct Hne; apply (a_distinct0 r (Holding l) false r' q o l).
    + intros k tok. rewrite lookup_insert_Some. intros [[<- <-]|[Hne H']].
      * exists r, (Over l), true. by rewrite lookup_insert_eq.
      * destruct (a_owner0 k tok H') as (r' & q & o & Hq & Ho). exists r', q, o. split; [|done].
        rewrite lookup_insert_ne; [done|]. intros <-. rewrite Er in Hq. injection Hq as <-. cbn in Ho. congruence.
    + intros r1 q1 o1 r2 q2 o2 k. rewrite !lookup_insert_Some.
      intros [[<- <-]|[Hn1 H1]] H1l [[<- <-]|[Hn2 H2]] H2l; [done| | |by eapply a_distinct0].
      * injection H1l as <- _. by apply (a_distinct0 r (Holding l) false r2 q2 o2 l).
      * injection H2l as <- _. by apply (a_distinct0 r1 q1 o1 r (Holding l) false l).
  - rewrite release_again; [|by apply (a_requests0 _ _ l true Er eq_refl)].
    rewrite insert_id by done. by destruct s.
Qed.

(** ** Reachable states *)

(** An action is one of the boundary's, with its invariant, or one of a request. *)
Lemma act_boundary a s s' :
  act a s = Some s' → boundary_ok (boundary s) → boundary_ok (boundary s').
Proof.
  intros H Hb. destruct a; cbn in H; unfold on_boundary in H;
    try (apply fmap_Some in H as (b & Hs & ->); cbn).
  - unfold try_acquire in H. destruct (requests s !! r); [done|]. injection H as <-. by destruct (_ || _).
  - unfold leave in H. destruct (requests s !! r) as [[]|]; try done; by injection H as <-.
  - by eapply ensure_ok.
  - by eapply start_ok.
  - by eapply publish_ok.
  - by eapply signal_ok.
  - by eapply proceed_ok.
  - by eapply submit_ok.
  - by eapply complete_ok.
  - by eapply clear_ok.
  - by eapply time_out_ok.
  - by eapply finish_ok.
  - injection H as <-. by apply close_ok.
  - by eapply close_loop_ok.
  - by eapply exit_ok.
Qed.
Lemma act_admission a s s' : act a s = Some s' → admission_ok s → admission_ok s'.
Proof.
  intros H Ha. destruct a; cbn in H; unfold on_boundary in H;
    try (apply fmap_Some in H as (b & Hs & ->); by apply admission_same).
  - by eapply try_acquire_ok.
  - by eapply leave_ok.
  - injection H as <-. by apply admission_same.
Qed.

Lemma reachable_ok s : reachable s → boundary_ok (boundary s) ∧ admission_ok s.
Proof.
  induction 1 as [|s a s' _ [IHb IHa] Ha].
  - split; constructor; cbn; try done; try set_solver.
  - split; [by eapply act_boundary|by eapply act_admission].
Qed.
Lemma acts_reachable l s s' : reachable s → acts l s = Some s' → reachable s'.
Proof.
  revert s. induction l as [|a l IH]; cbn; intros s Hs H; [by injection H as <-|].
  apply bind_Some in H as (s1 & H1 & H2). by eapply IH; [eapply reachable_act|].
Qed.

Lemma acts_app l m s : acts (l ++ m) s = acts l s ≫= acts m.
Proof.
  revert s. induction l as [|a l IH]; cbn; intros s; [done|]. destruct (act a s); cbn; [apply IH|done].
Qed.

(** ** One operation at a time *)

(** C33. In every interleaving of callers, worker threads and callbacks, at most
    one operation runs, and it is the one in flight, on a loop whose thread is at
    work and that nobody asked to stop; a submission is taken exactly when the
    boundary is open and nothing runs, and never fails for a closed loop; a
    result is returned only of an operation that is over. *)
Theorem single_flight s :
  reachable s →
  let b := boundary s in
  (∀ f g, is_Some (running (flight b) !! f) → is_Some (running (flight b) !! g) → f = g) ∧
  (∀ f l, running (flight b) !! f = Some l →
     is_busy b = true ∧ inflight (flight b) = Some f ∧ (l ∉ stop_requested (worker b)) ∧
     (threads (worker b) !! l = Some Published ∨ threads (worker b) !! l = Some Serving)) ∧
  (running (flight b) ≠ ∅ → is_busy b = true) ∧
  (∀ c l, callers b !! c = Some (Submitting l) →
     let f := next_future (flight b) in
     callers <$> submit c b =
       Some (<[c := if is_accepting_work b then Awaiting f else Refused]> (callers b)) ∧
     (running ∘ flight) <$> submit c b =
       Some (if is_accepting_work b then {[f := l]} else running (flight b))) ∧
  (∀ c, callers b !! c ≠ Some Failed) ∧
  (∀ c f, callers b !! c = Some (Returned f) → running (flight b) !! f = None).
Proof.
  intros Hs. destruct (reachable_ok s Hs) as [Hb _]. set (b := boundary s) in *.
  assert (∀ f l, running (flight b) !! f = Some l → is_busy b = true ∧ inflight (flight b) = Some f ∧
     (l ∉ stop_requested (worker b)) ∧
     (threads (worker b) !! l = Some Published ∨ threads (worker b) !! l = Some Serving)) as Hrun.
  { intros f l H. destruct (b_running b Hb f l H) as (Hf & _ & _ & Hl & p & Hp & Hpp).
    unfold is_busy, settled. rewrite Hf, H. split_and!; [done..|]. destruct Hpp; subst; auto. }
  cbn. split_and!.
  - intros f g [? Hf] [? Hg]. apply Hrun in Hf as (_ & ? & _). apply Hrun in Hg as (_ & ? & _). congruence.
  - done.
  - intros (f & l & H)%map_choose. by apply Hrun in H as [? _].
  - intros c l Hc. pose proof (submit_ok c b) as Hsub. unfold submit in *. rewrite Hc in *. cbn.
    destruct (is_accepting_work b) eqn:Ha; cbn in *; [|done].
    destruct (loop_is_closed l (worker b)) eqn:Hl; cbn in *.
    + specialize (Hsub _ Hb eq_refl). destruct (b_callers _ Hsub c Failed). cbn. by rewrite lookup_insert_eq.
    + unfold is_accepting_work in Ha. apply andb_true_iff in Ha as [_ Ha].
      by rewrite (settled_idle b Hb Ha).
  - intros c Hc. by apply (b_callers b Hb) in Hc.
  - intros c f Hc. by apply (b_callers b Hb) in Hc as [_ ?].
Qed.

(** ** Shutdown *)

(** Take apart what an action does. *)
Ltac take_apart H :=
  cbn in H; unfold on_boundary in H; try (apply fmap_Some in H as (? & H & ->));
  unfold try_acquire, leave, ensure, start, publish, signal, proceed, submit, complete, clear_inflight,
    time_out, finish, close, close_loop, exit_thread, is_accepting_work in H;
  repeat (case_match || case_bool_decide); simplify_eq/=.

(** Only [_submit] starts an operation, and only [complete] ends one. *)
Lemma act_running a s s' :
  act a s = Some s' →
  running (flight (boundary s')) = running (flight (boundary s)) ∨
  (∃ f, a = Complete f ∧ running (flight (boundary s')) = delete f (running (flight (boundary s)))) ∨
  (∃ c, a = Submit c ∧ closed (boundary s) = false).
Proof.
  intros H. destruct a; take_apart H; auto; right; eauto. right. exists c. split; [done|].
  by destruct (closed (boundary s)).
Qed.
Lemma act_closed a s s' :
  act a s = Some s' → closed (boundary s) = true → closed (boundary s') = true.
Proof. intros H Hc. destruct a; take_apart H; congruence. Qed.
Lemma shutdown_lasts l s s' :
  acts l s = Some s' → closed (boundary s) = true → closed (boundary s') = true.
Proof.
  revert s. induction l as [|a l IH]; cbn; intros s H Hc; [by injection H as <-|].
  apply bind_Some in H as (s1 & H1 & H2). by eapply IH; [|eapply act_closed].
Qed.

(** C34. Shutdown interrupts nothing and admits nothing: once the boundary is
    closed, whatever happens, it stays closed, no operation is added, one that is
    no longer there has ended by itself, and a loop is asked to stop only when
    nothing runs; every submission and every HTTP request that asks is refused. *)
Theorem shutdown_safe l s s' :
  reachable s → closed (boundary s) = true → acts l s = Some s' →
  closed (boundary s') = true ∧
  (∀ f k, running (flight (boundary s')) !! f = Some k → running (flight (boundary s)) !! f = Some k) ∧
  (∀ f, is_Some (running (flight (boundary s)) !! f) → running (flight (boundary s')) !! f = None →
     Complete f ∈ l) ∧
  (∀ t, t ∈ stop_requested (worker (boundary s')) → running (flight (boundary s')) = ∅) ∧
  (∀ c k, callers (boundary s') !! c = Some (Submitting k) →
     submit c (boundary s') = Some (at_ c Refused (boundary s'))) ∧
  (∀ r, requests s' !! r = None →
     requests <$> try_acquire r true s' = Some (<[r := Busy]> (requests s'))).
Proof.
  revert s. induction l as [|a l IH]; cbn; intros s Hs Hc H.
  - injection H as <-. destruct (reachable_ok s Hs) as [Hb _]. split_and!; try done.
    + intros f [? Hf] Hn. congruence.
    + intros t Ht. by apply (b_stop _ Hb t).
    + intros c k Hk. unfold submit, is_accepting_work. by rewrite Hk, Hc.
    + intros r Hr. unfold try_acquire, is_accepting_work. by rewrite Hr, Hc, orb_true_r.
  - apply bind_Some in H as (s1 & H1 & H2).
    destruct (IH s1) as (? & Hsub & Hend & ?); [by eapply reachable_act|by eapply act_closed|done|].
    split_and!; try apply H0; try done.
    + intros f k Hf%Hsub. destruct (act_running _ _ _ H1) as [<-|[(g & _ & Hr)|(c & _ & ?)]]; [done| |congruence].
      rewrite Hr, lookup_delete_Some in Hf. by destruct Hf.
    + intros f Hf Hn. destruct (act_running _ _ _ H1) as [Hr|[(g & -> & Hr)|(c & _ & ?)]]; [| |congruence].
      * right. apply Hend; [by rewrite Hr|done].
      * destruct (decide (f = g)) as [->|]; [left|]. right. apply Hend; [|done].
        by rewrite Hr, lookup_delete_ne.
Qed.

(** The steps the worker threads take by themselves. *)
Definition worker_step (a : Action) : bool :=
  match a with
  | Signal _ | Complete _ | ClearInflight _ | CloseLoop _ | ExitThread _ => true
  | _ => false
  end.

(** A loop that was asked to stop is closed, and its thread ends. *)
Lemma stopping s t :
  loop (worker (boundary s)) = Some t → threads (worker (boundary s)) !! t = Some Serving →
  t ∈ stop_requested (worker (boundary s)) →
  ∃ s', acts [CloseLoop t; ExitThread t] s = Some s' ∧
    threads (worker (boundary s')) !! t = Some Exited ∧ loop (worker (boundary s')) = None ∧
    stopped (worker (boundary s')) = true ∧
    running (flight (boundary s')) = running (flight (boundary s)).
Proof.
  intros Hl Ht Hst. cbn. unfold on_boundary, close_loop. rewrite bool_decide_true by done. cbn.
  unfold exit_thread. cbn. rewrite lookup_insert_eq, bool_decide_true by done. cbn.
  eexists. split; [done|]. cbn. rewrite lookup_insert_eq, Hl, bool_decide_true by done. done.
Qed.

(** The operation in flight ends, and its callback asks the loop to stop. *)
Lemma ending s f l t :
  running (flight (boundary s)) !! f = Some l → inflight (flight (boundary s)) = Some f →
  threads (worker (boundary s)) !! l = Some Serving → threads (worker (boundary s)) !! t = Some Serving →
  loop (worker (boundary s)) = Some t → closed (boundary s) = true →
  ∃ s', acts [Complete f; ClearInflight f] s = Some s' ∧ loop (worker (boundary s')) = Some t ∧
    threads (worker (boundary s')) !! t = Some Serving ∧ t ∈ stop_requested (worker (boundary s')).
Proof.
  intros Hr Hf Hl Ht Hlo Hc. cbn. unfold on_boundary, complete. rewrite Hr, bool_decide_true by done. cbn.
  unfold clear_inflight. cbn. rewrite bool_decide_true by set_solver. cbn.
  rewrite bool_decide_true by done. eexists. split; [done|]. cbn. rewrite Hc, Hlo. cbn.
  split_and!; [done..|set_solver].
Qed.

(** C35. Shutdown can always finish: when the worker the boundary knows is at work,
    closing leaves its threads able, by their own steps alone, to end the operation
    that runs, to stop the loop, and to exit. *)
Theorem shutdown_completes s t :
  reachable s → loop (worker (boundary s)) = Some t → threads (worker (boundary s)) !! t = Some Serving →
  ∃ steps s', forallb worker_step steps = true ∧ acts (Close :: steps) s = Some s' ∧
    threads (worker (boundary s')) !! t = Some Exited ∧ loop (worker (boundary s')) = None ∧
    stopped (worker (boundary s')) = true ∧ running (flight (boundary s')) = ∅ ∧
    closed (boundary s') = true.
Proof.
  intros Hs Hl Ht. destruct (reachable_ok s Hs) as [Hb _].
  assert (∀ pre s1, forallb worker_step pre = true → acts (Close :: pre) s = Some s1 →
    loop (worker (boundary s1)) = Some t → threads (worker (boundary s1)) !! t = Some Serving →
    t ∈ stop_requested (worker (boundary s1)) →
    ∃ steps s', forallb worker_step steps = true ∧ acts (Close :: steps) s = Some s' ∧
      threads (worker (boundary s')) !! t = Some Exited ∧ loop (worker (boundary s')) = None ∧
      stopped (worker (boundary s')) = true ∧ running (flight (boundary s')) = ∅ ∧
      closed (boundary s') = true) as Hend.
  { intros pre s1 Hpre H1 Hl1 Ht1 Hst1. destruct (stopping s1 t Hl1 Ht1 Hst1) as (s2 & H2 & ? & ? & ? & ?).
    assert (reachable s1) as Hs1 by by eapply acts_reachable.
    destruct (reachable_ok s1 Hs1) as [Hb1 _]. destruct (b_stop _ Hb1 t Hst1) as [Hc1 Hr1].
    exists (pre ++ [CloseLoop t; ExitThread t]), s2. rewrite forallb_app, Hpre. split_and!; try done.
    - change (Close :: pre ++ ?x) with ((Close :: pre) ++ x). by rewrite acts_app, H1.
    - congruence.
    - by apply (shutdown_lasts _ _ _ H2). }
  destruct (settled (boundary s)) eqn:Hset.
  - apply (Hend [] (mk_state (admission s) (close (boundary s)) (requests s)));
      try done; unfold close; rewrite Hset, Hl; [done..|set_solver].
  - unfold settled in Hset. destruct (inflight (flight (boundary s))) as [f|] eqn:Hf; [|done].
    destruct (running (flight (boundary s)) !! f) as [l|] eqn:Hr; [|done].
    destruct (b_running _ Hb f l Hr) as (_ & _ & _ & _ & p & Hp & Hpp).
    assert (∃ pre s1, forallb worker_step pre = true ∧ acts (Close :: pre) s = Some s1 ∧
      threads (worker (boundary s1)) !! l = Some Serving ∧ threads (worker (boundary s1)) !! t = Some Serving ∧
      loop (worker (boundary s1)) = Some t ∧ flight (boundary s1) = flight (boundary s) ∧
      closed (boundary s1) = true) as (pre & s1 & Hpre & H1 & Hl1 & Ht1 & Hlo1 & Hfl1 & Hc1).
    { destruct Hpp as [->| ->].
      - exists [Signal l]. eexists. split; [done|]. cbn. unfold on_boundary, close, settled, signal.
        rewrite Hf, Hr. cbn. rewrite bool_decide_true by done. cbn. split; [done|]. cbn.
        rewrite lookup_insert_eq, lookup_insert_ne by congruence. done.
      - exists []. eexists. split; [done|]. cbn. unfold close, settled. rewrite Hf, Hr. done. }
    destruct (ending s1 f l t) as (s2 & H2 & ? & ? & ?); try done; [congruence..|].
    apply (Hend (pre ++ [Complete f; ClearInflight f]) s2); try done.
    + by rewrite forallb_app, Hpre.
    + change (Close :: pre ++ ?x) with ((Close :: pre) ++ x). by rewrite acts_app, H1.
Qed.

(** ** HTTP requests *)

(** C36. At most one HTTP request holds a lease, exactly when the admission is
    busy; a new request is admitted exactly when none does and, if it asks, the
    boundary accepts work, so never while the outcome of an operation is unknown;
    the end of the one admitted frees the admission, and a lease released again
    changes nothing, whoever holds the admission by then. *)
Theorem admitted_alone s :
  reachable s →
  (∀ r1 r2 l1 l2, requests s !! r1 = Some (Holding l1) → requests s !! r2 = Some (Holding l2) → r1 = r2) ∧
  (admission_is_busy (admission s) = true ↔ ∃ r l, requests s !! r = Some (Holding l)) ∧
  (∀ r w, requests s !! r = None →
     ((∃ l s', try_acquire r w s = Some s' ∧ requests s' !! r = Some (Holding l)) ↔
      admission_is_busy (admission s) = false ∧
      (w = true → closed (boundary s) = false ∧ is_busy (boundary s) = false))) ∧
  (∀ r l, requests s !! r = Some (Holding l) →
     ∃ s', leave r s = Some s' ∧ admission_is_busy (admission s') = false) ∧
  (∀ r l, requests s !! r = Some (Over l) → leave r s = Some s).
Proof.
  intros Hs. destruct (reachable_ok s Hs) as [_ Ha].
  assert (∀ r l, requests s !! r = Some (Holding l) → active_token (admission s) = Some l) as Hact.
  { intros r l H. apply Ha. by apply (a_requests s Ha r _ l false H). }
  split_and!.
  - intros r1 r2 l1 l2 H1 H2. pose proof (Hact _ _ H1). pose proof (Hact _ _ H2).
    simplify_eq. by eapply (a_distinct s Ha r1 _ false r2 _ false _ H1 eq_refl H2).
  - unfold admission_is_busy. split.
    + destruct (active_token (admission s)) as [t|] eqn:E; [|done]. intros _.
      apply (a_active s Ha) in E as Hl. destruct (a_owner s Ha t _ Hl) as (r & q & o & Hq & Ho).
      pose proof (a_requests s Ha r q t o Hq Ho) as Hl'. rewrite Hl in Hl'. destruct o; [done|].
      exists r, t. destruct q; naive_solver.
    + intros (r & l & H). by rewrite (Hact _ _ H).
  - intros r w Hr. unfold try_acquire, admission_is_busy, is_accepting_work, is_busy. rewrite Hr. split.
    + intros (l & s' & [= <-] & H). destruct (isSome _); cbn in *; [by rewrite lookup_insert_eq in H|].
      destruct w; cbn in *; [|done]. destruct (closed _), (settled _); cbn in *; try done;
        by rewrite lookup_insert_eq in H.
    + intros [-> Hw]. cbn. destruct w; cbn.
      * destruct (Hw eq_refl) as [-> ->%negb_false_iff]. cbn. do 2 eexists. split; [done|].
        cbn. by rewrite lookup_insert_eq.
      * do 2 eexists. split; [done|]. cbn. by rewrite lookup_insert_eq.
  - intros r l H. unfold leave. rewrite H. eexists. split; [done|]. cbn.
    destruct (release_fact s l Ha (a_requests s Ha r _ l false H eq_refl)) as [Hn _].
    unfold admission_is_busy. by rewrite Hn.
  - intros r l H. unfold leave. rewrite H, release_again by apply (a_requests s Ha r _ l true H eq_refl).
    rewrite insert_id by done. by destruct s.
Qed.

(** ** Concrete runs *)

Definition after (l : list Action) : State := default initial (acts l initial).
Lemma after_reachable l : is_Some (acts l initial) → reachable (after l).
Proof.
  intros [s Hs]. unfold after. rewrite Hs. eapply acts_reachable; [apply reachable_initial|done].
Qed.
(** The first caller starts the worker and submits; a second uses the worker. *)
Definition first_call : list Action :=
  [TryAcquire 0 true; Ensure 0; Start 0; Publish 0; Signal 0; Proceed 0 true; Submit 0; TimeOut 0; Leave 0;
   Ensure 1; Proceed 1 true].
(** The caller passes the test for closing, then the boundary closes, then the
    thread starts. *)
Definition closed_while_starting : list Action :=
  [Ensure 0; Close; Start 0; Publish 0; Signal 0; Proceed 0 true; Submit 0].

Lemma single_flight_witness :
  is_busy (boundary (after first_call)) = true ∧
  requests (after (first_call ++ [TryAcquire 1 true])) !! 1%nat = Some Busy ∧
  callers (boundary (after (first_call ++ [Submit 1]))) !! 1%nat = Some Refused ∧
  (∀ f g, is_Some (running (flight (boundary (after first_call))) !! f) →
     is_Some (running (flight (boundary (after first_call))) !! g) → f = g).
Proof.
  split; [vm_compute; reflexivity|]. split; [vm_compute; reflexivity|]. split; [vm_compute; reflexivity|].
  apply (single_flight (after first_call)), after_reachable. vm_compute. eexists. reflexivity.
Defined.
Lemma shutdown_safe_witness :
  running (flight (boundary (after (first_call ++ [Close])))) !! 0%nat = Some 0%nat ∧
  Complete 0 ∈ [Complete 0; ClearInflight 0; CloseLoop 0].
Proof.
  split; [vm_compute; reflexivity|].
  apply (shutdown_safe _ (after (first_call ++ [Close]))
    (after (first_call ++ [Close; Complete 0; ClearInflight 0; CloseLoop 0]))).
  - apply after_reachable. vm_compute. eexists. reflexivity.
  - vm_compute. reflexivity.
  - vm_compute. reflexivity.
  - vm_compute. eexists. reflexivity.
  - vm_compute. reflexivity.
Defined.
Lemma shutdown_completes_witness :
  ∃ steps s', forallb worker_step steps = true ∧ acts (Close :: steps) (after first_call) = Some s' ∧
    threads (worker (boundary s')) !! 0%nat = Some Exited ∧ loop (worker (boundary s')) = None ∧
    stopped (worker (boundary s')) = true ∧ running (flight (boundary s')) = ∅ ∧
    closed (boundary s') = true.
Proof.
  apply (shutdown_completes (after first_call) 0).
  - apply after_reachable. vm_compute. eexists. reflexivity.
  - vm_compute. reflexivity.
  - vm_compute. reflexivity.
Defined.
Lemma admitted_alone_witness :
  requests (after (first_call ++ [Submit 1; Complete 0; TryAcquire 2 true; Leave 0])) !! 2%nat
    = Some (Holding 1) ∧
  leave 0%nat (after (first_call ++ [Submit 1; Complete 0; TryAcquire 2 true]))
    = Some (after (first_call ++ [Submit 1; Complete 0; TryAcquire 2 true])).
Proof.
  split; [vm_compute; reflexivity|].
  eapply (admitted_alone (after (first_call ++ [Submit 1; Complete 0; TryAcquire 2 true]))).
  - apply after_reachable. vm_compute. eexists. reflexivity.
  - vm_compute. reflexivity.
Defined.

(** A worker started while the boundary closes is left behind: nobody asked its
    loop to stop, its caller was refused, and no operation is in flight whose
    callback would ask. *)
Example worker_left_behind :
  let b := boundary (after closed_while_starting) in
  closed b = true ∧ callers b !! 0%nat = Some Refused ∧ threads (worker b) !! 0%nat = Some Serving ∧
  stop_requested (worker b) = ∅ ∧ inflight (flight b) = None ∧ pending (flight b) = ∅.
Proof. vm_compute. done. Qed.
